(* ===== verification/_CoqProject ===== *)
-Q . S2P
Prelude.v
FsInode.v
IdPool.v
FsTable.v
FsFiles.v
FsSpace.v
FsTheorems.v
MetaProto.v
MetaServer.v
MetaPlan.v
MetaInv.v
MetaSteps.v
MetaHandlers.v
MetaRpc.v
MetaSpec.v
MetaRefine.v
MetaFacts.v
MetaTheorems.v
MetaFaults.v
Rdma.v
RdmaLaws.v
RdmaTheorems.v
RdmaEquiv.v
RdmaWorkers.v
Queue.v
Config.v
MetaProcess.v
Wire.v
RdmaConn.v
RdmaConnLaws.v
RdmaConnUp.v
RdmaConnTheorems.v
RdmaConnStart.v
RdmaConnFaults.v
MetaClient.v
Client.v
ClientLaws.v
ClientTheorems.v
Storage.v
StartTheorems.v
Fuse.v
FuseTheorems.v
Debug.v
