(* ===== verification/Prelude.v ===== *)
(** * A verification development for SpongeBob, a distributed file system over RDMA

    ** The program

    A _metadata server_ (src/metadata/MetaServer.cpp, over src/fs/) keeps the directory, the inodes, the
    open descriptors and, for every _storage server_, the list of its free blocks.  It never touches
    file data: it answers a read or a write with a _plan_, the list of the pieces of storage memory
    that hold the bytes of the range.  A _client_ (src/client/Client.cpp) asks for the plan through the
    stub calls of src/metadata/MetaClient.cpp and moves the bytes itself with one-sided RDMA
    (src/net/RdmaSocket.cpp).  A FUSE process (src/fuse/spfuse.cpp) exposes the client as a file
    system.  Transfers of 4 MB or more are handed to worker threads through include/queue.h;
    src/net/Configuration.cpp maps node ids to addresses.

    ** The files

    - [Prelude]: fixed-width integers ([u64], [u16], [u8], [s32]), the outcome of a call ([Done] or a
      [Fault]: null dereference, index out of bounds, failed assert, deadlock, ...), the state monad
      [M] with [zoom] into a component, mutexes as a class, priority queues, and the calculus [wp]
      with its tactics [wp_auto] and [unwrap].
    - [FsInode]: [Dentry] and [Inode] of include/file.hpp and src/fs/file.cpp.  [FsTable]: [InodeTable],
      with its mutex, its heap of free numbers and the inodes behind [shared_ptr]s as a store of
      pointers.  [FsFiles]: [FileMap].  [FsSpace]: [SpaceManager].  [IdPool]: the class [IdPool] of a
      component that hands out numbers and takes them back, with its laws; the three allocators are
      instances.  [FsTheorems]: their theorems.
    - [MetaProto]: the messages of protos/spongebob.proto.  [MetaServer]: [MetadataServiceImpl], one
      definition per handler.  [MetaPlan]: what a plan means, and that the block loops compute it.
      [MetaInv]: the invariant of the service.  [MetaSteps], [MetaHandlers], [MetaRpc]: a [wp] rule for
      every operation and handler.  [MetaSpec]: the abstract file system.  [MetaRefine]: each handler
      implements it.  [MetaFacts], [MetaTheorems]: consequences, with a running example ([Demo]).
      [MetaFaults]: what happens outside the conditions of the refinement.
    - [MetaProcess]: [RunServer], the process of the metadata server.
    - [Wire]: the structs two nodes exchange, as bytes: the class [Layout] of a struct that can be
      sent, with its laws.  [Rdma]: the data plane of [RdmaSocket] over a class [Verbs] that stands for
      libibverbs.  [RdmaLaws]: what is assumed of a reliable connection ([VerbsLaws]: a request is
      carried out when its local range lies in the region of the local key and its remote range in
      the region the node registered under the remote key; nothing is assumed of any other), and the
      transfers proved from it.  [RdmaTheorems]: their theorems, and a device that keeps the laws
      ([Ideal]).  [RdmaEquiv]: the steps of one worker, put together.  [RdmaWorkers]: large transfers,
      with the two workers as interleaved steps.
    - [RdmaConn]: the control plane of [RdmaSocket] over the classes [VerbsCtl] and [Os]: the
      constructor, the device, queue pairs, the handshake, accepting, connecting and the destructor.
      [RdmaConnLaws]: what is assumed of the fabric ([FabricLaws]: who serves an address and a port,
      and which node a queue pair reaches through a port) and the rules of the handshake.
      [RdmaConnUp]: connections that are up, and the loops over the nodes and the clients.
      [RdmaConnTheorems]: their theorems, and a network that keeps the laws ([Net]).
      [RdmaConnStart]: the constructor.  [RdmaConnFaults]: failing, stopping, and errors.
    - [Queue]: the task queue without a lock, as interleaved steps in which overlapping accesses of the
      vector are a data race.  [Config]: the configuration tables.
    - [MetaClient]: the stub calls over a channel that may lose the request or the reply.  [Client]:
      [Client::read] and [Client::write].  [ClientLaws], [ClientTheorems]: what they move, end to end.
    - [Storage]: the storage server (src/storage/StorageServer.cpp, src/server/spongestorage.cpp) and
      the constructor of the client.  [StartTheorems]: processes that have started.
    - [Fuse], [FuseTheorems]: the operations of the FUSE process.  [Debug]: src/tools/debug.cpp.

    A definition has the name of the function it models; a member function is a computation over the
    record of the fields of its class.  A handler is whole: its guards, early returns and every call
    that changes state.  Printing and timing are left out.

    ** What is shown

    - Refinement ([serve_refines], [sessions_refine]): on calls that meet their conditions every handler
      returns, keeps the invariant, and behaves as an abstract file system that has only a map of
      files, a set of descriptors and the sizes of the servers.  From it: read your writes
      ([read_after_write]), isolation of files ([files_isolated], [writes_do_not_overlap]), that no
      session of a fresh server makes two files share a block or hands out one in use
      ([blocks_never_shared]), and that removal gives everything back ([remove_reclaims]).
    - End to end ([client_roundtrip], [client_write_isolated]): bytes that a client writes inside a block
      are the bytes a client reads, through the metadata, the staging pool and the fabric; and a write
      changes no byte of another file.
    - Starting: the constructor of the client connects it to every configured node
      ([started_client_ready], which gives the condition on the connections that [client_roundtrip]
      has), the storage server registers exactly the whole aligned blocks of its mapping
      ([storage_server_registers]), the metadata server listens where the clients dial ([server_listens_where_dialled]).
    - Connections: a client is up with every node ([client_connects]), a server gives its clients
      consecutive numbers ([server_numbers_clients]), and the two ends of a handshake end in the state
      ready to send, each towards the queue pairs of the other ([handshake_agrees]).  On a
      host whose device works, the constructor establishes the invariant they start from
      ([start_ready]); the structs of the handshake lie on the wire where the alignment rule puts their
      members, and are read back as they were sent ([structs_on_the_wire]).
    - Transfers ([remote_write_places], [remote_read_fetches], [batch_write_chain]); a worker that is not
      disturbed moves the bytes of its task and reports it ([worker_alone_transfers]).  The queue
      ([queue_fifo], by induction on the interleaved steps of its two threads: free of races and in
      order when a push waits for the tasks before it, as in RdmaSocket, and in order up to the
      first race otherwise, which [queue_races] shows to be possible; [queue_drains]: the consumer
      gets every task that was pushed, in a number of its own steps that is given).
    - Allocators ([inode_numbers_unique], [descriptors_unique], [blocks_unique], [allocate_space],
      [allocate_reclaim_roundtrip], [region_geometry]).
    - Error paths, as the code has them: crashes and deadlocks of the metadata server on calls that do
      not meet the conditions (a missing file, a read past the end, no server, no room, a full table,
      a server registered twice), a write that truncates, transfers over several blocks or over 4 MB
      that move the wrong bytes or lose some ([remote_write_drops_tail], which also has a schedule in
      which the other bytes arrive), an error of the completion queue that is not seen, replies
      that are lost, and the results FUSE is given.  Of connections: a start that fails and is used
      ([failed_start_faults], [unmapped_pool_registered]), a message that arrives in parts
      ([partial_transfers_trusted]), a peer that hangs up ([connect_hangs_on_eof]), the thousandth
      client ([thousandth_client_overruns]), the destructor of a server ([destroy_server_faults]).

    ** Bounds and fuel

    The block loops of the handlers get one round more than the file has blocks;
    [block_loops_terminate] shows that the loops end by their own counter, after as many rounds as whole
    blocks are left to move or at the end of the file, and that the fuel is never too little, for any
    state and request.  The loops over a transfer get two rounds more than it has full pools, and the
    theorems on transfers show a result.  A polling loop waits for the device; a statement about it holds from some patience on
    ([ev]), which is the number of polls [VerbsLaws] grants plus one.  The workers of a large transfer
    take as many steps as the schedule gives them; what is said of them holds for every number.
    A loop that reads from a socket has a patience too: one round is enough where the messages arrive
    whole ([FabricLaws]), and [connect_hangs_on_eof] holds for any number.  The loop of [RdmaAccept]
    ends only when accept fails: [server_numbers_clients] says what its first rounds do.

    ** What is not modelled

    libibverbs, gRPC, libfuse, Boost, the system calls and [rand] are parameters with their documented
    behaviour as hypotheses.  [std::hash] is an arbitrary function on names ([StringHash]): files are
    identified by the hash, as in the code.  Handlers run one at a time, although gRPC may run them in
    parallel: only the inode table, the descriptors and the space managers have locks, the service has
    none.  A thread that a constructor starts is the call it runs; only the two transfer workers and
    the queue interleave.  [NotifyPerformance] only prints and counts; main of the FUSE process fills the
    table of its operations; the tests and the benchmarks are not part of the system.  The order of the
    nodes in an [unordered_map] is that of [map_keys], and no theorem depends on it.

    ** Plan

    Handlers of the metadata server that run in parallel, with the locks the components have; clients
    that connect to several servers at the same time; the start of a cluster as a whole. *)
From stdpp Require Export base numbers sorting strings gmap list.

(** ** Fixed-width integers

    The C++ code computes on [uint64_t], [uint16_t], [uint8_t] and [int].  A value is a [Z] inside
    the range of its type and every arithmetic operation of the source is followed by the
    conversion to the type the source computes in. *)

Definition u64 (z : Z) : Z := z `mod` 2 ^ 64.
Definition u32 (z : Z) : Z := z `mod` 2 ^ 32.
Definition u16 (z : Z) : Z := z `mod` 2 ^ 16.
Definition u8 (z : Z) : Z := z `mod` 2 ^ 8.
Definition s32 (z : Z) : Z := (z + 2 ^ 31) `mod` 2 ^ 32 - 2 ^ 31.

(** ** Outcomes

    A call either returns ([Done]) or never returns normally ([Fault]): the process executes
    something the C++ standard leaves undefined, fails an [assert], or waits for ever on a mutex.
    [OutOfFuel] is not a behaviour of the code: it is what a bounded loop of the model answers when
    its fuel is too small, and the theorems show that it is never answered. *)

Inductive fault : Type :=
  | NullDeref       (* [->] on a null shared_ptr *)
  | OutOfRange      (* operator[] of a vector or an array outside its bounds *)
  | EmptyTop        (* top() or pop() of an empty priority_queue, front() of an empty vector *)
  | AssertFailed    (* assert(...) *)
  | Deadlock        (* lock() on a mutex nobody will ever release *)
  | NotOwned        (* unlock() of a mutex that is not held *)
  | DivByZero       (* % 0 *)
  | Uninit          (* use of an object that was never given a value *)
  | Overflow        (* signed integer overflow *)
  | Exited          (* exit(...), or an exception that nobody catches *)
  | NotBool         (* a bool object whose byte is neither 0 nor 1 *)
  | DataRace        (* two threads access an object at the same time, one of them to change it *)
  | OutOfFuel.

Inductive outcome (A : Type) : Type :=
  | Done (a : A)
  | Fault (f : fault).
Arguments Done {A} a.
Arguments Fault {A} f.

(** A computation over the mutable state [S] of a component. *)
Definition M (S A : Type) : Type := S → outcome (A * S).

#[export] Instance M_ret S : MRet (M S) := λ A a s, Done (a, s).
#[export] Instance M_bind S : MBind (M S) := λ A B k m s,
  match m s with
  | Done (a, s') => k a s'
  | Fault f => Fault f
  end.

Definition fail {S A} (f : fault) : M S A := λ _, Fault f.
Definition get {S} : M S S := λ s, Done (s, s).
Definition put {S} (s' : S) : M S unit := λ _, Done (tt, s').
Definition gets {S A} (f : S → A) : M S A := λ s, Done (f s, s).
Definition modify {S} (f : S → S) : M S unit := λ s, Done (tt, f s).

(** [->] on a shared_ptr that may be null, [v[i]] on an index that may be out of bounds. *)
Definition or_fault {S A} (f : fault) (o : option A) : M S A :=
  match o with Some a => mret a | None => fail f end.

(** A lens focuses a computation of a member object inside its owner. *)
Record lens (S T : Type) := Lens { view : S → T; update : T → S → S }.
Arguments Lens {S T} _ _.
Arguments view {S T} _ _.
Arguments update {S T} _ _ _.

Definition zoom {S T A} (l : lens S T) (m : M T A) : M S A := λ s,
  match m (view l s) with
  | Done (a, t) => Done (a, update l t s)
  | Fault f => Fault f
  end.

(** Range-based for loop: the body runs on each element in order. *)
Fixpoint for_each {S A} (l : list A) (body : A → M S unit) : M S unit :=
  match l with
  | [] => mret ()
  | a :: l' => body a ≫= λ _, for_each l' body
  end.

(** ** std::mutex

    A component that owns a mutex says where it is; [mutex_lock] on a held mutex never returns. *)

Class HasMutex (St : Type) := mutex : lens St bool.

Definition mutex_lock {St} `{HasMutex St} : M St unit := λ s,
  if view mutex s then Fault Deadlock else Done (tt, update mutex true s).
Definition mutex_unlock {St} `{HasMutex St} : M St unit := λ s,
  if view mutex s then Done (tt, update mutex false s) else Fault NotOwned.

(** ** std::priority_queue<uint64_t, vector<uint64_t>, greater<uint64_t>>

    The source uses the adaptor as a multiset with access to its least element; it is kept here as
    the ascending list of its elements. *)

Fixpoint pq_push (x : Z) (q : list Z) : list Z :=
  match q with
  | [] => [x]
  | y :: q' => if (x <=? y)%Z then x :: q else y :: pq_push x q'
  end.
Definition pq_top (q : list Z) : option Z := head q.
Definition pq_pop (q : list Z) : list Z := tail q.
Definition pq_empty (q : list Z) : bool := match q with [] => true | _ => false end.
(** The constructor from an iterator range. *)
Definition pq_of_range (v : list Z) : list Z := foldr pq_push [] v.

(** ** std::map<int, T>: iteration visits the keys in ascending order. *)
Definition map_keys {A} (m : gmap Z A) : list Z := merge_sort Z.le (map_to_list m).*1.

(** ** Weakest preconditions

    [wp m Q s]: run from [s], [m] returns normally, with a result and a state that satisfy [Q]. *)

Definition wp {S A} (m : M S A) (Q : A → S → Prop) (s : S) : Prop :=
  match m s with
  | Done (a, s') => Q a s'
  | Fault _ => False
  end.

(** ** Generic lemmas *)

Create HintDb sponge discriminated.
Create HintDb wp discriminated.
Create Rewrite HintDb sponge.

Section integers.
Local Open Scope Z_scope.

Lemma u64_small z : 0 ≤ z < 2 ^ 64 → u64 z = z.
Proof. apply Z.mod_small. Qed.

Lemma u64_range z : 0 ≤ u64 z < 2 ^ 64.
Proof. apply Z.mod_pos_bound. lia. Qed.

Lemma s32_small z : - 2 ^ 31 ≤ z < 2 ^ 31 → s32 z = z.
Proof. intros. unfold s32. rewrite Z.mod_small; lia. Qed.

Lemma u64_neg z : - 2 ^ 64 ≤ z < 0 → u64 z = z + 2 ^ 64.
Proof.
  intros. unfold u64. rewrite <- (Z.mod_small (z + 2 ^ 64) (2 ^ 64)) by lia.
  rewrite <- (Z_mod_plus_full z 1). f_equal; lia.
Qed.

(** Masking with [2^k - 1] is the remainder, for the block mask of the code. *)
Lemma land_mask k z : 0 ≤ k → Z.land z (2 ^ k - 1) = z `mod` 2 ^ k.
Proof.
  intros. rewrite <- Z.land_ones by done. f_equal. rewrite Z.ones_equiv. lia.
Qed.
End integers.

(** Rewrites every wrap-around whose argument is visibly in range. *)
Ltac unwrap :=
  repeat match goal with
  | |- context [u64 ?z] => rewrite (u64_small z) by lia
  | H : context [u64 ?z] |- _ => rewrite (u64_small z) in H by lia
  end.

(** *** The calculus of [wp] *)

Section wp_rules.
Context {S : Type}.
Implicit Types (s : S).

Lemma wp_done {A} (m : M S A) Q s :
  wp m Q s ↔ ∃ a s', m s = Done (a, s') ∧ Q a s'.
Proof.
  unfold wp. split.
  - destruct (m s) as [[a s']|]; [|done]. eauto.
  - intros (a & s' & -> & ?). done.
Qed.

Lemma wp_ret {A} (a : A) (Q : A → S → Prop) s : Q a s → wp (mret a) Q s.
Proof. done. Qed.

Lemma wp_bind {A B} (m : M S A) (k : A → M S B) Q s :
  wp m (λ a, wp (k a) Q) s → wp (m ≫= k) Q s.
Proof. unfold wp, mbind, M_bind. by destruct (m s) as [[a s']|]. Qed.

Lemma wp_mono {A} (m : M S A) (Q Q' : A → S → Prop) s :
  wp m Q s → (∀ a s', Q a s' → Q' a s') → wp m Q' s.
Proof. unfold wp. destruct (m s) as [[a s']|]; eauto. Qed.

Lemma wp_gets {A} (f : S → A) (Q : A → S → Prop) s : Q (f s) s → wp (gets f) Q s.
Proof. done. Qed.

Lemma wp_get (Q : S → S → Prop) s : Q s s → wp get Q s.
Proof. done. Qed.

Lemma wp_modify (f : S → S) (Q : unit → S → Prop) s : Q tt (f s) → wp (modify f) Q s.
Proof. done. Qed.

Lemma wp_or_fault {A} f (o : option A) a (Q : A → S → Prop) s :
  o = Some a → Q a s → wp (or_fault f o) Q s.
Proof. by intros ->. Qed.

Lemma wp_zoom {T A} (l : lens S T) (m : M T A) Q s :
  wp m (λ a t, Q a (update l t s)) (view l s) → wp (zoom l m) Q s.
Proof. unfold wp, zoom. by destruct (m (view l s)) as [[a t]|]. Qed.

(** The rule for loops over a container: an invariant indexed by the elements still to visit. *)
Lemma wp_for_each {A} (I : list A → S → Prop) (body : A → M S unit) l Q s :
  (∀ a l' s', I (a :: l') s' → wp (body a) (λ _, I l') s') →
  (∀ s', I [] s' → Q tt s') →
  I l s → wp (for_each l body) Q s.
Proof.
  intros Hbody HQ. revert s. induction l as [|a l IH]; intros s HI; simpl.
  - apply wp_ret, HQ, HI.
  - apply wp_bind. eapply wp_mono; [by apply Hbody|]. intros [] s'. apply IH.
Qed.

Lemma wp_lock `{HasMutex S} (Q : unit → S → Prop) s :
  view mutex s = false → Q tt (update mutex true s) → wp mutex_lock Q s.
Proof. unfold wp, mutex_lock. by intros ->. Qed.

Lemma wp_unlock `{HasMutex S} (Q : unit → S → Prop) s :
  view mutex s = true → Q tt (update mutex false s) → wp mutex_unlock Q s.
Proof. unfold wp, mutex_unlock. by intros ->. Qed.
End wp_rules.

#[export] Hint Resolve wp_ret wp_gets wp_get wp_modify : wp.

(** One step of symbolic execution; [wp_auto] runs as far as the code is straight-line. *)
Ltac wp_step :=
  lazymatch goal with
  | |- wp (mbind _ _) _ _ => apply wp_bind
  | |- wp (mret _) _ _ => apply wp_ret
  | |- wp (gets _) _ _ => apply wp_gets
  | |- wp get _ _ => apply wp_get
  | |- wp (modify _) _ _ => apply wp_modify
  | |- wp (zoom _ _) _ _ => apply wp_zoom
  | |- wp (or_fault _ (Some _)) _ _ => eapply wp_or_fault; [reflexivity|]
  end; cbn beta.
Ltac wp_auto := repeat wp_step.

Lemma outcome_bind_done {S A B} (m : M S A) (k : A → M S B) s a s' :
  m s = Done (a, s') → (m ≫= k) s = k a s'.
Proof. intros E. unfold mbind, M_bind. by rewrite E. Qed.

Lemma outcome_bind_fault {S A B} (m : M S A) (k : A → M S B) s f :
  m s = Fault f → (m ≫= k) s = Fault f.
Proof. intros E. unfold mbind, M_bind. by rewrite E. Qed.

(** *** Priority queues *)

Section pq.
Implicit Types (q : list Z).

Lemma pq_push_perm x q : pq_push x q ≡ₚ x :: q.
Proof.
  induction q as [|y q IH]; simpl; [done|].
  case_match; [done|]. rewrite IH. apply Permutation_swap.
Qed.

Lemma pq_push_elem x y q : y ∈ pq_push x q ↔ y = x ∨ y ∈ q.
Proof. by rewrite pq_push_perm, elem_of_cons. Qed.

Lemma pq_push_sorted x q : Sorted Z.le q → Sorted Z.le (pq_push x q).
Proof.
  induction 1 as [|y q Hs IH Hhd]; simpl; [by repeat constructor|].
  destruct (Z.leb_spec x y) as [Hle|Hlt].
  - repeat constructor; auto.
  - constructor; [done|]. destruct Hhd as [|z q Hz]; simpl.
    + constructor. lia.
    + case_match; constructor; lia.
Qed.

Lemma pq_top_least x q : Sorted Z.le (x :: q) → ∀ y, y ∈ q → (x ≤ y)%Z.
Proof.
  intros Hs y Hy. apply Sorted_StronglySorted, StronglySorted_inv in Hs as [_ Hall].
  - rewrite Forall_forall in Hall. auto.
  - intros ???. apply Z.le_trans.
Qed.

Lemma pq_pop_sorted q : Sorted Z.le q → Sorted Z.le (pq_pop q).
Proof. destruct 1; simpl; auto. Qed.

Lemma pq_of_range_perm v : pq_of_range v ≡ₚ v.
Proof.
  unfold pq_of_range. induction v as [|x v IH]; simpl; [done|].
  by rewrite pq_push_perm, IH.
Qed.

Lemma pq_of_range_sorted v : Sorted Z.le (pq_of_range v).
Proof. induction v; simpl; [constructor|]. by apply pq_push_sorted. Qed.
End pq.

#[export] Hint Resolve pq_push_sorted pq_pop_sorted pq_of_range_sorted : sponge.
#[export] Hint Rewrite pq_push_elem : sponge.

(** *** Iteration order of std::map *)

Section map_keys.
Context {A : Type}.
Implicit Types (m : gmap Z A).

Lemma map_keys_perm m : map_keys m ≡ₚ (map_to_list m).*1.
Proof. apply merge_sort_Permutation. Qed.

Lemma map_keys_NoDup m : NoDup (map_keys m).
Proof. rewrite map_keys_perm. apply NoDup_fst_map_to_list. Qed.

Lemma elem_of_map_keys m k : k ∈ map_keys m ↔ is_Some (m !! k).
Proof.
  rewrite map_keys_perm, list_elem_of_fmap. split.
  - intros ([k' x] & -> & Hin%elem_of_map_to_list). by exists x.
  - intros [x Hx]. exists (k, x). by rewrite elem_of_map_to_list.
Qed.

Lemma length_map_keys m : length (map_keys m) = size m.
Proof. by rewrite map_keys_perm, length_fmap, length_map_to_list. Qed.
End map_keys.
