(* ===== verification/FsInode.v ===== *)
(** * Directory entries and inodes: [class Dentry] and [class Inode] of include/file.hpp and
    src/fs/file.cpp.

    An inode is the record of its fields; a method that changes it is a computation in [M Inode],
    a [const] one a function.  [std::hash<std::string>] is left unspecified by the C++ standard: it
    is the class [StringHash], an argument of every definition that hashes a name. *)
From S2P Require Import Prelude.
Local Open Scope Z_scope.

Definition FILE_BLOCK_SIZE : Z := Z.shiftl 1 20.
Definition FILE_BLOCK_MASK : Z := FILE_BLOCK_SIZE - 1.

Class StringHash := std_hash : string → Z.

Inductive FileType := REG_FILE | DIR.

#[export] Instance FileType_eq_dec : EqDecision FileType.
Proof. solve_decision. Defined.

Record file_block_info := FileBlock {
  fb_server_id : Z;
  fb_start_addr : Z;
  fb_length : Z;
  fb_block_nr : Z;
}.

Module Dentry.

Record Dentry := Mk { name_ : string; hash_ : Z; inum_ : Z }.

Definition make `{StringHash} (name : string) (inum : Z) : Dentry := Mk name (std_hash name) inum.

Definition GetHash (d : Dentry) : Z := hash_ d.
Definition GetInodeNum (d : Dentry) : Z := inum_ d.
Definition GetName (d : Dentry) : string := name_ d.
Definition IsDir (d : Dentry) : bool := inum_ d =? 0.

End Dentry.
Abbreviation Dentry := Dentry.Dentry.

Module Inode.

Record Inode := Mk {
  inum_ : Z;
  type_ : FileType;
  size_ : Z;
  file_fd_ : Z;
  children_ : gmap Z Dentry;
  block_info_list_ : list file_block_info;
}.

Definition make (type : FileType) (inum : Z) : Inode := Mk inum type 0 (-1) ∅ [].

Definition set_children (c : gmap Z Dentry) (i : Inode) : Inode :=
  Mk (inum_ i) (type_ i) (size_ i) (file_fd_ i) c (block_info_list_ i).
Definition set_blocks (l : list file_block_info) (i : Inode) : Inode :=
  Mk (inum_ i) (type_ i) (size_ i) (file_fd_ i) (children_ i) l.

Definition GetInodeNum (i : Inode) : Z := inum_ i.
Definition GetSize (i : Inode) : Z := size_ i.
Definition GetBlockNum (i : Inode) : Z := Z.of_nat (length (block_info_list_ i)).
Definition GetDentryMap (i : Inode) : gmap Z Dentry := children_ i.
Definition GetBlockInfoList (i : Inode) : list file_block_info := block_info_list_ i.
Definition IsDir (i : Inode) : bool := bool_decide (type_ i = DIR).
Definition IsOpened (i : Inode) : bool := negb (file_fd_ i =? -1).

(** [block_info_list_[block_id]]: no bound is checked. *)
Definition GetBlockInfo (block_id : Z) : M Inode file_block_info :=
  l ← gets block_info_list_;
  or_fault OutOfRange (l !! Z.to_nat block_id).

Definition SetInodeNum (inum : Z) : M Inode unit := modify (λ i,
  Mk inum (type_ i) (size_ i) (file_fd_ i) (children_ i) (block_info_list_ i)).
Definition SetSize (size : Z) : M Inode unit := modify (λ i,
  Mk (inum_ i) (type_ i) size (file_fd_ i) (children_ i) (block_info_list_ i)).
Definition SetFile (fd : Z) : M Inode unit := modify (λ i,
  Mk (inum_ i) (type_ i) (size_ i) fd (children_ i) (block_info_list_ i)).

Definition AddDentry `{StringHash} (name : string) (inum : Z) : M Inode bool :=
  let hash := std_hash name in
  children ← gets children_;
  if decide (is_Some (children !! hash)) then mret false
  else
    modify (set_children (<[hash := Dentry.make name inum]> children));;
    mret true.

Definition DeleteDentry `{StringHash} (name : string) : M Inode bool :=
  let hash := std_hash name in
  children ← gets children_;
  if decide (children !! hash = None) then mret false
  else modify (set_children (delete hash children));; mret true.

(** [None] is nullptr. *)
Definition GetDentry `{StringHash} (name : string) (i : Inode) : option Dentry :=
  children_ i !! std_hash name.

Definition ChangeFileBlockInfoLength (index length' : Z) : M Inode unit :=
  l ← gets block_info_list_;
  if index <? Z.of_nat (length l) then
    b ← or_fault OutOfRange (l !! Z.to_nat index);
    modify (set_blocks (<[Z.to_nat index :=
      FileBlock (fb_server_id b) (fb_start_addr b) length' (fb_block_nr b)]> l))
  else fail AssertFailed.

Definition AppendFileBlockInfo (server_id start_addr length' block_nr : Z) : M Inode unit :=
  l ← gets block_info_list_;
  modify (set_blocks (l ++ [FileBlock server_id start_addr length' block_nr])).

End Inode.
Abbreviation Inode := Inode.Inode.

(** ** Layout of a file

    Two inodes have the same layout when they are the same file up to the [length] field of their
    blocks, the only thing [ChangeFileBlockInfoLength] changes. *)

Definition same_block (b b' : file_block_info) : Prop :=
  fb_server_id b = fb_server_id b' ∧ fb_start_addr b = fb_start_addr b' ∧
  fb_block_nr b = fb_block_nr b'.

Definition same_layout (i i' : Inode) : Prop :=
  Inode.inum_ i = Inode.inum_ i' ∧ Inode.type_ i = Inode.type_ i' ∧
  Inode.size_ i = Inode.size_ i' ∧ Inode.file_fd_ i = Inode.file_fd_ i' ∧
  Inode.children_ i = Inode.children_ i' ∧
  Forall2 same_block (Inode.block_info_list_ i) (Inode.block_info_list_ i').

(** Where byte [off] of a file is stored: the server, and the offset in the memory it registered. *)
Definition byte_loc (i : Inode) (off : Z) : option (Z * Z) :=
  b ← Inode.block_info_list_ i !! Z.to_nat (off / FILE_BLOCK_SIZE);
  Some (fb_server_id b, fb_start_addr b + off `mod` FILE_BLOCK_SIZE).

(** ** Lemmas *)

Lemma FILE_BLOCK_SIZE_eq : FILE_BLOCK_SIZE = 2 ^ 20.
Proof. reflexivity. Qed.

Lemma FILE_BLOCK_MASK_mod z : Z.land z FILE_BLOCK_MASK = z `mod` FILE_BLOCK_SIZE.
Proof. apply (land_mask 20). lia. Qed.

#[export] Instance same_block_equiv : Equivalence same_block.
Proof. split; repeat intro; unfold same_block in *; intuition congruence. Qed.

#[export] Instance same_layout_equiv : Equivalence same_layout.
Proof.
  split; repeat intro; unfold same_layout in *; destruct_and?; split_and?; try congruence.
  - reflexivity.
  - by symmetry.
  - by etrans.
Qed.

#[export] Instance byte_loc_proper : Proper (same_layout ==> eq ==> eq) byte_loc.
Proof.
  intros i i' (_&_&_&_&_&Hl) off ? <-. unfold byte_loc.
  apply (Forall2_lookup _ _ _) with (i := Z.to_nat (off / FILE_BLOCK_SIZE)) in Hl.
  destruct Hl as [b b' (Hs & Ha & _)|]; [|done]. simpl. by rewrite Hs, Ha.
Qed.

#[export] Instance GetBlockNum_proper : Proper (same_layout ==> eq) Inode.GetBlockNum.
Proof.
  intros i i' (_&_&_&_&_&Hl). unfold Inode.GetBlockNum.
  apply Forall2_length in Hl. congruence.
Qed.

Lemma wp_GetBlockInfo id b Q i :
  Inode.block_info_list_ i !! Z.to_nat id = Some b → Q b i → wp (Inode.GetBlockInfo id) Q i.
Proof. intros Hb HQ. unfold Inode.GetBlockInfo. wp_auto. by eapply wp_or_fault. Qed.

(** The new length of a block changes nothing else. *)
Lemma wp_ChangeFileBlockInfoLength id len Q i :
  0 ≤ id < Inode.GetBlockNum i →
  (∀ i', same_layout i i' → Q tt i') →
  wp (Inode.ChangeFileBlockInfoLength id len) Q i.
Proof.
  unfold Inode.GetBlockNum. intros Hid HQ. unfold Inode.ChangeFileBlockInfoLength. wp_auto.
  rewrite (proj2 (Z.ltb_lt _ _)) by lia.
  destruct (lookup_lt_is_Some_2 (Inode.block_info_list_ i) (Z.to_nat id)) as [b Hb]; [lia|].
  wp_auto. eapply wp_or_fault; [done|]. wp_auto. apply HQ.
  split_and!; try done. simpl.
  rewrite <- (list_insert_id (Inode.block_info_list_ i) (Z.to_nat id) b Hb) at 1.
  apply Forall2_insert; [reflexivity|]. by split_and!.
Qed.
