(* ===== verification/IdPool.v ===== *)
(** * The contract of an identifier pool

    Inode numbers (class InodeTable), file descriptors (class FileMap) and storage blocks (class
    SpaceManager) are handed out by three objects built the same way: a mutex, a min-heap of free
    identifiers, and a record of the identifiers in use.  [IdPool] names the operations they share,
    [IdPoolLaws] what each of them promises; the theorems of this file hold of every pool that keeps
    the promise, and the three components prove the laws of their own code. *)
From S2P Require Import Prelude.
Local Open Scope Z_scope.

Class IdPool (St : Type) := {
  pool_take : M St Z;           (* hand out an identifier *)
  pool_give : Z → M St bool;    (* take one back *)
  pool_has_free : St → bool;    (* the pool agrees to hand out one more *)
  pool_ok : St → Prop;          (* representation invariant *)
  pool_free : St → list Z;
  pool_used : St → gset Z;
}.

(** The least free identifier is handed out. *)
Definition least_of (i : Z) (l : list Z) : Prop := i ∈ l ∧ ∀ j, j ∈ l → i ≤ j.

Class IdPoolLaws (St : Type) `{IdPool St} := {
  pool_disjoint (s : St) : pool_ok s →
    NoDup (pool_free s) ∧ ∀ i, i ∈ pool_free s → i ∉ pool_used s;
  pool_take_law (s : St) : pool_ok s → pool_has_free s = true →
    wp pool_take (λ i s',
      least_of i (pool_free s) ∧ pool_free s ≡ₚ (i :: pool_free s') ∧
      pool_used s' = {[i]} ∪ pool_used s ∧ pool_ok s') s;
  pool_give_law (s : St) (i : Z) : pool_ok s → i ∈ pool_used s →
    wp (pool_give i) (λ b s',
      b = true ∧ pool_free s' ≡ₚ (i :: pool_free s) ∧
      pool_used s' = pool_used s ∖ {[i]} ∧ pool_ok s') s;
}.

(** Every identifier of the pool, handed out or not. *)
Definition pool_all {St} `{IdPool St} (s : St) : gset Z := list_to_set (pool_free s) ∪ pool_used s.

(** ** Histories

    A client of the pool keeps the set of identifiers it was given and has not returned; it asks
    only while the pool has one, and returns only what it holds. *)

Inductive pool_event := Took (i : Z) | Gave (i : Z).

Inductive pool_step {St} `{IdPool St} : St * gset Z → pool_event → St * gset Z → Prop :=
  | step_take s held i s' :
      pool_has_free s = true → pool_take s = Done (i, s') →
      pool_step (s, held) (Took i) (s', {[i]} ∪ held)
  | step_give s held i b s' :
      i ∈ held → pool_give i s = Done (b, s') →
      pool_step (s, held) (Gave i) (s', held ∖ {[i]}).

Inductive pool_history {St} `{IdPool St} : St * gset Z → list pool_event → St * gset Z → Prop :=
  | history_nil c : pool_history c [] c
  | history_snoc c es c' e c'' :
      pool_history c es c' → pool_step c' e c'' → pool_history c (es ++ [e]) c''.

(** ** Lemmas *)

Section laws.
Context {St : Type} `{IdPoolLaws St}.

Lemma pool_take_fresh s i s' :
  pool_ok s → pool_has_free s = true → pool_take s = Done (i, s') →
  i ∉ pool_used s ∧ pool_used s' = {[i]} ∪ pool_used s ∧ pool_ok s' ∧
  pool_free s ≡ₚ (i :: pool_free s').
Proof.
  intros Hok Hfree E.
  destruct (proj1 (wp_done _ _ _) (pool_take_law s Hok Hfree))
    as (i' & s'' & E' & [Hin _] & Hp & Hu & Hok').
  rewrite E in E'. simplify_eq. by pose proof (proj2 (pool_disjoint s Hok) i' Hin).
Qed.

Lemma pool_give_back s i b s' :
  pool_ok s → i ∈ pool_used s → pool_give i s = Done (b, s') →
  pool_used s' = pool_used s ∖ {[i]} ∧ pool_ok s' ∧ pool_free s' ≡ₚ (i :: pool_free s).
Proof.
  intros Hok Hi E.
  destruct (proj1 (wp_done _ _ _) (pool_give_law s i Hok Hi)) as (? & s'' & E' & _ & ? & ? & ?).
  rewrite E in E'. by simplify_eq.
Qed.

Lemma pool_step_inv s held e s' held' :
  pool_ok s → held ⊆ pool_used s → pool_step (s, held) e (s', held') →
  pool_ok s' ∧ held' ⊆ pool_used s' ∧ pool_used s ∖ held = pool_used s' ∖ held' ∧
  pool_all s' = pool_all s.
Proof.
  intros Hok Hheld Hstep. unfold pool_all. inversion Hstep as [? ? ? ? Hf E|? ? ? ? ? Hi E]; simplify_eq.
  - apply pool_take_fresh in E as (Hn & Hu & Hok' & Hp); [|done..].
    rewrite Hu, Hp, list_to_set_cons. split_and!; [done|set_solver..].
  - apply pool_give_back in E as (Hu & Hok' & Hp); [|set_solver..].
    rewrite Hu, Hp, list_to_set_cons. split_and!; [done|set_solver|set_solver|].
    assert (i ∈ pool_used s) by set_solver.
    rewrite (union_difference_singleton_L i (pool_used s)) at 2 by done. set_solver.
Qed.

Lemma pool_history_inv s held es s' held' :
  pool_ok s → held ⊆ pool_used s → pool_history (s, held) es (s', held') →
  pool_ok s' ∧ held' ⊆ pool_used s' ∧ pool_used s ∖ held = pool_used s' ∖ held' ∧
  pool_all s' = pool_all s.
Proof.
  intros Hok Hheld Hh. remember (s, held) as c eqn:Ec. remember (s', held') as c' eqn:Ec'.
  revert s' held' Ec'. induction Hh as [c|c es [s1 h1] e c'' Hh IH Hstep]; intros; subst.
  - by simplify_eq.
  - destruct (IH eq_refl _ _ eq_refl) as (Hok1 & Hh1 & Hu1 & Ha1).
    destruct (pool_step_inv _ _ _ _ _ Hok1 Hh1 Hstep) as (?&?&?&?).
    split_and!; [done..|congruence|congruence].
Qed.

(** A pool that agrees to a request serves it, with an identifier that no client holds. *)
Lemma pool_progress s held :
  pool_ok s → held ⊆ pool_used s → pool_has_free s = true →
  ∃ i s', i ∉ held ∧ pool_step (s, held) (Took i) (s', {[i]} ∪ held).
Proof.
  intros Hok Hheld Hf. 
  destruct (proj1 (wp_done _ _ _) (pool_take_law s Hok Hf)) as (i & s' & E & _).
  exists i, s'. apply pool_take_fresh in E as HE; [|done..].
  split; [set_solver|by econstructor].
Qed.

(** After any history the pool holds what it held at the start and what its client holds, and serves
    the least identifier of the others. *)
Lemma pool_serves s0 es s held :
  pool_ok s0 → pool_history (s0, ∅) es (s, held) →
  pool_ok s ∧ pool_used s = pool_used s0 ∪ held ∧
  (pool_has_free s = true → ∃ i s', pool_take s = Done (i, s') ∧
    i ∈ pool_all s0 ∖ (pool_used s0 ∪ held) ∧
    ∀ j, j ∈ pool_all s0 ∖ (pool_used s0 ∪ held) → i ≤ j).
Proof.
  intros Hok0 Hh. destruct (pool_history_inv _ _ _ _ _ Hok0 (empty_subseteq _) Hh) as (Hok & Hheld & Hu & Ha).
  assert (Hused : pool_used s = pool_used s0 ∪ held).
  { rewrite (union_difference_L held (pool_used s)) by done. rewrite <- Hu. set_solver. }
  split_and!; [done..|]. intros Hf.
  destruct (proj1 (wp_done _ _ _) (pool_take_law s Hok Hf)) as (i & s' & E & [Hin Hleast] & _).
  pose proof (proj2 (pool_disjoint s Hok)) as Hdis.
  assert (Hfree : ∀ j, j ∈ pool_free s ↔ j ∈ pool_all s0 ∖ (pool_used s0 ∪ held)).
  { intros j. rewrite <- Hused, <- Ha. unfold pool_all. specialize (Hdis j).
    rewrite elem_of_difference, elem_of_union, elem_of_list_to_set. tauto. }
  exists i, s'. split_and!; [done|by apply Hfree|]. intros j Hj. by apply Hleast, Hfree.
Qed.
End laws.
