(* ===== verification/FsTable.v ===== *)
(** * The inode table: [class InodeTable] of include/file.hpp and src/fs/file.cpp.

    [table_] maps an inode number to a [shared_ptr<Inode>]: the inodes live in a store ([heap]) that
    every pointer to them reads and writes, so an inode changed through the pointer a handler holds
    is changed for all.  [next] is the address [make_shared] returns next; nothing is freed, which a
    program that follows its pointers cannot observe. *)
From S2P Require Import Prelude FsInode IdPool.
Local Open Scope Z_scope.

Abbreviation ptr := positive.

Module InodeTable.

Record InodeTable := Mk {
  total_size_ : Z;
  cur_size_ : Z;
  table_lock_ : bool;
  table_ : gmap Z ptr;
  free_list_ : list Z;
  heap : gmap ptr Inode;
  next : ptr;
}.

#[export] Instance InodeTable_mutex : HasMutex InodeTable := Lens table_lock_ (λ b t,
  Mk (total_size_ t) (cur_size_ t) b (table_ t) (free_list_ t) (heap t) (next t)).

Definition set_table (m : gmap Z ptr) (t : InodeTable) : InodeTable :=
  Mk (total_size_ t) (cur_size_ t) (table_lock_ t) m (free_list_ t) (heap t) (next t).
Definition set_free_list (q : list Z) (t : InodeTable) : InodeTable :=
  Mk (total_size_ t) (cur_size_ t) (table_lock_ t) (table_ t) q (heap t) (next t).
Definition set_cur_size (n : Z) (t : InodeTable) : InodeTable :=
  Mk (total_size_ t) n (table_lock_ t) (table_ t) (free_list_ t) (heap t) (next t).
Definition set_heap (h : gmap ptr Inode) (t : InodeTable) : InodeTable :=
  Mk (total_size_ t) (cur_size_ t) (table_lock_ t) (table_ t) (free_list_ t) h (next t).

(** [std::make_shared<Inode>(type, inum)] *)
Definition make_shared (i : Inode) : M InodeTable ptr := λ t,
  Done (next t,
    Mk (total_size_ t) (cur_size_ t) (table_lock_ t) (table_ t) (free_list_ t)
       (<[next t := i]> (heap t)) (Pos.succ (next t))).

(** [p->m()]: run a method of the inode [p] points to; [None] is nullptr. *)
Definition on_inode {A} (p : option ptr) (m : M Inode A) : M InodeTable A :=
  q ← or_fault NullDeref p;
  h ← gets heap;
  i ← or_fault NullDeref (h !! q);
  match m i with
  | Done (a, i') => modify (λ t, set_heap (<[q := i']> (heap t)) t);; mret a
  | Fault f => fail f
  end.

Definition CreateRootDir : M InodeTable unit :=
  p ← make_shared (Inode.make DIR 0);
  modify (λ t, set_table (<[0 := p]> (table_ t)) t).

(** [InodeTable::InodeTable(uint64_t size)] *)
Definition make (size : Z) : outcome InodeTable :=
  let t := Mk size 1 false ∅ (pq_of_range (seqZ 1 size)) ∅ 1%positive in
  match CreateRootDir t with
  | Done (_, t') => Done t'
  | Fault f => Fault f
  end.

Definition GetTotalSize (t : InodeTable) : Z := total_size_ t.
Definition GetCurSize (t : InodeTable) : Z := cur_size_ t.

(** A number that is not in the table returns nullptr from inside the critical section: the mutex
    stays locked. *)
Definition GetInode (inum : Z) : M InodeTable (option ptr) :=
  mutex_lock;;
  table ← gets table_;
  if decide (table !! inum = None) then mret None
  else
    mutex_unlock;;
    mret (table !! inum).

Definition AllocateFreeInode (type : FileType) : M InodeTable Z :=
  mutex_lock;;
  t ← get;
  if cur_size_ t =? total_size_ t then
    mutex_unlock;;
    mret (u64 (total_size_ t + 1))
  else
    new_inum ← or_fault EmptyTop (pq_top (free_list_ t));
    modify (set_free_list (pq_pop (free_list_ t)));;
    modify (set_cur_size (u64 (cur_size_ t + 1)));;
    new_inode ← make_shared (Inode.make type new_inum);
    modify (λ t, set_table (<[new_inum := new_inode]> (table_ t)) t);;
    mutex_unlock;;
    mret new_inum.

Definition AllocateFileInode : M InodeTable Z := AllocateFreeInode REG_FILE.
Definition AllocateDirInode : M InodeTable Z := AllocateFreeInode DIR.

Definition DeleteInode (inum : Z) : M InodeTable bool :=
  mutex_lock;;
  t ← get;
  if decide (table_ t !! inum = None) then
    mutex_unlock;;
    mret false
  else
    modify (set_table (delete inum (table_ t)));;
    modify (set_free_list (pq_push inum (free_list_ t)));;
    modify (set_cur_size (u64 (cur_size_ t - 1)));;
    mutex_unlock;;
    mret true.

(** ** What the table stands for *)

(** The inode each number denotes, through the table and the store. *)
Definition files (t : InodeTable) : gmap Z Inode := omap (λ p, heap t !! p) (table_ t).

(** The representation invariant between two calls: the mutex is free, the numbers [0..total] are
    split between the table and the free list, the table is full before the free list is empty, and
    each entry points to its own live inode, which carries its number. *)
Record table_ok (t : InodeTable) : Prop := {
  ok_lock : table_lock_ t = false;
  ok_bounds : 0 ≤ cur_size_ t ≤ total_size_ t ∧ total_size_ t < 2 ^ 63;
  ok_sorted : Sorted Z.le (free_list_ t);
  ok_numbers : free_list_ t ++ (map_to_list (table_ t)).*1 ≡ₚ seqZ 0 (total_size_ t + 1);
  ok_size : cur_size_ t = Z.of_nat (size (table_ t));
  ok_live inum p : table_ t !! inum = Some p →
    ∃ i, heap t !! p = Some i ∧ Inode.inum_ i = inum;
  ok_next p : is_Some (heap t !! p) → (p < next t)%positive;
}.

#[export] Instance InodeTable_pool : IdPool InodeTable := {
  pool_take := AllocateFileInode;
  pool_give := DeleteInode;
  pool_has_free t := negb (cur_size_ t =? total_size_ t);
  pool_ok := table_ok;
  pool_free := free_list_;
  pool_used t := dom (table_ t);
}.

End InodeTable.
Abbreviation InodeTable := InodeTable.InodeTable.

(** ** Lemmas *)

Section table_lemmas.
Import InodeTable.
Implicit Types (t : InodeTable) (i : Inode).

Lemma lock_unlock t : table_lock_ t = false →
  update mutex false (update mutex true t) = t.
Proof. destruct t; simpl. by intros ->. Qed.

Lemma files_Some t n i :
  files t !! n = Some i ↔ ∃ p, table_ t !! n = Some p ∧ heap t !! p = Some i.
Proof. unfold files. rewrite lookup_omap_Some. naive_solver. Qed.

Lemma files_None t n : table_ok t → files t !! n = None ↔ table_ t !! n = None.
Proof.
  intros Hok. rewrite !eq_None_not_Some. unfold is_Some. setoid_rewrite files_Some.
  split; intros Hn [x Hx]; apply Hn.
  - destruct (ok_live t Hok n x Hx) as (i & ? & _). eauto.
  - naive_solver.
Qed.

Lemma files_dom t : table_ok t → dom (files t) = dom (table_ t).
Proof.
  intros Hok. apply set_eq. intros n. rewrite !elem_of_dom, <- !not_eq_None_Some.
  by rewrite files_None.
Qed.

Lemma files_inum t n i : table_ok t → files t !! n = Some i → Inode.inum_ i = n.
Proof.
  intros Hok (p & Hp & Hi)%files_Some. destruct (ok_live t Hok n p Hp) as (i' & ? & ?). congruence.
Qed.

(** Two numbers never share an inode. *)
Lemma table_inj t n n' p : table_ok t →
  table_ t !! n = Some p → table_ t !! n' = Some p → n = n'.
Proof.
  intros Hok Hn Hn'. destruct (ok_live t Hok n p Hn) as (? & ? & ?).
  destruct (ok_live t Hok n' p Hn') as (? & ? & ?). congruence.
Qed.

Lemma files_size t : table_ok t → Z.of_nat (size (files t)) = cur_size_ t.
Proof. intros Hok. by rewrite (ok_size t Hok), <- !size_dom, files_dom. Qed.

Lemma table_numbers t n : table_ok t →
  (n ∈ free_list_ t ∨ is_Some (table_ t !! n)) ↔ 0 ≤ n ≤ total_size_ t.
Proof.
  intros Hok. rewrite <- elem_of_map_keys, map_keys_perm, <- elem_of_app, (ok_numbers t Hok).
  rewrite elem_of_seqZ. lia.
Qed.

Lemma table_NoDup t : table_ok t → NoDup (free_list_ t ++ (map_to_list (table_ t)).*1).
Proof. intros Hok. rewrite (ok_numbers t Hok). apply NoDup_seqZ. Qed.

Lemma free_not_in_table t n : table_ok t → n ∈ free_list_ t → table_ t !! n = None.
Proof.
  intros (_ & Hd & _)%table_NoDup%NoDup_app Hn. rewrite eq_None_not_Some.
  rewrite <- elem_of_map_keys, map_keys_perm. auto.
Qed.

(** The table refuses an allocation while one number is still free. *)
Lemma free_length t : table_ok t →
  Z.of_nat (length (free_list_ t)) = total_size_ t + 1 - cur_size_ t.
Proof.
  intros Hok. pose proof (Permutation_length (ok_numbers t Hok)) as Hl.
  rewrite length_app, length_fmap, length_map_to_list, length_seqZ in Hl.
  rewrite (ok_size t Hok). destruct (ok_bounds t Hok). lia.
Qed.

(** *** Writing through a pointer *)

Definition set_file (p : ptr) (i : Inode) (t : InodeTable) : InodeTable :=
  set_heap (<[p := i]> (heap t)) t.

Lemma set_file_ok t n p i i' : table_ok t →
  table_ t !! n = Some p → heap t !! p = Some i → Inode.inum_ i' = Inode.inum_ i →
  table_ok (set_file p i' t).
Proof.
  intros Hok Hn Hp Hi. destruct Hok as [Hl Hb Hs Hnum Hsz Hlive Hnext]. split; simpl; [done..| |].
  - intros m q Hq. destruct (Hlive m q Hq) as (j & Hj & Hm).
    destruct (decide (p = q)) as [->|]; simplify_map_eq; eauto.
  - intros q. rewrite lookup_insert_is_Some. intros [<-|[_ Hq]]; eauto.
Qed.

Lemma files_set_file t n p i i' : table_ok t →
  table_ t !! n = Some p → files (set_file p i' t) = <[n := i']> (files t).
Proof.
  intros Hok Hn. apply map_eq. intros m. apply option_eq. intros j. rewrite files_Some. simpl.
  destruct (decide (m = n)) as [->|Hne].
  - rewrite lookup_insert_eq. split; [intros (q & Hq & Hj); simplify_map_eq|]; [done|].
    intros [= ->]. exists p. by simplify_map_eq.
  - rewrite lookup_insert_ne, files_Some by done. split; intros (q & Hq & Hj); exists q; split;
      try done; (assert (p ≠ q) by (intros ->; eauto using table_inj)); by simplify_map_eq.
Qed.

Lemma wp_on_inode {A} (m : M Inode A) Q t p i :
  heap t !! p = Some i → wp m (λ a i', Q a (set_file p i' t)) i → wp (on_inode (Some p) m) Q t.
Proof.
  intros Hp Hm. unfold on_inode. wp_auto. eapply wp_or_fault; [done|].
  unfold wp in *. destruct (m i) as [[a i']|]; done.
Qed.

(** *** GetInode *)

Lemma GetInode_found t n p : table_ok t → table_ t !! n = Some p →
  GetInode n t = Done (Some p, t).
Proof.
  intros Hok Hn. unfold GetInode, mutex_lock, mutex_unlock, gets, mbind, M_bind.
  pose proof (ok_lock t Hok) as Hl. simpl. rewrite Hl. simpl. rewrite decide_False by congruence.
  change (Done (table_ t !! n, update mutex false (update mutex true t)) = Done (Some p, t)).
  by rewrite lock_unlock, Hn.
Qed.

Lemma wp_GetInode t n i Q : table_ok t → files t !! n = Some i →
  (∀ p, table_ t !! n = Some p → heap t !! p = Some i → Q (Some p) t) → wp (GetInode n) Q t.
Proof.
  intros Hok (p & Hn & Hp)%files_Some HQ. unfold wp. rewrite (GetInode_found t n p) by done. auto.
Qed.

(** A miss leaves the mutex locked, and every later call of the table waits for ever. *)
Lemma GetInode_missing t n : table_lock_ t = false → table_ t !! n = None →
  GetInode n t = Done (None, update mutex true t).
Proof.
  intros Hl Hn. unfold GetInode, mutex_lock, gets, mbind, M_bind. simpl. rewrite Hl. simpl.
  by rewrite decide_True.
Qed.

Lemma locked_deadlocks {A} (k : unit → M InodeTable A) t :
  table_lock_ t = true → (mutex_lock ≫= k) t = Fault Deadlock.
Proof. intros Hl. unfold mutex_lock, mbind, M_bind. simpl. by rewrite Hl. Qed.
End table_lemmas.

(** *** Allocation and deletion *)

Section table_pool.
Import InodeTable.
Implicit Types (t : InodeTable) (i : Inode).

Lemma map_keys_insert {A} (m : gmap Z A) n x : m !! n = None →
  (map_to_list (<[n := x]> m)).*1 ≡ₚ n :: (map_to_list m).*1.
Proof. intros Hn. by rewrite map_to_list_insert. Qed.

Lemma map_keys_delete {A} (m : gmap Z A) n x : m !! n = Some x →
  n :: (map_to_list (delete n m)).*1 ≡ₚ (map_to_list m).*1.
Proof. intros Hn. rewrite <- (map_to_list_delete m n x Hn). done. Qed.

(** The table after the allocation of [n] for an inode of type [ty]. *)
Definition table_add (n : Z) (ty : FileType) (q : list Z) (t : InodeTable) : InodeTable :=
  Mk (total_size_ t) (cur_size_ t + 1) false (<[n := next t]> (table_ t)) q
     (<[next t := Inode.make ty n]> (heap t)) (Pos.succ (next t)).

Definition table_del (n : Z) (t : InodeTable) : InodeTable :=
  Mk (total_size_ t) (cur_size_ t - 1) false (delete n (table_ t)) (pq_push n (free_list_ t))
     (heap t) (next t).

Lemma heap_next t : table_ok t → heap t !! next t = None.
Proof.
  intros Hok. apply eq_None_not_Some. intros Hs%(ok_next t Hok). lia.
Qed.

Lemma table_add_ok t n ty q : table_ok t → cur_size_ t ≠ total_size_ t → free_list_ t = n :: q →
  table_ok (table_add n ty q t).
Proof.
  intros Hok Hne Hq. pose proof (free_not_in_table t n Hok) as Hn.
  rewrite Hq in Hn. specialize (Hn (list_elem_of_here n q)).
  pose proof (ok_bounds t Hok) as [Hb1 Hb2]. split; simpl.
  - done.
  - lia.
  - pose proof (ok_sorted t Hok) as Hs. rewrite Hq in Hs. by apply Sorted_inv in Hs as [? _].
  - rewrite map_keys_insert by done. rewrite <- (ok_numbers t Hok), Hq. simpl.
    by rewrite Permutation_middle.
  - rewrite map_size_insert_None by done. rewrite (ok_size t Hok). lia.
  - intros m p. rewrite lookup_insert_Some. intros [[<- <-]|[Hm Hp]].
    + exists (Inode.make ty n). by simplify_map_eq.
    + destruct (ok_live t Hok m p Hp) as (i & Hi & ?). exists i.
      rewrite lookup_insert_ne; [done|]. intros <-. by rewrite heap_next in Hi.
  - intros p. rewrite lookup_insert_is_Some. intros [<-|[_ Hp%(ok_next t Hok)]]; lia.
Qed.

Lemma files_table_add t n ty q : table_ok t →
  files (table_add n ty q t) = <[n := Inode.make ty n]> (files t).
Proof.
  intros Hok. apply map_eq. intros m. apply option_eq. intros j. rewrite files_Some. simpl.
  destruct (decide (m = n)) as [->|Hne].
  - setoid_rewrite lookup_insert_eq. split; [intros (p & [= <-] & Hp)|intros [= <-]].
    + by rewrite lookup_insert_eq in Hp.
    + eexists. split; [done|]. by rewrite lookup_insert_eq.
  - rewrite !lookup_insert_ne, files_Some by done. split; intros (p & Hp & Hj); exists p;
      (split; [done|]); destruct (ok_live t Hok m p Hp) as (i & Hi & _);
      (assert (next t ≠ p) by (intros <-; by rewrite heap_next in Hi)); by simplify_map_eq.
Qed.

Lemma AllocateFreeInode_run t n ty q : table_ok t → cur_size_ t ≠ total_size_ t →
  free_list_ t = n :: q → AllocateFreeInode ty t = Done (n, table_add n ty q t).
Proof.
  intros Hok Hne Hq. pose proof (ok_bounds t Hok) as [Hb1 Hb2].
  unfold AllocateFreeInode, mutex_lock, mutex_unlock, get, modify, make_shared, mbind, M_bind. simpl.
  rewrite (ok_lock t Hok). simpl. rewrite (proj2 (Z.eqb_neq _ _) Hne). simpl. rewrite Hq. simpl.
  unfold table_add. by rewrite u64_small by lia.
Qed.

(** A full table answers a number that no inode has, and changes nothing. *)
Lemma AllocateFreeInode_full t ty : table_ok t → cur_size_ t = total_size_ t →
  AllocateFreeInode ty t = Done (total_size_ t + 1, t).
Proof.
  intros Hok He. pose proof (ok_bounds t Hok) as [Hb1 Hb2].
  unfold AllocateFreeInode, mutex_lock, mutex_unlock, get, mbind, M_bind. simpl.
  rewrite (ok_lock t Hok). simpl. rewrite (proj2 (Z.eqb_eq _ _) He). simpl.
  rewrite u64_small by lia.
  change (Done (total_size_ t + 1, update mutex false (update mutex true t))
    = Done (total_size_ t + 1, t)).
  by rewrite lock_unlock by apply (ok_lock t Hok).
Qed.

Lemma free_list_cons t : table_ok t → ∃ n q, free_list_ t = n :: q.
Proof.
  intros Hok. pose proof (free_length t Hok). destruct (ok_bounds t Hok).
  destruct (free_list_ t); simpl in *; [lia|eauto].
Qed.

Lemma table_del_ok t n p : table_ok t → table_ t !! n = Some p → table_ok (table_del n t).
Proof.
  intros Hok Hn. pose proof (ok_bounds t Hok) as [Hb1 Hb2].
  pose proof (map_size_delete_Some n (table_ t) ltac:(eauto)) as Hsz.
  pose proof (map_size_ne_0_lookup_2 (table_ t) n ltac:(eauto)) as Hne.
  split; simpl.
  - done.
  - rewrite (ok_size t Hok) in *. lia.
  - apply pq_push_sorted, (ok_sorted t Hok).
  - rewrite pq_push_perm, <- (ok_numbers t Hok). simpl.
    by rewrite Permutation_middle, map_keys_delete.
  - rewrite (ok_size t Hok), Hsz. lia.
  - intros m q. rewrite lookup_delete_Some. intros [_ Hq]. by apply (ok_live t Hok).
  - apply (ok_next t Hok).
Qed.

Lemma files_table_del t n : files (table_del n t) = delete n (files t).
Proof.
  apply map_eq. intros m. apply option_eq. intros j. rewrite lookup_delete_Some, !files_Some. simpl.
  setoid_rewrite lookup_delete_Some. naive_solver.
Qed.

Lemma DeleteInode_run t n p : table_ok t → table_ t !! n = Some p →
  DeleteInode n t = Done (true, table_del n t).
Proof.
  intros Hok Hn. pose proof (table_del_ok t n p Hok Hn) as Hok'.
  destruct (ok_bounds _ Hok') as [Hb1 Hb2]. destruct (ok_bounds _ Hok) as [Hb3 _]. simpl in *.
  unfold DeleteInode, mutex_lock, mutex_unlock, get, modify, mbind, M_bind. simpl.
  rewrite (ok_lock t Hok). simpl. rewrite decide_False by congruence. simpl.
  unfold table_del. by rewrite u64_small by lia.
Qed.

Lemma DeleteInode_missing t n : table_ok t → table_ t !! n = None →
  DeleteInode n t = Done (false, t).
Proof.
  intros Hok Hn. unfold DeleteInode, mutex_lock, mutex_unlock, get, mbind, M_bind. simpl.
  rewrite (ok_lock t Hok). simpl. rewrite decide_True by done.
  change (Done (false, update mutex false (update mutex true t)) = Done (false, t)).
  by rewrite lock_unlock by apply (ok_lock t Hok).
Qed.

#[export] Instance InodeTable_pool_laws : IdPoolLaws InodeTable.
Proof.
  split; simpl.
  - intros t Hok. split; [by destruct (proj1 (NoDup_app _ _) (table_NoDup t Hok))|].
    intros i Hi. rewrite not_elem_of_dom. by apply free_not_in_table.
  - intros t Hok Hne%negb_true_iff%Z.eqb_neq. destruct (free_list_cons t Hok) as (n & q & Hq).
    unfold wp, AllocateFileInode. rewrite (AllocateFreeInode_run t n REG_FILE q), Hq by done.
    split_and!.
    + split; [by left|]. intros j [->|Hj]%elem_of_cons; [done|].
      pose proof (ok_sorted t Hok) as Hs. rewrite Hq in Hs. by eapply pq_top_least.
    + done.
    + simpl. by rewrite dom_insert_L.
    + by apply table_add_ok.
  - intros t n Hok [p Hn]%elem_of_dom. unfold wp. rewrite (DeleteInode_run t n p) by done.
    split_and!; [done|by apply pq_push_perm|by simpl; rewrite dom_delete_L|by eapply table_del_ok].
Qed.

(** The table of a fresh server holds the root directory and nothing else. *)
Lemma make_run size : 1 ≤ size < 2 ^ 63 → ∃ t,
  InodeTable.make size = Done t ∧ table_ok t ∧ files t = {[0 := Inode.make DIR 0]} ∧
  total_size_ t = size ∧ cur_size_ t = 1.
Proof.
  intros Hs. eexists. split; [reflexivity|]. split_and!; try done.
  - split; simpl; [done|lia|..].
    + apply pq_of_range_sorted.
    + rewrite insert_empty, map_to_list_singleton, pq_of_range_perm. simpl.
      rewrite (seqZ_cons 0) by lia. rewrite Permutation_app_comm. simpl.
      by replace (Z.pred (size + 1)) with size by lia.
    + done.
    + intros n p. rewrite lookup_insert_Some, lookup_empty. intros [[<- <-]|[_ ?]]; [|done].
      by eexists.
    + intros p. rewrite lookup_insert_is_Some, lookup_empty. intros [<-|[_ Hn%is_Some_None]]; done.
Qed.
End table_pool.
