(* ===== verification/FsFiles.v ===== *)
(** * File descriptors: [class FileMap] of include/file.hpp and src/fs/file.cpp.

    Only the descriptor numbers are modelled: [file_map_] and [inode_table_] of the class are never
    read or written by the code (the methods that used them are commented out). *)
From S2P Require Import Prelude IdPool.
Local Open Scope Z_scope.

Module FileMap.

Record FileMap := Mk {
  total_size_ : Z;
  file_map_lock_ : bool;
  fd_used_set_ : gset Z;
  fd_free_list_ : list Z;
}.

#[export] Instance FileMap_mutex : HasMutex FileMap := Lens file_map_lock_ (λ b m,
  Mk (total_size_ m) b (fd_used_set_ m) (fd_free_list_ m)).

Definition set_fds (used : gset Z) (free : list Z) (m : FileMap) : FileMap :=
  Mk (total_size_ m) (file_map_lock_ m) used free.

(** [FileMap::FileMap()] has no descriptor to give. *)
Definition make_default : FileMap := Mk 100 false ∅ [].

(** [FileMap::FileMap(uint64_t size)]: the first three numbers of the range are skipped. *)
Definition make (size : Z) : FileMap :=
  let vec := seqZ 1 (u64 (size + 3)) in
  Mk size false ∅ (pq_of_range (drop 3 vec)).

Definition AllocateFD : M FileMap Z :=
  mutex_lock;;
  m ← get;
  if pq_empty (fd_free_list_ m) then
    mutex_unlock;;
    mret (-1)
  else
    new_fd ← or_fault EmptyTop (pq_top (fd_free_list_ m));
    modify (set_fds ({[new_fd]} ∪ fd_used_set_ m) (pq_pop (fd_free_list_ m)));;
    mutex_unlock;;
    mret (s32 new_fd).

Definition ReclaimFD (fd : Z) : M FileMap bool :=
  mutex_lock;;
  m ← get;
  if decide (fd ∉ fd_used_set_ m) then
    mutex_unlock;;
    mret false
  else
    modify (set_fds (fd_used_set_ m ∖ {[fd]}) (pq_push fd (fd_free_list_ m)));;
    mutex_unlock;;
    mret true.

(** The descriptors [4..total+3] are split between the free list and the used set, and all of them
    fit an [int]. *)
Record fds_ok (m : FileMap) : Prop := {
  ok_lock : file_map_lock_ m = false;
  ok_bounds : 0 ≤ total_size_ m < 2 ^ 31 - 4;
  ok_sorted : Sorted Z.le (fd_free_list_ m);
  ok_numbers : fd_free_list_ m ++ elements (fd_used_set_ m) ≡ₚ seqZ 4 (total_size_ m);
}.

#[export] Instance FileMap_pool : IdPool FileMap := {
  pool_take := AllocateFD;
  pool_give := ReclaimFD;
  pool_has_free m := negb (pq_empty (fd_free_list_ m));
  pool_ok := fds_ok;
  pool_free := fd_free_list_;
  pool_used := fd_used_set_;
}.

End FileMap.
Abbreviation FileMap := FileMap.FileMap.

(** ** Lemmas *)

Section fd_lemmas.
Import FileMap.
Implicit Types (m : FileMap).

Lemma fds_lock_unlock m : file_map_lock_ m = false →
  update mutex false (update mutex true m) = m.
Proof. destruct m; simpl. by intros ->. Qed.

Lemma fd_free_range m fd : fds_ok m → fd ∈ fd_free_list_ m → 4 ≤ fd < 2 ^ 31.
Proof.
  intros Hok Hfd. destruct (ok_bounds m Hok).
  assert (Hin : fd ∈ seqZ 4 (total_size_ m)) by (rewrite <- (ok_numbers m Hok); set_solver).
  apply elem_of_seqZ in Hin. lia.
Qed.

Lemma fd_NoDup m : fds_ok m →
  NoDup (fd_free_list_ m) ∧ ∀ fd, fd ∈ fd_free_list_ m → fd ∉ fd_used_set_ m.
Proof.
  intros Hok. assert (Hn : NoDup (fd_free_list_ m ++ elements (fd_used_set_ m))).
  { rewrite (ok_numbers m Hok). apply NoDup_seqZ. }
  apply NoDup_app in Hn as (? & Hd & _). split; [done|]. intros fd Hfd.
  rewrite <- elem_of_elements. auto.
Qed.

Lemma AllocateFD_run m fd q : fds_ok m → fd_free_list_ m = fd :: q →
  AllocateFD m = Done (fd, set_fds ({[fd]} ∪ fd_used_set_ m) q m).
Proof.
  intros Hok Hq. assert (4 ≤ fd < 2 ^ 31).
  { apply (fd_free_range m); [done|]. rewrite Hq. by left. }
  unfold AllocateFD, mutex_lock, mutex_unlock, get, modify, mbind, M_bind. simpl.
  rewrite (ok_lock m Hok). simpl. rewrite Hq. simpl. rewrite s32_small by lia.
  unfold set_fds. by rewrite (ok_lock m Hok).
Qed.

Lemma AllocateFD_none m : fds_ok m → fd_free_list_ m = [] → AllocateFD m = Done (-1, m).
Proof.
  intros Hok Hq. unfold AllocateFD, mutex_lock, mutex_unlock, get, mbind, M_bind. simpl.
  pose proof (ok_lock m Hok) as Hl. rewrite Hl. simpl. rewrite Hq. simpl.
  destruct m; simpl in *; by subst.
Qed.

Lemma ReclaimFD_run m fd : fds_ok m → fd ∈ fd_used_set_ m →
  ReclaimFD fd m = Done (true, set_fds (fd_used_set_ m ∖ {[fd]}) (pq_push fd (fd_free_list_ m)) m).
Proof.
  intros Hok Hfd. unfold ReclaimFD, mutex_lock, mutex_unlock, get, modify, mbind, M_bind. simpl.
  rewrite (ok_lock m Hok). simpl. rewrite decide_False by (intros []; done). simpl.
  unfold set_fds. by rewrite (ok_lock m Hok).
Qed.

Lemma ReclaimFD_unknown m fd : fds_ok m → fd ∉ fd_used_set_ m → ReclaimFD fd m = Done (false, m).
Proof.
  intros Hok Hfd. unfold ReclaimFD, mutex_lock, mutex_unlock, get, mbind, M_bind. simpl.
  rewrite (ok_lock m Hok). simpl. rewrite decide_True by done. simpl.
  change (Done (false, update mutex false (update mutex true m)) = Done (false, m)).
  by rewrite fds_lock_unlock by apply (ok_lock m Hok).
Qed.

Lemma take_fd_ok m fd q : fds_ok m → fd_free_list_ m = fd :: q →
  fds_ok (set_fds ({[fd]} ∪ fd_used_set_ m) q m).
Proof.
  intros Hok Hq. destruct (fd_NoDup m Hok) as [_ Hd].
  specialize (Hd fd). rewrite Hq in Hd. specialize (Hd (list_elem_of_here fd q)).
  split; simpl; [apply Hok..| |].
  - pose proof (ok_sorted m Hok) as Hs. rewrite Hq in Hs. by apply Sorted_inv in Hs as [? _].
  - rewrite elements_union_singleton by done. rewrite <- (ok_numbers m Hok), Hq. simpl.
    by rewrite Permutation_middle.
Qed.

Lemma give_fd_ok m fd : fds_ok m → fd ∈ fd_used_set_ m →
  fds_ok (set_fds (fd_used_set_ m ∖ {[fd]}) (pq_push fd (fd_free_list_ m)) m).
Proof.
  intros Hok Hfd. split; simpl; [apply Hok..| |].
  - apply pq_push_sorted, Hok.
  - rewrite pq_push_perm, <- (ok_numbers m Hok). simpl.
    rewrite (union_difference_singleton_L fd (fd_used_set_ m)) at 2 by done.
    rewrite elements_union_singleton by set_solver. by rewrite Permutation_middle.
Qed.

#[export] Instance FileMap_pool_laws : IdPoolLaws FileMap.
Proof.
  split; simpl.
  - apply fd_NoDup.
  - intros m Hok Hne. destruct (fd_free_list_ m) as [|fd q] eqn:Hq; [done|].
    unfold wp. rewrite (AllocateFD_run m fd q) by done. split_and!; [|done..|by apply take_fd_ok].
    split; [by left|]. intros j [->|Hj]%elem_of_cons; [done|].
    pose proof (ok_sorted m Hok) as Hs. rewrite Hq in Hs. by eapply pq_top_least.
  - intros m fd Hok Hfd. unfold wp. rewrite ReclaimFD_run by done.
    split_and!; [done|apply pq_push_perm|done|by apply give_fd_ok].
Qed.

Lemma fds_make_ok size : 0 ≤ size < 2 ^ 31 - 4 →
  fds_ok (FileMap.make size) ∧ fd_used_set_ (FileMap.make size) = ∅.
Proof.
  intros Hs. split; [|done]. split; simpl; [done|lia|apply pq_of_range_sorted|].
  rewrite pq_of_range_perm, u64_small, app_nil_r by lia.
  rewrite (seqZ_cons 1), (seqZ_cons (Z.succ 1)),
    (seqZ_cons (Z.succ (Z.succ 1))) by lia. simpl.
  by replace (Z.pred (Z.pred (Z.pred (size + 3)))) with size by lia.
Qed.
End fd_lemmas.
