(* ===== verification/FsSpace.v ===== *)
(** * Storage blocks of one server: [class SpaceManager] of include/spacemanager.hpp and
    src/fs/spacemanager.cpp. *)
From S2P Require Import Prelude FsInode IdPool.
Local Open Scope Z_scope.

Module SpaceManager.

Record SpaceManager := Mk {
  inused_blocks_ : gset Z;
  free_list_ : list Z;
  space_lock_ : bool;
  space_start_ : Z;
  space_end_ : Z;
  total_bytes_ : Z;
  block_size_ : Z;
  total_blocks_ : Z;
  cur_blocks_ : Z;
  server_id_ : Z;
}.

#[export] Instance SpaceManager_mutex : HasMutex SpaceManager := Lens space_lock_ (λ b m,
  Mk (inused_blocks_ m) (free_list_ m) b (space_start_ m) (space_end_ m) (total_bytes_ m)
     (block_size_ m) (total_blocks_ m) (cur_blocks_ m) (server_id_ m)).

(** The three fields every operation changes together. *)
Definition set_blocks (used : gset Z) (free : list Z) (cur : Z) (m : SpaceManager) : SpaceManager :=
  Mk used free (space_lock_ m) (space_start_ m) (space_end_ m) (total_bytes_ m)
     (block_size_ m) (total_blocks_ m) cur (server_id_ m).

(** The start of the first whole block: the code rounds an unaligned start up. *)
Definition aligned_start (block_size space_start : Z) : Z :=
  let block_mask := u64 (block_size - 1) in
  if Z.land block_mask space_start =? 0 then space_start
  else Z.land (u64 (space_start + block_size)) (u64 (Z.lnot block_mask)).

Definition make (space_start space_end block_size server_id : Z) : SpaceManager :=
  let start := aligned_start block_size space_start in
  let total_bytes := u64 (space_end - start + 1) in
  let total_blocks := total_bytes / block_size in
  let vec := seqZ 0 total_blocks in
  Mk ∅ (pq_of_range vec) false start space_end total_bytes block_size total_blocks 0 server_id.

Definition GetSpaceStart (m : SpaceManager) : Z := space_start_ m.
Definition GetFileBlockSize (m : SpaceManager) : Z := block_size_ m.

(** [top(); pop(); insert; cur_blocks_++] *)
Definition take_block : M SpaceManager Z :=
  m ← get;
  block_nr ← or_fault EmptyTop (pq_top (free_list_ m));
  modify (set_blocks ({[block_nr]} ∪ inused_blocks_ m) (pq_pop (free_list_ m))
                     (u64 (cur_blocks_ m + 1)));;
  mret block_nr.

(** [push; erase; cur_blocks_--] *)
Definition give_block (block_nr : Z) : M SpaceManager unit :=
  modify (λ m, set_blocks (inused_blocks_ m ∖ {[block_nr]}) (pq_push block_nr (free_list_ m))
                          (u64 (cur_blocks_ m - 1)) m).

Fixpoint take_blocks (n : nat) : M SpaceManager (list Z) :=
  match n with
  | O => mret []
  | S n' =>
      b ← take_block;
      l ← take_blocks n';
      mret (b :: l)
  end.

Definition AllocateSpace (length : Z) : M SpaceManager (list Z) :=
  mutex_lock;;
  m ← get;
  let to_allocate := u64 (length + block_size_ m - 1) / block_size_ m in
  if u64 (total_blocks_ m - cur_blocks_ m) <? to_allocate then
    mutex_unlock;;
    mret []
  else
    res ← take_blocks (Z.to_nat to_allocate);
    mutex_unlock;;
    mret res.

Definition AllocateOneBlock : M SpaceManager Z :=
  mutex_lock;;
  block_nr ← take_block;
  mutex_unlock;;
  mret block_nr.

(** [inode] is what the pointer argument points to.  The null test only prints: a null pointer is
    dereferenced all the same, with the mutex held. *)
Definition ReclaimInodeSpace (inode : option Inode) : M SpaceManager bool :=
  mutex_lock;;
  i ← or_fault NullDeref inode;
  m ← get;
  for_each (Inode.GetBlockInfoList i) (λ block_info,
    if fb_server_id block_info =? server_id_ m then give_block (fb_block_nr block_info)
    else mret ());;
  mutex_unlock;;
  mret true.

Definition ReclaimSpace (block_list : list Z) : M SpaceManager bool :=
  mutex_lock;;
  for_each block_list give_block;;
  mutex_unlock;;
  mret true.

(** Neither [inused_blocks_] nor [cur_blocks_] is reset. *)
Definition ResetSpaceRange (start_addr length : Z) : M SpaceManager unit :=
  modify (λ m,
    let space_end := u64 (start_addr + length - 1) in
    let start := aligned_start (block_size_ m) start_addr in
    let total_bytes := u64 (space_end - start + 1) in
    let total_blocks := total_bytes / block_size_ m in
    let vec := seqZ 0 total_blocks in
    Mk (inused_blocks_ m) (pq_of_range vec) (space_lock_ m) start space_end total_bytes
       (block_size_ m) total_blocks (cur_blocks_ m) (server_id_ m)).

(** The blocks [0..total_blocks_-1] are split between the free list and the set in use, which
    [cur_blocks_] counts.  [space_inv] also holds inside a critical section. *)
Record space_inv (m : SpaceManager) : Prop := {
  ok_block_size : 0 < block_size_ m;
  ok_bounds : 0 ≤ total_blocks_ m < 2 ^ 64;
  ok_sorted : Sorted Z.le (free_list_ m);
  ok_numbers : free_list_ m ++ elements (inused_blocks_ m) ≡ₚ seqZ 0 (total_blocks_ m);
  ok_cur : cur_blocks_ m = Z.of_nat (size (inused_blocks_ m));
}.

Definition space_ok (m : SpaceManager) : Prop := space_lock_ m = false ∧ space_inv m.

(** Everything but the blocks in use, the free list, the count and the mutex. *)
Definition same_space (m m' : SpaceManager) : Prop :=
  space_start_ m = space_start_ m' ∧ space_end_ m = space_end_ m' ∧
  total_bytes_ m = total_bytes_ m' ∧ block_size_ m = block_size_ m' ∧
  total_blocks_ m = total_blocks_ m' ∧ server_id_ m = server_id_ m'.

#[export] Instance SpaceManager_pool : IdPool SpaceManager := {
  pool_take := AllocateOneBlock;
  pool_give i := ReclaimSpace [i];
  pool_has_free m := negb (pq_empty (free_list_ m));
  pool_ok := space_ok;
  pool_free := free_list_;
  pool_used := inused_blocks_;
}.

(** The numbers of the blocks of an inode that lie on one server. *)
Definition blocks_on (server : Z) (l : list file_block_info) : list Z :=
  fb_block_nr <$> filter (λ b, fb_server_id b = server) l.

End SpaceManager.
Abbreviation SpaceManager := SpaceManager.SpaceManager.

(** ** Lemmas *)

Section space_lemmas.
Import SpaceManager.
Implicit Types (m : SpaceManager).

#[export] Instance same_space_equiv : Equivalence same_space.
Proof. split; repeat intro; unfold same_space in *; intuition congruence. Qed.

Lemma space_lock_unlock m : space_lock_ m = false →
  update mutex false (update mutex true m) = m.
Proof. destruct m; simpl. by intros ->. Qed.

Lemma space_inv_lock m b : space_inv m → space_inv (update mutex b m).
Proof. intros []. by split. Qed.

Lemma space_NoDup m : space_inv m →
  NoDup (free_list_ m) ∧ ∀ b, b ∈ free_list_ m → b ∉ inused_blocks_ m.
Proof.
  intros Hok. assert (Hn : NoDup (free_list_ m ++ elements (inused_blocks_ m))).
  { rewrite (ok_numbers m Hok). apply NoDup_seqZ. }
  apply NoDup_app in Hn as (? & Hd & _). split; [done|]. intros b Hb.
  rewrite <- elem_of_elements. auto.
Qed.

Lemma space_range m b : space_inv m →
  (b ∈ free_list_ m ∨ b ∈ inused_blocks_ m) ↔ 0 ≤ b < total_blocks_ m.
Proof.
  intros Hok. rewrite <- elem_of_elements, <- elem_of_app, (ok_numbers m Hok), elem_of_seqZ. lia.
Qed.

Lemma space_count m : space_inv m →
  Z.of_nat (length (free_list_ m)) = total_blocks_ m - cur_blocks_ m ∧ 0 ≤ cur_blocks_ m.
Proof.
  intros Hok. pose proof (Permutation_length (ok_numbers m Hok)) as Hl.
  destruct (ok_bounds m Hok).
  rewrite length_app, length_seqZ in Hl. rewrite (ok_cur m Hok). unfold size, set_size. simpl. lia.
Qed.

(** *** Taking blocks *)

Lemma wp_take_block m b q Q : space_inv m → free_list_ m = b :: q →
  (least_of b (free_list_ m) → b ∉ inused_blocks_ m →
   space_inv (set_blocks ({[b]} ∪ inused_blocks_ m) q (cur_blocks_ m + 1) m) →
   Q b (set_blocks ({[b]} ∪ inused_blocks_ m) q (cur_blocks_ m + 1) m)) →
  wp take_block Q m.
Proof.
  intros Hok Hq HQ. destruct (space_NoDup m Hok) as [_ Hd]. specialize (Hd b).
  destruct (space_count m Hok) as [Hlen H0]. destruct (ok_bounds m Hok).
  pose proof (ok_sorted m Hok) as Hs.
  rewrite Hq in Hd, Hlen, Hs, HQ. specialize (Hd (list_elem_of_here b q)). simpl in Hlen.
  unfold take_block. wp_auto. rewrite Hq. wp_auto. rewrite u64_small by lia.
  apply HQ; [|done|].
  - split; [by left|]. intros j [->|Hj]%elem_of_cons; [done|]. by eapply pq_top_least.
  - split; simpl; [apply Hok..| | |].
    + by apply Sorted_inv in Hs as [? _].
    + rewrite elements_union_singleton by done. rewrite <- (ok_numbers m Hok), Hq. simpl.
      by rewrite Permutation_middle.
    + rewrite size_union, size_singleton by set_solver. rewrite (ok_cur m Hok). lia.
Qed.

(** A run of [n] allocations serves the [n] least free blocks in order. *)
Lemma wp_take_blocks n m : space_inv m → (n ≤ length (free_list_ m))%nat →
  wp (take_blocks n) (λ l m',
    l = take n (free_list_ m) ∧ free_list_ m' = drop n (free_list_ m) ∧
    inused_blocks_ m' = list_to_set l ∪ inused_blocks_ m ∧
    space_inv m' ∧ same_space m m' ∧ space_lock_ m' = space_lock_ m) m.
Proof.
  revert m. induction n as [|n IH]; intros m Hok Hn; simpl.
  - apply wp_ret. rewrite drop_0. split_and!; [done|done|set_solver|done..].
  - destruct (free_list_ m) as [|b q] eqn:Hq; simpl in Hn; [lia|].
    apply wp_bind. apply (wp_take_block m b q); [done..|]. intros _ Hb Hok'.
    apply wp_bind. eapply wp_mono; [apply IH; [done|simpl; lia]|]. simpl.
    intros l m' (-> & Hf & Hu & Hok2 & Hsame & Hl). wp_auto.
    split_and!; [done..| |done|done|done]. rewrite Hu. set_solver.
Qed.

(** *** Giving blocks back *)

Lemma give_block_inv m b : space_inv m → b ∈ inused_blocks_ m →
  space_inv (set_blocks (inused_blocks_ m ∖ {[b]}) (pq_push b (free_list_ m))
               (u64 (cur_blocks_ m - 1)) m).
Proof.
  intros Hok Hb. destruct (space_count m Hok) as [Hlen H0]. destruct (ok_bounds m Hok).
  pose proof (union_difference_singleton_L b (inused_blocks_ m) Hb) as Hsplit.
  assert (Hsz : size (inused_blocks_ m) = S (size (inused_blocks_ m ∖ {[b]}))).
  { rewrite Hsplit at 1. rewrite size_union, size_singleton by set_solver. done. }
  split; simpl; [apply Hok..| | |].
  - apply pq_push_sorted, Hok.
  - rewrite pq_push_perm, <- (ok_numbers m Hok). simpl. rewrite Hsplit at 2.
    rewrite elements_union_singleton by set_solver. by rewrite Permutation_middle.
  - pose proof (ok_cur m Hok). rewrite u64_small by lia. lia.
Qed.

Lemma wp_give_blocks l m : space_inv m → NoDup l → (∀ b, b ∈ l → b ∈ inused_blocks_ m) →
  wp (for_each l give_block) (λ _ m',
    inused_blocks_ m' = inused_blocks_ m ∖ list_to_set l ∧ free_list_ m' ≡ₚ l ++ free_list_ m ∧
    space_inv m' ∧ same_space m m' ∧ space_lock_ m' = space_lock_ m) m.
Proof.
  revert m. induction l as [|b l IH]; intros m Hok Hnd Hin; simpl.
  - apply wp_ret. split_and!; [set_solver|done..].
  - apply NoDup_cons in Hnd as [Hb Hnd]. wp_auto. apply wp_modify.
    eapply wp_mono; [apply IH; [apply give_block_inv|done|]; set_solver|]. simpl.
    intros _ m' (Hu & Hf & Hok' & Hsame & Hl). split_and!; [|rewrite Hf|done..].
    + rewrite Hu. set_solver.
    + rewrite pq_push_perm. by rewrite Permutation_middle.
Qed.

(** The loop over an inode gives back exactly the blocks of this server. *)
Lemma reclaim_loop_eq id l m :
  server_id_ m = id →
  for_each l (λ b, if fb_server_id b =? id then give_block (fb_block_nr b) else mret ()) m =
  for_each (blocks_on id l) give_block m.
Proof.
  revert m. induction l as [|b l IH]; intros m Hid; [done|]. simpl. unfold blocks_on.
  rewrite filter_cons. case_decide as Hb; simpl.
  - rewrite (proj2 (Z.eqb_eq _ _) Hb). unfold mbind, M_bind. simpl. by apply IH.
  - rewrite (proj2 (Z.eqb_neq _ _) Hb). unfold mbind at 1, M_bind. simpl. by apply IH.
Qed.

(** *** The operations *)

Lemma wp_AllocateOneBlock m b q Q : space_ok m → free_list_ m = b :: q →
  (∀ m', least_of b (free_list_ m) → b ∉ inused_blocks_ m → free_list_ m' = q →
    inused_blocks_ m' = {[b]} ∪ inused_blocks_ m → space_ok m' → same_space m m' → Q b m') →
  wp AllocateOneBlock Q m.
Proof.
  intros [Hl Hok] Hq HQ. unfold AllocateOneBlock. wp_auto. apply wp_lock; [done|]. wp_auto.
  apply (wp_take_block _ b q); [by apply space_inv_lock|done|]. intros Hb Hn Hok'.
  wp_auto. apply wp_unlock; [done|]. wp_auto.
  apply HQ; [done..| |done]. split; [done|]. by apply (space_inv_lock _ false) in Hok'.
Qed.

(** With no free block, [top()] is called on an empty heap. *)
Lemma AllocateOneBlock_empty m : space_lock_ m = false → free_list_ m = [] →
  AllocateOneBlock m = Fault EmptyTop.
Proof.
  intros Hl Hq. unfold AllocateOneBlock, mutex_lock, take_block, get, mbind, M_bind. simpl.
  rewrite Hl. simpl. by rewrite Hq.
Qed.

Lemma wp_ReclaimSpace l m : space_ok m → NoDup l → (∀ b, b ∈ l → b ∈ inused_blocks_ m) →
  wp (ReclaimSpace l) (λ r m',
    r = true ∧ inused_blocks_ m' = inused_blocks_ m ∖ list_to_set l ∧
    free_list_ m' ≡ₚ l ++ free_list_ m ∧ space_ok m' ∧ same_space m m') m.
Proof.
  intros [Hl Hok] Hnd Hin. unfold ReclaimSpace. wp_auto. apply wp_lock; [done|]. wp_auto.
  eapply wp_mono; [apply wp_give_blocks; [by apply space_inv_lock|done..]|]. simpl.
  intros _ m' (Hu & Hf & Hok' & Hsame & Hl'). wp_auto. apply wp_unlock; [done|]. wp_auto.
  split_and!; [done..|split; [done|]|done]. by apply (space_inv_lock _ false).
Qed.

Lemma wp_ReclaimInodeSpace i m :
  space_ok m → NoDup (blocks_on (server_id_ m) (Inode.block_info_list_ i)) →
  (∀ b, b ∈ blocks_on (server_id_ m) (Inode.block_info_list_ i) → b ∈ inused_blocks_ m) →
  wp (ReclaimInodeSpace (Some i)) (λ r m',
    r = true ∧
    inused_blocks_ m' =
      inused_blocks_ m ∖ list_to_set (blocks_on (server_id_ m) (Inode.block_info_list_ i)) ∧
    free_list_ m' ≡ₚ blocks_on (server_id_ m) (Inode.block_info_list_ i) ++ free_list_ m ∧
    space_ok m' ∧ same_space m m') m.
Proof.
  intros Hok Hnd Hin. pose proof (wp_ReclaimSpace _ _ Hok Hnd Hin) as Hw.
  revert Hw. unfold wp, ReclaimInodeSpace, ReclaimSpace, mutex_lock, mbind, M_bind, get. simpl.
  destruct Hok as [Hl _]. rewrite Hl. simpl. by rewrite reclaim_loop_eq.
Qed.

(** [AllocateSpace] serves the whole request from the least free blocks, or refuses it whole. *)
Lemma wp_AllocateSpace len m (Q : list Z → SpaceManager → Prop) :
  space_ok m → 0 ≤ len → len + block_size_ m ≤ 2 ^ 64 →
  let n := (len + block_size_ m - 1) / block_size_ m in
  (n ≤ Z.of_nat (length (free_list_ m)) → ∀ m',
    free_list_ m' = drop (Z.to_nat n) (free_list_ m) →
    inused_blocks_ m' = list_to_set (take (Z.to_nat n) (free_list_ m)) ∪ inused_blocks_ m →
    space_ok m' → same_space m m' → Q (take (Z.to_nat n) (free_list_ m)) m') →
  (Z.of_nat (length (free_list_ m)) < n → Q [] m) →
  wp (AllocateSpace len) Q m.
Proof.
  intros [Hl Hok] Hlen Hbs n HQ HQ'. pose proof (ok_block_size m Hok).
  destruct (space_count m Hok) as [Hfree Hcur]. destruct (ok_bounds m Hok).
  assert (Hn : 0 ≤ n) by (apply Z.div_pos; lia).
  unfold AllocateSpace. wp_auto. apply wp_lock; [done|]. wp_auto. cbn [update mutex SpaceManager_mutex].
  cbn [total_blocks_ cur_blocks_ block_size_].
  rewrite (u64_small (total_blocks_ m - _)), (u64_small (len + _ - 1)) by lia. fold n.
  destruct (Z.ltb_spec (total_blocks_ m - cur_blocks_ m) n) as [Hlt|Hge].
  - wp_auto. apply wp_unlock; [done|]. wp_auto.
    change (Q [] (update mutex false (update mutex true m))). rewrite space_lock_unlock by done.
    apply HQ'. lia.
  - wp_auto. eapply wp_mono; [apply wp_take_blocks; [by apply (space_inv_lock m true)|simpl; lia]|].
    simpl. intros l m' (-> & Hf & Hu & Hok' & Hsame & Hlk). wp_auto. apply wp_unlock; [done|]. wp_auto.
    apply HQ; [lia|done..|split; [done|]|done]. by apply (space_inv_lock _ false).
Qed.

(** A well-formed space manager is determined by its region and its free blocks: the heap has one
    order, and the count follows from the blocks in use. *)
Lemma space_ext m m' : space_ok m → space_ok m' →
  free_list_ m ≡ₚ free_list_ m' → inused_blocks_ m = inused_blocks_ m' → same_space m m' → m' = m.
Proof.
  intros [Hl [Hb1 Hb2 Hs Hn Hc]] [Hl' [_ _ Hs' _ Hc']] Hf Hu (E1&E2&E3&E4&E5&E6).
  assert (Hfe : free_list_ m = free_list_ m').
  { apply (Sorted_unique Z.le); [done..|]. by rewrite Hf. }
  destruct m, m'. simpl in *. subst. done.
Qed.

(** *** The constructor *)

(** Clearing the low [k] bits of a 64-bit address rounds it down to a multiple of [2^k]. *)
Lemma land_not_mask k x : 0 ≤ k ≤ 64 → 0 ≤ x < 2 ^ 64 →
  Z.land x (u64 (Z.lnot (2 ^ k - 1))) = x / 2 ^ k * 2 ^ k.
Proof.
  intros Hk Hx. replace (2 ^ k - 1) with (Z.ones k) by (rewrite Z.ones_equiv; lia).
  rewrite <- Z.shiftl_mul_pow2, <- Z.shiftr_div_pow2, <- Z.ldiff_ones_r by lia.
  apply Z.bits_inj'. intros i Hi. rewrite Z.land_spec, Z.ldiff_spec.
  destruct (Z.ltb_spec i 64) as [Hlt|Hge].
  - unfold u64. by rewrite Z.mod_pow2_bits_low, Z.lnot_spec by lia.
  - rewrite (Z.bits_above_log2 x i); [done|lia|].
    destruct (decide (x = 0)) as [->|]; [simpl; lia|].
    apply Z.log2_lt_pow2; [lia|]. apply Z.lt_le_trans with (2 ^ 64); [lia|].
    apply Z.pow_le_mono_r; lia.
Qed.

Lemma aligned_start_spec k start : 0 ≤ k < 64 → 0 ≤ start → start + 2 ^ k ≤ 2 ^ 64 →
  aligned_start (2 ^ k) start `mod` 2 ^ k = 0 ∧
  start ≤ aligned_start (2 ^ k) start < start + 2 ^ k.
Proof.
  intros Hk H0 Hle. pose proof (Z.pow_pos_nonneg 2 k ltac:(lia) ltac:(lia)) as Hpos.
  pose proof (Z.mod_pos_bound start (2 ^ k) Hpos) as Hb. unfold aligned_start.
  rewrite (u64_small (2 ^ k - 1)), Z.land_comm, land_mask by lia.
  destruct (Z.eqb_spec (start `mod` 2 ^ k) 0) as [He|Hne]; [lia|].
  assert (Hsum : start + 2 ^ k ≠ 2 ^ 64).
  { intros He. apply Hne. replace start with ((2 ^ (64 - k) - 1) * 2 ^ k); [by apply Z_mod_mult|].
    rewrite Z.mul_sub_distr_r, <- Z.pow_add_r by lia. replace (64 - k + k) with 64; lia. }
  rewrite (u64_small (start + 2 ^ k)), land_not_mask by lia.
  split; [by apply Z_mod_mult|].
  pose proof (Z.div_mod (start + 2 ^ k) (2 ^ k) ltac:(lia)) as Hdm.
  pose proof (Z_mod_plus_full start 1 (2 ^ k)) as Hmod. rewrite Z.mul_1_l in Hmod.
  rewrite Hmod in Hdm. lia.
Qed.

(** A registered region of [len] bytes yields the whole blocks of its aligned part. *)
Lemma make_spec k start len id : 0 ≤ k < 64 → 0 ≤ start → 2 ^ k ≤ len < 2 ^ 64 →
  start + len ≤ 2 ^ 64 →
  let m := SpaceManager.make start (u64 (start + len - 1)) (2 ^ k) id in
  space_ok m ∧ inused_blocks_ m = ∅ ∧ server_id_ m = id ∧ block_size_ m = 2 ^ k ∧
  space_start_ m `mod` 2 ^ k = 0 ∧ start ≤ space_start_ m < start + 2 ^ k ∧
  total_blocks_ m = (start + len - space_start_ m) / 2 ^ k.
Proof.
  intros Hk H0 Hlen Hend m. pose proof (Z.pow_pos_nonneg 2 k ltac:(lia) ltac:(lia)) as Hpos.
  destruct (aligned_start_spec k start) as [Hal Hrange]; [lia..|].
  assert (Hbytes : total_bytes_ m = start + len - space_start_ m).
  { subst m. unfold SpaceManager.make. cbn [total_bytes_ space_start_].
    rewrite (u64_small (start + len - 1)) by lia.
    rewrite u64_small by lia. lia. }
  assert (Hblocks : 0 ≤ total_blocks_ m < 2 ^ 64).
  { change (total_blocks_ m) with (total_bytes_ m / 2 ^ k). rewrite Hbytes.
    split; [apply Z.div_pos; simpl; lia|]. apply Z.div_lt_upper_bound; simpl; [lia|].
    assert (2 ^ 64 ≤ 2 ^ k * 2 ^ 64) by nia. lia. }
  rewrite <- Hbytes. split_and!; try done; [|apply Hrange..].
  split; [done|]. split; [done|done|apply pq_of_range_sorted| |done].
  simpl. by rewrite pq_of_range_perm, elements_empty, app_nil_r.
Qed.

#[export] Instance SpaceManager_pool_laws : IdPoolLaws SpaceManager.
Proof.
  split; simpl.
  - intros m [_ Hok]. by apply space_NoDup.
  - intros m Hok Hne. destruct (free_list_ m) as [|b q] eqn:Hq; [done|].
    eapply wp_AllocateOneBlock; [done..|]. intros m' Hb _ <- Hu Hok' _. by rewrite Hq in Hb.
  - intros m b Hok Hb. eapply wp_mono; [apply (wp_ReclaimSpace [b])|]; [done| |set_solver|].
    + apply NoDup_singleton.
    + simpl. intros r m' (-> & Hu & Hf & Hok' & _). split_and!; [done..| |done]. set_solver.
Qed.
End space_lemmas.
