(* ===== verification/FsTheorems.v ===== *)
(** * Theorems on the components of the file system: the three pools of identifiers, the storage
    blocks of a server, and the mutex of the inode table. *)
From S2P Require Import Prelude FsInode IdPool FsTable FsFiles FsSpace.
Local Open Scope Z_scope.
#[local] Existing Instances InodeTable.InodeTable_pool FileMap.FileMap_pool SpaceManager.SpaceManager_pool.

(** ** Pools *)

(** C22: Inode numbers are handed out once.  Whatever sequence of allocations and deletions a table of
    [size] inodes has served, the numbers in the table are the root and those its clients hold, and
    the next allocation, unless the table is full, returns the least positive number nobody holds. *)
Theorem inode_numbers_unique size es t held :
  1 ≤ size < 2 ^ 63 →
  (∃ t0, InodeTable.make size = Done t0 ∧ pool_history (t0, ∅) es (t, held)) →
  dom (InodeTable.table_ t) = {[0]} ∪ held ∧
  (InodeTable.cur_size_ t ≠ InodeTable.total_size_ t →
   ∃ n t', InodeTable.AllocateFileInode t = Done (n, t') ∧ 1 ≤ n ≤ size ∧ n ∉ held ∧
     ∀ m, 1 ≤ m < n → m ∈ held).
Proof.
  intros Hsize (t0 & Hmk & Hh). destruct (make_run size Hsize) as (t1 & E & Hok & Hf & Ht & _).
  rewrite Hmk in E. injection E as <-.
  pose proof (pool_serves t0 es t held) as Hps. destruct (Hps Hok Hh) as (Hok' & Hu & Hnext). simpl in *.
  assert (Hd : dom (InodeTable.table_ t0) = {[0]}).
  { rewrite <- files_dom, Hf by done. apply dom_singleton_L. }
  rewrite Hd in *. split; [done|]. intros Hfull%Z.eqb_neq. rewrite Hfull in Hnext.
  destruct (Hnext eq_refl) as (n & t' & E & Hn & Hleast). exists n, t'.
  assert (Hall : ∀ m, m ∈ pool_all t0 ↔ 0 ≤ m ≤ size).
  { intros m. rewrite <- Ht, <- (table_numbers t0 m Hok). unfold pool_all. simpl.
    rewrite elem_of_union, elem_of_list_to_set, elem_of_dom. done. }
  setoid_rewrite elem_of_difference in Hleast. setoid_rewrite Hall in Hleast.
  apply elem_of_difference in Hn as [Hr%Hall Hnot]. assert (n ≠ 0) by set_solver.
  split; [done|]. split; [lia|]. split; [set_solver|].
  intros m Hm. destruct (decide (m ∈ held)) as [|Hnm]; [done|].
  assert (n ≤ m); [|lia]. apply Hleast. split; [lia|]. assert (m ≠ 0) by lia. set_solver.
Qed.

Lemma inode_numbers_unique_witness :
  ∃ t0 t, InodeTable.make 5 = Done t0 ∧ InodeTable.AllocateFileInode t0 = Done (1, t) ∧
    dom (InodeTable.table_ t) = {[0]} ∪ ({[1]} ∪ ∅).
Proof.
  do 2 eexists. split; [vm_compute; reflexivity|]. split; [vm_compute; reflexivity|].
  eapply (inode_numbers_unique 5 [Took 1]); [done|]. eexists. split; [vm_compute; reflexivity|].
  eapply (history_snoc _ [] _ (Took 1)); [constructor|]. constructor; vm_compute; reflexivity.
Defined.

(** File descriptors are handed out once.  After any sequence of opens and closes on a fresh map of
    100 descriptors, the next open returns the least number from 4 to 103 that is not open, or -1
    when all of them are; no descriptor is ever open twice. *)
Theorem descriptors_unique es m held :
  pool_history (FileMap.make 100, ∅) es (m, held) →
  FileMap.fd_used_set_ m = held ∧
  ∃ fd m', FileMap.AllocateFD m = Done (fd, m') ∧
    (fd = -1 ∧ m' = m ∧ (∀ x, 4 ≤ x ≤ 103 → x ∈ held) ∨
     4 ≤ fd ≤ 103 ∧ fd ∉ held ∧ FileMap.fd_used_set_ m' = {[fd]} ∪ held ∧
       ∀ x, 4 ≤ x < fd → x ∈ held).
Proof.
  intros Hh. destruct (fds_make_ok 100) as [Hok0 Hused0]; [lia|].
  pose proof (pool_serves (FileMap.make 100) es m held) as Hps. destruct (Hps Hok0 Hh) as (Hok & Hu & Hnext).
  pose proof (pool_history_inv (FileMap.make 100) ∅ es m held) as Hpi.
  destruct (Hpi Hok0 (empty_subseteq _) Hh) as (_ & _ & _ & Ha).
  simpl in Hu, Hnext. rewrite union_empty_l_L in Hu, Hnext. split; [done|].
  assert (Hall : ∀ x, x ∈ pool_all (FileMap.make 100) ↔ 4 ≤ x ≤ 103).
  { intros x. unfold pool_all. cbn [pool_free pool_used FileMap.FileMap_pool].
    rewrite elem_of_union, elem_of_list_to_set, <- elem_of_elements, <- elem_of_app, (FileMap.ok_numbers _ Hok0), elem_of_seqZ.
    change (FileMap.total_size_ _) with 100. lia. }
  destruct (FileMap.fd_free_list_ m) as [|fd q] eqn:Hq.
  - exists (-1), m. rewrite AllocateFD_none by done. split; [done|]. left. split_and!; [done..|].
    intros x Hx%Hall. rewrite <- Ha in Hx. unfold pool_all in Hx. simpl in Hx.
    rewrite Hq, Hu in Hx. set_solver.
  - destruct (Hnext eq_refl) as (fd' & m' & E & Hin & Hleast). pose proof (AllocateFD_run m fd q Hok Hq) as E'.
    rewrite E' in E. injection E as <- <-. exists fd. eexists. split; [exact E'|]. right.
    setoid_rewrite elem_of_difference in Hleast. setoid_rewrite Hall in Hleast.
    apply elem_of_difference in Hin as [Hr%Hall Hnot]. simpl. rewrite Hu. split; [done|].
    split; [done|]. split; [done|].
    intros x Hx. destruct (decide (x ∈ held)) as [|Hnx]; [done|].
    assert (fd ≤ x); [|lia]. apply Hleast. split; [lia|done].
Qed.

Lemma descriptors_unique_witness :
  ∃ m, FileMap.AllocateFD (FileMap.make 100) = Done (4, m) ∧ FileMap.fd_used_set_ m = {[4]} ∪ ∅.
Proof.
  eexists. split; [vm_compute; reflexivity|].
  apply (descriptors_unique [Took 4]). eapply (history_snoc _ [] _ (Took 4)); [constructor|].
  constructor; vm_compute; reflexivity.
Defined.

(** C23: Blocks are handed out once.  After any sequence of AllocateOneBlock and ReclaimSpace calls on a
    fresh space manager, the blocks in use are those its clients hold, and while a block of the
    region is left the next allocation returns the least one nobody holds. *)
Theorem blocks_unique k start len id es m held :
  0 ≤ k < 64 → 0 ≤ start → 2 ^ k ≤ len < 2 ^ 64 → start + len ≤ 2 ^ 64 →
  pool_history (SpaceManager.make start (u64 (start + len - 1)) (2 ^ k) id, ∅) es (m, held) →
  SpaceManager.inused_blocks_ m = held ∧
  (SpaceManager.free_list_ m ≠ [] →
   ∃ nr m', SpaceManager.AllocateOneBlock m = Done (nr, m') ∧ nr ∉ held ∧
     0 ≤ nr < (start + len - SpaceManager.aligned_start (2 ^ k) start) / 2 ^ k ∧
     ∀ x, 0 ≤ x < nr → x ∈ held).
Proof.
  intros Hk Hst Hlen Hend Hh.
  destruct (make_spec k start len id Hk Hst Hlen Hend) as (Hok0 & Hu0 & _ & _ & _ & _ & Ht).
  set (m0 := SpaceManager.make _ _ _ _) in *.
  pose proof (pool_serves m0 es m held) as Hps. destruct (Hps Hok0 Hh) as (Hok & Hu & Hnext). simpl in Hu, Hnext.
  rewrite union_empty_l_L in Hu, Hnext. split; [done|]. intros Hne.
  destruct Hnext as (nr & m' & E & Hin & Hleast). { by destruct (SpaceManager.free_list_ m). }
  assert (Hall : ∀ x, x ∈ pool_all m0 ↔ 0 ≤ x < SpaceManager.total_blocks_ m0).
  { intros x. rewrite <- (space_range m0 x (proj2 Hok0)). unfold pool_all. simpl.
    by rewrite elem_of_union, elem_of_list_to_set. }
  setoid_rewrite elem_of_difference in Hleast. setoid_rewrite Hall in Hleast.
  apply elem_of_difference in Hin as [Hr%Hall Hnot]. exists nr, m'. split; [done|].
  split; [set_solver|]. split; [rewrite Ht in Hr; exact Hr|].
  intros x Hx. destruct (decide (x ∈ held)) as [|Hnx]; [done|].
  assert (nr ≤ x); [|lia]. apply Hleast. split; [lia|done].
Qed.

Lemma blocks_unique_witness :
  ∃ m, SpaceManager.AllocateOneBlock (SpaceManager.make 0 (u64 (0 + 16 - 1)) (2 ^ 2) 7) = Done (0, m) ∧
    SpaceManager.inused_blocks_ m = {[0]} ∪ ∅.
Proof.
  eexists. split; [vm_compute; reflexivity|].
  apply (blocks_unique 2 0 16 7 [Took 0]); [done..|].
  eapply (history_snoc _ [] _ (Took 0)); [constructor|]. constructor; vm_compute; reflexivity.
Defined.

(** ** Space managers *)

(** A registered region [start, start+len) yields whole blocks only: they start at the first aligned
    address of the region, the last one ends inside it, and less than one block is left over. *)
Theorem region_geometry k start len id :
  0 ≤ k < 64 → 0 ≤ start → 2 ^ k ≤ len < 2 ^ 64 → start + len ≤ 2 ^ 64 →
  let m := SpaceManager.make start (u64 (start + len - 1)) (2 ^ k) id in
  SpaceManager.space_ok m ∧ SpaceManager.GetSpaceStart m `mod` 2 ^ k = 0 ∧
  start ≤ SpaceManager.GetSpaceStart m < start + 2 ^ k ∧
  SpaceManager.GetSpaceStart m + SpaceManager.total_blocks_ m * 2 ^ k ≤ start + len <
    SpaceManager.GetSpaceStart m + (SpaceManager.total_blocks_ m + 1) * 2 ^ k.
Proof.
  intros Hk Hst Hlen Hend m.
  destruct (make_spec k start len id Hk Hst Hlen Hend) as (Hok & _ & _ & _ & Hal & Hr & Ht). fold m in Hok, Hal, Hr, Ht.
  unfold SpaceManager.GetSpaceStart. split; [done|]. split; [done|]. split; [done|]. rewrite Ht.
  pose proof (Z.div_mod (start + len - SpaceManager.space_start_ m) (2 ^ k) ltac:(lia)).
  pose proof (Z.mod_pos_bound (start + len - SpaceManager.space_start_ m) (2 ^ k) ltac:(lia)). nia.
Qed.

Lemma region_geometry_witness :
  let m := SpaceManager.make 5 (u64 (5 + 30 - 1)) (2 ^ 2) 7 in
  SpaceManager.space_start_ m = 8 ∧ SpaceManager.total_blocks_ m = 6 ∧
  SpaceManager.GetSpaceStart m `mod` 2 ^ 2 = 0.
Proof.
  split; [reflexivity|]. split; [reflexivity|]. apply (region_geometry 2 5 30 7); done.
Defined.

(** C24: AllocateSpace(len) hands out ceil(len / block size) distinct free blocks, the least ones, or
    returns nothing and changes nothing when there are fewer. *)
Theorem allocate_space m len :
  SpaceManager.space_ok m → 0 ≤ len → len + SpaceManager.block_size_ m ≤ 2 ^ 64 →
  let n := (len + SpaceManager.block_size_ m - 1) / SpaceManager.block_size_ m in
  ∃ res m', SpaceManager.AllocateSpace len m = Done (res, m') ∧ SpaceManager.space_ok m' ∧
    (Z.of_nat (length res) = n ∧ NoDup res ∧ SpaceManager.free_list_ m = res ++ SpaceManager.free_list_ m' ∧
     SpaceManager.inused_blocks_ m' = list_to_set res ∪ SpaceManager.inused_blocks_ m ∨
     res = [] ∧ m' = m ∧ Z.of_nat (length (SpaceManager.free_list_ m)) < n).
Proof.
  intros Hok Hlen Hbs n. apply wp_done. apply wp_AllocateSpace; [done..| |].
  - fold n. intros Hn m' Hf Hu Hok' _. split; [done|]. left.
    pose proof (SpaceManager.ok_block_size m (proj2 Hok)).
    assert (0 ≤ n) by (apply Z.div_pos; lia). rewrite length_take. split_and!.
    + lia.
    + eapply sublist_NoDup; [|apply sublist_take]. apply (space_NoDup m), Hok.
    + by rewrite Hf, take_drop.
    + done.
  - intros Hn. split; [done|]. by right.
Qed.

Lemma allocate_space_witness :
  ∃ res m', SpaceManager.AllocateSpace 9 (SpaceManager.make 0 (u64 (0 + 16 - 1)) (2 ^ 2) 7) = Done (res, m') ∧
    SpaceManager.space_ok m'.
Proof.
  destruct (allocate_space (SpaceManager.make 0 (u64 (0 + 16 - 1)) (2 ^ 2) 7) 9) as (res & m' & E & Hok & _);
    [|done..|].
  - apply (make_spec 2 0 16 7); done.
  - exists res, m'. split; [exact E|exact Hok].
Defined.

(** C25: Allocation and reclamation are inverse: giving back what AllocateSpace returned restores the
    space manager exactly, free list, blocks in use and count. *)
Theorem allocate_reclaim_roundtrip m len :
  SpaceManager.space_ok m → 0 ≤ len → len + SpaceManager.block_size_ m ≤ 2 ^ 64 →
  ∃ res m1, SpaceManager.AllocateSpace len m = Done (res, m1) ∧
    SpaceManager.ReclaimSpace res m1 = Done (true, m).
Proof.
  intros Hok Hlen Hbs. apply wp_done. pose proof Hok as [Hl Hinv].
  assert (Hback : ∀ res m', SpaceManager.free_list_ m = res ++ SpaceManager.free_list_ m' →
    SpaceManager.inused_blocks_ m' = list_to_set res ∪ SpaceManager.inused_blocks_ m →
    SpaceManager.space_ok m' → SpaceManager.same_space m m' → SpaceManager.ReclaimSpace res m' = Done (true, m)).
  { intros res m' Hf Hu Hok' Hsame. destruct (space_NoDup m Hinv) as [Hnd Hdis]. rewrite Hf in Hnd, Hdis.
    pose proof (proj1 (NoDup_app _ _) Hnd) as (Hnd1 & _ & _).
    assert (Hw := wp_ReclaimSpace res m' Hok' Hnd1). apply wp_done in Hw as (r & m2 & E & -> & Hu2 & Hf2 & Hok2 & Hs2).
    2:{ intros b Hb. rewrite Hu. apply elem_of_union. left. by apply elem_of_list_to_set. }
    rewrite E. do 2 f_equal. apply space_ext; [done|done| | |by etrans; [exact Hsame|]].
    - rewrite Hf2, Hf. done.
    - rewrite Hu2, Hu. set_solver. }
  apply wp_AllocateSpace; [done..| |].
  - intros _ m' Hf Hu Hok' Hsame. apply Hback; [|done..]. by rewrite Hf, take_drop.
  - intros _. apply Hback; [done| |done|done]. set_solver.
Qed.

Lemma allocate_reclaim_roundtrip_witness :
  let m := SpaceManager.make 0 (u64 (0 + 16 - 1)) (2 ^ 2) 7 in
  ∃ res m1, SpaceManager.AllocateSpace 9 m = Done (res, m1) ∧
    SpaceManager.ReclaimSpace res m1 = Done (true, m).
Proof. apply allocate_reclaim_roundtrip; [|done..]. apply (make_spec 2 0 16 7); done. Defined.

(** ** The mutex of the inode table *)

(** GetInode of a number that is not in the table answers nullptr and leaves table_lock_ held: from
    then on every method of the table waits for ever. *)
Theorem missing_inode_blocks_table t inum :
  InodeTable.table_ok t → InodeTable.table_ t !! inum = None →
  ∃ t', InodeTable.GetInode inum t = Done (None, t') ∧
    (∀ n, InodeTable.GetInode n t' = Fault Deadlock) ∧
    (∀ n, InodeTable.DeleteInode n t' = Fault Deadlock) ∧
    (∀ ty, InodeTable.AllocateFreeInode ty t' = Fault Deadlock).
Proof.
  intros Hok Hn. eexists. split; [apply GetInode_missing; [apply Hok|done]|].
  split_and!; intros; by apply locked_deadlocks.
Qed.

Lemma missing_inode_blocks_table_witness :
  match InodeTable.make 5 with
  | Done t => ∃ t', InodeTable.GetInode 3 t = Done (None, t') ∧ InodeTable.GetInode 0 t' = Fault Deadlock
  | Fault _ => False
  end.
Proof.
  destruct (make_run 5) as (t & E & Hok & Hf & _); [done|]. rewrite E.
  destruct (missing_inode_blocks_table t 3 Hok) as (t' & E' & Hg & _).
  - apply files_None; [exact Hok|]. rewrite Hf. reflexivity.
  - exists t'. split; [exact E'|exact (Hg 0)].
Defined.
