(* ===== verification/MetaProto.v ===== *)
(** * The messages of the metadata service: protos/spongebob.proto.

    The C++ classes are generated from the .proto file; a message is the record of its fields, with
    a [uint64] or [int64] field as a [Z] and a repeated field as a list.  A reply starts with every
    field at the proto3 default. *)
From S2P Require Import Prelude.
Local Open Scope Z_scope.

Record HelloRequest := { hello_name : string }.
Record HelloReply := { hello_message : string }.

Record ReadRequest := { read_name : string; read_offset : Z; read_length : Z }.
Record WriteRequest := { write_name : string; write_offset : Z; write_length : Z }.

Record FileBlockInfo := BlockInfo {
  block_idx : Z;
  serverid : Z;
  mem_offset : Z;
  length_ : Z;
  buff_offset : Z;
}.

Record ReadReply := { read_block_info : list FileBlockInfo; bytes_read : Z }.
Record WriteReply := { write_block_info : list FileBlockInfo; bytes_write : Z }.

Record DentryInfo := {
  dentry_name : string;
  dentry_is_dir : bool;
  dentry_inum : Z;
  dentry_size : Z;
}.

Record ReadDirectoryRequest := { path : string }.
Record ReadDirectoryReply := { dentry_info : list DentryInfo }.
Record CreateRequest := { create_name : string; create_is_dir : bool }.
Record CreateReply := { create_inum : Z }.
Record OpenRequest := { open_name : string; open_is_dir : bool }.
Record OpenReply := { open_fd : Z }.
Record RemoveRequest := { remove_name : string; remove_is_dir : bool }.
Record RemoveReply := { remove_success : bool }.
Record CloseRequest := { close_fd : Z; close_is_dir : bool }.
Record CloseReply := { close_success : bool }.
Record RegisterMemoryRegionRequest := { nodeid : Z; addr : Z; region_length : Z }.
Record RegisterMemoryRegionReply := { register_success : bool }.

Definition empty_ReadReply : ReadReply := {| read_block_info := []; bytes_read := 0 |}.
Definition empty_WriteReply : WriteReply := {| write_block_info := []; bytes_write := 0 |}.

(** The two values of [grpc::Status] the handlers return. *)
Inductive Status := OK | CANCELLED.

#[export] Instance Status_eq_dec : EqDecision Status.
Proof. solve_decision. Defined.
