(* ===== verification/MetaServer.v ===== *)
(** * The metadata service: [class MetadataServiceImpl] of src/metadata/MetaServer.cpp.

    One definition per handler.  A handler is a computation over the state of the service and
    returns its gRPC status with the reply.  The printing of diagnostics is left out. *)
From S2P Require Import Prelude FsInode FsTable FsFiles FsSpace MetaProto.
Local Open Scope Z_scope.

Definition ROOT_INUM : Z := 0.

(** [rand()]: its [n]-th value. *)
Class Rand := rand : nat → Z.

Record MetadataServiceImpl := Service {
  server_count : Z;
  inode_table_ : InodeTable;
  space_manager_ : gmap Z SpaceManager;
  file_map_ : FileMap;
  cur_server_id_ : Z;
  rand_calls : nat;     (* how often [rand()] has been called *)
}.

Abbreviation Srv := (M MetadataServiceImpl).

Definition table : lens MetadataServiceImpl InodeTable := Lens inode_table_ (λ t s,
  Service (server_count s) t (space_manager_ s) (file_map_ s) (cur_server_id_ s) (rand_calls s)).
Definition fds : lens MetadataServiceImpl FileMap := Lens file_map_ (λ m s,
  Service (server_count s) (inode_table_ s) (space_manager_ s) m (cur_server_id_ s) (rand_calls s)).
Definition set_spaces (m : gmap Z SpaceManager) (s : MetadataServiceImpl) : MetadataServiceImpl :=
  Service (server_count s) (inode_table_ s) m (file_map_ s) (cur_server_id_ s) (rand_calls s).

(** [MetadataServiceImpl::MetadataServiceImpl(int)] *)
Definition make_service (server_count : Z) : outcome MetadataServiceImpl :=
  match InodeTable.make 100 with
  | Done t => Done (Service server_count t ∅ (FileMap.make 100) 1 0)
  | Fault f => Fault f
  end.

Definition GetInode (inum : Z) : Srv (option ptr) := zoom table (InodeTable.GetInode inum).

(** [p->m()] for an inode pointer a handler holds. *)
Definition on_inode {A} (p : option ptr) (m : M Inode A) : Srv A :=
  zoom table (InodeTable.on_inode p m).

(** What a [shared_ptr<Inode>] argument points to. *)
Definition deref (p : option ptr) : Srv (option Inode) :=
  h ← gets (λ s, InodeTable.heap (inode_table_ s));
  mret (q ← p; h !! q).

(** [space_manager_[k]->m()]; a key that is absent maps to nullptr. *)
Definition on_space {A} (k : Z) (m : M SpaceManager A) : Srv A := λ s,
  match space_manager_ s !! k with
  | None => Fault NullDeref
  | Some sm =>
      match m sm with
      | Done (a, sm') => Done (a, set_spaces (<[k := sm']> (space_manager_ s)) s)
      | Fault f => Fault f
      end
  end.

(** [inline int randInt(int n) { return rand() % n; }] *)
Definition randInt `{Rand} (n : Z) : Srv Z := λ s,
  if n =? 0 then Fault DivByZero
  else Done (Z.rem (rand (rand_calls s)) n,
    Service (server_count s) (inode_table_ s) (space_manager_ s) (file_map_ s)
            (cur_server_id_ s) (S (rand_calls s))).

Definition SayHello (request : HelloRequest) : Srv (Status * HelloReply) :=
  let prefix := "Hello "%string in
  mret (OK, {| hello_message := (prefix ++ hello_name request)%string |}).

Definition InitBlockInfo (idx server_id offset length buff : Z) : FileBlockInfo :=
  BlockInfo idx server_id offset length buff.

(** The local variables of the block loops: the reply under construction, [buff_offset],
    [to_read_length] or [to_write_length], and [start_block]. *)
Record cursor := Cursor {
  c_reply : list FileBlockInfo;
  c_buff : Z;
  c_left : Z;
  c_block : Z;
}.

(** ** ReadFile *)

(** First unaligned block. *)
Definition read_first_block (start_offset : Z) (c : cursor) : M Inode cursor :=
  if negb (Z.land start_offset FILE_BLOCK_MASK =? 0) then
    cur_block_info ← Inode.GetBlockInfo (c_block c);
    let inner_offset := Z.land start_offset FILE_BLOCK_MASK in
    let bytes_read := Z.min (u64 (FILE_BLOCK_SIZE - inner_offset)) (c_left c) in
    mret (Cursor
      (c_reply c ++ [InitBlockInfo (c_block c) (fb_server_id cur_block_info)
         (u64 (fb_start_addr cur_block_info + inner_offset)) bytes_read (c_buff c)])
      (u64 (c_buff c + bytes_read)) (u64 (c_left c - bytes_read)) (u64 (c_block c + 1)))
  else mret c.

(** [while (to_read_length >= FILE_BLOCK_SIZE)] *)
Fixpoint read_full_blocks (fuel : nat) (c : cursor) : M Inode cursor :=
  match fuel with
  | O => fail OutOfFuel
  | S fuel =>
      if FILE_BLOCK_SIZE <=? c_left c then
        cur_block_info ← Inode.GetBlockInfo (c_block c);
        read_full_blocks fuel (Cursor
          (c_reply c ++ [InitBlockInfo (c_block c) (fb_server_id cur_block_info)
             (fb_start_addr cur_block_info) FILE_BLOCK_SIZE (c_buff c)])
          (u64 (c_buff c + FILE_BLOCK_SIZE)) (u64 (c_left c - FILE_BLOCK_SIZE))
          (u64 (c_block c + 1)))
      else mret c
  end.

Definition read_last_block (c : cursor) : M Inode cursor :=
  if negb (c_left c =? 0) then
    cur_block_info ← Inode.GetBlockInfo (c_block c);
    mret (Cursor
      (c_reply c ++ [InitBlockInfo (c_block c) (fb_server_id cur_block_info)
         (fb_start_addr cur_block_info) (c_left c) (c_buff c)])
      (u64 (c_buff c + FILE_BLOCK_SIZE)) 0 (c_block c))
  else mret c.

(** The fuel of the two [while] loops: a round that does not leave the loop reads a block of the file
    and the next round reads the next one, so one round more than there are blocks leaves the loop
    or reads out of bounds. *)
Definition block_fuel (i : Inode) : nat := S (length (Inode.block_info_list_ i)).

Definition read_blocks (start_offset read_length : Z) : M Inode cursor :=
  c1 ← read_first_block start_offset
         (Cursor [] 0 read_length (start_offset / FILE_BLOCK_SIZE));
  fuel ← gets block_fuel;
  c2 ← read_full_blocks fuel c1;
  read_last_block c2.

(** The length the code reads: clipped to the end of the file by an unsigned subtraction. *)
Definition clip (size start_offset read_length : Z) : Z :=
  if size <? u64 (start_offset + read_length) then u64 (size - start_offset) else read_length.

(** The second half of ReadFile: the file is [file_inode]. *)
Definition read_inode (file_inode : option ptr) (start_offset read_length : Z) :
    Srv (Status * ReadReply) :=
  (if decide (file_inode = None) then fail AssertFailed else mret ());;
  size ← on_inode file_inode (gets Inode.GetSize);
  let read_length := clip size start_offset read_length in
  c ← on_inode file_inode (read_blocks start_offset read_length);
  let to_read_length := 0 in
  mret (OK, {| read_block_info := c_reply c; bytes_read := u64 (read_length - to_read_length) |}).

(** [file_dentry->GetInodeNum()] comes before the null test. *)
Definition ReadFile `{StringHash} (request : ReadRequest) : Srv (Status * ReadReply) :=
  root_inode ← GetInode ROOT_INUM;
  match root_inode with
  | None => mret (CANCELLED, empty_ReadReply)
  | Some _ =>
    let file_name := read_name request in
    let start_offset := read_offset request in
    file_dentry ← on_inode root_inode (gets (Inode.GetDentry file_name));
    file_inum ← or_fault NullDeref (Dentry.GetInodeNum <$> file_dentry);
    match file_dentry with
    | None => mret (CANCELLED, empty_ReadReply)
    | Some _ =>
      file_inode ← GetInode file_inum;
      read_inode file_inode start_offset (read_length request)
    end
  end.

(** ** WriteFile *)

(** [uint64_t CreateFile_(const std::string &name, bool is_dir)]: [is_dir] is not looked at. *)
Definition CreateFile_ `{StringHash} (name : string) (is_dir : bool) : Srv Z :=
  root_inode ← GetInode ROOT_INUM;
  match root_inode with
  | None => gets (λ s, u64 (InodeTable.GetTotalSize (inode_table_ s) + 1))
  | Some _ =>
    new_inum ← zoom table InodeTable.AllocateFileInode;
    on_inode root_inode (Inode.AddDentry name new_inum);;
    mret new_inum
  end.

(** The walk over [space_manager_] to its [r]-th key. *)
Fixpoint pick_server (keys : list Z) (curr_idx r : Z) : Z :=
  match keys with
  | [] => -1
  | k :: keys' => if curr_idx =? r then k else pick_server keys' (curr_idx + 1) r
  end.

(** One round of the loop that enlarges the file. *)
Definition append_block `{Rand} (file_inode : option ptr) : Srv unit :=
  n ← gets (λ s, s32 (Z.of_nat (size (space_manager_ s))));
  r ← randInt n;
  keys ← gets (λ s, map_keys (space_manager_ s));
  let server_id := pick_server keys 0 r in
  block_nr ← on_space server_id SpaceManager.AllocateOneBlock;
  on_inode file_inode (Inode.AppendFileBlockInfo (u64 server_id)
    (u64 (block_nr * FILE_BLOCK_SIZE)) 0 block_nr).

Fixpoint append_blocks `{Rand} (n : nat) (file_inode : option ptr) : Srv unit :=
  match n with
  | O => mret ()
  | S n' => append_block file_inode;; append_blocks n' file_inode
  end.

Definition write_first_block (start_offset : Z) (c : cursor) : M Inode cursor :=
  if negb (Z.land start_offset FILE_BLOCK_MASK =? 0) then
    cur_block_info ← Inode.GetBlockInfo (c_block c);
    let cur_length := fb_length cur_block_info in
    let inner_offset := Z.land start_offset FILE_BLOCK_MASK in
    let bytes_write := Z.min (u64 (FILE_BLOCK_SIZE - inner_offset)) (c_left c) in
    Inode.ChangeFileBlockInfoLength (c_block c) (u64 (cur_length + bytes_write));;
    mret (Cursor
      (c_reply c ++ [InitBlockInfo (c_block c) (fb_server_id cur_block_info)
         (u64 (fb_start_addr cur_block_info + inner_offset)) bytes_write (c_buff c)])
      (u64 (c_buff c + bytes_write)) (u64 (c_left c - bytes_write)) (u64 (c_block c + 1)))
  else mret c.

Fixpoint write_full_blocks (fuel : nat) (c : cursor) : M Inode cursor :=
  match fuel with
  | O => fail OutOfFuel
  | S fuel =>
      if FILE_BLOCK_SIZE <=? c_left c then
        cur_block_info ← Inode.GetBlockInfo (c_block c);
        Inode.ChangeFileBlockInfoLength (c_block c) FILE_BLOCK_SIZE;;
        write_full_blocks fuel (Cursor
          (c_reply c ++ [InitBlockInfo (c_block c) (fb_server_id cur_block_info)
             (fb_start_addr cur_block_info) FILE_BLOCK_SIZE (c_buff c)])
          (u64 (c_buff c + FILE_BLOCK_SIZE)) (u64 (c_left c - FILE_BLOCK_SIZE))
          (u64 (c_block c + 1)))
      else mret c
  end.

Definition write_last_block (c : cursor) : M Inode cursor :=
  if negb (c_left c =? 0) then
    cur_block_info ← Inode.GetBlockInfo (c_block c);
    Inode.ChangeFileBlockInfoLength (c_block c) (c_left c);;
    mret (Cursor
      (c_reply c ++ [InitBlockInfo (c_block c) (fb_server_id cur_block_info)
         (fb_start_addr cur_block_info) (c_left c) (c_buff c)])
      (c_buff c) 0 (c_block c))
  else mret c.

Definition write_blocks (start_offset write_length : Z) : M Inode cursor :=
  c1 ← write_first_block start_offset
         (Cursor [] 0 write_length (start_offset / FILE_BLOCK_SIZE));
  fuel ← gets block_fuel;
  c2 ← write_full_blocks fuel c1;
  write_last_block c2.

Definition blocks_needed (start_offset write_length : Z) : Z :=
  u64 (start_offset + write_length + FILE_BLOCK_SIZE - 1) / FILE_BLOCK_SIZE.

(** The second half of WriteFile: the file is [file_inode]. *)
Definition write_inode `{Rand} (file_inode : option ptr) (start_offset write_length : Z) :
    Srv (Status * WriteReply) :=
  let total_blocks := blocks_needed start_offset write_length in
  block_num ← on_inode file_inode (gets Inode.GetBlockNum);
  (if block_num <? total_blocks then
    let new_blocks_num := s32 (u64 (total_blocks - block_num)) in
    append_blocks (Z.to_nat new_blocks_num) file_inode
  else mret ());;
  c ← on_inode file_inode (write_blocks start_offset write_length);
  let to_write_length := 0 in
  on_inode file_inode (Inode.SetSize (u64 (start_offset + write_length - to_write_length)));;
  mret (OK, {| write_block_info := c_reply c; bytes_write := u64 (write_length - to_write_length) |}).

Definition WriteFile `{StringHash, Rand} (request : WriteRequest) : Srv (Status * WriteReply) :=
  root_inode ← GetInode ROOT_INUM;
  match root_inode with
  | None => mret (CANCELLED, empty_WriteReply)
  | Some _ =>
    let file_name := write_name request in
    found ← on_inode root_inode (gets (Inode.GetDentry file_name));
    file_dentry ←
      match found with
      | None => CreateFile_ file_name false;; on_inode root_inode (gets (Inode.GetDentry file_name))
      | Some _ => mret found
      end;
    file_inum ← or_fault NullDeref (Dentry.GetInodeNum <$> file_dentry);
    file_inode ← GetInode file_inum;
    write_inode file_inode (write_offset request) (write_length request)
  end.

(** ** The other handlers *)

Definition CreateFile `{StringHash} (request : CreateRequest) : Srv (Status * CreateReply) :=
  root_inode ← GetInode ROOT_INUM;
  match root_inode with
  | None => mret (CANCELLED, {| create_inum := 0 |})
  | Some _ =>
    let filename := create_name request in
    dentry ← on_inode root_inode (gets (Inode.GetDentry filename));
    match dentry with
    | Some d => mret (OK, {| create_inum := Dentry.GetInodeNum d |})
    | None =>
      new_inum ←
        (if negb (create_is_dir request) then zoom table InodeTable.AllocateFileInode
         else zoom table InodeTable.AllocateDirInode);
      on_inode root_inode (Inode.AddDentry filename new_inum);;
      mret (OK, {| create_inum := new_inum |})
    end
  end.

(** The key of [space_manager_] is an [int]. *)
Definition RegisterMemoryRegion (request : RegisterMemoryRegionRequest) :
    Srv (Status * RegisterMemoryRegionReply) :=
  let start_addr := addr request in
  let length' := region_length request in
  modify (λ s, set_spaces (<[s32 (nodeid request) :=
    SpaceManager.make start_addr (u64 (start_addr + length' - 1)) FILE_BLOCK_SIZE (nodeid request)]>
      (space_manager_ s)) s);;
  mret (OK, {| register_success := false |}).

(** The entry of the reply for one directory entry. *)
Definition list_dentry (d : Dentry) : Srv DentryInfo :=
  file_inode ← GetInode (Dentry.GetInodeNum d);
  is_dir ← on_inode file_inode (gets Inode.IsDir);
  size ← on_inode file_inode (gets Inode.GetSize);
  mret {| dentry_name := Dentry.GetName d; dentry_inum := Dentry.GetInodeNum d;
          dentry_is_dir := is_dir; dentry_size := size |}.

Fixpoint list_dentries (l : list Dentry) : Srv (list DentryInfo) :=
  match l with
  | [] => mret []
  | d :: l' => info ← list_dentry d; infos ← list_dentries l'; mret (info :: infos)
  end.

Definition dot_dentry (name : string) : DentryInfo :=
  {| dentry_name := name; dentry_inum := ROOT_INUM; dentry_is_dir := true;
     dentry_size := FILE_BLOCK_SIZE |}.

(** The order of an [unordered_map] is unspecified: the entries come in the order of [map_to_list],
    and nothing is proved about it. *)
Definition ReadDirectory (request : ReadDirectoryRequest) : Srv (Status * ReadDirectoryReply) :=
  root_inode ← GetInode ROOT_INUM;
  match root_inode with
  | None => mret (CANCELLED, {| dentry_info := [] |})
  | Some _ =>
    dentry_map ← on_inode root_inode (gets Inode.GetDentryMap);
    infos ← list_dentries (map_to_list dentry_map).*2;
    mret (OK, {| dentry_info := dot_dentry "." :: dot_dentry ".." :: infos |})
  end.

Definition OpenFile `{StringHash} (request : OpenRequest) : Srv (Status * OpenReply) :=
  root_inode ← GetInode ROOT_INUM;
  match root_inode with
  | None => mret (CANCELLED, {| open_fd := 0 |})
  | Some _ =>
    let filename := open_name request in
    dentry ← on_inode root_inode (gets (Inode.GetDentry filename));
    (match dentry with
     | None => CreateFile_ filename false;; mret ()
     | Some _ => mret ()
     end);;
    new_fd ← zoom fds FileMap.AllocateFD;
    mret (OK, {| open_fd := new_fd |})
  end.

Definition CloseFile (request : CloseRequest) : Srv (Status * CloseReply) :=
  let fd := close_fd request in
  success ← zoom fds (FileMap.ReclaimFD (u64 fd));
  mret (OK, {| close_success := success |}).

(** One round of [for (auto &sm : space_manager_)]. *)
Definition reclaim_on (inum k : Z) : Srv unit :=
  p ← GetInode inum;
  i ← deref p;
  on_space k (SpaceManager.ReclaimInodeSpace i);;
  mret ().

Definition RemoveFile `{StringHash} (request : RemoveRequest) : Srv (Status * RemoveReply) :=
  root_inode ← GetInode ROOT_INUM;
  match root_inode with
  | None => mret (CANCELLED, {| remove_success := false |})
  | Some _ =>
    let filename := remove_name request in
    dentry ← on_inode root_inode (gets (Inode.GetDentry filename));
    match dentry with
    | None => mret (OK, {| remove_success := false |})
    | Some d =>
      let inum := Dentry.GetInodeNum d in
      on_inode root_inode (Inode.DeleteDentry filename);;
      keys ← gets (λ s, map_keys (space_manager_ s));
      for_each keys (reclaim_on inum);;
      zoom table (InodeTable.DeleteInode inum);;
      mret (OK, {| remove_success := true |})
    end
  end.
