(* ===== verification/MetaPlan.v ===== *)
(** * Block lists: what the replies of ReadFile and WriteFile mean, byte by byte.

    A reply is a list of [FileBlockInfo]; each entry asks the client to move [length_] bytes between
    its buffer, from [buff_offset], and the memory of a storage server, from [mem_offset].  This file
    gives the list that meaning ([plan_bytes]) and shows that the loops of the two handlers compute a
    list whose meaning is the reference ([file_bytes]): every byte of the requested range, in order,
    at the place the inode stores it. *)
From S2P Require Import Prelude FsInode MetaProto MetaServer.
Local Open Scope Z_scope.

(** Position in the buffer, and where the byte at that position is stored. *)
Definition entry_bytes (e : FileBlockInfo) : list (Z * option (Z * Z)) :=
  (λ k, (buff_offset e + k, Some (serverid e, mem_offset e + k))) <$> seqZ 0 (length_ e).

Definition plan_bytes (es : list FileBlockInfo) : list (Z * option (Z * Z)) := es ≫= entry_bytes.

(** The reference: bytes [off .. off+len-1] of the file into the buffer from [base]. *)
Definition file_bytes (i : Inode) (off base len : Z) : list (Z * option (Z * Z)) :=
  (λ k, (base + k, byte_loc i (off + k))) <$> seqZ 0 len.

(** Each block lies inside the 64-bit address space of its server. *)
Definition blocks_fit (i : Inode) : Prop :=
  Forall (λ b, 0 ≤ fb_start_addr b ∧ fb_start_addr b + FILE_BLOCK_SIZE ≤ 2 ^ 64)
    (Inode.block_info_list_ i).

(** The range from [off] that the cursor still has to cover lies in the blocks of the file. *)
Record cursor_ok (i : Inode) (off : Z) (c : cursor) : Prop := {
  cur_pos : 0 ≤ off ∧ (0 < c_left c → off / FILE_BLOCK_SIZE = c_block c);
  cur_buff : 0 ≤ c_buff c ∧ 0 ≤ c_left c ∧ c_buff c + c_left c < 2 ^ 64;
  cur_end : off + c_left c ≤ Inode.GetBlockNum i * FILE_BLOCK_SIZE ∧ off + c_left c < 2 ^ 64;
}.

(** After the first block the cursor is at the start of a block, or has nothing left. *)
Definition ready (i : Inode) (off : Z) (c : cursor) : Prop :=
  cursor_ok i off c ∧ (0 < c_left c → off `mod` FILE_BLOCK_SIZE = 0).

(** From [c] at [off] to [c'] at [off'] the loops added entries that cover [off..off'-1], none longer
    than a block. *)
Definition covers (i : Inode) (off : Z) (c : cursor) (off' : Z) (c' : cursor) : Prop :=
  ∃ new, c_reply c' = c_reply c ++ new ∧
    file_bytes i off (c_buff c) (c_left c) =
      plan_bytes new ++ file_bytes i off' (c_buff c') (c_left c') ∧
    Forall (λ e, 0 ≤ length_ e ≤ FILE_BLOCK_SIZE) new.

(** ** Lemmas *)

Section plan_lemmas.
Implicit Types (i : Inode) (c : cursor).
Local Notation BS := FILE_BLOCK_SIZE.

Lemma block_index off n : 0 ≤ off → 0 ≤ n → off `mod` BS + n < BS →
  (off + n) / BS = off / BS ∧ (off + n) `mod` BS = off `mod` BS + n.
Proof.
  intros Ho Hn Hlt. rewrite FILE_BLOCK_SIZE_eq in *.
  pose proof (Z.div_mod off (2 ^ 20) ltac:(lia)) as Hdm.
  pose proof (Z.mod_pos_bound off (2 ^ 20) ltac:(lia)).
  assert (Hq : (off + n) / 2 ^ 20 = off / 2 ^ 20).
  { symmetry. apply Z.div_unique with (off `mod` 2 ^ 20 + n); lia. }
  split; [done|]. rewrite Z.mod_eq, Hq by lia. lia.
Qed.

Lemma length_file_bytes i off base len : length (file_bytes i off base len) = Z.to_nat len.
Proof. unfold file_bytes. by rewrite length_fmap, length_seqZ. Qed.

Lemma file_bytes_app i off base a b : 0 ≤ a → 0 ≤ b →
  file_bytes i off base (a + b) = file_bytes i off base a ++ file_bytes i (off + a) (base + a) b.
Proof.
  intros Ha Hb. unfold file_bytes. rewrite seqZ_app, fmap_app by lia. f_equal.
  replace (seqZ (0 + a) b) with (Z.add a <$> seqZ 0 b) by (rewrite fmap_add_seqZ; f_equal; lia).
  rewrite <- list_fmap_compose.
  apply list_fmap_ext. intros _ k _. simpl. by rewrite !Z.add_assoc.
Qed.

Lemma file_bytes_0 i off base : file_bytes i off base 0 = [].
Proof. done. Qed.

#[export] Instance file_bytes_proper :
  Proper (same_layout ==> eq ==> eq ==> eq ==> eq) file_bytes.
Proof.
  intros i i' Hi off ? <- base ? <- len ? <-. unfold file_bytes.
  apply list_fmap_ext. intros _ k _. by rewrite Hi.
Qed.

Lemma plan_bytes_app es es' : plan_bytes (es ++ es') = plan_bytes es ++ plan_bytes es'.
Proof. apply bind_app. Qed.

(** The one fact about a block list: an entry inside one block is that piece of the file. *)
Lemma entry_is_file i off b n base idx :
  0 ≤ off → 0 ≤ n → off `mod` BS + n ≤ BS →
  Inode.block_info_list_ i !! Z.to_nat (off / BS) = Some b →
  entry_bytes (InitBlockInfo idx (fb_server_id b) (fb_start_addr b + off `mod` BS) n base) =
    file_bytes i off base n.
Proof.
  intros Ho Hn Hle Hb. unfold entry_bytes, file_bytes. apply list_fmap_ext. simpl.
  intros j k Hj. apply lookup_seqZ in Hj as [-> Hk].
  destruct (block_index off (0 + Z.of_nat j)) as [Hq Hr]; [lia..|].
  unfold byte_loc. rewrite Hq, Hb, Hr. simpl. by rewrite <- Z.add_assoc.
Qed.

Lemma covers_refl i off c : covers i off c off c.
Proof. exists []. by rewrite app_nil_r. Qed.

Lemma covers_trans i off c off' c' off'' c'' :
  covers i off c off' c' → covers i off' c' off'' c'' → covers i off c off'' c''.
Proof.
  intros (l & Hr & Hl & Hf) (l' & Hr' & Hl' & Hf'). exists (l ++ l').
  by rewrite Hr', Hr, plan_bytes_app, Hl, Hl', !app_assoc, Forall_app.
Qed.

#[export] Instance covers_proper :
  Proper (same_layout ==> eq ==> eq ==> eq ==> eq ==> iff) covers.
Proof.
  intros i i' Hi off ? <- c ? <- off' ? <- c' ? <-. unfold covers. by setoid_rewrite Hi.
Qed.

#[export] Instance cursor_ok_proper : Proper (same_layout ==> eq ==> eq ==> iff) cursor_ok.
Proof.
  intros i i' Hi off ? <- c ? <-. split; intros []; split; try done; [by rewrite <- Hi|by rewrite Hi].
Qed.

#[export] Instance ready_proper : Proper (same_layout ==> eq ==> eq ==> iff) ready.
Proof. intros i i' Hi off ? <- c ? <-. unfold ready. by rewrite Hi. Qed.

#[export] Instance blocks_fit_proper : Proper (same_layout ==> iff) blocks_fit.
Proof.
  assert (Hone : ∀ i i', same_layout i i' → blocks_fit i → blocks_fit i').
  { unfold blocks_fit. intros i i' (_&_&_&_&_&Hl). rewrite !Forall_lookup. intros Hi n b' Hb'.
    destruct (Forall2_lookup_r _ _ _ _ _ Hl Hb') as (b & Hb & _ & Ha & _).
    rewrite <- Ha. eauto. }
  intros i i' Hi. split; apply Hone; [done|by symmetry].
Qed.

Lemma block_lookup i n : 0 ≤ n < Inode.GetBlockNum i →
  ∃ b, Inode.block_info_list_ i !! Z.to_nat n = Some b.
Proof.
  unfold Inode.GetBlockNum. intros Hn.
  destruct (lookup_lt_is_Some_2 (Inode.block_info_list_ i) (Z.to_nat n)) as [b Hb]; [lia|eauto].
Qed.

(** The block under the cursor exists. *)
Lemma cursor_block i off c : cursor_ok i off c → 0 < c_left c → 0 ≤ c_block c < Inode.GetBlockNum i.
Proof.
  intros [[H0 Hq] Hb [He _]] Hl. rewrite <- Hq by done. rewrite FILE_BLOCK_SIZE_eq in *.
  split; [apply Z.div_pos; lia|apply Z.div_lt_upper_bound; lia].
Qed.

(** One step over [n] bytes of the block under the cursor. *)
Lemma step_covers i off c b n buff' block' :
  0 ≤ off → Inode.block_info_list_ i !! Z.to_nat (off / BS) = Some b →
  0 ≤ n ≤ c_left c → off `mod` BS + n ≤ BS → (n < c_left c → buff' = c_buff c + n) →
  covers i off c (off + n) (Cursor
    (c_reply c ++ [InitBlockInfo (c_block c) (fb_server_id b) (fb_start_addr b + off `mod` BS) n
                     (c_buff c)])
    buff' (c_left c - n) block').
Proof.
  intros H0 Hblk Hn Hle Hbuff. eexists. split; [done|]. simpl. rewrite app_nil_r. split.
  - rewrite (entry_is_file i off) by (done || lia).
    destruct (decide (n = c_left c)) as [->|Hne].
    + by rewrite Z.sub_diag, file_bytes_0, app_nil_r.
    + rewrite Hbuff, <- file_bytes_app by lia. f_equal. lia.
  - repeat constructor; simpl; pose proof (Z.mod_pos_bound off BS ltac:(done)); lia.
Qed.

Lemma block_bound off : 0 ≤ off < 2 ^ 64 → 0 ≤ off / BS < 2 ^ 44.
Proof.
  rewrite FILE_BLOCK_SIZE_eq. intros Ho.
  split; [apply Z.div_pos; lia|apply Z.div_lt_upper_bound; lia].
Qed.

(** The three kinds of step, as the source writes them. *)
Lemma first_step i off c b :
  cursor_ok i off c → blocks_fit i → c_block c = off / BS → off `mod` BS ≠ 0 →
  Inode.block_info_list_ i !! Z.to_nat (c_block c) = Some b →
  let n := Z.min (u64 (BS - Z.land off FILE_BLOCK_MASK)) (c_left c) in
  let c' := Cursor
    (c_reply c ++ [InitBlockInfo (c_block c) (fb_server_id b)
       (u64 (fb_start_addr b + Z.land off FILE_BLOCK_MASK)) n (c_buff c)])
    (u64 (c_buff c + n)) (u64 (c_left c - n)) (u64 (c_block c + 1)) in
  ready i (off + n) c' ∧ covers i off c (off + n) c'.
Proof.
  intros [[H0 _] Hb [He1 He2]] Hfit Hq Hne Hblk n c'. subst n c'.
  pose proof (Z.mod_pos_bound off BS ltac:(done)) as Hm. rewrite FILE_BLOCK_MASK_mod.
  pose proof (block_bound off ltac:(lia)) as Hk. pose proof FILE_BLOCK_SIZE_eq as HBS.
  destruct (proj1 (Forall_lookup _ _) Hfit _ _ Hblk) as [Ha1 Ha2].
  rewrite (u64_small (BS - _)), (u64_small (fb_start_addr b + _)), (u64_small (c_buff c + _)),
    (u64_small (c_left c - _)), (u64_small (c_block c + 1)) by lia.
  set (n := Z.min (BS - off `mod` BS) (c_left c)) in *. split; [|apply step_covers; congruence || lia].
  assert (Hnext : n < c_left c → off + n = (off / BS + 1) * BS).
  { pose proof (Z.div_mod off BS ltac:(done)). lia. }
  split; [split; simpl|simpl]; [|lia|lia|].
  - split; [lia|]. intros Hl. rewrite Hnext, Hq by lia. by apply Z.div_mul.
  - intros Hl. rewrite Hnext by lia. by apply Z_mod_mult.
Qed.

Lemma full_step i off c b :
  ready i off c → BS ≤ c_left c → Inode.block_info_list_ i !! Z.to_nat (c_block c) = Some b →
  let c' := Cursor
    (c_reply c ++ [InitBlockInfo (c_block c) (fb_server_id b) (fb_start_addr b) BS (c_buff c)])
    (u64 (c_buff c + BS)) (u64 (c_left c - BS)) (u64 (c_block c + 1)) in
  ready i (off + BS) c' ∧ covers i off c (off + BS) c' ∧ c_block c' = c_block c + 1.
Proof.
  intros [[[H0 Hq] Hb [He1 He2]] Hal] Hle Hblk c'. subst c'.
  pose proof FILE_BLOCK_SIZE_eq as HBS. pose proof (block_bound off ltac:(lia)) as Hk.
  specialize (Hq ltac:(lia)). specialize (Hal ltac:(lia)).
  rewrite (u64_small (c_buff c + _)), (u64_small (c_left c - _)), (u64_small (c_block c + 1)) by lia.
  pose proof (step_covers i off c b BS (c_buff c + BS) (c_block c + 1)) as Hs.
  rewrite Hal, Z.add_0_r in Hs. split_and!; [|apply Hs; congruence || lia|done].
  split; [split; simpl|simpl]; [|lia|lia|].
  - split; [lia|]. intros _. rewrite <- Hq. replace (off + BS) with (off + 1 * BS) by lia.
    by rewrite Z.div_add.
  - intros _. replace (off + BS) with (off + 1 * BS) by lia. by rewrite Z_mod_plus_full.
Qed.

Lemma last_step i off c b buff' :
  ready i off c → 0 < c_left c < BS → Inode.block_info_list_ i !! Z.to_nat (c_block c) = Some b →
  covers i off c (off + c_left c) (Cursor
    (c_reply c ++ [InitBlockInfo (c_block c) (fb_server_id b) (fb_start_addr b) (c_left c) (c_buff c)])
    buff' 0 (c_block c)).
Proof.
  intros [[[H0 Hq] Hb He] Hal] Hle Hblk. specialize (Hq ltac:(lia)). specialize (Hal ltac:(lia)).
  pose proof (step_covers i off c b (c_left c) buff' (c_block c)) as Hs.
  rewrite Hal, Z.add_0_r, Z.sub_diag in Hs. apply Hs; congruence || lia.
Qed.
End plan_lemmas.

(** ** The loops *)

Section plan_loops.
Implicit Types (i : Inode) (c : cursor).
Local Notation BS := FILE_BLOCK_SIZE.

(** What a stage of the plan establishes, for a stage that leaves the layout alone. *)
Definition stage (i : Inode) (off : Z) (c : cursor) (c' : cursor) : Prop :=
  ∃ off', ready i off' c' ∧ covers i off c off' c'.

Lemma stage_trans i off c c' c'' :
  stage i off c c' → (∀ off', ready i off' c' → stage i off' c' c'') → stage i off c c''.
Proof.
  intros (off' & Hr & Hc) Hs. destruct (Hs off' Hr) as (off'' & Hr' & Hc').
  exists off''. split; [done|]. by eapply covers_trans.
Qed.

#[export] Instance stage_proper : Proper (same_layout ==> eq ==> eq ==> eq ==> iff) stage.
Proof. intros i i' Hi off ? <- c ? <- c' ? <-. unfold stage. by setoid_rewrite Hi. Qed.

Lemma first_block_lookup i off c :
  cursor_ok i off c → off `mod` BS ≠ 0 → c_block c = off / BS → 0 ≤ c_block c < Inode.GetBlockNum i.
Proof.
  intros [[H0 _] Hb [He _]] Hne ->. pose proof FILE_BLOCK_SIZE_eq as HBS.
  pose proof (Z.mod_pos_bound off BS ltac:(done)). pose proof (Z.div_mod off BS ltac:(done)).
  split; [apply Z.div_pos; lia|]. apply Z.div_lt_upper_bound; [lia|].
  destruct (decide (off = Inode.GetBlockNum i * BS)) as [Heq|]; [|lia].
  destruct Hne. rewrite Heq. by apply Z_mod_mult.
Qed.

Lemma unaligned_test off : negb (Z.land off FILE_BLOCK_MASK =? 0) = true ↔ off `mod` BS ≠ 0.
Proof. by rewrite FILE_BLOCK_MASK_mod, negb_true_iff, Z.eqb_neq. Qed.

Lemma aligned_stage i off c : cursor_ok i off c → off `mod` BS = 0 → stage i off c c.
Proof. intros Hc Hm. exists off. split; [done|apply covers_refl]. Qed.

Lemma wp_read_first i off c :
  cursor_ok i off c → blocks_fit i → c_block c = off / BS →
  wp (read_first_block off c) (λ c' i', i' = i ∧ stage i off c c') i.
Proof.
  intros Hc Hfit Hq. unfold read_first_block. destruct (negb _) eqn:Ht.
  - apply unaligned_test in Ht.
    destruct (block_lookup i (c_block c)) as [b Hb]; [by eapply first_block_lookup|].
    wp_auto. apply (wp_GetBlockInfo _ b); [done|]. wp_auto. split; [done|].
    eexists. by apply (first_step i off c b).
  - wp_auto. split; [done|]. apply aligned_stage; [done|].
    rewrite <- not_true_iff_false, unaligned_test in Ht. lia.
Qed.

Lemma wp_read_full fuel i off c :
  ready i off c → 0 < Z.of_nat fuel →
  (0 < c_left c → Inode.GetBlockNum i - c_block c < Z.of_nat fuel) →
  wp (read_full_blocks fuel c) (λ c' i', i' = i ∧ c_left c' < BS ∧ stage i off c c') i.
Proof.
  revert off c. induction fuel as [|fuel IH]; intros off c Hr Hpos Hfuel; [lia|]. simpl.
  destruct (Z.leb_spec BS (c_left c)) as [Hle|Hlt].
  - pose proof FILE_BLOCK_SIZE_eq. pose proof (cursor_block i off c (proj1 Hr) ltac:(lia)) as Hblk.
    destruct (block_lookup i (c_block c) Hblk) as [b Hb].
    destruct (full_step i off c b Hr Hle Hb) as (Hr' & Hc' & Hn).
    wp_auto. apply (wp_GetBlockInfo _ b); [done|].
    eapply wp_mono; [eapply IH; [exact Hr'|lia|rewrite Hn; lia]|].
    intros c' i' (-> & Hl & Hs). split_and!; [done..|].
    destruct Hs as (off' & ? & ?). exists off'. split; [done|]. by eapply covers_trans.
  - wp_auto. split_and!; [done..|]. exists off. split; [done|apply covers_refl].
Qed.

Lemma wp_read_last i off c :
  ready i off c → c_left c < BS →
  wp (read_last_block c) (λ c' i', i' = i ∧ c_left c' = 0 ∧ ∃ off', covers i off c off' c') i.
Proof.
  intros Hr Hlt. pose proof (cur_buff _ _ _ (proj1 Hr)). unfold read_last_block.
  destruct (Z.eqb_spec (c_left c) 0) as [He|Hne]; simpl.
  - wp_auto. split_and!; [done..|]. exists off. apply covers_refl.
  - pose proof (cursor_block i off c (proj1 Hr) ltac:(lia)) as Hblk.
    destruct (block_lookup i (c_block c) Hblk) as [b Hb].
    wp_auto. apply (wp_GetBlockInfo _ b); [done|]. wp_auto. split_and!; [done..|].
    eexists. apply last_step; [done|lia|done].
Qed.

(** The whole plan: nothing left, and the bytes of the range in order. *)
Definition plans (i : Inode) (off len : Z) (c : cursor) : Prop :=
  c_left c = 0 ∧ plan_bytes (c_reply c) = file_bytes i off 0 len ∧
  Forall (λ e, 0 ≤ length_ e ≤ BS) (c_reply c).

(** No entry is longer than a block, and a range inside one block has one entry. *)
Definition in_one_block (i : Inode) (off len : Z) (es : list FileBlockInfo) : Prop :=
  0 < len → off `mod` BS + len ≤ BS →
  ∃ b, Inode.block_info_list_ i !! Z.to_nat (off / BS) = Some b ∧
    es = [InitBlockInfo (off / BS) (fb_server_id b) (fb_start_addr b + off `mod` BS) len 0].

Definition tidy (i : Inode) (off len : Z) (es : list FileBlockInfo) : Prop :=
  Forall (λ e, 0 ≤ length_ e ≤ BS) es ∧ in_one_block i off len es.

Lemma start_cursor_ok i off len :
  0 ≤ off → 0 ≤ len < 2 ^ 64 → off + len ≤ Inode.GetBlockNum i * BS → off + len < 2 ^ 64 →
  cursor_ok i off (Cursor [] 0 len (off / BS)).
Proof. intros. split; simpl; lia. Qed.

Lemma covers_plans i off len off' c' :
  covers i off (Cursor [] 0 len (off / BS)) off' c' → c_left c' = 0 → plans i off len c'.
Proof.
  intros (new & Hr & Hf & Hl) H0. rewrite H0, file_bytes_0, app_nil_r in Hf. simpl in *.
  unfold plans. by rewrite Hr, Hf.
Qed.

Lemma stage_block_fuel i off c c' :
  stage i off c c' → 0 < c_left c' →
  Inode.GetBlockNum i - c_block c' < Z.of_nat (block_fuel i).
Proof.
  intros (off' & [Hc _] & _) Hl. pose proof (cursor_block i off' c' Hc Hl).
  unfold block_fuel, Inode.GetBlockNum in *. lia.
Qed.

Lemma wp_read_blocks i off len :
  blocks_fit i → 0 ≤ off → 0 ≤ len < 2 ^ 64 →
  off + len ≤ Inode.GetBlockNum i * BS → off + len < 2 ^ 64 →
  wp (read_blocks off len) (λ c i', i' = i ∧ plans i off len c) i.
Proof.
  intros Hfit H0 Hl He1 He2. pose proof (start_cursor_ok i off len H0 Hl He1 He2) as Hc.
  unfold read_blocks. apply wp_bind. eapply wp_mono; [by apply wp_read_first|].
  intros c1 ? [-> Hs1]. wp_auto. pose proof Hs1 as (off1 & Hr1 & Hc1).
  eapply wp_mono; [apply (wp_read_full _ i off1 c1 Hr1); [by unfold block_fuel; lia|]|].
  { intros Hl1. by eapply stage_block_fuel in Hs1. }
  intros c2 ? (-> & Hlt & off2 & Hr2 & Hc2). simpl.
  eapply wp_mono; [by apply (wp_read_last i off2)|].
  intros c3 ? (-> & Hl3 & off3 & Hc3). split; [done|].
  eapply covers_plans; [|done]. eapply covers_trans; [exact Hc1|]. by eapply covers_trans.
Qed.
(** The loops of WriteFile take the same steps, and change the lengths of the blocks they visit. *)

Lemma wp_write_first i off c :
  cursor_ok i off c → blocks_fit i → c_block c = off / BS →
  wp (write_first_block off c) (λ c' i', same_layout i i' ∧ stage i off c c') i.
Proof.
  intros Hc Hfit Hq. unfold write_first_block. destruct (negb _) eqn:Ht.
  - apply unaligned_test in Ht. pose proof (first_block_lookup i off c Hc Ht Hq) as Hin.
    destruct (block_lookup i (c_block c) Hin) as [b Hb].
    wp_auto. apply (wp_GetBlockInfo _ b); [done|]. wp_auto.
    apply wp_ChangeFileBlockInfoLength; [done|]. intros i' Hi'. wp_auto. split; [done|].
    eexists. by apply (first_step i off c b).
  - wp_auto. split; [done|]. apply aligned_stage; [done|].
    rewrite <- not_true_iff_false, unaligned_test in Ht. lia.
Qed.

Lemma wp_write_full fuel i off c :
  ready i off c → 0 < Z.of_nat fuel →
  (0 < c_left c → Inode.GetBlockNum i - c_block c < Z.of_nat fuel) →
  wp (write_full_blocks fuel c) (λ c' i', same_layout i i' ∧ c_left c' < BS ∧ stage i off c c') i.
Proof.
  revert i off c. induction fuel as [|fuel IH]; intros i off c Hr Hpos Hfuel; [lia|]. simpl.
  destruct (Z.leb_spec BS (c_left c)) as [Hle|Hlt].
  - pose proof FILE_BLOCK_SIZE_eq. pose proof (cursor_block i off c (proj1 Hr) ltac:(lia)) as Hblk.
    destruct (block_lookup i (c_block c) Hblk) as [b Hb].
    destruct (full_step i off c b Hr Hle Hb) as (Hr' & Hc' & Hn).
    wp_auto. apply (wp_GetBlockInfo _ b); [done|]. wp_auto.
    apply wp_ChangeFileBlockInfoLength; [done|]. intros i1 Hi1.
    eapply wp_mono; [eapply IH; [by rewrite <- Hi1; exact Hr'|lia|rewrite <- Hi1, Hn; lia]|].
    intros c' i' (Hi' & Hl & Hs). rewrite <- Hi1 in Hs. split_and!; [by etrans|done|].
    destruct Hs as (off' & ? & ?). exists off'. split; [done|]. by eapply covers_trans.
  - wp_auto. split_and!; [done..|]. exists off. split; [done|apply covers_refl].
Qed.

Lemma wp_write_last i off c :
  ready i off c → c_left c < BS →
  wp (write_last_block c)
     (λ c' i', same_layout i i' ∧ c_left c' = 0 ∧ ∃ off', covers i off c off' c') i.
Proof.
  intros Hr Hlt. pose proof (cur_buff _ _ _ (proj1 Hr)). unfold write_last_block.
  destruct (Z.eqb_spec (c_left c) 0) as [He|Hne]; simpl.
  - wp_auto. split_and!; [done..|]. exists off. apply covers_refl.
  - pose proof (cursor_block i off c (proj1 Hr) ltac:(lia)) as Hblk.
    destruct (block_lookup i (c_block c) Hblk) as [b Hb].
    wp_auto. apply (wp_GetBlockInfo _ b); [done|]. wp_auto.
    apply wp_ChangeFileBlockInfoLength; [done|]. intros i' Hi'. wp_auto. split_and!; [done..|].
    eexists. apply last_step; [done|lia|done].
Qed.

Lemma block_fuel_layout i i' : same_layout i i' → block_fuel i' = block_fuel i.
Proof. intros (_&_&_&_&_&Hl%Forall2_length). unfold block_fuel. by rewrite Hl. Qed.

Lemma wp_write_blocks i off len :
  blocks_fit i → 0 ≤ off → 0 ≤ len < 2 ^ 64 →
  off + len ≤ Inode.GetBlockNum i * BS → off + len < 2 ^ 64 →
  wp (write_blocks off len) (λ c i', same_layout i i' ∧ plans i off len c) i.
Proof.
  intros Hfit H0 Hl He1 He2. pose proof (start_cursor_ok i off len H0 Hl He1 He2) as Hc.
  unfold write_blocks. apply wp_bind. eapply wp_mono; [by apply wp_write_first|].
  intros c1 i1 [Hi1 Hs1]. wp_auto. pose proof Hs1 as (off1 & Hr1 & Hc1).
  rewrite (block_fuel_layout i i1 Hi1).
  eapply wp_mono; [apply (wp_write_full _ i1 off1 c1); [by rewrite <- Hi1|by unfold block_fuel; lia|]|].
  { rewrite <- Hi1. intros Hl1. by eapply stage_block_fuel in Hs1. }
  intros c2 i2 (Hi2 & Hlt & off2 & Hr2 & Hc2). simpl.
  eapply wp_mono; [apply (wp_write_last i2 off2); [by rewrite <- Hi2|done]|].
  intros c3 i3 (Hi3 & Hl3 & off3 & Hc3). split; [by do 2 (etrans; [done|])|].
  rewrite <- Hi2 in Hc3. rewrite <- Hi1 in Hc2, Hc3.
  eapply covers_plans; [|done]. eapply covers_trans; [exact Hc1|]. by eapply covers_trans.
Qed.

(** *** A range inside one block *)

Lemma one_block_lookup i off len : 0 ≤ off → 0 < len → off `mod` BS + len ≤ BS →
  off + len ≤ Inode.GetBlockNum i * BS →
  0 ≤ off / BS < Inode.GetBlockNum i ∧
  ∃ b, Inode.block_info_list_ i !! Z.to_nat (off / BS) = Some b.
Proof.
  intros Ho Hl Hin He. pose proof FILE_BLOCK_SIZE_eq.
  pose proof (Z.div_mod off BS ltac:(lia)). pose proof (Z.mod_pos_bound off BS ltac:(lia)).
  assert (0 ≤ off / BS < Inode.GetBlockNum i).
  { split; [apply Z.div_pos; lia|]. apply Z.div_lt_upper_bound; lia. }
  split; [done|]. by apply block_lookup.
Qed.

Lemma wp_read_one i off len :
  blocks_fit i → 0 ≤ off → off + len ≤ Inode.GetBlockNum i * BS → off + len < 2 ^ 64 →
  0 < len → off `mod` BS + len ≤ BS →
  wp (read_blocks off len) (λ c _, in_one_block i off len (c_reply c)) i.
Proof.
  intros Hfit Ho He He2 Hl Hin. destruct (one_block_lookup i off len) as [Hb [b Hlk]]; [done..|].
  pose proof (proj1 (Forall_lookup _ _) Hfit _ _ Hlk) as [Hs1 Hs2].
  pose proof FILE_BLOCK_SIZE_eq as HBS. pose proof (Z.mod_pos_bound off BS ltac:(lia)) as Hm.
  unfold read_blocks, read_first_block. rewrite FILE_BLOCK_MASK_mod. cbn [c_block c_left c_reply c_buff].
  destruct (Z.eqb_spec (off `mod` BS) 0) as [Hz|Hnz]; cbn [negb].
  - wp_auto. unfold block_fuel. cbn [read_full_blocks c_left].
    destruct (Z.leb_spec BS len) as [Hge|Hlt].
    + assert (len = BS) as -> by lia. wp_auto. apply (wp_GetBlockInfo _ b); [done|]. cbn [c_reply c_buff c_block].
      rewrite Z.sub_diag. change (u64 0) with 0.
      destruct (length (Inode.block_info_list_ i)) as [|m] eqn:Em.
      { unfold Inode.GetBlockNum in Hb. rewrite Em in Hb. simpl in Hb. lia. }
      cbn [read_full_blocks c_left]. rewrite (proj2 (Z.leb_gt _ _)) by lia. wp_auto.
      unfold read_last_block. cbn [c_left]. wp_auto. intros _ _. exists b. rewrite Hz, Z.add_0_r. done.
    + wp_auto. unfold read_last_block. cbn [c_left c_block]. rewrite (proj2 (Z.eqb_neq len 0)) by lia. cbn [negb].
      wp_auto. apply (wp_GetBlockInfo _ b); [done|]. wp_auto. intros _ _. exists b. rewrite Hz, Z.add_0_r. done.
  - wp_auto. apply (wp_GetBlockInfo _ b); [done|]. wp_auto.
    rewrite (u64_small (BS - _)), Z.min_r, Z.sub_diag by lia. change (u64 0) with 0.
    unfold block_fuel. cbn [read_full_blocks c_left]. rewrite (proj2 (Z.leb_gt _ _)) by lia. wp_auto.
    unfold read_last_block. cbn [c_left]. wp_auto. intros _ _. exists b. rewrite u64_small by lia. done.
Qed.

Lemma wp_write_one i off len :
  blocks_fit i → 0 ≤ off → off + len ≤ Inode.GetBlockNum i * BS → off + len < 2 ^ 64 →
  0 < len → off `mod` BS + len ≤ BS →
  wp (write_blocks off len) (λ c _, in_one_block i off len (c_reply c)) i.
Proof.
  intros Hfit Ho He He2 Hl Hin. destruct (one_block_lookup i off len) as [Hb [b Hlk]]; [done..|].
  pose proof (proj1 (Forall_lookup _ _) Hfit _ _ Hlk) as [Hs1 Hs2].
  pose proof FILE_BLOCK_SIZE_eq as HBS. pose proof (Z.mod_pos_bound off BS ltac:(lia)) as Hm.
  unfold write_blocks, write_first_block. rewrite FILE_BLOCK_MASK_mod. cbn [c_block c_left c_reply c_buff].
  destruct (Z.eqb_spec (off `mod` BS) 0) as [Hz|Hnz]; cbn [negb].
  - wp_auto. unfold block_fuel. cbn [write_full_blocks c_left].
    destruct (Z.leb_spec BS len) as [Hge|Hlt].
    + assert (len = BS) as -> by lia. wp_auto. apply (wp_GetBlockInfo _ b); [done|]. cbn [c_reply c_buff c_block].
      wp_auto. apply wp_ChangeFileBlockInfoLength; [done|]. intros i' _.
      rewrite Z.sub_diag. change (u64 0) with 0.
      destruct (length (Inode.block_info_list_ i)) as [|m] eqn:Em.
      { unfold Inode.GetBlockNum in Hb. rewrite Em in Hb. simpl in Hb. lia. }
      cbn [write_full_blocks c_left]. rewrite (proj2 (Z.leb_gt _ _)) by lia. wp_auto.
      unfold write_last_block. cbn [c_left]. wp_auto. intros _ _. exists b. rewrite Hz, Z.add_0_r. done.
    + wp_auto. unfold write_last_block. cbn [c_left c_block]. rewrite (proj2 (Z.eqb_neq len 0)) by lia. cbn [negb].
      wp_auto. apply (wp_GetBlockInfo _ b); [done|]. wp_auto. apply wp_ChangeFileBlockInfoLength; [done|].
      intros i' _. wp_auto. intros _ _. exists b. rewrite Hz, Z.add_0_r. done.
  - wp_auto. apply (wp_GetBlockInfo _ b); [done|]. wp_auto.
    apply wp_ChangeFileBlockInfoLength; [done|]. intros i' _. wp_auto.
    rewrite (u64_small (BS - _)), Z.min_r, Z.sub_diag by lia. change (u64 0) with 0.
    unfold block_fuel. cbn [write_full_blocks c_left]. rewrite (proj2 (Z.leb_gt _ _)) by lia. wp_auto.
    unfold write_last_block. cbn [c_left]. wp_auto. intros _ _. exists b. rewrite u64_small by lia. done.
Qed.

(** The loops of the two handlers, with the shape of their replies. *)
Lemma wp_read_tidy i off len :
  blocks_fit i → 0 ≤ off → 0 ≤ len < 2 ^ 64 →
  off + len ≤ Inode.GetBlockNum i * BS → off + len < 2 ^ 64 →
  wp (read_blocks off len) (λ c i', i' = i ∧
    plan_bytes (c_reply c) = file_bytes i off 0 len ∧ tidy i off len (c_reply c)) i.
Proof.
  intros Hfit Ho Hl He He2. pose proof (wp_read_blocks i off len Hfit Ho Hl He He2) as Hw.
  apply wp_done in Hw as (c & i' & E & -> & _ & Hp & Hlen). unfold wp. rewrite E.
  split_and!; [done..|]. split; [done|]. intros Hpos Hin.
  pose proof (wp_read_one i off len Hfit Ho He He2 Hpos Hin) as Hw. unfold wp in Hw. rewrite E in Hw. auto.
Qed.

Lemma wp_write_tidy i off len :
  blocks_fit i → 0 ≤ off → 0 ≤ len < 2 ^ 64 →
  off + len ≤ Inode.GetBlockNum i * BS → off + len < 2 ^ 64 →
  wp (write_blocks off len) (λ c i', same_layout i i' ∧
    plan_bytes (c_reply c) = file_bytes i off 0 len ∧ tidy i off len (c_reply c)) i.
Proof.
  intros Hfit Ho Hl He He2. pose proof (wp_write_blocks i off len Hfit Ho Hl He He2) as Hw.
  apply wp_done in Hw as (c & i' & E & Hi' & _ & Hp & Hlen). unfold wp. rewrite E.
  split_and!; [done..|]. split; [done|]. intros Hpos Hin.
  pose proof (wp_write_one i off len Hfit Ho He He2 Hpos Hin) as Hw. unfold wp in Hw. rewrite E in Hw. auto.
Qed.

#[export] Instance tidy_proper : Proper (same_layout ==> eq ==> eq ==> eq ==> impl) tidy.
Proof.
  intros i i' Hi off ? <- len ? <- es ? <-. intros [Hf Ho]. split; [done|]. intros Hl Hin.
  destruct (Ho Hl Hin) as (b & Hb & Hes). destruct Hi as (_&_&_&_&_&Hbl).
  destruct (Forall2_lookup_l _ _ _ _ _ Hbl Hb) as (b' & Hb' & Hs & Ha & _).
  exists b'. by rewrite <- Hs, <- Ha.
Qed.

(** *** Enough fuel: the loops leave or fault, whatever the state and the request *)

Lemma read_full_fuel fuel i c :
  Inode.GetBlockNum i < 2 ^ 64 → 0 ≤ c_block c → 0 < Z.of_nat fuel →
  Inode.GetBlockNum i - c_block c < Z.of_nat fuel →
  read_full_blocks fuel c i ≠ Fault OutOfFuel.
Proof.
  unfold Inode.GetBlockNum. revert c. induction fuel as [|fuel IH]; intros c Hn Hb Hpos Hf; [lia|].
  simpl. destruct (FILE_BLOCK_SIZE <=? c_left c); [|done].
  unfold Inode.GetBlockInfo, gets, mbind, M_bind. simpl.
  destruct (_ !! _) as [b|] eqn:Hlk; [|done]. apply lookup_lt_Some in Hlk. simpl.
  apply IH; simpl; try done; rewrite ?u64_small; lia.
Qed.

Lemma write_full_fuel fuel i c :
  Inode.GetBlockNum i < 2 ^ 64 → 0 ≤ c_block c → 0 < Z.of_nat fuel →
  Inode.GetBlockNum i - c_block c < Z.of_nat fuel →
  write_full_blocks fuel c i ≠ Fault OutOfFuel.
Proof.
  unfold Inode.GetBlockNum. revert i c.
  induction fuel as [|fuel IH]; intros i c Hn Hb Hpos Hf; [lia|].
  simpl. destruct (FILE_BLOCK_SIZE <=? c_left c); [|done].
  unfold Inode.GetBlockInfo, Inode.ChangeFileBlockInfoLength, gets, modify, mbind, M_bind. simpl.
  destruct (_ !! _) as [b|] eqn:Hlk; [|done]. pose proof (lookup_lt_Some _ _ _ Hlk). simpl.
  destruct (_ <? _); [|done]. rewrite Hlk. simpl.
  apply IH; simpl; rewrite ?length_insert, ?u64_small; lia.
Qed.
End plan_loops.

(** *** The whole plan never runs out of fuel *)

Section plan_fuel.
Implicit Types (i : Inode).
Local Notation BS := FILE_BLOCK_SIZE.

Lemma GetBlockInfo_run id i b : Inode.block_info_list_ i !! Z.to_nat id = Some b →
  Inode.GetBlockInfo id i = Done (b, i).
Proof. intros Hb. unfold Inode.GetBlockInfo, gets, mbind, M_bind. simpl. by rewrite Hb. Qed.

Lemma GetBlockInfo_out id i : Inode.block_info_list_ i !! Z.to_nat id = None →
  Inode.GetBlockInfo id i = Fault OutOfRange.
Proof. intros Hb. unfold Inode.GetBlockInfo, gets, mbind, M_bind. simpl. by rewrite Hb. Qed.

Lemma ChangeFileBlockInfoLength_run id len i b : 0 ≤ id →
  Inode.block_info_list_ i !! Z.to_nat id = Some b → ∃ i',
  Inode.ChangeFileBlockInfoLength id len i = Done (tt, i') ∧
  Inode.GetBlockNum i' = Inode.GetBlockNum i.
Proof.
  intros Hid Hb. pose proof (lookup_lt_Some _ _ _ Hb).
  unfold Inode.ChangeFileBlockInfoLength, Inode.GetBlockNum, gets, modify, mbind, M_bind. simpl.
  rewrite (proj2 (Z.ltb_lt _ _)) by lia. rewrite Hb. simpl. eexists. split; [done|]. simpl.
  by rewrite length_insert.
Qed.

(** *** The loops count down *)

(** The result of a loop that made [n] rounds from [c], or met a block that is not there. *)
Definition counted_down (n : Z) (c : cursor) (o : outcome (cursor * Inode)) : Prop :=
  match o with
  | Done (c', _) => c_left c' = c_left c `mod` FILE_BLOCK_SIZE ∧
      Z.of_nat (length (c_reply c')) = Z.of_nat (length (c_reply c)) + n
  | Fault f => f = OutOfRange
  end.

Lemma one_block_less (n : nat) z : 0 ≤ z < 2 ^ 64 → Z.of_nat (S n) = z / BS →
  BS ≤ z ∧ u64 (z - BS) = z - BS ∧ Z.of_nat n = (z - BS) / BS ∧ (z - BS) `mod` BS = z `mod` BS.
Proof.
  rewrite FILE_BLOCK_SIZE_eq. intros Hz Hn.
  pose proof (Z.div_mod z (2 ^ 20) ltac:(lia)). pose proof (Z.mod_pos_bound z (2 ^ 20) ltac:(lia)).
  assert (2 ^ 20 ≤ z) by lia. replace (z - 2 ^ 20) with (z + (-1) * 2 ^ 20) by lia.
  rewrite Z.div_add, Z_mod_plus_full by lia. split_and!; [lia|apply u64_small; lia|lia|done].
Qed.

(** The cursor after a whole block. *)
Definition next_block (c : cursor) (b : file_block_info) : cursor :=
  Cursor (c_reply c ++ [InitBlockInfo (c_block c) (fb_server_id b) (fb_start_addr b) BS (c_buff c)])
    (u64 (c_buff c + BS)) (u64 (c_left c - BS)) (u64 (c_block c + 1)).

Lemma counted_next (n : nat) c b o : 0 ≤ c_left c < 2 ^ 64 → Z.of_nat (S n) = c_left c / BS →
  counted_down (Z.of_nat n) (next_block c b) o → counted_down (Z.of_nat (S n)) c o.
Proof.
  intros Hc Hn. destruct (one_block_less n (c_left c) Hc Hn) as (Hle & Hu & Hn' & Hm).
  destruct o as [[c' i']|f]; [|done]. cbn [counted_down next_block c_left c_reply]. rewrite Hu, Hm, length_app. simpl. lia.
Qed.

Lemma read_full_counts n : ∀ i c, 0 ≤ c_left c < 2 ^ 64 → Z.of_nat n = c_left c / BS →
  ∃ o, (∀ fuel, Z.of_nat n < Z.of_nat fuel → read_full_blocks fuel c i = o) ∧ counted_down (Z.of_nat n) c o.
Proof.
  pose proof FILE_BLOCK_SIZE_eq as HB. induction n as [|n IH]; intros i c Hc Hn.
  - assert (Hlt : c_left c < BS) by (symmetry in Hn; apply Z.div_small_iff in Hn; lia).
    exists (Done (c, i)). split.
    + intros [|fuel] Hf; [lia|]. simpl. by rewrite (proj2 (Z.leb_gt _ _)).
    + simpl. rewrite Z.mod_small by lia. lia.
  - destruct (one_block_less n (c_left c) Hc Hn) as (Hle & Hu & Hn' & Hm).
    destruct (Inode.block_info_list_ i !! Z.to_nat (c_block c)) as [b|] eqn:Hb.
    + destruct (IH i (next_block c b)) as (o & Ho & Hco); [cbn [next_block c_left]; rewrite Hu; lia..|].
      exists o. split.
      * intros [|fuel] Hf; [lia|]. cbn [read_full_blocks]. rewrite (proj2 (Z.leb_le _ _)) by done.
        rewrite (outcome_bind_done _ _ _ _ _ (GetBlockInfo_run _ _ _ Hb)). apply Ho. lia.
      * by eapply counted_next.
    + exists (Fault OutOfRange). split; [|done]. intros [|fuel] Hf; [lia|]. cbn [read_full_blocks].
      rewrite (proj2 (Z.leb_le _ _)) by done. by rewrite (outcome_bind_fault _ _ _ _ (GetBlockInfo_out _ _ Hb)).
Qed.

Lemma write_full_counts n : ∀ i c, 0 ≤ c_left c < 2 ^ 64 → 0 ≤ c_block c → Z.of_nat n = c_left c / BS →
  ∃ o, (∀ fuel, Z.of_nat n < Z.of_nat fuel → write_full_blocks fuel c i = o) ∧ counted_down (Z.of_nat n) c o.
Proof.
  pose proof FILE_BLOCK_SIZE_eq as HB. induction n as [|n IH]; intros i c Hc H0 Hn.
  - assert (Hlt : c_left c < BS) by (symmetry in Hn; apply Z.div_small_iff in Hn; lia).
    exists (Done (c, i)). split.
    + intros [|fuel] Hf; [lia|]. simpl. by rewrite (proj2 (Z.leb_gt _ _)).
    + simpl. rewrite Z.mod_small by lia. lia.
  - destruct (one_block_less n (c_left c) Hc Hn) as (Hle & Hu & Hn' & Hm).
    destruct (Inode.block_info_list_ i !! Z.to_nat (c_block c)) as [b|] eqn:Hb.
    + destruct (ChangeFileBlockInfoLength_run (c_block c) BS i b H0 Hb) as (i1 & E1 & _).
      destruct (IH i1 (next_block c b)) as (o & Ho & Hco); [cbn [next_block c_left]; rewrite Hu; lia|apply u64_range|cbn [next_block c_left]; rewrite Hu; lia|].
      exists o. split.
      * intros [|fuel] Hf; [lia|]. cbn [write_full_blocks]. rewrite (proj2 (Z.leb_le _ _)) by done.
        rewrite (outcome_bind_done _ _ _ _ _ (GetBlockInfo_run _ _ _ Hb)), (outcome_bind_done _ _ _ _ _ E1). apply Ho. lia.
      * by eapply counted_next.
    + exists (Fault OutOfRange). split; [|done]. intros [|fuel] Hf; [lia|]. cbn [write_full_blocks].
      rewrite (proj2 (Z.leb_le _ _)) by done. by rewrite (outcome_bind_fault _ _ _ _ (GetBlockInfo_out _ _ Hb)).
Qed.

(** The first block is served, or is out of the bounds of the file. *)
Lemma read_first_run off c i : 0 ≤ c_block c →
  (∃ c', read_first_block off c i = Done (c', i) ∧ 0 ≤ c_block c') ∨
  read_first_block off c i = Fault OutOfRange.
Proof.
  intros Hc. unfold read_first_block. destruct (negb _); [|by left; exists c].
  destruct (Inode.block_info_list_ i !! Z.to_nat (c_block c)) as [b|] eqn:Hb; [left|right].
  - eexists. split; [by rewrite (outcome_bind_done _ _ _ _ _ (GetBlockInfo_run _ _ _ Hb))|]. apply u64_range.
  - by rewrite (outcome_bind_fault _ _ _ _ (GetBlockInfo_out _ _ Hb)).
Qed.

Lemma write_first_run off c i : 0 ≤ c_block c →
  (∃ c' i', write_first_block off c i = Done (c', i') ∧ 0 ≤ c_block c' ∧
    Inode.GetBlockNum i' = Inode.GetBlockNum i) ∨
  write_first_block off c i = Fault OutOfRange.
Proof.
  intros Hc. unfold write_first_block. destruct (negb _); [|by left; exists c, i].
  destruct (Inode.block_info_list_ i !! Z.to_nat (c_block c)) as [b|] eqn:Hb; [left|right].
  - rewrite (outcome_bind_done _ _ _ _ _ (GetBlockInfo_run _ _ _ Hb)). set (bytes := Z.min _ _).
    destruct (ChangeFileBlockInfoLength_run (c_block c) (u64 (fb_length b + bytes)) i b Hc Hb)
      as (i' & E & Hn).
    do 2 eexists. split; [by rewrite (outcome_bind_done _ _ _ _ _ E)|]. split; [apply u64_range|done].
  - by rewrite (outcome_bind_fault _ _ _ _ (GetBlockInfo_out _ _ Hb)).
Qed.

Lemma read_blocks_fuel i off len : Inode.GetBlockNum i < 2 ^ 64 → 0 ≤ off →
  read_blocks off len i ≠ Fault OutOfFuel.
Proof.
  intros Hn Ho. assert (Hq : 0 ≤ off / BS) by by apply Z.div_pos.
  assert (Hrest : ∀ c, 0 ≤ c_block c → (fuel ← gets block_fuel; c2 ← read_full_blocks fuel c;
    read_last_block c2) i ≠ Fault OutOfFuel).
  { intros c Hc. rewrite (outcome_bind_done _ _ _ (block_fuel i) i eq_refl).
    destruct (read_full_blocks (block_fuel i) c i) as [[c2 i2]|f] eqn:E.
    - rewrite (outcome_bind_done _ _ _ _ _ E). unfold read_last_block, Inode.GetBlockInfo, gets, mbind, M_bind. simpl.
      destruct (c_left c2 =? 0); simpl; [done|]. by destruct (_ !! _).
    - rewrite (outcome_bind_fault _ _ _ _ E), <- E. apply read_full_fuel; unfold block_fuel, Inode.GetBlockNum in *; lia. }
  unfold read_blocks. destruct (read_first_run off (Cursor [] 0 len (off / BS)) i Hq) as [(c & E & Hc)|E].
  - rewrite (outcome_bind_done _ _ _ _ _ E). by apply Hrest.
  - by rewrite (outcome_bind_fault _ _ _ _ E).
Qed.

Lemma write_blocks_fuel i off len : Inode.GetBlockNum i < 2 ^ 64 → 0 ≤ off →
  write_blocks off len i ≠ Fault OutOfFuel.
Proof.
  intros Hn Ho. assert (Hq : 0 ≤ off / BS) by by apply Z.div_pos.
  assert (Hrest : ∀ c j, Inode.GetBlockNum j = Inode.GetBlockNum i → 0 ≤ c_block c →
    (fuel ← gets block_fuel; c2 ← write_full_blocks fuel c; write_last_block c2) j ≠ Fault OutOfFuel).
  { intros c j Hj Hc. rewrite (outcome_bind_done _ _ _ (block_fuel j) j eq_refl).
    destruct (write_full_blocks (block_fuel j) c j) as [[c2 i2]|f] eqn:E.
    - rewrite (outcome_bind_done _ _ _ _ _ E). unfold write_last_block, Inode.GetBlockInfo, Inode.ChangeFileBlockInfoLength, gets, mbind, M_bind. simpl.
      destruct (c_left c2 =? 0); simpl; [done|]. destruct (_ !! _) eqn:E2; simpl; [|done]. destruct (_ <? _); [|done].
      by rewrite E2.
    - rewrite (outcome_bind_fault _ _ _ _ E), <- E. apply write_full_fuel; unfold block_fuel, Inode.GetBlockNum in *; lia. }
  unfold write_blocks. destruct (write_first_run off (Cursor [] 0 len (off / BS)) i Hq) as [(c & j & E & Hc & Hj)|E].
  - rewrite (outcome_bind_done _ _ _ _ _ E). by apply Hrest.
  - by rewrite (outcome_bind_fault _ _ _ _ E).
Qed.
End plan_fuel.
