(* ===== verification/MetaInv.v ===== *)
(** * The state of the metadata service: its invariant, and how each kind of change preserves it.

    The invariant is stated on the inode of every number ([files]) and the space manager of every
    server, with no pointer in sight; [upd] says that a computation leads from one state to another
    whose files and space managers are given. *)
From S2P Require Import Prelude FsInode IdPool FsTable FsFiles FsSpace MetaProto MetaServer MetaPlan.
Local Open Scope Z_scope.
Import InodeTable (files, table_ok).

Abbreviation Files := (gmap Z Inode).
Abbreviation Spaces := (gmap Z SpaceManager).

Definition fs (s : MetadataServiceImpl) : Files := files (inode_table_ s).

(** The one directory: the children of the root inode. *)
Definition dir (F : Files) : gmap Z Dentry :=
  match F !! ROOT_INUM with Some r => Inode.children_ r | None => ∅ end.

(** The [j]-th block of inode [n] is block [nr] of server [k]. *)
Definition owns (F : Files) (n : Z) (j : nat) (k nr : Z) : Prop :=
  ∃ i b, F !! n = Some i ∧ Inode.block_info_list_ i !! j = Some b ∧
    fb_server_id b = k ∧ fb_block_nr b = nr.

(** The directory names every inode but its own, each exactly once, under the hash of its name. *)
Record dir_ok `{StringHash} (F : Files) : Prop := {
  dir_root : ∃ r, F !! ROOT_INUM = Some r ∧ Inode.type_ r = DIR ∧ Inode.block_info_list_ r = [];
  dir_entry h d : dir F !! h = Some d →
    std_hash (Dentry.name_ d) = h ∧ Dentry.inum_ d ≠ ROOT_INUM ∧ is_Some (F !! Dentry.inum_ d);
  dir_inj h h' d d' : dir F !! h = Some d → dir F !! h' = Some d' →
    Dentry.inum_ d = Dentry.inum_ d' → h = h';
  dir_reach n : is_Some (F !! n) → n ≠ ROOT_INUM →
    ∃ h d, dir F !! h = Some d ∧ Dentry.inum_ d = n;
}.

(** The blocks of the files are exactly the blocks in use, each owned once. *)
Record own_ok (F : Files) (Sp : Spaces) : Prop := {
  own_used n j k nr : owns F n j k nr →
    ∃ sm, Sp !! k = Some sm ∧ nr ∈ SpaceManager.inused_blocks_ sm;
  own_unique n j n' j' k nr : owns F n j k nr → owns F n' j' k nr → n = n' ∧ j = j';
  own_all k sm nr : Sp !! k = Some sm → nr ∈ SpaceManager.inused_blocks_ sm →
    ∃ n j, owns F n j k nr;
}.

(** A block starts at its number times the block size; the size of a file is covered by blocks. *)
Definition inode_ok (i : Inode) : Prop :=
  Forall (λ b, fb_start_addr b = fb_block_nr b * FILE_BLOCK_SIZE) (Inode.block_info_list_ i) ∧
  0 ≤ Inode.size_ i < 2 ^ 64 ∧ Inode.size_ i ≤ Inode.GetBlockNum i * FILE_BLOCK_SIZE.

(** Every server is known under its own number, and its blocks lie in a 64-bit address space. *)
Definition space_map_ok (Sp : Spaces) : Prop :=
  (∀ k sm, Sp !! k = Some sm →
    SpaceManager.space_ok sm ∧ SpaceManager.server_id_ sm = k ∧ 0 ≤ k < 2 ^ 31 ∧
    SpaceManager.total_blocks_ sm * FILE_BLOCK_SIZE ≤ 2 ^ 64) ∧
  Z.of_nat (size Sp) < 2 ^ 31.

Record fs_ok `{StringHash} (F : Files) (Sp : Spaces) : Prop := {
  fs_dir : dir_ok F;
  fs_own : own_ok F Sp;
  fs_inode n i : F !! n = Some i → inode_ok i;
  fs_spaces : space_map_ok Sp;
}.

Record service_ok `{StringHash} (s : MetadataServiceImpl) : Prop := {
  so_table : table_ok (inode_table_ s);
  so_fds : FileMap.fds_ok (file_map_ s);
  so_fs : fs_ok (fs s) (space_manager_ s);
}.

(** The service moved from [s] to [s'] with files [F] and space managers [Sp]; pointers to inodes
    that are still there did not move, and the descriptors are the same. *)
Record upd (s s' : MetadataServiceImpl) (F : Files) (Sp : Spaces) : Prop := {
  upd_ok : table_ok (inode_table_ s');
  upd_files : fs s' = F;
  upd_ptr n p : InodeTable.table_ (inode_table_ s) !! n = Some p → is_Some (F !! n) →
    InodeTable.table_ (inode_table_ s') !! n = Some p;
  upd_total : InodeTable.total_size_ (inode_table_ s') = InodeTable.total_size_ (inode_table_ s);
  upd_spaces : space_manager_ s' = Sp;
  upd_fds : file_map_ s' = file_map_ s;
}.

(** ** The invariant under each change of the files *)

Section fs_lemmas.
Context `{StringHash}.
Implicit Types (F : Files) (Sp : Spaces) (i : Inode).

Lemma owns_insert F n i m j k nr :
  owns (<[n := i]> F) m j k nr ↔
  (m = n ∧ ∃ b, Inode.block_info_list_ i !! j = Some b ∧ fb_server_id b = k ∧ fb_block_nr b = nr) ∨
  (m ≠ n ∧ owns F m j k nr).
Proof.
  unfold owns. destruct (decide (m = n)) as [->|Hne].
  - rewrite lookup_insert_eq. naive_solver.
  - rewrite lookup_insert_ne by done. naive_solver.
Qed.

Lemma owns_same_blocks F n i i' m j k nr :
  F !! n = Some i → Forall2 same_block (Inode.block_info_list_ i) (Inode.block_info_list_ i') →
  owns (<[n := i']> F) m j k nr ↔ owns F m j k nr.
Proof.
  intros Hn Hl. rewrite owns_insert. split.
  - intros [(-> & b' & Hb' & Hs & Hr)|[_ ?]]; [|done].
    destruct (Forall2_lookup_r _ _ _ _ _ Hl Hb') as (b & Hb & Hs' & _ & Hr').
    exists i, b. split_and!; congruence.
  - intros (i0 & b & Hi & Hb & Hs & Hr). destruct (decide (m = n)) as [->|Hne].
    + left. split; [done|]. rewrite Hn in Hi. simplify_eq.
      destruct (Forall2_lookup_l _ _ _ _ _ Hl Hb) as (b' & Hb' & Hs' & _ & Hr').
      exists b'. split_and!; congruence.
    + right. split; [done|]. by exists i0, b.
Qed.

Lemma own_ok_ext F F' Sp : (∀ n j k nr, owns F' n j k nr ↔ owns F n j k nr) →
  own_ok F Sp → own_ok F' Sp.
Proof.
  intros Heq [Hu Hi Ha]. split; repeat setoid_rewrite Heq; eauto.
Qed.

(** An inode with no blocks owns nothing. *)
Lemma owns_empty F n i m j k nr : F !! n = None → Inode.block_info_list_ i = [] →
  owns (<[n := i]> F) m j k nr ↔ owns F m j k nr.
Proof.
  intros Hn Hl. rewrite owns_insert, Hl. split.
  - intros [(-> & b & Hb & _)|[_ ?]]; [|done]. by rewrite lookup_nil in Hb.
  - intros Ho. right. split; [|done]. intros ->. destruct Ho as (? & ? & ? & _). congruence.
Qed.

Lemma dir_root_insert F n i : n ≠ ROOT_INUM → dir (<[n := i]> F) = dir F.
Proof. intros Hn. unfold dir. by rewrite lookup_insert_ne. Qed.

(** Changing a file in place, but for its directory entries. *)
Lemma dir_ok_change F n i i' :
  F !! n = Some i → Inode.type_ i' = Inode.type_ i → Inode.children_ i' = Inode.children_ i →
  (n = ROOT_INUM → Inode.block_info_list_ i' = []) → dir_ok F → dir_ok (<[n := i']> F).
Proof.
  intros Hn Ht Hc Hb [Hr He Hi Hreach].
  assert (Hdir : dir (<[n := i']> F) = dir F).
  { unfold dir. destruct (decide (n = ROOT_INUM)) as [->|]; [|by rewrite lookup_insert_ne].
    by rewrite lookup_insert_eq, Hn. }
  split; rewrite ?Hdir.
  - destruct Hr as (r & Hr & Hrt & Hrb). destruct (decide (n = ROOT_INUM)) as [->|Hne].
    + exists i'. rewrite lookup_insert_eq. split_and!; [done|congruence|auto].
    + exists r. by rewrite lookup_insert_ne.
  - intros h d Hd. destruct (He h d Hd) as (?&?&?). rewrite lookup_insert_is_Some'. naive_solver.
  - done.
  - intros m. rewrite lookup_insert_is_Some'. intros [<-|Hm]; [|by apply Hreach].
    apply Hreach. by exists i.
Qed.

(** A write to a file: [i'] has the blocks of [i] with other lengths, and any valid size. *)
Lemma fs_ok_change F Sp n i i' :
  fs_ok F Sp → F !! n = Some i → n ≠ ROOT_INUM →
  Inode.type_ i' = Inode.type_ i → Inode.children_ i' = Inode.children_ i →
  Forall2 same_block (Inode.block_info_list_ i) (Inode.block_info_list_ i') → inode_ok i' →
  fs_ok (<[n := i']> F) Sp.
Proof.
  intros [Hd Ho Hi Hs] Hn Hroot Ht Hc Hl Hok'. split; [|eapply own_ok_ext; [|done]| |done].
  - by eapply dir_ok_change.
  - intros. by eapply owns_same_blocks.
  - intros m j. rewrite lookup_insert_Some. naive_solver.
Qed.

(** A new file: an inode with no blocks under a number not in use, and its directory entry. *)
Definition add_child (h : Z) (d : Dentry) (r : Inode) : Inode :=
  Inode.set_children (<[h := d]> (Inode.children_ r)) r.

Lemma dir_add_child F r h d : dir (<[ROOT_INUM := add_child h d r]> F) = <[h := d]> (Inode.children_ r).
Proof. unfold dir. by rewrite lookup_insert_eq. Qed.

Lemma fs_ok_create F Sp r n i name :
  fs_ok F Sp → F !! ROOT_INUM = Some r → F !! n = None → dir F !! std_hash name = None →
  Inode.block_info_list_ i = [] → inode_ok i →
  fs_ok (<[ROOT_INUM := add_child (std_hash name) (Dentry.make name n) r]> (<[n := i]> F)) Sp.
Proof.
  intros [[Hr He Hinj Hreach] Ho Hi Hs] Hroot Hn Hname Hb Hok.
  assert (Hne : n ≠ ROOT_INUM) by congruence.
  assert (Hdir : dir F = Inode.children_ r) by (unfold dir; by rewrite Hroot).
  rewrite Hdir in *.
  split; [split| | |done].
  - destruct Hr as (r' & Hr' & Ht & Hrb). simplify_map_eq. eexists.
    done.
  - intros h d. rewrite dir_add_child, lookup_insert_Some, !lookup_insert_is_Some'.
    intros [[<- <-]|[Hh Hd]]; [simpl; auto|]. destruct (He h d Hd) as (?&?&?). auto.
  - assert (Hfresh : ∀ h d, Inode.children_ r !! h = Some d → Dentry.inum_ d ≠ n).
    { intros h d Hd <-. destruct (He h d Hd) as (_ & _ & [x Hx]). congruence. }
    intros h h' d d'. rewrite !dir_add_child, !lookup_insert_Some.
    intros [[<- <-]|[Hh Hd]] [[<- <-]|[Hh' Hd']]; simpl; try done; [| |by eauto].
    + intros Heq. by destruct (Hfresh _ _ Hd').
    + intros Heq. by destruct (Hfresh _ _ Hd).
  - intros m. rewrite !lookup_insert_is_Some', dir_add_child. intros Hm Hm0.
    destruct (decide (m = n)) as [->|Hmn].
    + exists (std_hash name), (Dentry.make name n). by rewrite lookup_insert_eq.
    + destruct (Hreach m) as (h & d & Hd & <-); [naive_solver|done|].
      exists h, d. rewrite lookup_insert_ne; [done|congruence].
  - eapply own_ok_ext; [|exact Ho]. intros m j k nr.
    rewrite owns_same_blocks with (i := r); [by apply owns_empty| |].
    + by rewrite lookup_insert_ne.
    + simpl. reflexivity.
  - intros m j. rewrite !lookup_insert_Some. intros [[<- <-]|[_ [[<- <-]|[_ Hj]]]]; [|done|eauto].
    exact (Hi ROOT_INUM r Hroot).
Qed.
End fs_lemmas.

(** Enlarging a file: one free block of one server becomes its last block. *)
Section grow_shrink.
Context `{StringHash}.
Implicit Types (F : Files) (Sp : Spaces) (i : Inode).
Import SpaceManager.

Definition add_block (b : file_block_info) (i : Inode) : Inode :=
  Inode.set_blocks (Inode.block_info_list_ i ++ [b]) i.

Lemma owns_add_block F n i b m j k nr : F !! n = Some i →
  owns (<[n := add_block b i]> F) m j k nr ↔
  owns F m j k nr ∨
  (m = n ∧ j = length (Inode.block_info_list_ i) ∧ fb_server_id b = k ∧ fb_block_nr b = nr).
Proof.
  intros Hn. rewrite owns_insert. simpl. setoid_rewrite lookup_app_Some. split.
  - intros [(-> & b' & [Hb'|[Hj Hb']] & Hs & Hr)|[Hne Ho]]; [|right|by left].
    + left. by exists i, b'.
    + apply list_lookup_singleton_Some in Hb' as [Hj' <-]. split_and!; [done|lia|done..].
  - intros [(i' & b' & Hi' & Hb' & Hs & Hr)|(-> & -> & Hs & Hr)].
    + destruct (decide (m = n)) as [->|]; [left; simplify_eq|right]; [|split; [done|by exists i', b']].
      split; [done|]. exists b'. auto.
    + left. split; [done|]. exists b. split_and!; [|done..]. right. by rewrite Nat.sub_diag.
Qed.

Lemma own_ok_add_block F Sp n i b sm sm' :
  own_ok F Sp → F !! n = Some i → Sp !! fb_server_id b = Some sm →
  fb_block_nr b ∉ inused_blocks_ sm → inused_blocks_ sm' = {[fb_block_nr b]} ∪ inused_blocks_ sm →
  own_ok (<[n := add_block b i]> F) (<[fb_server_id b := sm']> Sp).
Proof.
  intros [Hu Hi Ha] Hn Hsm Hfree Hused.
  assert (Hnone : ∀ m j, ¬ owns F m j (fb_server_id b) (fb_block_nr b)).
  { intros m j Ho. destruct (Hu _ _ _ _ Ho) as (sm0 & ? & ?). congruence. }
  split; setoid_rewrite (owns_add_block F n i b _ _ _ _ Hn).
  - intros m j k nr [Ho|(_ & _ & <- & <-)].
    + destruct (Hu _ _ _ _ Ho) as (sm0 & Hsm0 & Hin).
      destruct (decide (k = fb_server_id b)) as [->|]; [|exists sm0; by rewrite lookup_insert_ne].
      simplify_eq. exists sm'. rewrite lookup_insert_eq, Hused. set_solver.
    + exists sm'. rewrite lookup_insert_eq, Hused. set_solver.
  - intros m j m' j' k nr [Ho|(-> & -> & <- & <-)] [Ho'|(-> & -> & Hk & Hr)]; subst; try by eauto.
    + by destruct (Hnone _ _ Ho).
    + by destruct (Hnone _ _ Ho').
  - intros k sm0 nr. rewrite lookup_insert_Some. intros [[<- <-]|[Hne Hsm0]] Hin.
    + rewrite Hused in Hin. apply elem_of_union in Hin as [->%elem_of_singleton|Hin]; [by eauto 10|].
      destruct (Ha _ _ _ Hsm Hin) as (m & j & Ho). by eauto.
    + destruct (Ha _ _ _ Hsm0 Hin) as (m & j & Ho). by eauto.
Qed.

Lemma space_map_ok_insert Sp k sm sm' :
  space_map_ok Sp → Sp !! k = Some sm → space_ok sm' → same_space sm sm' →
  space_map_ok (<[k := sm']> Sp).
Proof.
  intros [Hsp Hsz] Hk Hok (_&_&_&_&Ht&Hid). split.
  - intros k' sm0. rewrite lookup_insert_Some. intros [[<- <-]|[_ ?]]; [|by eauto].
    destruct (Hsp k sm Hk) as (_ & Hsid & ? & ?). rewrite <- Ht, <- Hid. auto.
  - rewrite map_size_insert_Some; eauto.
Qed.

Lemma fs_ok_add_block F Sp n i b sm sm' :
  fs_ok F Sp → F !! n = Some i → n ≠ ROOT_INUM → Sp !! fb_server_id b = Some sm →
  fb_block_nr b ∉ inused_blocks_ sm → inused_blocks_ sm' = {[fb_block_nr b]} ∪ inused_blocks_ sm →
  fb_start_addr b = fb_block_nr b * FILE_BLOCK_SIZE → space_ok sm' → same_space sm sm' →
  fs_ok (<[n := add_block b i]> F) (<[fb_server_id b := sm']> Sp).
Proof.
  intros [Hd Ho Hi Hs] Hn Hroot Hsm Hfree Hused Hb Hok Hsame. split.
  - by eapply dir_ok_change.
  - by eapply own_ok_add_block.
  - intros m i'. rewrite lookup_insert_Some. intros [[<- <-]|[_ ?]]; [|by eauto].
    destruct (Hi n i Hn) as (Hl & Hsz & Hcov). split; [|split; [done|]].
    + simpl. apply Forall_app. split; [done|]. by constructor.
    + unfold Inode.GetBlockNum in *. simpl. rewrite length_app. simpl.
      pose proof FILE_BLOCK_SIZE_eq. lia.
  - by eapply space_map_ok_insert.
Qed.

(** A block that belongs to a file lies inside the region of its server. *)
Lemma owned_block_range F Sp n i b :
  fs_ok F Sp → F !! n = Some i → b ∈ Inode.block_info_list_ i →
  ∃ sm, Sp !! fb_server_id b = Some sm ∧ 0 ≤ fb_block_nr b < total_blocks_ sm ∧
    fb_start_addr b = fb_block_nr b * FILE_BLOCK_SIZE ∧
    0 ≤ fb_start_addr b ∧ fb_start_addr b + FILE_BLOCK_SIZE ≤ total_blocks_ sm * FILE_BLOCK_SIZE ∧
    total_blocks_ sm * FILE_BLOCK_SIZE ≤ 2 ^ 64.
Proof.
  intros [_ Ho Hi [Hs _]] Hn [j Hb]%list_elem_of_lookup.
  destruct (own_used _ _ Ho n j (fb_server_id b) (fb_block_nr b)) as (sm & Hsm & Hin).
  { exists i, b. done. }
  destruct (Hs _ _ Hsm) as ([_ Hinv] & _ & _ & Hcap). exists sm.
  pose proof (proj1 (space_range sm (fb_block_nr b) Hinv) (or_intror Hin)) as Hr.
  pose proof (proj1 (Forall_lookup _ _) (proj1 (Hi n i Hn)) _ _ Hb) as Ha. simpl in Ha.
  rewrite Ha. pose proof FILE_BLOCK_SIZE_eq. split_and!; [done|lia|lia|done|lia|nia|done].
Qed.

Lemma fs_ok_blocks_fit F Sp n i : fs_ok F Sp → F !! n = Some i → blocks_fit i.
Proof.
  intros Hok Hn. apply Forall_forall. intros b Hb.
  destruct (owned_block_range F Sp n i b Hok Hn Hb) as (sm & ?&?&?&?&?&?). lia.
Qed.
End grow_shrink.

(** Removing a file, and registering the region of a server. *)
Section remove_register.
Context `{StringHash}.
Implicit Types (F : Files) (Sp : Spaces) (i : Inode).
Import SpaceManager.

Definition del_child (h : Z) (r : Inode) : Inode :=
  Inode.set_children (delete h (Inode.children_ r)) r.

(** What the loop over the servers leaves: each has taken back its blocks of [i]. *)
Definition reclaimed (i : Inode) (Sp Sp' : Spaces) : Prop :=
  dom Sp' = dom Sp ∧
  ∀ k sm', Sp' !! k = Some sm' → ∃ sm, Sp !! k = Some sm ∧
    inused_blocks_ sm' =
      inused_blocks_ sm ∖ list_to_set (blocks_on k (Inode.block_info_list_ i)) ∧
    space_ok sm' ∧ same_space sm sm'.

Lemma elem_of_blocks_on F n i k nr : F !! n = Some i →
  nr ∈ blocks_on k (Inode.block_info_list_ i) ↔ ∃ j, owns F n j k nr.
Proof.
  intros Hn. unfold blocks_on, owns. rewrite list_elem_of_fmap. split.
  - intros (b & -> & [Hk [j Hj]%list_elem_of_lookup]%list_elem_of_filter). by exists j, i, b.
  - intros (j & i' & b & Hi & Hb & Hk & <-). simplify_eq. exists b. split; [done|].
    apply list_elem_of_filter. split; [done|]. by eapply list_elem_of_lookup_2.
Qed.

Lemma NoDup_blocks_on F Sp n i k : own_ok F Sp → F !! n = Some i →
  NoDup (blocks_on k (Inode.block_info_list_ i)).
Proof.
  intros Ho Hn. unfold blocks_on.
  assert (Hinj : ∀ j j' b b', Inode.block_info_list_ i !! j = Some b →
    Inode.block_info_list_ i !! j' = Some b' → fb_server_id b = fb_server_id b' →
    fb_block_nr b = fb_block_nr b' → j = j').
  { intros j j' b b' Hb Hb' Hk Hr.
    destruct (own_unique _ _ Ho n j n j' (fb_server_id b) (fb_block_nr b)); [|by exists i, b'|done].
    by exists i, b. }
  clear Ho Hn. induction (Inode.block_info_list_ i) as [|b l IH]; [constructor|].
  rewrite filter_cons. case_decide as Hb.
  - simpl. apply NoDup_cons. split.
    + rewrite list_elem_of_fmap. intros (b' & Hr & [Hk [j Hj]%list_elem_of_lookup]%list_elem_of_filter).
      by specialize (Hinj 0%nat (S j) b b' eq_refl Hj ltac:(congruence) Hr).
    + apply IH. intros j j' c c' Hc Hc' Hk Hr. by specialize (Hinj (S j) (S j') c c' Hc Hc' Hk Hr) as [= ->].
  - apply IH. intros j j' c c' Hc Hc' Hk Hr. by specialize (Hinj (S j) (S j') c c' Hc Hc' Hk Hr) as [= ->].
Qed.

Lemma own_ok_remove F Sp Sp' n i :
  own_ok F Sp → F !! n = Some i → reclaimed i Sp Sp' → own_ok (delete n F) Sp'.
Proof.
  intros [Hu Hi Ha] Hn [Hdom Hrec].
  assert (Hown : ∀ m j k nr, owns (delete n F) m j k nr ↔ m ≠ n ∧ owns F m j k nr).
  { intros. unfold owns. setoid_rewrite lookup_delete_Some. naive_solver. }
  split; setoid_rewrite Hown.
  - intros m j k nr [Hne Ho]. destruct (Hu _ _ _ _ Ho) as (sm & Hsm & Hin).
    assert (is_Some (Sp' !! k)) as [sm' Hsm'] by (apply elem_of_dom; rewrite Hdom; by apply elem_of_dom_2 in Hsm).
    destruct (Hrec _ _ Hsm') as (sm0 & Hsm0 & Hin' & _). exists sm'. split; [done|].
    simplify_eq. rewrite Hin'. apply elem_of_difference. split; [done|].
    rewrite elem_of_list_to_set, (elem_of_blocks_on F n) by done. intros [j' Ho'].
    by destruct (Hi _ _ _ _ _ _ Ho Ho').
  - naive_solver.
  - intros k sm' nr Hsm' Hin. destruct (Hrec _ _ Hsm') as (sm & Hsm & Hu' & _).
    rewrite Hu' in Hin. apply elem_of_difference in Hin as [Hin Hnot].
    rewrite elem_of_list_to_set, (elem_of_blocks_on F n) in Hnot by done.
    destruct (Ha _ _ _ Hsm Hin) as (m & j & Ho). exists m, j. split; [|done].
    intros ->. apply Hnot. by exists j.
Qed.

Lemma fs_ok_remove F Sp Sp' r h d i :
  fs_ok F Sp → F !! ROOT_INUM = Some r → dir F !! h = Some d → F !! Dentry.inum_ d = Some i →
  reclaimed i Sp Sp' →
  fs_ok (delete (Dentry.inum_ d) (<[ROOT_INUM := del_child h r]> F)) Sp'.
Proof.
  intros [[Hr He Hinj Hreach] Ho Hi [Hsp Hsz]] Hroot Hd Hn Hrec.
  assert (Hdir : dir F = Inode.children_ r) by (unfold dir; by rewrite Hroot). rewrite Hdir in *.
  destruct (He h d Hd) as (Hhash & Hne & _).
  assert (Hdir' : dir (delete (Dentry.inum_ d) (<[ROOT_INUM := del_child h r]> F)) =
    delete h (Inode.children_ r)).
  { unfold dir. by rewrite lookup_delete_ne, lookup_insert_eq. }
  split; [split; rewrite ?Hdir'| | |].
  - destruct Hr as (r' & Hr' & Ht & Hb). rewrite Hroot in Hr'. injection Hr' as <-.
    exists (del_child h r). by rewrite lookup_delete_ne, lookup_insert_eq.
  - intros h' d' [Hh Hd']%lookup_delete_Some. destruct (He h' d' Hd') as (?&?&?).
    split_and!; [done..|]. rewrite lookup_delete_ne, lookup_insert_is_Some'; [auto|].
    intros Heq. apply Hh. by eapply Hinj.
  - intros h1 h2 d1 d2 [_ Hd1]%lookup_delete_Some [_ Hd2]%lookup_delete_Some. by eapply Hinj.
  - intros m. rewrite lookup_delete_is_Some, lookup_insert_is_Some'. intros [Hm Hs] Hm0.
    destruct (Hreach m) as (h' & d' & Hd' & <-); [naive_solver|done|].
    exists h', d'. split; [|done]. apply lookup_delete_Some. split; [congruence|done].
  - apply own_ok_remove with (Sp := Sp) (i := i); [|by rewrite lookup_insert_ne|done].
    eapply own_ok_ext; [|exact Ho]. intros. apply owns_same_blocks with (i := r); [done|]. reflexivity.
  - intros m j [_ Hj]%lookup_delete_Some. apply lookup_insert_Some in Hj as [[<- <-]|[_ ?]]; [|by eauto].
    exact (Hi ROOT_INUM r Hroot).
  - destruct Hrec as [Hdom Hrec]. split.
    + intros k sm' Hsm'. destruct (Hrec _ _ Hsm') as (sm & Hsm & _ & Hok & _ & _ & _ & _ & Ht & Hid).
      destruct (Hsp _ _ Hsm) as (_ & ? & ? & ?). rewrite <- Ht, <- Hid. auto.
    + by rewrite <- size_dom, Hdom, size_dom.
Qed.

(** A server whose blocks no file uses may register its region, for the first time or again. *)
Definition idle (Sp : Spaces) (k : Z) : Prop :=
  ∀ sm, Sp !! k = Some sm → inused_blocks_ sm = ∅.

Lemma fs_ok_register F Sp k sm :
  fs_ok F Sp → idle Sp k → space_ok sm → inused_blocks_ sm = ∅ → server_id_ sm = k →
  0 ≤ k < 2 ^ 31 → total_blocks_ sm * FILE_BLOCK_SIZE ≤ 2 ^ 64 →
  Z.of_nat (size (<[k := sm]> Sp)) < 2 ^ 31 → fs_ok F (<[k := sm]> Sp).
Proof.
  intros [Hd [Hu Hi Ha] Hino [Hsp Hsz]] Hidle Hok Hempty Hid Hk Hcap Hsize. split; [done| |done|].
  - split; [|done|].
    + intros n j k' nr Hown. destruct (Hu _ _ _ _ Hown) as (sm0 & Hsm0 & Hin).
      exists sm0. rewrite lookup_insert_ne; [done|]. intros <-. rewrite (Hidle _ Hsm0) in Hin. set_solver.
    + intros k' sm0 nr. rewrite lookup_insert_Some. intros [[<- <-]|[_ Hsm0]] Hin; [set_solver|by eauto].
  - split; [|done]. intros k' sm0. rewrite lookup_insert_Some. intros [[<- <-]|[_ ?]]; [done|by eauto].
Qed.
End remove_register.
