(* ===== verification/MetaSteps.v ===== *)
(** * The steps the handlers are made of, as rules on the whole state of the service.

    Each rule runs one call (a table lookup, a method of an inode, an allocation, a call on a space
    manager) from a state with a well-formed inode table, and says by [upd] what it leaves. *)
From S2P Require Import Prelude FsInode IdPool FsTable FsFiles FsSpace MetaProto MetaServer MetaPlan.
From S2P Require Import MetaInv.
Local Open Scope Z_scope.
Import InodeTable (files, table_ok).

(** [p] is the pointer of inode number [n], and [i] is the inode it points to. *)
Definition points (s : MetadataServiceImpl) (n : Z) (p : ptr) (i : Inode) : Prop :=
  InodeTable.table_ (inode_table_ s) !! n = Some p ∧ InodeTable.heap (inode_table_ s) !! p = Some i.

Definition table_full (s : MetadataServiceImpl) : Prop :=
  InodeTable.cur_size_ (inode_table_ s) = InodeTable.total_size_ (inode_table_ s).

(** The blocks a server still has to give. *)
Definition free_blocks (sm : SpaceManager) : Z := Z.of_nat (length (SpaceManager.free_list_ sm)).

(** [rand()] answers a number between 0 and RAND_MAX. *)
Class RandLaws `{Rand} := rand_nonneg n : 0 ≤ rand n.

Section upd_lemmas.
Implicit Types (s : MetadataServiceImpl) (F : Files) (Sp : Spaces).

Lemma points_fs s n p i : points s n p i → fs s !! n = Some i.
Proof. intros [Hn Hp]. apply files_Some. eauto. Qed.

Lemma fs_points s n i : fs s !! n = Some i → ∃ p, points s n p i.
Proof. intros (p & ? & ?)%files_Some. by exists p. Qed.

Lemma upd_refl s : table_ok (inode_table_ s) → upd s s (fs s) (space_manager_ s).
Proof. by split. Qed.

Lemma upd_points s s' F Sp n p i i' :
  upd s s' F Sp → points s n p i → F !! n = Some i' → points s' n p i'.
Proof.
  intros [Hok Hf Hp _ _ _] [Hn _] Hi. specialize (Hp n p Hn ltac:(eauto)). split; [done|].
  rewrite <- Hf in Hi. apply files_Some in Hi as (p' & Hp' & Hh). congruence.
Qed.

Lemma upd_trans s s1 s2 F1 F2 Sp1 Sp2 :
  table_ok (inode_table_ s) → upd s s1 F1 Sp1 → upd s1 s2 F2 Sp2 →
  (∀ n, is_Some (fs s !! n) → is_Some (F2 !! n) → is_Some (F1 !! n)) → upd s s2 F2 Sp2.
Proof.
  intros Hok [Hok1 Hf1 Hp1 Ht1 Hs1 Hd1] [Hok2 Hf2 Hp2 Ht2 Hs2 Hd2] Hsub.
  split; try congruence; try done. intros n p Hn HF2.
  assert (is_Some (fs s !! n)) as HF.
  { destruct (InodeTable.ok_live _ Hok n p Hn) as (i & Hi & _). exists i.
    by apply (points_fs s n p). }
  auto.
Qed.

(** *** Lenses of the service *)

Lemma with_table_self s : update table (view table s) s = s.
Proof. by destruct s. Qed.

Lemma with_fds_self s : update fds (view fds s) s = s.
Proof. by destruct s. Qed.

Lemma upd_table s t F :
  table_ok t → files t = F →
  (∀ n p, InodeTable.table_ (inode_table_ s) !! n = Some p → is_Some (F !! n) →
    InodeTable.table_ t !! n = Some p) →
  InodeTable.total_size_ t = InodeTable.total_size_ (inode_table_ s) →
  upd s (update table t s) F (space_manager_ s).
Proof. intros. by split. Qed.

(** *** The rules *)

Lemma wp_svc_GetInode s n i Q :
  table_ok (inode_table_ s) → fs s !! n = Some i →
  (∀ p, points s n p i → Q (Some p) s) → wp (GetInode n) Q s.
Proof.
  intros Hok Hn HQ. unfold GetInode. apply wp_zoom. eapply wp_GetInode; [done..|].
  intros p ? ?. rewrite with_table_self. apply HQ. by split.
Qed.

Lemma set_file_self t p i : InodeTable.heap t !! p = Some i → set_file p i t = t.
Proof. intros Hp. destruct t. unfold set_file, InodeTable.set_heap. simpl in *. by rewrite insert_id. Qed.

Lemma wp_read_inode {A} s n p i (f : Inode → A) Q :
  points s n p i → Q (f i) s → wp (on_inode (Some p) (gets f)) Q s.
Proof.
  intros [Hn Hp] HQ. unfold on_inode. apply wp_zoom. eapply wp_on_inode; [exact Hp|]. wp_auto.
  by rewrite set_file_self, with_table_self.
Qed.

Lemma wp_write_inode {A} s n p i (m : M Inode A) Q :
  table_ok (inode_table_ s) → points s n p i →
  wp m (λ a i', Inode.inum_ i' = Inode.inum_ i ∧
    ∀ s', upd s s' (<[n := i']> (fs s)) (space_manager_ s) → Q a s') i →
  wp (on_inode (Some p) m) Q s.
Proof.
  intros Hok [Hn Hp] Hm. unfold on_inode. apply wp_zoom. eapply wp_on_inode; [exact Hp|].
  eapply wp_mono; [exact Hm|]. intros a i' [Hi' HQ]. apply HQ. apply upd_table; [| |done..].
  - by eapply set_file_ok.
  - by eapply files_set_file.
Qed.

Lemma wp_alloc s ty Q :
  table_ok (inode_table_ s) → ¬ table_full s →
  (∀ n s', fs s !! n = None → n ≠ 0 ∨ fs s !! 0 = None →
    least_of n (InodeTable.free_list_ (inode_table_ s)) →
    upd s s' (<[n := Inode.make ty n]> (fs s)) (space_manager_ s) → Q n s') →
  wp (zoom table (InodeTable.AllocateFreeInode ty)) Q s.
Proof.
  intros Hok Hfull HQ. apply wp_zoom. simpl.
  destruct (free_list_cons _ Hok) as (n & q & Hq).
  unfold wp. rewrite (AllocateFreeInode_run _ n ty q) by done.
  assert (Hn : InodeTable.table_ (inode_table_ s) !! n = None).
  { apply free_not_in_table; [done|]. rewrite Hq. by left. }
  assert (HF : fs s !! n = None) by (by apply files_None).
  apply HQ; [done| | |].
  - destruct (decide (n = 0)) as [->|]; auto.
  - rewrite Hq. split; [by left|]. intros j [->|Hj]%elem_of_cons; [done|].
    pose proof (InodeTable.ok_sorted _ Hok) as Hs. rewrite Hq in Hs. by eapply pq_top_least.
  - apply upd_table; [by apply table_add_ok|by apply files_table_add| |done].
    intros m p Hm _. simpl. rewrite lookup_insert_ne; [done|]. intros <-. congruence.
Qed.

Lemma wp_alloc_full s ty Q :
  table_ok (inode_table_ s) → table_full s →
  Q (InodeTable.total_size_ (inode_table_ s) + 1) s →
  wp (zoom table (InodeTable.AllocateFreeInode ty)) Q s.
Proof.
  intros Hok Hfull HQ. apply wp_zoom. unfold wp. rewrite AllocateFreeInode_full by done.
  by rewrite with_table_self.
Qed.

Lemma wp_delete s n i Q :
  table_ok (inode_table_ s) → fs s !! n = Some i →
  (∀ s', upd s s' (delete n (fs s)) (space_manager_ s) → Q true s') →
  wp (zoom table (InodeTable.DeleteInode n)) Q s.
Proof.
  intros Hok (p & Hn & Hp)%files_Some HQ. apply wp_zoom. unfold wp. simpl.
  rewrite (DeleteInode_run _ n p) by done.
  apply HQ. apply upd_table; [by eapply table_del_ok|apply files_table_del| |done].
  intros m q Hm [x Hx]. simpl. rewrite lookup_delete_ne; [done|].
  intros <-. by rewrite lookup_delete_eq in Hx.
Qed.

Lemma upd_set_spaces s Sp : table_ok (inode_table_ s) → upd s (set_spaces Sp s) (fs s) Sp.
Proof. intros. by split. Qed.

Lemma wp_space {A} s k sm (m : M SpaceManager A) Q :
  table_ok (inode_table_ s) → space_manager_ s !! k = Some sm →
  wp m (λ a sm', ∀ s', upd s s' (fs s) (<[k := sm']> (space_manager_ s)) → Q a s') sm →
  wp (on_space k m) Q s.
Proof.
  intros Hok Hk Hm. unfold wp, on_space in *. rewrite Hk. destruct (m sm) as [[a sm']|]; [|done].
  by apply Hm, upd_set_spaces.
Qed.

Lemma wp_randInt `{RandLaws} s n Q :
  table_ok (inode_table_ s) → 0 < n →
  (∀ r s', 0 ≤ r < n → upd s s' (fs s) (space_manager_ s) → Q r s') → wp (randInt n) Q s.
Proof.
  intros Hok Hn HQ. unfold wp, randInt. rewrite (proj2 (Z.eqb_neq _ _)) by lia.
  pose proof (rand_nonneg (rand_calls s)). apply HQ; [|by split].
  rewrite Z.rem_mod_nonneg by lia. by apply Z.mod_pos_bound.
Qed.

(** The walk over the keys stops at the [r]-th. *)
Lemma pick_server_lookup keys c r : c ≤ r →
  pick_server keys c r = default (-1) (keys !! Z.to_nat (r - c)).
Proof.
  revert c. induction keys as [|k keys IH]; intros c Hc; simpl; [done|].
  destruct (Z.eqb_spec c r) as [->|Hne]; [by rewrite Z.sub_diag|].
  rewrite IH by lia. by replace (Z.to_nat (r - c)) with (S (Z.to_nat (r - (c + 1)))) by lia.
Qed.

Lemma pick_server_key {A} (m : gmap Z A) r : 0 ≤ r < Z.of_nat (size m) →
  ∃ x, m !! pick_server (map_keys m) 0 r = Some x.
Proof.
  intros Hr. rewrite pick_server_lookup, Z.sub_0_r by lia.
  destruct (lookup_lt_is_Some_2 (map_keys m) (Z.to_nat r)) as [k Hk]; [rewrite length_map_keys; lia|].
  rewrite Hk. simpl. apply elem_of_map_keys. by eapply list_elem_of_lookup_2.
Qed.
End upd_lemmas.
