(* ===== verification/MetaHandlers.v ===== *)
(** * The handlers: each one returns, and what it leaves. *)
From S2P Require Import Prelude FsInode IdPool FsTable FsFiles FsSpace MetaProto MetaServer MetaPlan.
From S2P Require Import MetaInv MetaSteps.
Local Open Scope Z_scope.
Import InodeTable (files, table_ok).

(** [i] with more blocks at its end. *)
Definition grow (news : list file_block_info) (i : Inode) : Inode :=
  Inode.set_blocks (Inode.block_info_list_ i ++ news) i.

(** Each server keeps its region and still has all but [n] of its free blocks. *)
Definition spaces_shrink (n : Z) (Sp Sp' : Spaces) : Prop :=
  dom Sp' = dom Sp ∧
  ∀ k sm', Sp' !! k = Some sm' → ∃ sm, Sp !! k = Some sm ∧ SpaceManager.same_space sm sm' ∧
    free_blocks sm - n ≤ free_blocks sm'.

(** No file of [F] owns the block. *)
Definition unowned (F : Files) (b : file_block_info) : Prop :=
  ∀ m j, ¬ owns F m j (fb_server_id b) (fb_block_nr b).

(** What the server needs to hand out [n] blocks whatever servers [rand()] picks. *)
Definition can_grow (Sp : Spaces) (n : Z) : Prop :=
  0 < n → 0 < Z.of_nat (size Sp) ∧ ∀ k sm, Sp !! k = Some sm → n ≤ free_blocks sm.

Section append.
Context `{StringHash, RandLaws}.
Implicit Types (s : MetadataServiceImpl) (F : Files) (Sp : Spaces) (i : Inode).
Import SpaceManager.

Lemma spaces_shrink_refl Sp : spaces_shrink 0 Sp Sp.
Proof. split; [done|]. intros k sm Hk. exists sm. split_and!; [done|done|lia]. Qed.

Lemma spaces_shrink_trans n n' Sp Sp' Sp'' :
  spaces_shrink n Sp Sp' → spaces_shrink n' Sp' Sp'' → spaces_shrink (n + n') Sp Sp''.
Proof.
  intros [Hd Hs] [Hd' Hs']. split; [congruence|]. intros k sm'' Hk.
  destruct (Hs' k sm'' Hk) as (sm' & Hk' & ? & ?). destruct (Hs k sm' Hk') as (sm & ? & ? & ?).
  exists sm. split_and!; [done|by etrans|lia].
Qed.

Lemma spaces_shrink_insert Sp k sm sm' :
  Sp !! k = Some sm → same_space sm sm' → free_blocks sm - 1 ≤ free_blocks sm' →
  spaces_shrink 1 Sp (<[k := sm']> Sp).
Proof.
  intros Hk Hs Hf. split.
  - rewrite dom_insert_L. apply elem_of_dom_2 in Hk. set_solver.
  - intros k' sm0. rewrite lookup_insert_Some. intros [[<- <-]|[_ Hk']]; [by exists sm|].
    exists sm0. split_and!; [done|done|lia].
Qed.

Lemma can_grow_shrink n Sp Sp' :
  can_grow Sp (1 + n) → 0 ≤ n → spaces_shrink 1 Sp Sp' → can_grow Sp' n.
Proof.
  intros Hc Hn [Hd Hs] Hpos. destruct Hc as [Hsz Hcap]; [lia|]. split.
  - by rewrite <- size_dom, Hd, size_dom.
  - intros k sm' Hk. destruct (Hs k sm' Hk) as (sm & Hsm & _ & ?). specialize (Hcap k sm Hsm). lia.
Qed.

Lemma wp_append_block s n p i Q :
  table_ok (inode_table_ s) → fs_ok (fs s) (space_manager_ s) → points s n p i → n ≠ ROOT_INUM →
  can_grow (space_manager_ s) 1 →
  (∀ b s' Sp', unowned (fs s) b → fb_length b = 0 → spaces_shrink 1 (space_manager_ s) Sp' →
    fs_ok (<[n := grow [b] i]> (fs s)) Sp' → upd s s' (<[n := grow [b] i]> (fs s)) Sp' → Q tt s') →
  wp (append_block (Some p)) Q s.
Proof.
  intros Hok Hfs Hp Hroot Hcan HQ. destruct Hcan as [Hsz Hcap]; [lia|].
  pose proof (fs_spaces _ _ Hfs) as [Hspaces Hmax].
  unfold append_block. wp_auto. rewrite s32_small by lia.
  apply wp_randInt; [done|lia|]. intros r s1 Hr U1. wp_auto.
  rewrite (upd_spaces _ _ _ _ U1).
  destruct (pick_server_key (space_manager_ s) r Hr) as [sm Hsm].
  set (k := pick_server (map_keys (space_manager_ s)) 0 r) in *.
  destruct (Hspaces k sm Hsm) as (Hsmok & Hid & Hk & Hbytes). specialize (Hcap k sm Hsm).
  unfold free_blocks in Hcap. destruct (free_list_ sm) as [|nr q] eqn:Hq; [simpl in Hcap; lia|].
  apply (wp_space s1 k sm); [apply U1|by rewrite (upd_spaces _ _ _ _ U1)|].
  eapply wp_AllocateOneBlock; [done..|]. intros sm' _ Hfree Hq' Hused Hok' Hsame s2 U2.
  rewrite (upd_spaces _ _ _ _ U1), (upd_files _ _ _ _ U1) in U2.
  assert (Hnr : nr ∈ free_list_ sm) by (rewrite Hq; by left).
  apply or_introl with (B := nr ∈ inused_blocks_ sm), (space_range sm nr (proj2 Hsmok)) in Hnr.
  pose proof FILE_BLOCK_SIZE_eq as HBS. rewrite (u64_small k), (u64_small (nr * _)) by nia.
  pose proof (points_fs s n p i Hp) as Hn.
  assert (U12 : upd s s2 (fs s) (<[k := sm']> (space_manager_ s))) by (eapply upd_trans; eauto).
  pose proof (upd_points _ _ _ _ n p i i U12 Hp Hn) as Hp2.
  eapply wp_write_inode; [apply U12|exact Hp2|].
  unfold Inode.AppendFileBlockInfo. wp_auto. split; [done|]. intros s3 U3.
  rewrite (upd_spaces _ _ _ _ U12), (upd_files _ _ _ _ U12) in U3.
  set (b := FileBlock k (nr * FILE_BLOCK_SIZE) 0 nr) in *.
  apply (HQ b s3 (<[k := sm']> (space_manager_ s))); [|done| | |].
  - intros m j Ho. destruct (own_used _ _ (fs_own _ _ Hfs) _ _ _ _ Ho) as (sm0 & Hsm0 & Hin).
    simpl in *. congruence.
  - apply (spaces_shrink_insert _ _ sm); [done..|]. unfold free_blocks. rewrite Hq, Hq'. simpl. lia.
  - by apply (fs_ok_add_block (fs s) (space_manager_ s) n i b sm sm').
  - eapply upd_trans; [done|exact U12|exact U3|]. by intros m ? _.
Qed.

Lemma grow_nil i : grow [] i = i.
Proof. destruct i. unfold grow, Inode.set_blocks. simpl. by rewrite app_nil_r. Qed.

Lemma grow_grow l l' i : grow l' (grow l i) = grow (l ++ l') i.
Proof. unfold grow, Inode.set_blocks. simpl. by rewrite app_assoc. Qed.

Lemma unowned_grow F n i b b' : F !! n = Some i →
  unowned (<[n := grow [b] i]> F) b' → unowned F b'.
Proof.
  intros Hn Hu m j Ho. apply (Hu m j). apply (owns_add_block F n i b m j); [done|]. by left.
Qed.

Lemma wp_append_blocks c s n p i Q :
  table_ok (inode_table_ s) → fs_ok (fs s) (space_manager_ s) → points s n p i → n ≠ ROOT_INUM →
  can_grow (space_manager_ s) (Z.of_nat c) →
  (∀ news s' Sp', length news = c → Forall (unowned (fs s)) news →
    spaces_shrink (Z.of_nat c) (space_manager_ s) Sp' →
    fs_ok (<[n := grow news i]> (fs s)) Sp' →
    upd s s' (<[n := grow news i]> (fs s)) Sp' → points s' n p (grow news i) → Q tt s') →
  wp (append_blocks c (Some p)) Q s.
Proof.
  revert s i Q. induction c as [|c IH]; intros s i Q Hok Hfs Hp Hroot Hcan HQ; simpl.
  - pose proof (points_fs _ _ _ _ Hp) as Hn. wp_auto.
    apply (HQ [] s (space_manager_ s)); rewrite ?grow_nil, ?insert_id; try done.
    + apply spaces_shrink_refl.
  - pose proof (points_fs _ _ _ _ Hp) as Hn. replace (Z.of_nat (S c)) with (1 + Z.of_nat c) in * by lia.
    wp_auto. eapply wp_append_block; [done..| |].
    { intros _. destruct Hcan as [? Hcap]; [lia|]. split; [done|].
      intros k sm Hk. specialize (Hcap k sm Hk). lia. }
    intros b s1 Sp1 Hb Hlen Hsh Hfs1 U1.
    pose proof (upd_points _ _ _ _ n p i _ U1 Hp (lookup_insert_eq _ _ _)) as Hp1.
    apply (IH s1 (grow [b] i)); rewrite ?(upd_files _ _ _ _ U1), ?(upd_spaces _ _ _ _ U1); [apply U1|done..| |].
    { eapply can_grow_shrink; [done|lia|done]. }
    intros news s2 Sp2 Hl Hnews Hsh2 Hfs2 U2 Hp2.
    rewrite grow_grow, insert_insert_eq in *. simpl in *.
    apply (HQ (b :: news) s2 Sp2); [simpl; lia| |by eapply spaces_shrink_trans|done| |done].
    + constructor; [done|]. eapply Forall_impl; [exact Hnews|]. intros b'. by apply unowned_grow.
    + eapply upd_trans; [done|exact U1|exact U2|]. intros m Hm _.
      rewrite lookup_insert_is_Some'. by right.
Qed.
End append.

(** ** Reading a file *)

Section reading.
Context `{StringHash}.
Implicit Types (s : MetadataServiceImpl) (F : Files) (Sp : Spaces) (i : Inode).

(** A method that leaves the inode as it is leaves the service as it is. *)
Lemma wp_peek_inode {A} s n p i (m : M Inode A) Q :
  points s n p i → wp m (λ a i', i' = i ∧ Q a s) i → wp (on_inode (Some p) m) Q s.
Proof.
  intros [_ Hp] Hm. unfold on_inode. apply wp_zoom. eapply wp_on_inode; [exact Hp|].
  eapply wp_mono; [exact Hm|]. intros a i' [-> HQ]. by rewrite set_file_self, with_table_self.
Qed.

(** Every handler starts with the inode of the root directory. *)
Lemma wp_root {A} s (k : option ptr → Srv A) Q :
  service_ok s →
  (∀ p r, points s ROOT_INUM p r → dir (fs s) = Inode.children_ r → wp (k (Some p)) Q s) →
  wp (GetInode ROOT_INUM ≫= k) Q s.
Proof.
  intros [Hok _ Hfs] Hk. destruct (dir_root _ (fs_dir _ _ Hfs)) as (r & Hr & _).
  apply wp_bind. eapply wp_svc_GetInode; [done..|]. intros p Hp. apply (Hk p r Hp).
  unfold dir. by rewrite Hr.
Qed.

Lemma clip_min size off len : 0 ≤ off ≤ size → size < 2 ^ 64 → 0 ≤ len → off + len < 2 ^ 64 →
  clip size off len = Z.min len (size - off).
Proof.
  intros. unfold clip. rewrite !u64_small by lia. destruct (Z.ltb_spec size (off + len)); lia.
Qed.

(** The reply of a read: the plan of the bytes from [off], as many as there are up to [len]. *)
Definition read_reply (i : Inode) (off len : Z) (reply : ReadReply) : Prop :=
  bytes_read reply = Z.min len (Inode.size_ i - off) ∧
  plan_bytes (read_block_info reply) = file_bytes i off 0 (Z.min len (Inode.size_ i - off)) ∧
  tidy i off (Z.min len (Inode.size_ i - off)) (read_block_info reply).

Lemma wp_ReadFile s rq d i Q :
  service_ok s → dir (fs s) !! std_hash (read_name rq) = Some d → fs s !! Dentry.inum_ d = Some i →
  0 ≤ read_offset rq ≤ Inode.size_ i → 0 ≤ read_length rq →
  read_offset rq + read_length rq < 2 ^ 64 →
  (∀ reply, read_reply i (read_offset rq) (read_length rq) reply → Q (OK, reply) s) →
  wp (ReadFile rq) Q s.
Proof.
  intros Hs Hd Hi Hoff Hlen Hend HQ. pose proof Hs as [Hok _ Hfs].
  destruct (fs_inode _ _ Hfs _ _ Hi) as (_ & Hsize & Hcov).
  apply wp_root; [done|]. intros p r Hr Hdir. rewrite Hdir in Hd.
  apply wp_bind. eapply wp_read_inode; [done|]. unfold Inode.GetDentry. rewrite Hd. simpl. wp_auto.
  eapply wp_svc_GetInode; [done..|]. intros q Hq. unfold read_inode. rewrite decide_False by done. wp_auto.
  eapply wp_read_inode; [done|]. unfold Inode.GetSize. rewrite clip_min by lia.
  wp_auto. eapply wp_peek_inode; [done|].
  eapply wp_mono; [apply wp_read_tidy; [by eapply fs_ok_blocks_fit|lia..]|]. simpl.
  intros c i' (-> & Hplan & Hlens). split; [done|]. wp_auto. apply HQ.
  unfold read_reply. simpl. rewrite u64_small by lia. split_and!; [lia|done..].
Qed.
End reading.

(** ** Making a file *)

Section making.
Context `{StringHash}.
Implicit Types (s : MetadataServiceImpl) (F : Files) (Sp : Spaces) (i : Inode).

(** The files after a new one, number [n] of type [ty] called [name], whose directory was [r]. *)
Definition with_child (name : string) (ty : FileType) (n : Z) (r : Inode) (F : Files) : Files :=
  <[ROOT_INUM := add_child (std_hash name) (Dentry.make name n) r]> (<[n := Inode.make ty n]> F).

Lemma with_child_lookup name ty n r F : n ≠ ROOT_INUM →
  with_child name ty n r F !! n = Some (Inode.make ty n).
Proof. intros Hn. unfold with_child. by rewrite lookup_insert_ne, lookup_insert_eq. Qed.

Lemma dir_with_child name ty n r F :
  dir (with_child name ty n r F) = <[std_hash name := Dentry.make name n]> (Inode.children_ r).
Proof. apply dir_add_child. Qed.

Lemma wp_AddDentry name n i (Q : bool → Inode → Prop) : Inode.children_ i !! std_hash name = None →
  Q true (add_child (std_hash name) (Dentry.make name n) i) → wp (Inode.AddDentry name n) Q i.
Proof.
  intros Hn HQ. unfold Inode.AddDentry. wp_auto. rewrite Hn. rewrite decide_False by (by intros []).
  wp_auto. done.
Qed.

Lemma new_inode_ok ty n : inode_ok (Inode.make ty n).
Proof. split_and!; [constructor|done..]. Qed.

Lemma wp_make_child {A} s p r name ty (k : Z → Srv A) Q :
  table_ok (inode_table_ s) → fs_ok (fs s) (space_manager_ s) → points s ROOT_INUM p r →
  ¬ table_full s → Inode.children_ r !! std_hash name = None →
  (∀ n s', fs s !! n = None → n ≠ ROOT_INUM → least_of n (InodeTable.free_list_ (inode_table_ s)) →
    let F' := with_child name ty n r (fs s) in
    fs_ok F' (space_manager_ s) → upd s s' F' (space_manager_ s) →
    points s' ROOT_INUM p (add_child (std_hash name) (Dentry.make name n) r) → wp (k n) Q s') →
  wp (n ← zoom table (InodeTable.AllocateFreeInode ty);
      on_inode (Some p) (Inode.AddDentry name n);; k n) Q s.
Proof.
  intros Hok Hfs Hp Hfull Hname Hk. pose proof (points_fs _ _ _ _ Hp) as Hr.
  apply wp_bind. eapply wp_alloc; [done..|]. intros n s1 Hn _ Hleast U1.
  assert (Hroot : n ≠ ROOT_INUM) by congruence.
  apply wp_bind. eapply wp_write_inode; [apply U1| |].
  { eapply upd_points; [exact U1|exact Hp|]. by rewrite lookup_insert_ne. }
  apply wp_AddDentry; [done|]. split; [done|]. intros s2 U2.
  rewrite (upd_files _ _ _ _ U1), (upd_spaces _ _ _ _ U1) in U2.
  assert (U : upd s s2 (with_child name ty n r (fs s)) (space_manager_ s)).
  { eapply upd_trans; [done|exact U1|exact U2|]. intros m Hm _. rewrite lookup_insert_is_Some'. auto. }
  apply Hk with (n := n); try done.
  - apply fs_ok_create; [done..|unfold dir; by rewrite Hr|done|apply new_inode_ok].
  - eapply upd_points; [exact U|exact Hp|]. unfold with_child. by rewrite lookup_insert_eq.
Qed.

(** ** CreateFile *)

Lemma wp_CreateFile_new s rq Q :
  service_ok s → dir (fs s) !! std_hash (create_name rq) = None → ¬ table_full s →
  (∀ n r s', fs s !! ROOT_INUM = Some r → fs s !! n = None → n ≠ ROOT_INUM →
    least_of n (InodeTable.free_list_ (inode_table_ s)) →
    let F' := with_child (create_name rq) (if create_is_dir rq then DIR else REG_FILE) n r (fs s) in
    fs_ok F' (space_manager_ s) → upd s s' F' (space_manager_ s) →
    Q (OK, {| create_inum := n |}) s') →
  wp (CreateFile rq) Q s.
Proof.
  intros Hs Hd Hfull HQ. pose proof Hs as [Hok _ Hfs]. apply wp_root; [done|].
  intros p r Hr Hdir. rewrite Hdir in Hd. pose proof (points_fs _ _ _ _ Hr) as Hroot.
  apply wp_bind. eapply wp_read_inode; [done|]. unfold Inode.GetDentry. rewrite Hd.
  assert (Hgo : ∀ ty, ty = (if create_is_dir rq then DIR else REG_FILE) →
    wp (n ← zoom table (InodeTable.AllocateFreeInode ty);
        on_inode (Some p) (Inode.AddDentry (create_name rq) n);;
        mret (OK, {| create_inum := n |})) Q s).
  { intros ty ->. apply (wp_make_child s p r); try done. intros n s' Hn Hn0 Hl F' Hfs' U _. wp_auto.
    by apply (HQ n r). }
  destruct (create_is_dir rq); by apply Hgo.
Qed.

Lemma wp_CreateFile_old s rq d Q :
  service_ok s → dir (fs s) !! std_hash (create_name rq) = Some d →
  Q (OK, {| create_inum := Dentry.inum_ d |}) s → wp (CreateFile rq) Q s.
Proof.
  intros Hs Hd HQ. apply wp_root; [done|]. intros p r Hr Hdir. rewrite Hdir in Hd.
  apply wp_bind. eapply wp_read_inode; [done|]. unfold Inode.GetDentry. rewrite Hd. by wp_auto.
Qed.

(** The helper CreateFile_ of WriteFile and OpenFile. *)
Lemma wp_CreateFile_ {A} s name (k : Z → Srv A) Q :
  service_ok s → dir (fs s) !! std_hash name = None → ¬ table_full s →
  (∀ n r p s', points s ROOT_INUM p r → fs s !! n = None → n ≠ ROOT_INUM →
    least_of n (InodeTable.free_list_ (inode_table_ s)) →
    let F' := with_child name REG_FILE n r (fs s) in
    fs_ok F' (space_manager_ s) → upd s s' F' (space_manager_ s) → wp (k n) Q s') →
  wp (CreateFile_ name false ≫= k) Q s.
Proof.
  intros Hs Hd Hfull HQ. pose proof Hs as [Hok _ Hfs]. apply wp_bind. apply wp_root; [done|].
  intros p r Hr Hdir. rewrite Hdir in Hd. apply (wp_make_child s p r); try done.
  intros n s' Hn Hn0 Hl F' Hfs' U _. wp_auto. by apply (HQ n r p).
Qed.
End making.

(** ** Writing a file *)

(** [i] at another size. *)
Definition resize (size : Z) (i : Inode) : Inode :=
  Inode.Mk (Inode.inum_ i) (Inode.type_ i) size (Inode.file_fd_ i) (Inode.children_ i)
    (Inode.block_info_list_ i).

(** [i'] is [i] after a write that added the blocks [news] and left the file [size] bytes long; only
    the lengths of its blocks are open. *)
Definition written (i : Inode) (news : list file_block_info) (size : Z) (i' : Inode) : Prop :=
  same_layout (resize size (grow news i)) i'.

(** How many blocks a write adds to a file of [have] blocks. *)
Definition blocks_added (have off len : Z) : Z := Z.max 0 (blocks_needed off len - have).

(** The reply of a write: the plan of all the bytes, in the blocks of [i]. *)
Definition write_reply (i : Inode) (off len : Z) (reply : WriteReply) : Prop :=
  bytes_write reply = len ∧
  plan_bytes (write_block_info reply) = file_bytes i off 0 len ∧
  tidy i off len (write_block_info reply).

Section writing.
Context `{StringHash, RandLaws}.
Implicit Types (s : MetadataServiceImpl) (F : Files) (Sp : Spaces) (i : Inode).

Lemma blocks_needed_spec off len : 0 ≤ off → 0 ≤ len → off + len + FILE_BLOCK_SIZE ≤ 2 ^ 64 →
  0 ≤ blocks_needed off len ∧
  off + len ≤ blocks_needed off len * FILE_BLOCK_SIZE < off + len + FILE_BLOCK_SIZE.
Proof.
  intros Ho Hl He. pose proof FILE_BLOCK_SIZE_eq. unfold blocks_needed.
  rewrite u64_small by lia.
  pose proof (Z.div_mod (off + len + FILE_BLOCK_SIZE - 1) FILE_BLOCK_SIZE ltac:(lia)).
  pose proof (Z.mod_pos_bound (off + len + FILE_BLOCK_SIZE - 1) FILE_BLOCK_SIZE ltac:(lia)).
  split; [apply Z.div_pos; lia|]. lia.
Qed.

Lemma inode_ok_layout i i' size :
  inode_ok i → same_layout (resize size i) i' → 0 ≤ size < 2 ^ 64 →
  size ≤ Inode.GetBlockNum i * FILE_BLOCK_SIZE → inode_ok i'.
Proof.
  intros (Hb & _ & _) Hlay Hs Hcov. pose proof Hlay as (_ & _ & Hsz & _ & _ & Hl). simpl in *.
  split_and!; [|lia|lia|].
  - apply Forall_lookup. intros j b' Hb'. destruct (Forall2_lookup_r _ _ _ _ _ Hl Hb')
      as (b & Hj & _ & Ha & Hr). rewrite <- Ha, <- Hr. by apply (proj1 (Forall_lookup _ _) Hb j).
  - rewrite <- Hsz. by rewrite <- (GetBlockNum_proper _ _ Hlay).
Qed.

(** Growing the file to the blocks it needs. *)
Lemma wp_enlarge s n p i off len Q :
  table_ok (inode_table_ s) → fs_ok (fs s) (space_manager_ s) → points s n p i → n ≠ ROOT_INUM →
  0 ≤ off → 0 ≤ len → off + len + FILE_BLOCK_SIZE ≤ 2 ^ 64 →
  can_grow (space_manager_ s) (blocks_added (Inode.GetBlockNum i) off len) →
  blocks_added (Inode.GetBlockNum i) off len < 2 ^ 31 →
  (∀ news s' Sp', Z.of_nat (length news) = blocks_added (Inode.GetBlockNum i) off len →
    Forall (unowned (fs s)) news →
    spaces_shrink (blocks_added (Inode.GetBlockNum i) off len) (space_manager_ s) Sp' →
    fs_ok (<[n := grow news i]> (fs s)) Sp' →
    upd s s' (<[n := grow news i]> (fs s)) Sp' → points s' n p (grow news i) → Q tt s') →
  wp (if Inode.GetBlockNum i <? blocks_needed off len then
        append_blocks (Z.to_nat (s32 (u64 (blocks_needed off len - Inode.GetBlockNum i)))) (Some p)
      else mret ()) Q s.
Proof.
  intros Hok Hfs Hp Hroot Ho Hl He Hcan Hmax HQ.
  destruct (blocks_needed_spec off len) as [? ?]; [done..|].
  assert (0 ≤ Inode.GetBlockNum i) by (unfold Inode.GetBlockNum; lia).
  unfold blocks_added in *. destruct (Z.ltb_spec (Inode.GetBlockNum i) (blocks_needed off len)).
  - rewrite u64_small, s32_small by lia.
    rewrite Z.max_r in * by lia. set (m := blocks_needed off len - Inode.GetBlockNum i) in *.
    replace m with (Z.of_nat (Z.to_nat m)) in * by lia. rewrite Nat2Z.id.
    eapply wp_append_blocks; [done..|]. intros news s' Sp' Hlen. apply HQ. lia.
  - rewrite Z.max_l in * by lia. wp_auto. apply (HQ [] s (space_manager_ s)); try done.
    + apply spaces_shrink_refl.
    + rewrite grow_nil, insert_id by by eapply points_fs. done.
    + rewrite grow_nil, insert_id by by eapply points_fs. by apply upd_refl.
    + by rewrite grow_nil.
Qed.

Lemma wp_write_inode_all s n p i off len Q :
  table_ok (inode_table_ s) → fs_ok (fs s) (space_manager_ s) → points s n p i → n ≠ ROOT_INUM →
  0 ≤ off → 0 ≤ len → off + len + FILE_BLOCK_SIZE ≤ 2 ^ 64 →
  can_grow (space_manager_ s) (blocks_added (Inode.GetBlockNum i) off len) →
  blocks_added (Inode.GetBlockNum i) off len < 2 ^ 31 →
  (∀ news i' reply s' Sp', Z.of_nat (length news) = blocks_added (Inode.GetBlockNum i) off len →
    Forall (unowned (fs s)) news → written i news (off + len) i' → write_reply i' off len reply →
    spaces_shrink (blocks_added (Inode.GetBlockNum i) off len) (space_manager_ s) Sp' →
    fs_ok (<[n := i']> (fs s)) Sp' → upd s s' (<[n := i']> (fs s)) Sp' → Q (OK, reply) s') →
  wp (write_inode (Some p) off len) Q s.
Proof.
  intros Hok Hfs Hp Hroot Ho Hl He Hcan Hmax HQ. pose proof (points_fs _ _ _ _ Hp) as Hn.
  pose proof FILE_BLOCK_SIZE_eq. unfold write_inode. apply wp_bind. eapply wp_read_inode; [done|].
  apply wp_bind. eapply wp_enlarge; [done..|]. intros news s1 Sp1 Hnum Hnews Hsh Hfs1 U1 Hp1.
  assert (Hcov : off + len ≤ Inode.GetBlockNum (grow news i) * FILE_BLOCK_SIZE).
  { destruct (blocks_needed_spec off len) as [? ?]; [done..|].
    unfold Inode.GetBlockNum, blocks_added in *. simpl. rewrite length_app. nia. }
  apply wp_bind. eapply wp_write_inode; [apply U1|done|].
  eapply wp_mono; [apply wp_write_tidy; [eapply fs_ok_blocks_fit; [exact Hfs1|]|lia..]|].
  { by rewrite lookup_insert_eq. }
  intros c i1 (Hlay & Hplan & Hlens). split; [symmetry; apply Hlay|]. intros s2 U2.
  rewrite (upd_files _ _ _ _ U1), (upd_spaces _ _ _ _ U1), insert_insert_eq in U2.
  assert (U12 : upd s s2 (<[n := i1]> (fs s)) Sp1).
  { eapply upd_trans; [done|exact U1|exact U2|]. intros m Hm _. rewrite lookup_insert_is_Some'. auto. }
  apply wp_bind. eapply wp_write_inode; [apply U12| |].
  { eapply upd_points; [exact U12|exact Hp|]. by rewrite lookup_insert_eq. }
  unfold Inode.SetSize. wp_auto. split; [done|]. intros s3 U3. wp_auto.
  rewrite (upd_files _ _ _ _ U12), (upd_spaces _ _ _ _ U12), insert_insert_eq in U3.
  rewrite !Z.sub_0_r, !u64_small in * by lia.
  assert (Hw : written i news (off + len) (resize (off + len) i1)).
  { destruct Hlay as (?&?&?&?&?&?). by split_and!. }
  apply (HQ news (resize (off + len) i1) _ s3 Sp1); try done.
  - split_and!; [done| |].
    + simpl. rewrite Hplan. apply list_fmap_ext. intros _ k _. f_equal. by rewrite Hlay.
    + change (tidy i1 off len (c_reply c)). eapply tidy_proper; [exact Hlay|done..].
  - rewrite <- (insert_insert_eq (fs s) n _ (grow news i)). eapply fs_ok_change; [done| |done|..].
    + by rewrite lookup_insert_eq.
    + symmetry. apply Hlay.
    + symmetry. apply Hlay.
    + apply Hlay.
    + eapply inode_ok_layout; [|exact Hw|lia|done].
      eapply (fs_inode _ _ Hfs1 n). by rewrite lookup_insert_eq.
  - eapply upd_trans; [done|exact U12|exact U3|]. intros m Hm _. rewrite lookup_insert_is_Some'. auto.
Qed.
End writing.
