(* ===== verification/MetaRpc.v ===== *)
(** * The remaining handlers: WriteFile, OpenFile, CloseFile, RemoveFile, ReadDirectory and
    RegisterMemoryRegion, and the state a fresh server starts in. *)
From S2P Require Import Prelude FsInode IdPool FsTable FsFiles FsSpace MetaProto MetaServer MetaPlan.
From S2P Require Import MetaInv MetaSteps MetaHandlers.
Local Open Scope Z_scope.
Import InodeTable (files, table_ok).

Section write_file.
Context `{StringHash, RandLaws}.
Implicit Types (s : MetadataServiceImpl) (F : Files) (Sp : Spaces) (i : Inode).

(** What a write of [len] bytes at [off] to a file of [have] blocks needs. *)
Record writable (Sp : Spaces) (have off len : Z) : Prop := {
  wr_off : 0 ≤ off;
  wr_len : 0 ≤ len;
  wr_end : off + len + FILE_BLOCK_SIZE ≤ 2 ^ 64;
  wr_room : can_grow Sp (blocks_added have off len);
  wr_count : blocks_added have off len < 2 ^ 31;
}.

Lemma wp_WriteFile_old s rq d i Q :
  service_ok s → dir (fs s) !! std_hash (write_name rq) = Some d → fs s !! Dentry.inum_ d = Some i →
  writable (space_manager_ s) (Inode.GetBlockNum i) (write_offset rq) (write_length rq) →
  (∀ news i' reply s' Sp',
    Z.of_nat (length news) = blocks_added (Inode.GetBlockNum i) (write_offset rq) (write_length rq) →
    Forall (unowned (fs s)) news → written i news (write_offset rq + write_length rq) i' →
    write_reply i' (write_offset rq) (write_length rq) reply →
    spaces_shrink (blocks_added (Inode.GetBlockNum i) (write_offset rq) (write_length rq))
      (space_manager_ s) Sp' →
    fs_ok (<[Dentry.inum_ d := i']> (fs s)) Sp' → upd s s' (<[Dentry.inum_ d := i']> (fs s)) Sp' →
    Q (OK, reply) s') →
  wp (WriteFile rq) Q s.
Proof.
  intros Hs Hd Hi [] HQ. pose proof Hs as [Hok _ Hfs].
  destruct (dir_entry _ (fs_dir _ _ Hfs) _ _ Hd) as (_ & Hne & _).
  apply wp_root; [done|]. intros p r Hr Hdir. rewrite Hdir in Hd.
  apply wp_bind. eapply wp_read_inode; [done|]. unfold Inode.GetDentry at 1. rewrite Hd. wp_auto.
  unfold Inode.GetDentry. rewrite Hd. simpl. wp_auto.
  eapply wp_svc_GetInode; [done..|]. intros q Hq. eapply wp_write_inode_all; done.
Qed.

Lemma wp_WriteFile_new s rq Q :
  service_ok s → dir (fs s) !! std_hash (write_name rq) = None → ¬ table_full s →
  writable (space_manager_ s) 0 (write_offset rq) (write_length rq) →
  (∀ n r news i' reply s' Sp', fs s !! ROOT_INUM = Some r → fs s !! n = None → n ≠ ROOT_INUM →
    least_of n (InodeTable.free_list_ (inode_table_ s)) →
    let F' := <[n := i']> (with_child (write_name rq) REG_FILE n r (fs s)) in
    Z.of_nat (length news) = blocks_added 0 (write_offset rq) (write_length rq) →
    Forall (unowned (with_child (write_name rq) REG_FILE n r (fs s))) news →
    written (Inode.make REG_FILE n) news (write_offset rq + write_length rq) i' →
    write_reply i' (write_offset rq) (write_length rq) reply →
    spaces_shrink (blocks_added 0 (write_offset rq) (write_length rq)) (space_manager_ s) Sp' →
    fs_ok F' Sp' → upd s s' F' Sp' → Q (OK, reply) s') →
  wp (WriteFile rq) Q s.
Proof.
  intros Hs Hd Hfull [] HQ. pose proof Hs as [Hok _ Hfs].
  apply wp_root; [done|]. intros p r Hr Hdir. pose proof (points_fs _ _ _ _ Hr) as Hroot.
  apply wp_bind. eapply wp_read_inode; [done|]. unfold Inode.GetDentry at 1. rewrite Hdir in Hd.
  rewrite Hd. apply wp_bind. apply wp_CreateFile_; [done|by rewrite Hdir|done|].
  intros n r' p' s1 Hr' Hn Hn0 Hleast F1 Hfs1 U1.
  assert (r' = r) as -> by (apply points_fs in Hr'; congruence).
  assert (Hp1 : points s1 ROOT_INUM p (add_child (std_hash (write_name rq)) (Dentry.make (write_name rq) n) r)).
  { eapply upd_points; [exact U1|exact Hr|]. unfold F1, with_child. by rewrite lookup_insert_eq. }
  eapply wp_read_inode; [exact Hp1|]. unfold Inode.GetDentry. simpl. rewrite lookup_insert_eq. simpl.
  wp_auto. eapply wp_svc_GetInode; [apply U1| |].
  { rewrite (upd_files _ _ _ _ U1). by apply with_child_lookup. }
  intros q Hq.
  eapply wp_write_inode_all; rewrite ?(upd_files _ _ _ _ U1), ?(upd_spaces _ _ _ _ U1);
    [apply U1|done|exact Hq|done..|].
  intros news i' reply s' Sp' Hnum Hnews Hw Hrep Hsh Hfs' U'.
  apply (HQ n r news i' reply s' Sp'); try done.
  eapply upd_trans; [done|exact U1|exact U'|]. intros m Hm _. unfold F1, with_child.
  rewrite !lookup_insert_is_Some'. auto.
Qed.
End write_file.

Section descriptors.
Context `{StringHash}.
Implicit Types (s : MetadataServiceImpl).

(** *** Descriptors *)

Definition set_fds (m : FileMap) (s : MetadataServiceImpl) : MetadataServiceImpl := update fds m s.

(** The descriptor number an open answers: the least free one, -1 when there is none. *)
Definition opened (m : FileMap) (fd : Z) (m' : FileMap) : Prop :=
  FileMap.fds_ok m' ∧ FileMap.total_size_ m' = FileMap.total_size_ m ∧
  (FileMap.fd_free_list_ m = [] ∧ fd = -1 ∧ m' = m ∨
   least_of fd (FileMap.fd_free_list_ m) ∧ fd ∉ FileMap.fd_used_set_ m ∧
   FileMap.fd_used_set_ m' = {[fd]} ∪ FileMap.fd_used_set_ m).

Lemma wp_AllocateFD m (Q : Z → FileMap → Prop) :
  FileMap.fds_ok m → (∀ fd m', opened m fd m' → Q fd m') → wp FileMap.AllocateFD Q m.
Proof.
  intros Hm HQ. unfold wp. destruct (FileMap.fd_free_list_ m) as [|fd q] eqn:Hq.
  - rewrite AllocateFD_none by done. apply HQ. split_and!; [done..|]. by left.
  - rewrite (AllocateFD_run m fd q) by done. apply HQ. split_and!; [by apply take_fd_ok|done|]. right.
    rewrite Hq. split_and!; [| |done].
    + split; [by left|]. intros j [->|Hj]%elem_of_cons; [done|].
      pose proof (FileMap.ok_sorted m Hm) as Hsort. rewrite Hq in Hsort. by eapply pq_top_least.
    + apply fd_NoDup; [done|]. rewrite Hq. by left.
Qed.

Lemma wp_OpenFile_old s rq d Q :
  service_ok s → dir (fs s) !! std_hash (open_name rq) = Some d →
  (∀ fd m, opened (file_map_ s) fd m → Q (OK, {| open_fd := fd |}) (set_fds m s)) →
  wp (OpenFile rq) Q s.
Proof.
  intros Hs Hd HQ. apply wp_root; [done|]. intros p r Hr Hdir. rewrite Hdir in Hd.
  apply wp_bind. eapply wp_read_inode; [done|]. unfold Inode.GetDentry. rewrite Hd. wp_auto.
  apply wp_AllocateFD; [apply Hs|]. intros fd m Hm. wp_auto. by apply HQ.
Qed.

Lemma wp_OpenFile_new s rq Q :
  service_ok s → dir (fs s) !! std_hash (open_name rq) = None → ¬ table_full s →
  (∀ n r s1 fd m, fs s !! ROOT_INUM = Some r → fs s !! n = None → n ≠ ROOT_INUM →
    least_of n (InodeTable.free_list_ (inode_table_ s)) →
    let F' := with_child (open_name rq) REG_FILE n r (fs s) in
    fs_ok F' (space_manager_ s) → upd s s1 F' (space_manager_ s) →
    opened (file_map_ s) fd m → Q (OK, {| open_fd := fd |}) (set_fds m s1)) →
  wp (OpenFile rq) Q s.
Proof.
  intros Hs Hd Hfull HQ. apply wp_root; [done|]. intros p r Hr Hdir.
  apply wp_bind. eapply wp_read_inode; [done|]. unfold Inode.GetDentry. rewrite Hdir in Hd. rewrite Hd.
  apply wp_bind. apply wp_CreateFile_; [done|by rewrite Hdir|done|].
  intros n r' p' s1 Hr' Hn Hn0 Hleast F' Hfs' U. wp_auto. simpl.
  rewrite (upd_fds _ _ _ _ U). apply wp_AllocateFD; [apply Hs|]. intros fd m Hm. wp_auto.
  apply (HQ n r'); try done. by eapply points_fs.
Qed.

Lemma wp_CloseFile_open s rq Q :
  service_ok s → u64 (close_fd rq) ∈ FileMap.fd_used_set_ (file_map_ s) →
  (∀ m, FileMap.fds_ok m → FileMap.total_size_ m = FileMap.total_size_ (file_map_ s) →
    FileMap.fd_used_set_ m = FileMap.fd_used_set_ (file_map_ s) ∖ {[u64 (close_fd rq)]} →
    Q (OK, {| close_success := true |}) (set_fds m s)) →
  wp (CloseFile rq) Q s.
Proof.
  intros [_ Hm _] Hfd HQ. unfold CloseFile. wp_auto. unfold wp. simpl.
  rewrite ReclaimFD_run by done. apply HQ; [by apply give_fd_ok|done..].
Qed.

Lemma wp_CloseFile_unknown s rq (Q : Status * CloseReply → MetadataServiceImpl → Prop) :
  service_ok s → u64 (close_fd rq) ∉ FileMap.fd_used_set_ (file_map_ s) →
  Q (OK, {| close_success := false |}) s → wp (CloseFile rq) Q s.
Proof.
  intros [_ Hm _] Hfd HQ. unfold CloseFile. wp_auto. unfold wp. simpl.
  rewrite ReclaimFD_unknown by done. change (Q (OK, {| close_success := false |}) (set_fds (file_map_ s) s)).
  unfold set_fds. by rewrite with_fds_self.
Qed.
End descriptors.

(** ** RemoveFile *)

Section removing.
Context `{StringHash}.
Implicit Types (s : MetadataServiceImpl) (F : Files) (Sp : Spaces) (i : Inode).
Import SpaceManager.

(** The servers part-way through the loop: those in [rest] are still to be visited. *)
Definition partly_reclaimed (i : Inode) (rest : list Z) (Sp Sp' : Spaces) : Prop :=
  dom Sp' = dom Sp ∧
  ∀ k sm', Sp' !! k = Some sm' → ∃ sm, Sp !! k = Some sm ∧
    inused_blocks_ sm' = (if decide (k ∈ rest) then inused_blocks_ sm
      else inused_blocks_ sm ∖ list_to_set (blocks_on k (Inode.block_info_list_ i))) ∧
    space_ok sm' ∧ same_space sm sm'.

Lemma partly_reclaimed_start i keys Sp :
  space_map_ok Sp → (∀ k, k ∈ keys ↔ is_Some (Sp !! k)) → partly_reclaimed i keys Sp Sp.
Proof.
  intros [Hsp _] Hk. split; [done|]. intros k sm Hsm. exists sm.
  rewrite decide_True by (apply Hk; eauto). destruct (Hsp _ _ Hsm). done.
Qed.

Lemma partly_reclaimed_done i Sp Sp' : partly_reclaimed i [] Sp Sp' → reclaimed i Sp Sp'.
Proof.
  intros [Hd Hs]. split; [done|]. intros k sm' Hk.
  destruct (Hs k sm' Hk) as (sm & ? & Hu & ?). exists sm.
  rewrite decide_False in Hu by apply not_elem_of_nil. done.
Qed.

Lemma partly_reclaimed_visit i k rest Sp Sp' sm sm' :
  partly_reclaimed i (k :: rest) Sp Sp' → k ∉ rest → Sp' !! k = Some sm →
  inused_blocks_ sm' = inused_blocks_ sm ∖ list_to_set (blocks_on k (Inode.block_info_list_ i)) →
  space_ok sm' → same_space sm sm' → partly_reclaimed i rest Sp (<[k := sm']> Sp').
Proof.
  intros [Hd Hs] Hk Hsm Hu Hok Hsame. split.
  - rewrite dom_insert_L. apply elem_of_dom_2 in Hsm. set_solver.
  - intros k' sm0. rewrite lookup_insert_Some. intros [[<- <-]|[Hne Hk']].
    + destruct (Hs k sm Hsm) as (sm1 & Hsm1 & Hu1 & _ & Hsame1). exists sm1.
      rewrite decide_True in Hu1 by left. rewrite decide_False by done.
      split_and!; [done|congruence|apply Hok..|by etrans].
    + destruct (Hs k' sm0 Hk') as (sm1 & Hsm1 & Hu1 & Hok1). exists sm1. split; [done|].
      split; [|done]. rewrite Hu1. destruct (decide (k' ∈ rest)) as [Hin|Hnin].
      * rewrite decide_True; [done|by right].
      * rewrite decide_False; [done|]. intros [->|?]%elem_of_cons; done.
Qed.

(** One round of the loop over the servers. *)
Lemma wp_reclaim_on s k rest Sp n i Q :
  table_ok (inode_table_ s) → own_ok (fs s) Sp → space_map_ok Sp → fs s !! n = Some i →
  partly_reclaimed i (k :: rest) Sp (space_manager_ s) → k ∉ rest → is_Some (Sp !! k) →
  (∀ s' Sp', partly_reclaimed i rest Sp Sp' → upd s s' (fs s) Sp' → Q tt s') →
  wp (reclaim_on n k) Q s.
Proof.
  intros Hok Hown [Hspm _] Hn Hpart Hk Hin HQ. pose proof Hpart as [Hdom Hsp].
  assert (is_Some (space_manager_ s !! k)) as [sm Hsm] by (rewrite <- elem_of_dom, Hdom, elem_of_dom; done).
  destruct (Hsp k sm Hsm) as (sm0 & Hsm0 & Hu & Hsmok & Hsame). rewrite decide_True in Hu by left.
  assert (Hid : server_id_ sm = k).
  { destruct Hsame as (_&_&_&_&_&<-). by apply (Hspm k sm0). }
  unfold reclaim_on, deref. wp_auto. eapply wp_svc_GetInode; [done..|]. intros p [_ Hp]. wp_auto.
  simpl. rewrite Hp. eapply wp_space; [done..|].
  eapply wp_mono; [apply wp_ReclaimInodeSpace; [done|rewrite Hid..]|].
  - by eapply NoDup_blocks_on.
  - intros nr (j & Ho)%(elem_of_blocks_on _ n _ _ _ Hn). rewrite Hu.
    destruct (own_used _ _ Hown _ _ _ _ Ho) as (sm1 & ? & ?). by simplify_eq.
  - rewrite Hid. intros r sm' (_ & Hu' & _ & Hok' & Hsame') s' U. wp_auto.
    apply (HQ s' (<[k := sm']> (space_manager_ s))); [|done]. by eapply partly_reclaimed_visit.
Qed.

Lemma wp_reclaim_loop s Sp n i Q :
  table_ok (inode_table_ s) → own_ok (fs s) Sp → space_map_ok Sp → fs s !! n = Some i →
  space_manager_ s = Sp →
  (∀ s' Sp', reclaimed i Sp Sp' → upd s s' (fs s) Sp' → Q tt s') →
  wp (for_each (map_keys Sp) (reclaim_on n)) Q s.
Proof.
  intros Hok Hown Hsp Hn Heq HQ.
  apply wp_for_each with (I := λ rest s', ∃ Sp', partly_reclaimed i rest Sp Sp' ∧
    upd s s' (fs s) Sp' ∧ NoDup rest ∧ ∀ k, k ∈ rest → is_Some (Sp !! k)).
  - intros k rest s1 (Sp1 & Hpart & U & [Hk Hnd]%NoDup_cons & Hin).
    pose proof (upd_files _ _ _ _ U) as HF.
    eapply (wp_reclaim_on s1 k rest Sp n i); rewrite ?HF; [apply U|done..| |done| |].
    + by rewrite (upd_spaces _ _ _ _ U).
    + apply Hin. by left.
    + intros s2 Sp2 Hpart2 U2. exists Sp2. split_and!; [done| |done|].
      * eapply upd_trans; [done|exact U|exact U2|done].
      * intros k' Hk'. apply Hin. by right.
  - intros s' (Sp' & Hpart & U & _). apply (HQ s' Sp'); [|done]. by apply partly_reclaimed_done.
  - exists Sp. split_and!; [|subst; by apply upd_refl|apply map_keys_NoDup|apply elem_of_map_keys].
    apply partly_reclaimed_start; [done|apply elem_of_map_keys].
Qed.

Lemma wp_RemoveFile_none s rq (Q : Status * RemoveReply → MetadataServiceImpl → Prop) :
  service_ok s → dir (fs s) !! std_hash (remove_name rq) = None →
  Q (OK, {| remove_success := false |}) s → wp (RemoveFile rq) Q s.
Proof.
  intros Hs Hd HQ. apply wp_root; [done|]. intros p r Hr Hdir. rewrite Hdir in Hd.
  apply wp_bind. eapply wp_read_inode; [done|]. unfold Inode.GetDentry. rewrite Hd. by wp_auto.
Qed.

(** The files after the removal of [d], the entry of hash [h]. *)
Definition without (h : Z) (d : Dentry) (r : Inode) (F : Files) : Files :=
  delete (Dentry.inum_ d) (<[ROOT_INUM := del_child h r]> F).

Lemma wp_RemoveFile s rq d i Q :
  service_ok s → dir (fs s) !! std_hash (remove_name rq) = Some d → fs s !! Dentry.inum_ d = Some i →
  (∀ r s' Sp', fs s !! ROOT_INUM = Some r → reclaimed i (space_manager_ s) Sp' →
    let F' := without (std_hash (remove_name rq)) d r (fs s) in
    fs_ok F' Sp' → upd s s' F' Sp' → Q (OK, {| remove_success := true |}) s') →
  wp (RemoveFile rq) Q s.
Proof.
  intros Hs Hd Hi HQ. pose proof Hs as [Hok _ Hfs]. set (h := std_hash (remove_name rq)) in *.
  destruct (dir_entry _ (fs_dir _ _ Hfs) _ _ Hd) as (_ & Hne & _).
  apply wp_root; [done|]. intros p r Hr Hdir. pose proof (points_fs _ _ _ _ Hr) as Hroot.
  apply wp_bind. eapply wp_read_inode; [done|]. unfold Inode.GetDentry. fold h.
  rewrite <- Hdir, Hd. wp_auto. eapply wp_write_inode; [done..|].
  unfold Inode.DeleteDentry. wp_auto. fold h. rewrite decide_False by (rewrite <- Hdir; congruence).
  wp_auto. split; [done|]. fold (del_child h r). intros s1 U1. wp_auto. rewrite (upd_spaces _ _ _ _ U1).
  set (n := Dentry.inum_ d) in *. set (F1 := <[ROOT_INUM := del_child h r]> (fs s)) in *.
  assert (Hi1 : F1 !! n = Some i) by (unfold F1; by rewrite lookup_insert_ne).
  assert (Hown1 : own_ok F1 (space_manager_ s)).
  { eapply own_ok_ext; [|apply Hfs]. intros. apply owns_same_blocks with (i := r); [done|]. reflexivity. }
  unfold Dentry.GetInodeNum. fold n.
  eapply (wp_reclaim_loop s1 (space_manager_ s) n i); rewrite ?(upd_files _ _ _ _ U1);
    [apply U1|done|apply Hfs|done|apply U1|].
  intros s2 Sp2 Hrec U2. apply wp_bind. fold F1 in U2.
  assert (U12 : upd s s2 F1 Sp2).
  { eapply upd_trans; [done|exact U1|exact U2|]. by intros m ? ?. }
  eapply wp_delete; [apply U2|by rewrite (upd_files _ _ _ _ U2)|]. intros s3 U3. wp_auto.
  rewrite (upd_files _ _ _ _ U2), (upd_spaces _ _ _ _ U2) in U3. apply (HQ r s3 Sp2); try done.
  - by eapply fs_ok_remove.
  - eapply upd_trans; [done|exact U12|exact U3|]. intros m _. unfold without. rewrite lookup_delete_is_Some. by intros [_ ?].
Qed.
End removing.

(** ** ReadDirectory, RegisterMemoryRegion, and a fresh server *)

Section listing.
Context `{StringHash}.
Implicit Types (s : MetadataServiceImpl) (F : Files) (i : Inode).

(** The line of the listing for a directory entry. *)
Definition lists (F : Files) (d : Dentry) (info : DentryInfo) : Prop :=
  ∃ i, F !! Dentry.inum_ d = Some i ∧
    info = {| dentry_name := Dentry.name_ d; dentry_inum := Dentry.inum_ d;
              dentry_is_dir := Inode.IsDir i; dentry_size := Inode.size_ i |}.

Lemma wp_list_dentries s l (Q : list DentryInfo → MetadataServiceImpl → Prop) :
  table_ok (inode_table_ s) → (∀ d, d ∈ l → is_Some (fs s !! Dentry.inum_ d)) →
  (∀ infos, Forall2 (lists (fs s)) l infos → Q infos s) → wp (list_dentries l) Q s.
Proof.
  intros Hok. revert Q. induction l as [|d l IH]; intros Q Hin HQ; simpl.
  - wp_auto. by apply HQ.
  - destruct (Hin d (list_elem_of_here d l)) as [i Hi]. unfold list_dentry. wp_auto.
    eapply wp_svc_GetInode; [done..|]. intros p Hp. do 2 (wp_auto; eapply wp_read_inode; [done|]). wp_auto.
    apply IH; [intros d' Hd'; apply Hin; by right|]. intros infos Hinfos. wp_auto. apply HQ.
    constructor; [|done]. by exists i.
Qed.

Lemma wp_ReadDirectory s rq Q :
  service_ok s →
  (∀ infos, Forall2 (lists (fs s)) (map_to_list (dir (fs s))).*2 infos →
    Q (OK, {| dentry_info := dot_dentry "." :: dot_dentry ".." :: infos |}) s) →
  wp (ReadDirectory rq) Q s.
Proof.
  intros Hs HQ. pose proof Hs as [Hok _ Hfs]. apply wp_root; [done|]. intros p r Hr Hdir.
  apply wp_bind. eapply wp_read_inode; [done|]. unfold Inode.GetDentryMap. rewrite <- Hdir.
  wp_auto. apply wp_list_dentries; [done| |].
  - intros d ([h d'] & -> & Hd%elem_of_map_to_list)%list_elem_of_fmap.
    by apply (dir_entry _ (fs_dir _ _ Hfs) h).
  - intros infos Hinfos. wp_auto. by apply HQ.
Qed.

(** A region that can be registered: of at least one block, in the address space, and for a server
    that no file has blocks on. *)
Record registrable (Sp : Spaces) (rq : RegisterMemoryRegionRequest) : Prop := {
  reg_node : 0 ≤ nodeid rq < 2 ^ 31;
  reg_addr : 0 ≤ addr rq;
  reg_length : FILE_BLOCK_SIZE ≤ region_length rq < 2 ^ 64;
  reg_end : addr rq + region_length rq ≤ 2 ^ 64;
  reg_idle : idle Sp (nodeid rq);
  reg_count : Z.of_nat (size Sp) + 1 < 2 ^ 31;
}.

Definition region_space (rq : RegisterMemoryRegionRequest) : SpaceManager :=
  SpaceManager.make (addr rq) (u64 (addr rq + region_length rq - 1)) FILE_BLOCK_SIZE (nodeid rq).

Lemma region_space_ok Sp F rq : fs_ok F Sp → registrable Sp rq →
  fs_ok F (<[nodeid rq := region_space rq]> Sp) ∧
  SpaceManager.inused_blocks_ (region_space rq) = ∅.
Proof.
  intros Hfs [Hn Ha Hl He Hidle Hc].
  destruct (make_spec 20 (addr rq) (region_length rq) (nodeid rq)) as (Hok & Hu & Hid & _ & _ & Hst & Ht);
    [lia|done|exact Hl|done|]. split; [|done].
  apply fs_ok_register; [done..| |].
  - change (2 ^ 20) with FILE_BLOCK_SIZE in *. fold (region_space rq) in *. rewrite Ht.
    pose proof (Z.mul_div_le (addr rq + region_length rq - SpaceManager.space_start_ (region_space rq))
      FILE_BLOCK_SIZE ltac:(done)). lia.
  - destruct (Sp !! nodeid rq) eqn:E; [rewrite map_size_insert_Some by eauto|rewrite map_size_insert_None by done]; lia.
Qed.

Lemma wp_RegisterMemoryRegion s rq Q :
  service_ok s → registrable (space_manager_ s) rq →
  (∀ s', let Sp' := <[nodeid rq := region_space rq]> (space_manager_ s) in
    fs_ok (fs s) Sp' → upd s s' (fs s) Sp' → Q (OK, {| register_success := false |}) s') →
  wp (RegisterMemoryRegion rq) Q s.
Proof.
  intros [Hok _ Hfs] Hreg HQ. unfold RegisterMemoryRegion. wp_auto. rewrite s32_small.
  - apply HQ; [by apply region_space_ok|]. by apply upd_set_spaces.
  - destruct (reg_node _ _ Hreg). lia.
Qed.

(** A fresh server: the root directory, no other file, no server, no descriptor in use. *)
Lemma make_service_ok count : ∃ s, make_service count = Done s ∧ service_ok s ∧
  fs s = {[ROOT_INUM := Inode.make DIR ROOT_INUM]} ∧ space_manager_ s = ∅ ∧
  FileMap.fd_used_set_ (file_map_ s) = ∅.
Proof.
  destruct (make_run 100) as (t & Ht & Hok & Hf & _); [lia|].
  destruct (fds_make_ok 100) as [Hfds Hused]; [lia|].
  unfold make_service. rewrite Ht. eexists. split; [done|]. split; [|done].
  split; simpl; [done|done|]. unfold fs. simpl. rewrite Hf.
  assert (Hdir : dir {[0 := Inode.make DIR 0]} = ∅) by (unfold dir; by rewrite lookup_singleton_eq).
  split; [split| | |].
  - eexists. split; [by apply lookup_singleton_eq|done].
  - intros h d. by rewrite Hdir.
  - intros h h' d d'. by rewrite Hdir.
  - intros n. rewrite lookup_singleton_is_Some. by intros <-.
  - assert (Hno : ∀ n j k nr, ¬ owns {[0 := Inode.make DIR 0]} n j k nr).
    { intros n j k nr (i & b & [_ <-]%lookup_singleton_Some & Hb & _). done. }
    split; [by intros ???? ?%Hno|by intros ?????? ?%Hno|].
    intros k sm nr. by rewrite lookup_empty.
  - intros n i [_ <-]%lookup_singleton_Some. apply new_inode_ok.
  - split; [|done]. intros k sm. by rewrite lookup_empty.
Qed.
End listing.
