(* ===== verification/MetaSpec.v ===== *)
(** * What the metadata service promises: an abstract file system, and the refinement.

    The abstract state is a finite map from (hashes of) names to files, the set of open descriptors
    and the number of blocks of each server; it has no inode table, no pointer, no mutex, no heap and
    no free list.  [promises] relates a call, its answer and the abstract states before and after. *)
From S2P Require Import Prelude FsInode IdPool FsTable FsFiles FsSpace MetaProto MetaServer MetaPlan.
From S2P Require Import MetaInv MetaSteps MetaHandlers MetaRpc.
Local Open Scope Z_scope.
Import InodeTable (files, table_ok).

Record afile := AFile {
  af_inum : Z;
  af_name : string;
  af_dir : bool;
  af_size : Z;
  af_blocks : list (Z * Z);     (* server and block number *)
}.

Record astate := AState {
  a_files : gmap Z afile;
  a_fds : gset Z;
  a_total : gmap Z Z;
}.

Definition set_files (m : gmap Z afile) (A : astate) : astate := AState m (a_fds A) (a_total A).

(** The capacities of the service: InodeTable(100), FileMap(100). *)
Definition MAX_INUM : Z := 100.
Definition FIRST_FD : Z := 4.
Definition LAST_FD : Z := 103.

(** Where byte [off] of a file is stored. *)
Definition a_loc (f : afile) (off : Z) : option (Z * Z) :=
  '(k, nr) ← af_blocks f !! Z.to_nat (off / FILE_BLOCK_SIZE);
  Some (k, nr * FILE_BLOCK_SIZE + off `mod` FILE_BLOCK_SIZE).

Definition a_bytes (f : afile) (off len : Z) : list (Z * option (Z * Z)) :=
  (λ k, (k, a_loc f (off + k))) <$> seqZ 0 len.

(** The entries of a reply: none is longer than a block, and a range inside one block has one. *)
Definition a_tidy (f : afile) (off len : Z) (es : list FileBlockInfo) : Prop :=
  Forall (λ e, 0 ≤ length_ e ≤ FILE_BLOCK_SIZE) es ∧
  (0 < len → off `mod` FILE_BLOCK_SIZE + len ≤ FILE_BLOCK_SIZE →
   ∃ k a, a_loc f off = Some (k, a) ∧ es = [BlockInfo (off / FILE_BLOCK_SIZE) k a len 0]).

(** The blocks of server [k] that files use. *)
Definition used_on (A : astate) (k : Z) : gset Z :=
  list_to_set (snd <$> filter (λ b, b.1 = k) ((map_to_list (a_files A)).*2 ≫= af_blocks)).

(** The inode number the next file gets: the least positive one no file has. *)
Definition fresh_inum (A : astate) (n : Z) : Prop :=
  (1 ≤ n ≤ MAX_INUM ∧ ∀ h f, a_files A !! h = Some f → af_inum f ≠ n) ∧
  ∀ m, 1 ≤ m < n → ∃ h f, a_files A !! h = Some f ∧ af_inum f = m.

(** The descriptor an open gets: the least free one, -1 when all are open. *)
Definition fresh_fd (A : astate) (fd : Z) (fds' : gset Z) : Prop :=
  (fd = -1 ∧ (∀ x, FIRST_FD ≤ x ≤ LAST_FD → x ∈ a_fds A) ∧ fds' = a_fds A) ∨
  (FIRST_FD ≤ fd ≤ LAST_FD ∧ fd ∉ a_fds A ∧ (∀ x, FIRST_FD ≤ x < fd → x ∈ a_fds A) ∧
   fds' = {[fd]} ∪ a_fds A).

Definition new_file (n : Z) (name : string) (is_dir : bool) : afile := AFile n name is_dir 0 [].

Definition info_of (f : afile) : DentryInfo :=
  {| dentry_name := af_name f; dentry_inum := af_inum f; dentry_is_dir := af_dir f;
     dentry_size := af_size f |}.

(** ** Calls *)

Inductive call :=
  | CHello (rq : HelloRequest) | CRead (rq : ReadRequest) | CWrite (rq : WriteRequest)
  | CCreate (rq : CreateRequest) | COpen (rq : OpenRequest) | CClose (rq : CloseRequest)
  | CRemove (rq : RemoveRequest) | CReadDir (rq : ReadDirectoryRequest)
  | CRegister (rq : RegisterMemoryRegionRequest).

Inductive answer :=
  | AHello (r : HelloReply) | ARead (r : ReadReply) | AWrite (r : WriteReply)
  | ACreate (r : CreateReply) | AOpen (r : OpenReply) | AClose (r : CloseReply)
  | ARemove (r : RemoveReply) | AReadDir (r : ReadDirectoryReply)
  | ARegister (r : RegisterMemoryRegionReply).

Definition reply_as {R} (f : R → answer) (m : Srv (Status * R)) : Srv (Status * answer) :=
  r ← m; mret (r.1, f r.2).

(** The dispatch of the generated service: a call runs its handler. *)
Definition serve `{StringHash, Rand} (c : call) : Srv (Status * answer) :=
  match c with
  | CHello rq => reply_as AHello (SayHello rq)
  | CRead rq => reply_as ARead (ReadFile rq)
  | CWrite rq => reply_as AWrite (WriteFile rq)
  | CCreate rq => reply_as ACreate (CreateFile rq)
  | COpen rq => reply_as AOpen (OpenFile rq)
  | CClose rq => reply_as AClose (CloseFile rq)
  | CRemove rq => reply_as ARemove (RemoveFile rq)
  | CReadDir rq => reply_as AReadDir (ReadDirectory rq)
  | CRegister rq => reply_as ARegister (RegisterMemoryRegion rq)
  end.

Fixpoint serve_all `{StringHash, Rand} (cs : list call) : Srv (list (Status * answer)) :=
  match cs with
  | [] => mret []
  | c :: cs' => r ← serve c; rs ← serve_all cs'; mret (r :: rs)
  end.

Section spec.
Context `{StringHash}.

(** *** What a call needs *)

Definition room_for (A : astate) (name : string) : Prop :=
  is_Some (a_files A !! std_hash name) ∨ Z.of_nat (size (a_files A)) < MAX_INUM - 1.

Definition file_at (A : astate) (name : string) : list (Z * Z) :=
  default [] (af_blocks <$> a_files A !! std_hash name).

(** The blocks the write adds are free on every server, whichever [rand()] picks. *)
Definition room_to_grow (A : astate) (n : Z) : Prop :=
  0 < n → a_total A ≠ ∅ ∧
    ∀ k t, a_total A !! k = Some t → n ≤ t - Z.of_nat (size (used_on A k)).

Definition added (A : astate) (rq : WriteRequest) : Z :=
  blocks_added (Z.of_nat (length (file_at A (write_name rq)))) (write_offset rq) (write_length rq).

Definition admissible (A : astate) (c : call) : Prop :=
  match c with
  | CRead rq => ∃ f, a_files A !! std_hash (read_name rq) = Some f ∧
      0 ≤ read_offset rq ≤ af_size f ∧ 0 ≤ read_length rq ∧
      read_offset rq + read_length rq < 2 ^ 64
  | CWrite rq => room_for A (write_name rq) ∧ 0 ≤ write_offset rq ∧ 0 ≤ write_length rq ∧
      write_offset rq + write_length rq + FILE_BLOCK_SIZE ≤ 2 ^ 64 ∧
      room_to_grow A (added A rq) ∧ added A rq < 2 ^ 31
  | CCreate rq => room_for A (create_name rq)
  | COpen rq => room_for A (open_name rq)
  | CRegister rq => 0 ≤ nodeid rq < 2 ^ 31 ∧ 0 ≤ addr rq ∧
      FILE_BLOCK_SIZE ≤ region_length rq < 2 ^ 64 ∧ addr rq + region_length rq ≤ 2 ^ 64 ∧
      used_on A (nodeid rq) = ∅ ∧ Z.of_nat (size (a_total A)) + 1 < 2 ^ 31
  | CHello _ | CClose _ | CRemove _ | CReadDir _ => True
  end.

(** *** What a call does *)

Definition promises_read (A : astate) (rq : ReadRequest) (r : ReadReply) (A' : astate) : Prop :=
  A' = A ∧ ∃ f, a_files A !! std_hash (read_name rq) = Some f ∧
    let n := Z.min (read_length rq) (af_size f - read_offset rq) in
    bytes_read r = n ∧ plan_bytes (read_block_info r) = a_bytes f (read_offset rq) n ∧
    a_tidy f (read_offset rq) n (read_block_info r).

(** The file written to is the one of that name, or a new one. *)
Definition target (A : astate) (name : string) (f : afile) : Prop :=
  a_files A !! std_hash name = Some f ∨
  (a_files A !! std_hash name = None ∧ ∃ n, fresh_inum A n ∧ f = new_file n name false).

Definition promises_write (A : astate) (rq : WriteRequest) (r : WriteReply) (A' : astate) : Prop :=
  ∃ f news, target A (write_name rq) f ∧
    let f' := AFile (af_inum f) (af_name f) (af_dir f) (write_offset rq + write_length rq)
                (af_blocks f ++ news) in
    A' = set_files (<[std_hash (write_name rq) := f']> (a_files A)) A ∧
    Z.of_nat (length news) = added A rq ∧ NoDup news ∧
    (∀ k nr, (k, nr) ∈ news → nr ∉ used_on A k ∧ ∃ t, a_total A !! k = Some t ∧ 0 ≤ nr < t) ∧
    bytes_write r = write_length rq ∧
    plan_bytes (write_block_info r) = a_bytes f' (write_offset rq) (write_length rq) ∧
    a_tidy f' (write_offset rq) (write_length rq) (write_block_info r).

Definition promises_create (A : astate) (rq : CreateRequest) (r : CreateReply) (A' : astate) : Prop :=
  match a_files A !! std_hash (create_name rq) with
  | Some f => create_inum r = af_inum f ∧ A' = A
  | None => fresh_inum A (create_inum r) ∧
      A' = set_files (<[std_hash (create_name rq) :=
        new_file (create_inum r) (create_name rq) (create_is_dir rq)]> (a_files A)) A
  end.

Definition promises_open (A : astate) (rq : OpenRequest) (r : OpenReply) (A' : astate) : Prop :=
  ∃ fds', fresh_fd A (open_fd r) fds' ∧
  match a_files A !! std_hash (open_name rq) with
  | Some f => A' = AState (a_files A) fds' (a_total A)
  | None => ∃ n, fresh_inum A n ∧ A' = AState
      (<[std_hash (open_name rq) := new_file n (open_name rq) false]> (a_files A)) fds' (a_total A)
  end.

Definition promises_close (A : astate) (rq : CloseRequest) (r : CloseReply) (A' : astate) : Prop :=
  close_success r = bool_decide (u64 (close_fd rq) ∈ a_fds A) ∧
  A' = AState (a_files A) (a_fds A ∖ {[u64 (close_fd rq)]}) (a_total A).

Definition promises_remove (A : astate) (rq : RemoveRequest) (r : RemoveReply) (A' : astate) : Prop :=
  remove_success r = bool_decide (is_Some (a_files A !! std_hash (remove_name rq))) ∧
  A' = set_files (delete (std_hash (remove_name rq)) (a_files A)) A.

Definition promises_readdir (A : astate) (r : ReadDirectoryReply) (A' : astate) : Prop :=
  A' = A ∧ ∃ infos, dentry_info r = dot_dentry "." :: dot_dentry ".." :: infos ∧
    infos ≡ₚ info_of <$> (map_to_list (a_files A)).*2.

(** The server has the whole blocks of the region. *)
Definition promises_register (A : astate) (rq : RegisterMemoryRegionRequest)
    (r : RegisterMemoryRegionReply) (A' : astate) : Prop :=
  ∃ start, start `mod` FILE_BLOCK_SIZE = 0 ∧ addr rq ≤ start < addr rq + FILE_BLOCK_SIZE ∧
    A' = AState (a_files A) (a_fds A)
      (<[nodeid rq := (addr rq + region_length rq - start) / FILE_BLOCK_SIZE]> (a_total A)).

Definition promises (A : astate) (c : call) (a : Status * answer) (A' : astate) : Prop :=
  a.1 = OK ∧
  match c, a.2 with
  | CHello rq, AHello r => hello_message r = ("Hello " ++ hello_name rq)%string ∧ A' = A
  | CRead rq, ARead r => promises_read A rq r A'
  | CWrite rq, AWrite r => promises_write A rq r A'
  | CCreate rq, ACreate r => promises_create A rq r A'
  | COpen rq, AOpen r => promises_open A rq r A'
  | CClose rq, AClose r => promises_close A rq r A'
  | CRemove rq, ARemove r => promises_remove A rq r A'
  | CReadDir _, AReadDir r => promises_readdir A r A'
  | CRegister rq, ARegister r => promises_register A rq r A'
  | _, _ => False
  end.

(** A run of calls, and a sequence of calls each of which is admissible when its turn comes,
    whatever the answers before were. *)
Inductive a_run : astate → list call → list (Status * answer) → astate → Prop :=
  | a_run_nil A : a_run A [] [] A
  | a_run_cons A c r A' cs rs A'' :
      promises A c r A' → a_run A' cs rs A'' → a_run A (c :: cs) (r :: rs) A''.

Fixpoint all_admissible (A : astate) (cs : list call) : Prop :=
  match cs with
  | [] => True
  | c :: cs' => admissible A c ∧ ∀ r A', promises A c r A' → all_admissible A' cs'
  end.

End spec.

(** ** The abstraction function *)

Definition abs_file (i : Inode) (d : Dentry) : afile :=
  AFile (Dentry.inum_ d) (Dentry.name_ d) (Inode.IsDir i) (Inode.size_ i)
    ((λ b, (fb_server_id b, fb_block_nr b)) <$> Inode.block_info_list_ i).

Definition abs_files (F : Files) : gmap Z afile :=
  omap (λ d, (λ i, abs_file i d) <$> F !! Dentry.inum_ d) (dir F).

Definition abs (s : MetadataServiceImpl) : astate :=
  AState (abs_files (fs s)) (FileMap.fd_used_set_ (file_map_ s))
    (SpaceManager.total_blocks_ <$> space_manager_ s).

(** The invariant of a running server: well-formed, with the capacities it was built with. *)
Record service_inv `{StringHash} (s : MetadataServiceImpl) : Prop := {
  si_ok : service_ok s;
  si_inodes : InodeTable.total_size_ (inode_table_ s) = MAX_INUM;
  si_fds : FileMap.total_size_ (file_map_ s) = 100;
}.
