(* ===== verification/MetaRefine.v ===== *)
(** * The handlers implement the abstract file system: lemmas on the abstraction function, and one
    refinement lemma per call. *)
From S2P Require Import Prelude FsInode IdPool FsTable FsFiles FsSpace MetaProto MetaServer MetaPlan.
From S2P Require Import MetaInv MetaSteps MetaHandlers MetaRpc MetaSpec.
Local Open Scope Z_scope.
Import InodeTable (files, table_ok).

Section abs_lemmas.
Context `{StringHash}.
Implicit Types (s : MetadataServiceImpl) (F : Files) (Sp : Spaces) (i : Inode).

Lemma abs_files_Some F h f : abs_files F !! h = Some f ↔
  ∃ d i, dir F !! h = Some d ∧ F !! Dentry.inum_ d = Some i ∧ f = abs_file i d.
Proof.
  unfold abs_files. rewrite lookup_omap_Some. split.
  - intros (d & E & Hd). destruct (F !! Dentry.inum_ d) as [i|] eqn:Hi; simplify_eq/=. eauto.
  - intros (d & i & Hd & Hi & ->). exists d. by rewrite Hi.
Qed.

Lemma abs_files_lookup F h d i : dir F !! h = Some d → F !! Dentry.inum_ d = Some i →
  abs_files F !! h = Some (abs_file i d).
Proof. intros. apply abs_files_Some. eauto. Qed.

Lemma abs_files_None F h : dir_ok F → abs_files F !! h = None ↔ dir F !! h = None.
Proof.
  intros Hok. split; intros Hn; apply eq_None_not_Some; intros [x Hx].
  - destruct (dir_entry _ Hok h x Hx) as (_ & _ & i & Hi).
    apply eq_None_not_Some in Hn. apply Hn. exists (abs_file i x). by apply abs_files_lookup.
  - apply abs_files_Some in Hx as (d & i & Hd & _). congruence.
Qed.

(** The abstract files as a map over the directory. *)
Lemma abs_files_fmap F : dir_ok F → abs_files F =
  (λ d, abs_file (default (Inode.make DIR 0) (F !! Dentry.inum_ d)) d) <$> dir F.
Proof.
  intros Hok. apply map_eq. intros h. rewrite lookup_fmap.
  destruct (dir F !! h) as [d|] eqn:Hd; simpl; [|by apply abs_files_None].
  destruct (dir_entry _ Hok h d Hd) as (_ & _ & i & Hi). rewrite Hi. by apply abs_files_lookup.
Qed.

(** *** Each change of the files, seen abstractly *)

Lemma abs_files_change F h d i i' : dir_ok F → dir F !! h = Some d → F !! Dentry.inum_ d = Some i →
  Inode.children_ i' = Inode.children_ i →
  abs_files (<[Dentry.inum_ d := i']> F) = <[h := abs_file i' d]> (abs_files F).
Proof.
  intros Hok Hd Hi Hc. destruct (dir_entry _ Hok h d Hd) as (_ & Hne & _).
  apply map_eq. intros h'. apply option_eq. intros f.
  rewrite lookup_insert_Some, !abs_files_Some, dir_root_insert by done. split.
  - intros (d' & i0 & Hd' & Hi0 & ->). destruct (decide (h = h')) as [<-|Hh]; [left|right].
    + rewrite Hd in Hd'. injection Hd' as <-. rewrite lookup_insert_eq in Hi0. by injection Hi0 as <-.
    + split; [done|]. exists d', i0. split_and!; [done| |done]. rewrite lookup_insert_ne in Hi0; [done|].
      intros Heq. by destruct Hh; eapply dir_inj.
  - intros [[<- <-]|(Hh & d' & i0 & Hd' & Hi0 & ->)].
    + exists d, i'. by rewrite lookup_insert_eq.
    + exists d', i0. rewrite lookup_insert_ne; [done|]. intros Heq. by destruct Hh; eapply dir_inj.
Qed.

Lemma abs_files_create F r n name ty :
  dir_ok F → F !! ROOT_INUM = Some r → F !! n = None → n ≠ ROOT_INUM →
  dir F !! std_hash name = None →
  abs_files (with_child name ty n r F) =
    <[std_hash name := new_file n name (bool_decide (ty = DIR))]> (abs_files F).
Proof.
  intros Hok Hr Hn Hn0 Hname.
  assert (Hdir : dir F = Inode.children_ r) by (unfold dir; by rewrite Hr). rewrite Hdir in *.
  apply map_eq. intros h. apply option_eq. intros f.
  rewrite lookup_insert_Some, !abs_files_Some, dir_with_child. split.
  - intros (d & i & [[<- <-]|[Hh Hd]]%lookup_insert_Some & Hi & ->); [left|right].
    + split; [done|]. rewrite with_child_lookup in Hi by done. by injection Hi as <-.
    + split; [done|]. exists d, i. rewrite Hdir. split_and!; [done| |done].
      destruct (dir_entry _ Hok h d) as (_ & Hne & x & Hx); [by rewrite Hdir|].
      unfold with_child in Hi. rewrite !lookup_insert_ne in Hi; congruence.
  - intros [[<- <-]|(Hh & d & i & Hd & Hi & ->)].
    + exists (Dentry.make name n), (Inode.make ty n). rewrite lookup_insert_eq.
      simpl. by rewrite with_child_lookup.
    + exists d, i. rewrite Hdir in Hd. rewrite lookup_insert_ne by done. split_and!; [done| |done].
      destruct (dir_entry _ Hok h d) as (_ & Hne & _); [by rewrite Hdir|].
      unfold with_child. rewrite !lookup_insert_ne; congruence.
Qed.

Lemma abs_files_remove F r h d :
  dir_ok F → F !! ROOT_INUM = Some r → dir F !! h = Some d →
  abs_files (without h d r F) = delete h (abs_files F).
Proof.
  intros Hok Hr Hd. destruct (dir_entry _ Hok h d Hd) as (_ & Hne & _).
  assert (Hdir : dir F = Inode.children_ r) by (unfold dir; by rewrite Hr).
  assert (Hdir' : dir (without h d r F) = delete h (Inode.children_ r)).
  { unfold dir, without. by rewrite lookup_delete_ne, lookup_insert_eq. }
  apply map_eq. intros h'. apply option_eq. intros f.
  rewrite lookup_delete_Some, !abs_files_Some, Hdir'. setoid_rewrite lookup_delete_Some.
  rewrite Hdir in *. unfold without. split.
  - intros (d' & i & [Hh Hd'] & [_ Hi] & ->). split; [done|]. exists d', i. split_and!; [done| |done].
    destruct (dir_entry _ Hok h' d') as (_ & Hne' & _); [by rewrite Hdir|].
    by rewrite lookup_insert_ne in Hi.
  - intros (Hh & d' & i & Hd' & Hi & ->). exists d', i.
    destruct (dir_entry _ Hok h' d') as (_ & Hne' & _); [by rewrite Hdir|].
    rewrite lookup_insert_ne by done. split_and!; try done. intros Heq.
    destruct Hh. eapply dir_inj; [exact Hok|by rewrite Hdir..|done].
Qed.

(** *** Blocks *)

Lemma elem_of_used_on A k nr :
  nr ∈ used_on A k ↔ ∃ h f, a_files A !! h = Some f ∧ (k, nr) ∈ af_blocks f.
Proof.
  unfold used_on. rewrite elem_of_list_to_set, list_elem_of_fmap. split.
  - intros ([k' nr'] & -> & [Hk Hin]%list_elem_of_filter). simpl in *. subst.
    apply list_elem_of_bind in Hin as (f & Hf & ([h f'] & -> & Hh%elem_of_map_to_list)%list_elem_of_fmap).
    eauto.
  - intros (h & f & Hf & Hb). exists (k, nr). split; [done|]. apply list_elem_of_filter. split; [done|].
    apply list_elem_of_bind. exists f. split; [done|]. apply list_elem_of_fmap. exists (h, f).
    by rewrite elem_of_map_to_list.
Qed.

Lemma elem_of_abs_blocks i d k nr : (k, nr) ∈ af_blocks (abs_file i d) ↔
  ∃ j b, Inode.block_info_list_ i !! j = Some b ∧ fb_server_id b = k ∧ fb_block_nr b = nr.
Proof.
  simpl. rewrite list_elem_of_fmap. split.
  - intros (b & [= -> ->] & [j Hj]%list_elem_of_lookup). eauto.
  - intros (j & b & Hj & <- & <-). exists b. split; [done|]. by eapply list_elem_of_lookup_2.
Qed.

Lemma used_on_owns F fd tot k nr : dir_ok F →
  nr ∈ used_on (AState (abs_files F) fd tot) k ↔ ∃ n j, owns F n j k nr.
Proof.
  intros Hok. rewrite elem_of_used_on. split.
  - intros (h & f & (d & i & Hd & Hi & ->)%abs_files_Some & (j & b & Hj & Hk & Hr)%elem_of_abs_blocks).
    exists (Dentry.inum_ d), j, i, b. done.
  - intros (n & j & i & b & Hi & Hb & Hk & Hr). destruct (decide (n = ROOT_INUM)) as [->|Hne].
    + destruct (dir_root _ Hok) as (r & Hr' & _ & Hnil). simplify_eq. by rewrite Hnil in Hb.
    + destruct (dir_reach _ Hok n) as (h & d & Hd & <-); [eauto|done|].
      exists h, (abs_file i d). split; [by apply abs_files_lookup|]. apply elem_of_abs_blocks. eauto.
Qed.

Lemma used_on_inused F Sp fd tot k sm : fs_ok F Sp → Sp !! k = Some sm →
  used_on (AState (abs_files F) fd tot) k = SpaceManager.inused_blocks_ sm.
Proof.
  intros [Hd [Hu Hi Ha] _ _] Hsm. apply set_eq. intros nr. rewrite used_on_owns by done. split.
  - intros (n & j & Ho). destruct (Hu _ _ _ _ Ho) as (sm' & ? & ?). by simplify_eq.
  - by apply Ha.
Qed.

Lemma free_blocks_abs F Sp fd tot k sm : fs_ok F Sp → Sp !! k = Some sm →
  free_blocks sm = SpaceManager.total_blocks_ sm -
    Z.of_nat (size (used_on (AState (abs_files F) fd tot) k)).
Proof.
  intros Hfs Hsm. rewrite (used_on_inused F Sp fd tot k sm) by done.
  destruct (fs_spaces _ _ Hfs) as [Hsp _]. destruct (Hsp k sm Hsm) as ([_ Hinv] & _).
  unfold free_blocks. rewrite (proj1 (space_count sm Hinv)). by rewrite (SpaceManager.ok_cur sm Hinv).
Qed.

(** *** Bytes *)

Lemma a_loc_abs i d off : inode_ok i → byte_loc i off = a_loc (abs_file i d) off.
Proof.
  intros (Hb & _). unfold byte_loc, a_loc. simpl. rewrite list_lookup_fmap.
  destruct (Inode.block_info_list_ i !! Z.to_nat (off / FILE_BLOCK_SIZE)) as [b|] eqn:E; [|done].
  simpl. by rewrite (proj1 (Forall_lookup _ _) Hb _ _ E).
Qed.

Lemma a_bytes_abs i d off len : inode_ok i → file_bytes i off 0 len = a_bytes (abs_file i d) off len.
Proof.
  intros Hok. unfold file_bytes, a_bytes. apply list_fmap_ext. intros _ k _.
  by rewrite <- a_loc_abs.
Qed.

Lemma a_tidy_abs i d off len es : inode_ok i → tidy i off len es → a_tidy (abs_file i d) off len es.
Proof.
  intros Hok [Hf Ho]. split; [done|]. intros Hl Hin. destruct (Ho Hl Hin) as (b & Hb & ->).
  eexists _, _. rewrite <- (a_loc_abs i d off Hok). unfold byte_loc. rewrite Hb. done.
Qed.

(** *** Counting files and numbers *)

Lemma dir_inums F : dir_ok F →
  Dentry.inum_ <$> (map_to_list (dir F)).*2 ≡ₚ elements (dom F ∖ {[ROOT_INUM]}).
Proof.
  intros Hok. apply NoDup_Permutation.
  - rewrite <- list_fmap_compose. apply NoDup_fmap_2_strong; [|apply NoDup_map_to_list].
    intros [h d] [h' d'] Hd%elem_of_map_to_list Hd'%elem_of_map_to_list Heq. simpl in *.
    assert (h = h') as <- by by eapply dir_inj. congruence.
  - apply NoDup_elements.
  - intros n. rewrite elem_of_elements, elem_of_difference, elem_of_dom, elem_of_singleton.
    rewrite list_elem_of_fmap. setoid_rewrite list_elem_of_fmap. split.
    + intros (d & -> & [h d'] & -> & Hd%elem_of_map_to_list). simpl.
      destruct (dir_entry _ Hok h d' Hd) as (_ & ? & ?). done.
    + intros [Hn Hne]. destruct (dir_reach _ Hok n Hn Hne) as (h & d & Hd & <-).
      exists d. split; [done|]. exists (h, d). by rewrite elem_of_map_to_list.
Qed.

Lemma abs_files_size F : dir_ok F → size F = S (size (abs_files F)).
Proof.
  intros Hok. pose proof (Permutation_length (dir_inums F Hok)) as Hl.
  rewrite !length_fmap, length_map_to_list in Hl.
  rewrite abs_files_fmap, map_size_fmap, Hl by done.
  destruct (dir_root _ Hok) as (r & Hr & _). apply elem_of_dom_2 in Hr.
  rewrite <- size_dom. rewrite (union_difference_singleton_L ROOT_INUM (dom F)) at 1 by done.
  rewrite size_union, size_singleton by set_solver. done.
Qed.

Lemma abs_inum F n : dir_ok F → n ≠ ROOT_INUM →
  is_Some (F !! n) ↔ ∃ h f, abs_files F !! h = Some f ∧ af_inum f = n.
Proof.
  intros Hok Hne. split.
  - intros [i Hi]. destruct (dir_reach _ Hok n) as (h & d & Hd & <-); [eauto|done|].
    exists h, (abs_file i d). split; [|done]. by apply abs_files_lookup.
  - intros (h & f & (d & i & Hd & Hi & ->)%abs_files_Some & <-). by exists i.
Qed.
End abs_lemmas.

(** ** The refinement, call by call *)

Section refine.
Context `{StringHash}.
Implicit Types (s : MetadataServiceImpl) (F : Files) (Sp : Spaces) (i : Inode).

Lemma inv_upd s s' F Sp : service_inv s → upd s s' F Sp → fs_ok F Sp →
  service_inv s' ∧ abs s' = AState (abs_files F) (a_fds (abs s)) (SpaceManager.total_blocks_ <$> Sp).
Proof.
  intros [[Hok Hfds Hfs] Ht Hf] [Hok' Hf' _ Ht' Hs' Hd'] Hfs'. split.
  - split; [split|..]; congruence.
  - unfold abs. by rewrite Hf', Hs', Hd'.
Qed.

Lemma inv_set_fds s m : service_inv s → FileMap.fds_ok m →
  FileMap.total_size_ m = FileMap.total_size_ (file_map_ s) →
  service_inv (set_fds m s) ∧
  abs (set_fds m s) = AState (a_files (abs s)) (FileMap.fd_used_set_ m) (a_total (abs s)).
Proof.
  intros [[Hok Hfds Hfs] Ht Hf] Hm Heq. split; [|done]. split; [by split|done|]. simpl. congruence.
Qed.

Lemma inv_dir s : service_inv s → dir_ok (fs s).
Proof. intros [[_ _ Hfs] _ _]. apply Hfs. Qed.

(** A call that finds its name finds the entry and the inode. *)
Lemma abs_found s h f : a_files (abs s) !! h = Some f →
  ∃ d i, dir (fs s) !! h = Some d ∧ fs s !! Dentry.inum_ d = Some i ∧ f = abs_file i d.
Proof. apply abs_files_Some. Qed.

Lemma room_not_full s name : service_inv s → room_for (abs s) name →
  dir (fs s) !! std_hash name = None → ¬ table_full s.
Proof.
  intros Hs Hroom Hd Hfull. pose proof (inv_dir s Hs) as Hdir. destruct Hroom as [[f Hf]|Hsz].
  - apply abs_found in Hf as (d & ? & ? & _). congruence.
  - pose proof (files_size (inode_table_ s) (so_table _ (si_ok _ Hs))) as Hcur.
    fold (fs s) in Hcur. rewrite abs_files_size in Hcur by done. unfold table_full in Hfull.
    rewrite Hfull, (si_inodes _ Hs) in Hcur. unfold abs in Hsz. simpl in Hsz. lia.
Qed.

Lemma alloc_fresh s n : service_inv s → fs s !! n = None → n ≠ ROOT_INUM →
  least_of n (InodeTable.free_list_ (inode_table_ s)) → fresh_inum (abs s) n.
Proof.
  intros Hs Hn Hn0 [Hin Hleast]. pose proof (so_table _ (si_ok _ Hs)) as Hok.
  pose proof (table_numbers (inode_table_ s)) as Hnum. setoid_rewrite (si_inodes _ Hs) in Hnum.
  pose proof (proj1 (Hnum n Hok) (or_introl Hin)) as Hrange. unfold ROOT_INUM in *. split.
  - split; [lia|]. intros h f Hf Heq. pose proof (inv_dir s Hs) as Hd.
    destruct (proj2 (abs_inum (fs s) n Hd Hn0)) as [x Hx]; [by eauto|congruence].
  - intros m Hm. apply (abs_inum (fs s) m (inv_dir s Hs)); [unfold ROOT_INUM; lia|].
    destruct (proj2 (Hnum m Hok)) as [Hf|[p Hp]]; [lia| |].
    + specialize (Hleast m Hf). lia.
    + destruct (InodeTable.ok_live _ Hok m p Hp) as (i & Hi & _). exists i. apply files_Some. eauto.
Qed.

Lemma opened_fresh s fd m : service_inv s → opened (file_map_ s) fd m →
  fresh_fd (abs s) fd (FileMap.fd_used_set_ m).
Proof.
  intros [[_ Hfds _] _ Ht] (_ & _ & Hcase).
  assert (Hnum : ∀ x, x ∈ FileMap.fd_free_list_ (file_map_ s) ∨ x ∈ FileMap.fd_used_set_ (file_map_ s) ↔
    FIRST_FD ≤ x ≤ LAST_FD).
  { intros x. rewrite <- elem_of_elements, <- elem_of_app, (FileMap.ok_numbers _ Hfds), elem_of_seqZ, Ht.
    unfold FIRST_FD, LAST_FD. lia. }
  destruct Hcase as [(Hnil & -> & ->)|([Hin Hleast] & Hn & Hu)]; [left|right].
  - split_and!; [done| |done]. intros x Hx. destruct (proj2 (Hnum x) Hx) as [Hf|]; [|done].
    rewrite Hnil in Hf. by apply not_elem_of_nil in Hf.
  - destruct (proj1 (Hnum fd) (or_introl Hin)). split; [done|]. split_and!; [done| |done].
    intros x Hx. destruct (proj2 (Hnum x)) as [Hf|]; [lia| |done]. specialize (Hleast x Hf). lia.
Qed.

Lemma totals_shrink n Sp Sp' : spaces_shrink n Sp Sp' →
  SpaceManager.total_blocks_ <$> Sp' = SpaceManager.total_blocks_ <$> Sp.
Proof.
  intros [Hdom Hs]. apply map_eq. intros k. rewrite !lookup_fmap.
  destruct (Sp' !! k) as [sm'|] eqn:E.
  - destruct (Hs k sm' E) as (sm & -> & (_&_&_&_&Ht&_) & _). simpl. by rewrite Ht.
  - apply not_elem_of_dom in E. rewrite Hdom in E. apply not_elem_of_dom in E. by rewrite E.
Qed.

Lemma totals_reclaimed i Sp Sp' : reclaimed i Sp Sp' →
  SpaceManager.total_blocks_ <$> Sp' = SpaceManager.total_blocks_ <$> Sp.
Proof.
  intros [Hdom Hs]. apply map_eq. intros k. rewrite !lookup_fmap.
  destruct (Sp' !! k) as [sm'|] eqn:E.
  - destruct (Hs k sm' E) as (sm & -> & _ & _ & (_&_&_&_&Ht&_)). simpl. by rewrite Ht.
  - apply not_elem_of_dom in E. rewrite Hdom in E. apply not_elem_of_dom in E. by rewrite E.
Qed.

Definition post (A : astate) (c : call) (a : Status * answer) (s' : MetadataServiceImpl) : Prop :=
  service_inv s' ∧ promises A c a (abs s').

Lemma wp_reply_as {R} (f : R → answer) (m : Srv (Status * R)) Q s :
  wp m (λ r, Q (r.1, f r.2)) s → wp (reply_as f m) Q s.
Proof. intros Hm. unfold reply_as. apply wp_bind. eapply wp_mono; [exact Hm|]. intros r s' ?. by wp_auto. Qed.

Lemma serve_read s rq : service_inv s → admissible (abs s) (CRead rq) →
  wp (ReadFile rq) (λ r, post (abs s) (CRead rq) (r.1, ARead r.2)) s.
Proof.
  intros Hs (f & Hf & Hoff & Hlen & Hend). apply abs_found in Hf as (d & i & Hd & Hi & ->).
  eapply wp_ReadFile; [apply Hs|done..|]. intros r (Hb & Hp & Hl).
  split; [done|]. split; [done|]. split; [done|]. exists (abs_file i d).
  assert (Hiok : inode_ok i) by (eapply fs_inode; [apply Hs|done]).
  split; [by apply abs_files_lookup|]. simpl. split_and!; [done| |by apply a_tidy_abs].
  by rewrite <- a_bytes_abs.
Qed.

Lemma serve_create s rq : service_inv s → admissible (abs s) (CCreate rq) →
  wp (CreateFile rq) (λ r, post (abs s) (CCreate rq) (r.1, ACreate r.2)) s.
Proof.
  intros Hs Hroom. pose proof (inv_dir s Hs) as Hok.
  destruct (dir (fs s) !! std_hash (create_name rq)) as [d|] eqn:Hd.
  - destruct (dir_entry _ Hok _ _ Hd) as (_ & _ & i & Hi).
    eapply wp_CreateFile_old; [apply Hs|done|]. split; [done|]. split; [done|]. simpl.
    unfold promises_create. simpl. by rewrite (abs_files_lookup (fs s) _ d i).
  - eapply wp_CreateFile_new; [apply Hs|done|by eapply room_not_full|].
    intros n r s' Hr Hn Hn0 Hleast F' Hfs' U. destruct (inv_upd s s' F' _ Hs U Hfs') as [Hs' Habs].
    split; [done|]. split; [done|]. simpl. unfold promises_create. rewrite Habs.
    simpl. rewrite (proj2 (abs_files_None _ _ Hok) Hd). split; [by apply alloc_fresh|].
    unfold set_files. simpl. f_equal. unfold F'. rewrite abs_files_create by done.
    do 2 f_equal. by destruct (create_is_dir rq).
Qed.

Lemma serve_open s rq : service_inv s → admissible (abs s) (COpen rq) →
  wp (OpenFile rq) (λ r, post (abs s) (COpen rq) (r.1, AOpen r.2)) s.
Proof.
  intros Hs Hroom. pose proof (inv_dir s Hs) as Hok.
  destruct (dir (fs s) !! std_hash (open_name rq)) as [d|] eqn:Hd.
  - destruct (dir_entry _ Hok _ _ Hd) as (_ & _ & i & Hi).
    eapply wp_OpenFile_old; [apply Hs|done|]. intros fd m Hm. pose proof Hm as (Hmok & Hmt & _).
    destruct (inv_set_fds s m Hs Hmok Hmt) as [Hs' Habs]. split; [done|]. split; [done|].
    simpl. exists (FileMap.fd_used_set_ m). rewrite Habs. simpl.
    rewrite (abs_files_lookup (fs s) _ d i) by done. split; [by apply opened_fresh|done].
  - eapply wp_OpenFile_new; [apply Hs|done|by eapply room_not_full|].
    intros n r s1 fd m Hr Hn Hn0 Hleast F' Hfs' U Hm. pose proof Hm as (Hmok & Hmt & _).
    destruct (inv_upd s s1 F' _ Hs U Hfs') as [Hs1 Habs1].
    destruct (inv_set_fds s1 m Hs1 Hmok) as [Hs' Habs]; [by rewrite (upd_fds _ _ _ _ U)|].
    split; [done|]. split; [done|].
    simpl. exists (FileMap.fd_used_set_ m). rewrite Habs. split; [by apply opened_fresh|].
    simpl. rewrite (proj2 (abs_files_None _ _ Hok) Hd). exists n. split; [by apply alloc_fresh|].
    rewrite (upd_files _ _ _ _ U), (upd_spaces _ _ _ _ U). f_equal. unfold F'. by rewrite abs_files_create.
Qed.

Lemma serve_close s rq : service_inv s →
  wp (CloseFile rq) (λ r, post (abs s) (CClose rq) (r.1, AClose r.2)) s.
Proof.
  intros Hs. destruct (decide (u64 (close_fd rq) ∈ FileMap.fd_used_set_ (file_map_ s))) as [Hin|Hnin].
  - eapply wp_CloseFile_open; [apply Hs|done|]. intros m Hm Hmt Hu.
    destruct (inv_set_fds s m Hs Hm Hmt) as [Hs' Habs]. split; [done|]. split; [done|]. simpl.
    unfold promises_close. rewrite Habs, Hu. simpl. by rewrite bool_decide_true.
  - eapply wp_CloseFile_unknown; [apply Hs|done|]. split; [done|]. split; [done|]. simpl.
    unfold promises_close. simpl. rewrite bool_decide_false by done. split; [done|].
    unfold abs. f_equal. set_solver.
Qed.
End refine.

Section refine_write.
Context `{StringHash, RandLaws}.
Implicit Types (s : MetadataServiceImpl) (F : Files) (Sp : Spaces) (i : Inode).

Definition block_id (b : file_block_info) : Z * Z := (fb_server_id b, fb_block_nr b).

Lemma same_block_ids l l' : Forall2 same_block l l' → block_id <$> l = block_id <$> l'.
Proof.
  intros Hl. apply list_eq_Forall2, Forall2_fmap. eapply Forall2_impl; [exact Hl|].
  intros b b' (Hs & _ & Hr). unfold block_id. by rewrite Hs, Hr.
Qed.

Lemma written_abs i news size i' d : written i news size i' →
  abs_file i' d = AFile (af_inum (abs_file i d)) (af_name (abs_file i d)) (af_dir (abs_file i d)) size
    (af_blocks (abs_file i d) ++ (block_id <$> news)).
Proof.
  intros (_ & Ht & Hsz & _ & _ & Hl). simpl in *. unfold abs_file, Inode.IsDir. rewrite <- Ht, <- Hsz.
  f_equal. change (block_id <$> Inode.block_info_list_ i' =
    (block_id <$> Inode.block_info_list_ i) ++ (block_id <$> news)).
  by rewrite <- fmap_app, (same_block_ids _ _ Hl).
Qed.

(** The blocks of a file are distinct, and lie in the region of their server. *)
Lemma block_ids_ok F Sp n i : fs_ok F Sp → F !! n = Some i →
  NoDup (block_id <$> Inode.block_info_list_ i) ∧
  ∀ k nr, (k, nr) ∈ block_id <$> Inode.block_info_list_ i →
    ∃ sm, Sp !! k = Some sm ∧ 0 ≤ nr < SpaceManager.total_blocks_ sm.
Proof.
  intros Hfs Hn. split.
  - apply NoDup_alt. intros j j' x Hj Hj'. apply list_lookup_fmap_Some in Hj as (b & -> & Hj).
    apply list_lookup_fmap_Some in Hj' as (b' & [= Hs Hr] & Hj').
    destruct (own_unique _ _ (fs_own _ _ Hfs) n j n j' (fb_server_id b) (fb_block_nr b)); [|by exists i, b'|done].
    by exists i, b.
  - intros k nr (b & [= -> ->] & Hb)%list_elem_of_fmap.
    destruct (owned_block_range F Sp n i b Hfs Hn Hb) as (sm & ? & ? & _). by exists sm.
Qed.

Lemma owns_with_child F name ty n r m j k nr :
  F !! ROOT_INUM = Some r → F !! n = None → n ≠ ROOT_INUM →
  owns (with_child name ty n r F) m j k nr ↔ owns F m j k nr.
Proof.
  intros Hr Hn Hn0. unfold with_child. rewrite owns_same_blocks with (i := r).
  - by apply owns_empty.
  - by rewrite lookup_insert_ne.
  - reflexivity.
Qed.

Lemma unowned_unused F Sp fd tot b : dir_ok F → unowned F b →
  fb_block_nr b ∉ used_on (AState (abs_files F) fd tot) (fb_server_id b).
Proof. intros Hok Hu (n & j & Ho)%used_on_owns; [|done]. by eapply Hu. Qed.

(** What a write to [i], the inode of [d] among the files [F], does to the abstract state. *)
Lemma write_promised s F Sp Sp' h d i i' news rq reply c :
  service_inv s → dir_ok F → dir F !! h = Some d → F !! Dentry.inum_ d = Some i →
  h = std_hash (write_name rq) → target (abs s) (write_name rq) (abs_file i d) →
  (<[h := abs_file i' d]> (abs_files F) = <[h := abs_file i' d]> (abs_files (fs s))) →
  Forall (unowned (fs s)) news → Z.of_nat (length news) = added (abs s) rq →
  written i news (write_offset rq + write_length rq) i' →
  write_reply i' (write_offset rq) (write_length rq) reply →
  spaces_shrink c (space_manager_ s) Sp' →
  fs_ok (<[Dentry.inum_ d := i']> F) Sp' →
  promises_write (abs s) rq reply (AState (abs_files (<[Dentry.inum_ d := i']> F)) (a_fds (abs s))
    (SpaceManager.total_blocks_ <$> Sp')).
Proof.
  intros Hs Hok Hd Hi -> Htgt Hsame Hnews Hnum Hw (Hb & Hp & Hl) Hsh Hfs'.
  pose proof (written_abs i news _ i' d Hw) as Habs'.
  assert (Hi' : <[Dentry.inum_ d := i']> F !! Dentry.inum_ d = Some i') by apply lookup_insert_eq.
  destruct (block_ids_ok _ _ _ _ Hfs' Hi') as [Hnd Hrange].
  change (block_id <$> Inode.block_info_list_ i') with (af_blocks (abs_file i' d)) in Hnd, Hrange.
  rewrite Habs' in Hnd, Hrange. cbn [af_blocks] in Hnd, Hrange. apply NoDup_app in Hnd as (_ & _ & Hnd).
  exists (abs_file i d), (block_id <$> news). split; [done|]. cbv zeta. rewrite <- Habs'.
  split_and!; [|by rewrite length_fmap|done| |done| |].
  - unfold set_files. rewrite (totals_shrink _ _ _ Hsh). unfold abs. simpl. f_equal.
    rewrite <- Hsame. eapply abs_files_change; [done..|]. symmetry. apply Hw.
  - intros k nr Hin. split.
    + apply list_elem_of_fmap in Hin as (b & [= -> ->] & Hb').
      rewrite Forall_forall in Hnews. eapply unowned_unused; [done|by apply inv_dir|]. by apply Hnews.
    + destruct (Hrange k nr) as (sm' & Hsm' & Hr).
      { apply elem_of_app. by right. }
      exists (SpaceManager.total_blocks_ sm'). split; [|done]. simpl.
      rewrite <- (totals_shrink _ _ _ Hsh), lookup_fmap, Hsm'. done.
  - rewrite Hp. apply a_bytes_abs. by eapply (fs_inode _ _ Hfs').
  - apply a_tidy_abs; [|done]. by eapply (fs_inode _ _ Hfs').
Qed.

Lemma admissible_writable s rq : service_inv s → admissible (abs s) (CWrite rq) →
  writable (space_manager_ s) (Z.of_nat (length (file_at (abs s) (write_name rq))))
    (write_offset rq) (write_length rq).
Proof.
  intros Hs (_ & Ho & Hl & He & Hroom & Hmax). split; try done.
  intros Hpos. destruct (Hroom Hpos) as [Hne Hfree]. split.
  - assert (size (space_manager_ s) ≠ 0%nat); [|lia]. intros Hz. apply Hne. simpl.
    apply map_size_empty_inv in Hz. by rewrite Hz, fmap_empty.
  - intros k sm Hk. erewrite free_blocks_abs; [|apply Hs|done].
    apply (Hfree k (SpaceManager.total_blocks_ sm)). simpl. by rewrite lookup_fmap, Hk.
Qed.

Lemma serve_write s rq : service_inv s → admissible (abs s) (CWrite rq) →
  wp (WriteFile rq) (λ r, post (abs s) (CWrite rq) (r.1, AWrite r.2)) s.
Proof.
  intros Hs Hadm. pose proof (inv_dir s Hs) as Hok. pose proof (admissible_writable s rq Hs Hadm) as Hw.
  destruct Hadm as [Hroom _]. unfold added, file_at in *.
  destruct (dir (fs s) !! std_hash (write_name rq)) as [d|] eqn:Hd.
  - destruct (dir_entry _ Hok _ _ Hd) as (_ & _ & i & Hi).
    pose proof (abs_files_lookup (fs s) _ d i Hd Hi) as Hf.
    assert (Hlen : Z.of_nat (length (default [] (af_blocks <$> a_files (abs s) !! std_hash (write_name rq))))
      = Inode.GetBlockNum i).
    { simpl. rewrite Hf. simpl. unfold Inode.GetBlockNum. by rewrite length_fmap. }
    rewrite Hlen in Hw. eapply wp_WriteFile_old; [apply Hs|done..|].
    intros news i' reply s' Sp' Hnum Hnews Hwr Hrep Hsh Hfs' U.
    destruct (inv_upd s s' _ _ Hs U Hfs') as [Hs' Habs]. split; [done|]. split; [done|]. rewrite Habs.
    eapply write_promised; try done; [by left|]. unfold added, file_at. by rewrite Hlen.
  - pose proof (proj2 (abs_files_None _ _ Hok) Hd) as Hf.
    assert (Hlen : Z.of_nat (length (default [] (af_blocks <$> a_files (abs s) !! std_hash (write_name rq)))) = 0).
    { simpl. by rewrite Hf. }
    rewrite Hlen in Hw. eapply wp_WriteFile_new; [apply Hs|done|by eapply room_not_full|done|].
    intros n r news i' reply s' Sp' Hr Hn Hn0 Hleast F' Hnum Hnews Hwr Hrep Hsh Hfs' U.
    destruct (inv_upd s s' _ _ Hs U Hfs') as [Hs' Habs]. split; [done|]. split; [done|]. rewrite Habs.
    set (name := write_name rq) in *. set (d := Dentry.make name n).
    assert (Hfs1 : fs_ok (with_child name REG_FILE n r (fs s)) (space_manager_ s)).
    { apply fs_ok_create; [apply Hs|done..|apply new_inode_ok]. }
    change n with (Dentry.inum_ d) in F'. unfold F'.
    apply (write_promised s _ (space_manager_ s) Sp' (std_hash name) d (Inode.make REG_FILE n) i' news rq reply
      (blocks_added 0 (write_offset rq) (write_length rq))); try done.
    + apply Hfs1.
    + rewrite dir_with_child. by apply lookup_insert_eq.
    + by apply with_child_lookup.
    + right. split; [done|]. exists n. split; [by apply alloc_fresh|done].
    + by rewrite abs_files_create, insert_insert_eq.
    + eapply Forall_impl; [exact Hnews|]. intros b Hu m j Ho. apply (Hu m j).
      by apply owns_with_child.
    + unfold added, file_at. fold name. rewrite Hlen. exact Hnum.
Qed.

Lemma serve_remove s rq : service_inv s →
  wp (RemoveFile rq) (λ r, post (abs s) (CRemove rq) (r.1, ARemove r.2)) s.
Proof.
  intros Hs. pose proof (inv_dir s Hs) as Hok.
  destruct (dir (fs s) !! std_hash (remove_name rq)) as [d|] eqn:Hd.
  - destruct (dir_entry _ Hok _ _ Hd) as (_ & _ & i & Hi).
    eapply wp_RemoveFile; [apply Hs|done..|]. intros r s' Sp' Hr Hrec F' Hfs' U.
    destruct (inv_upd s s' _ _ Hs U Hfs') as [Hs' Habs]. split; [done|]. split; [done|]. rewrite Habs.
    simpl. unfold promises_remove. simpl. rewrite (abs_files_lookup (fs s) _ d i) by done.
    rewrite bool_decide_true by eauto. split; [done|]. unfold set_files. simpl.
    rewrite (totals_reclaimed _ _ _ Hrec). f_equal. unfold F'. by rewrite abs_files_remove.
  - eapply wp_RemoveFile_none; [apply Hs|done|]. split; [done|]. split; [done|]. simpl.
    pose proof (proj2 (abs_files_None _ _ Hok) Hd) as Hf. unfold promises_remove, set_files. simpl. rewrite Hf.
    rewrite bool_decide_false by (by intros []). split; [done|]. unfold abs. f_equal.
    by rewrite delete_id.
Qed.

Lemma serve_readdir s rq : service_inv s →
  wp (ReadDirectory rq) (λ r, post (abs s) (CReadDir rq) (r.1, AReadDir r.2)) s.
Proof.
  intros Hs. pose proof (inv_dir s Hs) as Hok. apply wp_ReadDirectory; [apply Hs|].
  intros infos Hinfos. split; [done|]. split; [done|]. split; [done|]. exists infos. split; [done|].
  simpl. rewrite abs_files_fmap, map_to_list_fmap by done. rewrite <- !list_fmap_compose.
  apply reflexive_eq. symmetry. apply list_eq_Forall2, Forall2_fmap_l.
  rewrite Forall2_fmap_l in Hinfos. eapply Forall2_impl; [exact Hinfos|].
  intros [h d] info (i & Hi & ->). simpl in *. by rewrite Hi.
Qed.

Lemma serve_register s rq : service_inv s → admissible (abs s) (CRegister rq) →
  wp (RegisterMemoryRegion rq) (λ r, post (abs s) (CRegister rq) (r.1, ARegister r.2)) s.
Proof.
  intros Hs (Hn & Ha & Hl & He & Hidle & Hsz).
  assert (Hreg : registrable (space_manager_ s) rq).
  { split; try done.
    - intros sm Hsm. rewrite <- Hidle. symmetry. eapply used_on_inused; [apply Hs|done].
    - unfold abs in Hsz. simpl in Hsz. by rewrite map_size_fmap in Hsz. }
  apply wp_RegisterMemoryRegion; [apply Hs|done|]. intros s' Sp' Hfs' U.
  destruct (inv_upd s s' _ _ Hs U Hfs') as [Hs' Habs]. split; [done|]. split; [done|]. rewrite Habs.
  destruct (make_spec 20 (addr rq) (region_length rq) (nodeid rq)) as (_ & _ & _ & _ & Hal & Hst & Ht);
    [lia|done|exact Hl|done|]. change (2 ^ 20) with FILE_BLOCK_SIZE in *. fold (region_space rq) in *.
  exists (SpaceManager.space_start_ (region_space rq)). split; [done|]. split; [done|].
  unfold Sp'. by rewrite fmap_insert, Ht.
Qed.

(** Every admissible call is served as promised. *)
Lemma serve_post s c : service_inv s → admissible (abs s) c →
  wp (serve c) (post (abs s) c) s.
Proof.
  intros Hs Hadm. destruct c; apply wp_reply_as.
  - split; [done|]. split; [done|]. done.
  - by apply serve_read.
  - by apply serve_write.
  - by apply serve_create.
  - by apply serve_open.
  - by apply serve_close.
  - by apply serve_remove.
  - by apply serve_readdir.
  - by apply serve_register.
Qed.
End refine_write.
