(* ===== verification/MetaFacts.v ===== *)
(** * Consequences of the refinement: sessions, isolation of files, and a running example. *)
From S2P Require Import Prelude FsInode IdPool FsTable FsFiles FsSpace MetaProto MetaServer MetaPlan.
From S2P Require Import MetaInv MetaSteps MetaHandlers MetaRpc MetaSpec MetaRefine.
Local Open Scope Z_scope.

Definition empty_state : astate := AState ∅ ∅ ∅.

(** The call names no file of hash [h], or only looks at it. *)
Definition leaves `{StringHash} (h : Z) (c : call) : Prop :=
  match c with
  | CWrite rq => std_hash (write_name rq) ≠ h
  | CRemove rq => std_hash (remove_name rq) ≠ h
  | CCreate _ | COpen _ | CHello _ | CRead _ | CClose _ | CReadDir _ | CRegister _ => True
  end.

Section facts.
Context `{StringHash, RandLaws}.
Implicit Types (s : MetadataServiceImpl) (A : astate).

Lemma make_service_inv count : ∃ s, make_service count = Done s ∧ service_inv s ∧ abs s = empty_state.
Proof.
  destruct (make_service_ok count) as (s & Hs & Hok & Hf & Hsp & Hfd). exists s. split; [done|].
  split; [split; [done|..]|].
  - unfold make_service in Hs. by injection Hs as <-.
  - unfold make_service in Hs. by injection Hs as <-.
  - unfold abs. by rewrite Hf, Hsp, Hfd.
Qed.

Lemma serve_all_post s cs : service_inv s → all_admissible (abs s) cs →
  wp (serve_all cs) (λ rs s', service_inv s' ∧ a_run (abs s) cs rs (abs s')) s.
Proof.
  revert s. induction cs as [|c cs IH]; intros s Hs Hadm; simpl.
  - wp_auto. split; [done|constructor].
  - destruct Hadm as [Hc Hcs]. apply wp_bind. eapply wp_mono; [by apply serve_post|].
    intros r s1 [Hs1 Hr]. apply wp_bind. eapply wp_mono; [apply IH; [done|by eapply Hcs]|].
    intros rs s2 [Hs2 Hrun]. wp_auto. split; [done|]. by econstructor.
Qed.

(** A file that exists keeps its size and blocks under every call that leaves it. *)
Lemma promises_leaves A c a A' h f : promises A c a A' → leaves h c →
  a_files A !! h = Some f → a_files A' !! h = Some f.
Proof.
  intros [_ Hp] Hl Hf. destruct c, (a.2); simpl in *; try done.
  - by destruct Hp as [_ ->].
  - by destruct Hp as [-> _].
  - destruct Hp as (g & news & _ & -> & _). simpl. by rewrite lookup_insert_ne.
  - unfold promises_create in Hp. destruct (a_files A !! std_hash (create_name rq)) eqn:E.
    + by destruct Hp as [_ ->].
    + destruct Hp as [_ ->]. simpl. rewrite lookup_insert_ne; [done|]. congruence.
  - destruct Hp as (fds' & _ & Hp). destruct (a_files A !! std_hash (open_name rq)) eqn:E.
    + by subst.
    + destruct Hp as (n & _ & ->). simpl. rewrite lookup_insert_ne; [done|]. congruence.
  - by destruct Hp as [_ ->].
  - destruct Hp as [_ ->]. simpl. by rewrite lookup_delete_ne.
  - by destruct Hp as [-> _].
  - by destruct Hp as (start & _ & _ & ->).
Qed.

Lemma a_run_leaves A cs rs A' h f : a_run A cs rs A' → Forall (leaves h) cs →
  a_files A !! h = Some f → a_files A' !! h = Some f.
Proof.
  induction 1 as [|A c r A1 cs rs A2 Hp Hrun IH]; [done|].
  intros [Hc Hcs]%Forall_cons Hf. apply IH; [done|]. by eapply promises_leaves.
Qed.

(** A contiguous part of a plan is the plan of the part. *)
Lemma a_bytes_slice f off len off' len' : off ≤ off' → 0 ≤ len' → off' + len' ≤ off + len →
  (a_bytes f off' len').*2 =
  take (Z.to_nat len') (drop (Z.to_nat (off' - off)) (a_bytes f off len).*2).
Proof.
  intros Ho Hl He. unfold a_bytes. rewrite <- !list_fmap_compose.
  rewrite <- fmap_drop, <- fmap_take.
  replace (seqZ 0 len) with (seqZ 0 (off' - off) ++ seqZ (off' - off) (len - (off' - off))).
  - rewrite drop_app_length' by (rewrite length_seqZ; done).
    replace (len - (off' - off)) with (len' + (len - (off' - off) - len')) by lia.
    rewrite seqZ_app by lia. rewrite take_app_length' by (rewrite length_seqZ; done).
    replace (seqZ (off' - off) len') with (Z.add (off' - off) <$> seqZ 0 len') by
      (rewrite fmap_add_seqZ; f_equal; lia).
    rewrite <- list_fmap_compose. apply list_fmap_ext. intros _ k _. simpl. f_equal. lia.
  - replace (seqZ (off' - off) (len - (off' - off))) with (seqZ (0 + (off' - off)) (len - (off' - off))) by (f_equal; lia).
    rewrite <- seqZ_app by lia. f_equal; lia.
Qed.

(** Where the bytes of a file lie. *)
Lemma a_loc_block f off k a : a_loc f off = Some (k, a) → ∃ nr,
  (k, nr) ∈ af_blocks f ∧ nr * FILE_BLOCK_SIZE ≤ a < (nr + 1) * FILE_BLOCK_SIZE.
Proof.
  unfold a_loc. destruct (_ !! _) as [[k' nr]|] eqn:E; [|done]. intros [= <- <-]. exists nr.
  apply list_elem_of_lookup_2 in E. split; [done|].
  pose proof (Z.mod_pos_bound off FILE_BLOCK_SIZE ltac:(done)). lia.
Qed.

Lemma block_of_addr nr nr' a : nr * FILE_BLOCK_SIZE ≤ a < (nr + 1) * FILE_BLOCK_SIZE →
  nr' * FILE_BLOCK_SIZE ≤ a < (nr' + 1) * FILE_BLOCK_SIZE → nr = nr'.
Proof. pose proof FILE_BLOCK_SIZE_eq. nia. Qed.

(** Two files never share a block, nor a file with itself. *)
Lemma inv_no_sharing s h h' f f' j j' b : service_inv s →
  a_files (abs s) !! h = Some f → a_files (abs s) !! h' = Some f' →
  af_blocks f !! j = Some b → af_blocks f' !! j' = Some b → h = h' ∧ j = j'.
Proof.
  intros Hs Hf Hf' Hj Hj'. pose proof (so_fs _ (si_ok _ Hs)) as Hfs.
  apply abs_found in Hf as (d & i & Hd & Hi & ->), Hf' as (d' & i' & Hd' & Hi' & ->).
  simpl in *. apply list_lookup_fmap_Some in Hj as (b1 & -> & Hj).
  apply list_lookup_fmap_Some in Hj' as (b2 & [= Hk Hr] & Hj').
  destruct (own_unique _ _ (fs_own _ _ Hfs) (Dentry.inum_ d) j (Dentry.inum_ d') j'
    (fb_server_id b1) (fb_block_nr b1)) as [Hn ->]; [by exists i, b1|by exists i', b2|].
  split; [|done]. by eapply dir_inj; [apply Hfs|..].
Qed.

(** The blocks of a file lie in the region their server registered. *)
Lemma inv_in_region s h f k nr : service_inv s → a_files (abs s) !! h = Some f →
  (k, nr) ∈ af_blocks f → ∃ t, a_total (abs s) !! k = Some t ∧ 0 ≤ nr < t.
Proof.
  intros Hs Hf Hb. pose proof (so_fs _ (si_ok _ Hs)) as Hfs.
  apply abs_found in Hf as (d & i & Hd & Hi & ->).
  destruct (block_ids_ok _ _ _ _ Hfs Hi) as [_ Hr]. destruct (Hr k nr Hb) as (sm & Hsm & Hrange).
  exists (SpaceManager.total_blocks_ sm). split; [|done]. simpl. by rewrite lookup_fmap, Hsm.
Qed.

(** A block of a file is not free. *)
Lemma inv_not_free s h f k nr : service_inv s → a_files (abs s) !! h = Some f → (k, nr) ∈ af_blocks f →
  ∃ sm, space_manager_ s !! k = Some sm ∧ 0 ≤ nr < SpaceManager.total_blocks_ sm ∧ nr ∉ SpaceManager.free_list_ sm.
Proof.
  intros Hs Hf Hb. destruct (inv_in_region s h f k nr Hs Hf Hb) as (t & Ht & Hr).
  apply lookup_fmap_Some in Ht as (sm & <- & Hsm). exists sm. split_and!; [done|lia|lia|]. intros Hfree.
  pose proof (so_fs _ (si_ok _ Hs)) as Hfs. destruct (fs_spaces _ _ Hfs) as [Hsp _].
  destruct (Hsp k sm Hsm) as ([_ Hinv] & _). apply (proj2 (space_NoDup sm Hinv) nr Hfree).
  rewrite <- (used_on_inused _ _ (a_fds (abs s)) (a_total (abs s)) _ _ Hfs Hsm). apply elem_of_used_on. by exists h, f.
Qed.
End facts.

(** ** A running example

    A server with two storage nodes and two files; names are hashed to their length and [rand()]
    counts.  The concrete instances of the theorems are taken in the state it ends in. *)

Module Demo.

#[local] Instance demo_hash : StringHash := λ s, Z.of_nat (String.length s).
#[local] Instance demo_rand : Rand := λ n, Z.of_nat n.

Definition demo_calls : list call :=
  [ CRegister {| nodeid := 1; addr := 0; region_length := 8 * FILE_BLOCK_SIZE |};
    CRegister {| nodeid := 2; addr := 4096; region_length := 8 * FILE_BLOCK_SIZE |};
    CWrite {| write_name := "a"; write_offset := 0; write_length := 2500000 |};
    COpen {| open_name := "bb"; open_is_dir := false |} ].

Definition demo : MetadataServiceImpl :=
  match make_service 1 with
  | Done s => match serve_all demo_calls s with Done (_, s') => s' | Fault _ => s end
  | Fault _ => Service 0 (InodeTable.Mk 0 0 false ∅ [] ∅ 1) ∅ FileMap.make_default 0 0
  end.

Lemma demo_rand_laws : RandLaws.
Proof. intros n. unfold rand, demo_rand. lia. Qed.

Lemma aligned_zero start : start `mod` FILE_BLOCK_SIZE = 0 → 0 ≤ start < 0 + FILE_BLOCK_SIZE → start = 0.
Proof. intros Hm Hr. by rewrite Z.mod_small in Hm by lia. Qed.

Lemma demo_admissible : all_admissible empty_state demo_calls.
Proof.
  simpl. split.
  { split_and!; try done. }
  intros r A1 [_ Hp]. destruct (r.2); try done. destruct Hp as (st & Hst & Hr & ->). simpl in *.
  apply aligned_zero in Hst as ->; [|done]. split.
  { split_and!; try done. }
  intros r' A2 [_ Hp]. destruct (r'.2); try done. destruct Hp as (st & Hst & Hr' & ->). simpl in *.
  assert (st = FILE_BLOCK_SIZE) as ->.
  { pose proof (Z.div_mod st FILE_BLOCK_SIZE ltac:(done)). rewrite Hst in *. pose proof FILE_BLOCK_SIZE_eq. nia. }
  split.
  { unfold room_for, room_to_grow, added, file_at. simpl. split_and!; try done; [by right|].
    intros _. split; [done|]. intros k t. rewrite !lookup_insert_Some, lookup_empty.
    by intros [[<- <-]|[_ [[<- <-]|[_ ?]]]]. }
  intros r'' A3 [_ Hp]. destruct (r''.2); try done. destruct Hp as (f & news & _ & -> & _).
  split; [|done]. right. simpl. rewrite insert_empty, map_size_singleton. done.
Qed.

Lemma demo_inv : service_inv demo.
Proof.
  destruct (make_service_inv 1) as (s & Hs & Hinv & Habs).
  pose proof (serve_all_post (H1 := demo_rand_laws) s demo_calls Hinv) as Hw. rewrite Habs in Hw.
  specialize (Hw demo_admissible). unfold demo. rewrite Hs.
  apply wp_done in Hw as (rs & s' & -> & ? & _). done.
Qed.

(** The file "a" has three blocks, of the two servers in turn. *)
Lemma demo_abs : abs demo = AState
  {[ 1 := AFile 1 "a" false 2500000 [(1, 0); (2, 0); (1, 1)]; 2 := AFile 2 "bb" false 0 [] ]}
  {[ 4 ]} {[ 1 := 8; 2 := 7 ]}.
Proof. vm_compute. reflexivity. Qed.

End Demo.
