(* ===== verification/MetaTheorems.v ===== *)
(** * Theorems on the metadata service: the refinement of the abstract file system, what it means for
    the bytes of the files, and the blocks and numbers of a file that is removed. *)
From S2P Require Import Prelude FsInode IdPool FsTable FsFiles FsSpace MetaProto MetaServer MetaPlan.
From S2P Require Import MetaInv MetaSteps MetaHandlers MetaRpc MetaSpec MetaRefine MetaFacts.
Local Open Scope Z_scope.
#[local] Existing Instances Demo.demo_hash Demo.demo_rand Demo.demo_rand_laws.

(** C1: Every handler of the metadata server implements the abstract file system: from any well-formed
    state an admissible call returns, answers and changes the state as [promises] says, and leaves
    the state well-formed (mutexes released, table, heaps, block ownership and directory consistent). *)
Theorem serve_refines `{StringHash, RandLaws} s c :
  service_inv s → admissible (abs s) c →
  ∃ a s', serve c s = Done (a, s') ∧ service_inv s' ∧ promises (abs s) c a (abs s').
Proof. intros Hs Hadm. apply wp_done. exact (serve_post s c Hs Hadm). Qed.

Lemma serve_refines_witness :
  ∃ a s', serve (CRemove {| remove_name := "a"; remove_is_dir := false |}) Demo.demo = Done (a, s') ∧
    service_inv s'.
Proof.
  destruct (serve_refines Demo.demo (CRemove {| remove_name := "a"; remove_is_dir := false |}))
    as (a & s' & E & Hs & _); [exact Demo.demo_inv|done|]. exists a, s'. split; [exact E|exact Hs].
Defined.

(** C6: A whole session of the server is a run of the abstract file system: a fresh server serves any
    sequence of calls each of which is admissible when its turn comes, without a crash, a failed
    assertion or a deadlock. *)
Theorem sessions_refine `{StringHash, RandLaws} count cs :
  all_admissible empty_state cs →
  ∃ s rs s', make_service count = Done s ∧ serve_all cs s = Done (rs, s') ∧ service_inv s' ∧
    a_run empty_state cs rs (abs s').
Proof.
  intros Hadm. destruct (make_service_inv count) as (s & Hmk & Hs & Habs). exists s.
  rewrite <- Habs in Hadm. pose proof (serve_all_post s cs Hs Hadm) as Hw.
  apply wp_done in Hw as (rs & s' & E & Hs' & Hrun). exists rs, s'. by rewrite Habs in Hrun.
Qed.

Lemma sessions_refine_witness :
  ∃ s rs s', make_service 1 = Done s ∧ serve_all Demo.demo_calls s = Done (rs, s') ∧ service_inv s'.
Proof.
  destruct (sessions_refine 1 Demo.demo_calls Demo.demo_admissible) as (s & rs & s' & Hmk & E & Hs & _).
  exists s, rs, s'. split; [exact Hmk|]. split; [exact E|exact Hs].
Defined.

(** C3: Read your writes.  After a write, and any admissible calls that neither write to nor remove that
    file, a read of a range inside the written one is told to fetch, byte by byte, exactly the
    locations the writer was told to store to. *)
Theorem read_after_write `{StringHash, RandLaws} s w cs r :
  service_inv s → all_admissible (abs s) (CWrite w :: cs) →
  Forall (leaves (std_hash (write_name w))) cs → read_name r = write_name w →
  write_offset w ≤ read_offset r → 0 ≤ read_length r →
  read_offset r + read_length r ≤ write_offset w + write_length w →
  ∃ wr s1 rs s2 rr, WriteFile w s = Done (OK, wr, s1) ∧ serve_all cs s1 = Done (rs, s2) ∧
    ReadFile r s2 = Done (OK, rr, s2) ∧ bytes_read rr = read_length r ∧
    (plan_bytes (read_block_info rr)).*2 =
      take (Z.to_nat (read_length r)) (drop (Z.to_nat (read_offset r - write_offset w))
        (plan_bytes (write_block_info wr)).*2).
Proof.
  intros Hs [Hw Hcs] Hleave Hname Ho Hl He.
  pose proof (serve_write s w Hs Hw) as H1w.
  apply wp_done in H1w as ([st wr] & s1 & E1 & Hs1 & Hp1). pose proof Hp1 as [Hst Hpw]. simpl in Hst, Hpw. subst st.
  pose proof (serve_all_post s1 cs Hs1 (Hcs _ _ Hp1)) as H2w.
  apply wp_done in H2w as (rs & s2 & E2 & Hs2 & Hrun).
  destruct Hpw as (f & news & _ & Hset & _ & _ & _ & _ & Hplan & _).
  set (f' := AFile _ _ _ _ _) in *.
  assert (Hf1 : a_files (abs s1) !! std_hash (read_name r) = Some f').
  { rewrite Hset, Hname. apply lookup_insert_eq. }
  rewrite <- Hname in Hleave. pose proof (a_run_leaves _ _ _ _ _ _ Hrun Hleave Hf1) as Hf2.
  destruct Hw as (_ & Hw0 & Hwl & Hwe & _). pose proof FILE_BLOCK_SIZE_eq.
  pose proof Hf2 as (d & i & Hd & Hi & Hfi)%abs_found.
  assert (Hsz : Inode.size_ i = write_offset w + write_length w).
  { change (Inode.size_ i) with (af_size (abs_file i d)). by rewrite <- Hfi. }
  pose proof (wp_ReadFile s2 r d i (λ a s', ∃ rr, a = (OK, rr) ∧ s' = s2 ∧
    read_reply i (read_offset r) (read_length r) rr)) as H3w.
  destruct (proj1 (wp_done _ _ _) (H3w (si_ok _ Hs2) Hd Hi ltac:(lia) Hl ltac:(lia)
    (λ rr Hrr, ex_intro _ rr (conj eq_refl (conj eq_refl Hrr))))) as (a & s3 & E3 & rr & -> & -> & Hb & Hp & _).
  exists wr, s1, rs, s2, rr. rewrite Hsz, Z.min_l in * by lia. split_and!; [done..|].
  rewrite Hp, Hplan, (a_bytes_abs i d), <- Hfi by (eapply fs_inode; [apply Hs2|done]).
  by apply a_bytes_slice.
Qed.

Lemma read_after_write_witness :
  let w := {| write_name := "a"; write_offset := 5; write_length := 20 |} in
  let r := {| read_name := "a"; read_offset := 7; read_length := 4 |} in
  ∃ wr s1 rs s2 rr, WriteFile w Demo.demo = Done (OK, wr, s1) ∧
    serve_all [CRemove {| remove_name := "bb"; remove_is_dir := false |}] s1 = Done (rs, s2) ∧
    ReadFile r s2 = Done (OK, rr, s2) ∧ bytes_read rr = 4.
Proof.
  destruct (read_after_write Demo.demo {| write_name := "a"; write_offset := 5; write_length := 20 |}
    [CRemove {| remove_name := "bb"; remove_is_dir := false |}]
    {| read_name := "a"; read_offset := 7; read_length := 4 |}) as (wr & s1 & rs & s2 & rr & E1 & E2 & E3 & Hb & _).
  - exact Demo.demo_inv.
  - rewrite Demo.demo_abs. split; [|done]. unfold admissible, room_to_grow, added, file_at. simpl.
    split; [left; eexists; reflexivity|]. split_and!; try done.
  - by repeat constructor.
  - done.
  - done.
  - done.
  - done.
  - exists wr, s1, rs, s2, rr. split_and!; [exact E1|exact E2|exact E3|exact Hb].
Defined.

(** C14: Calls on other files leave a file alone: its inode number, name, size and blocks are the same
    after any admissible call that does not write to it or remove it. *)
Theorem files_isolated `{StringHash, RandLaws} s c h f :
  service_inv s → admissible (abs s) c → leaves h c → a_files (abs s) !! h = Some f →
  ∃ a s', serve c s = Done (a, s') ∧ a_files (abs s') !! h = Some f.
Proof.
  intros Hs Hadm Hl Hf. pose proof (serve_post s c Hs Hadm) as Hw.
  apply wp_done in Hw as (a & s' & E & _ & Hp). exists a, s'. split; [done|]. by eapply promises_leaves.
Qed.

Lemma files_isolated_witness :
  ∃ a s', serve (CRemove {| remove_name := "bb"; remove_is_dir := false |}) Demo.demo = Done (a, s') ∧
    a_files (abs s') !! 1 = Some (AFile 1 "a" false 2500000 [(1, 0); (2, 0); (1, 1)]).
Proof.
  apply files_isolated; [exact Demo.demo_inv|done|done|]. rewrite Demo.demo_abs. reflexivity.
Defined.

(** C8: A write touches only its own file: no byte location in the plan of an admissible write is a
    location of any byte of another file, and each lies in the region its server registered. *)
Theorem writes_do_not_overlap `{StringHash, RandLaws} s w :
  service_inv s → admissible (abs s) (CWrite w) →
  ∃ wr s', WriteFile w s = Done (OK, wr, s') ∧
    ∀ pos k a, (pos, Some (k, a)) ∈ plan_bytes (write_block_info wr) →
      (∃ t, a_total (abs s) !! k = Some t ∧ 0 ≤ a < t * FILE_BLOCK_SIZE) ∧
      ∀ h g off, h ≠ std_hash (write_name w) → a_files (abs s') !! h = Some g →
        a_loc g off ≠ Some (k, a).
Proof.
  intros Hs Hadm. pose proof (serve_write s w Hs Hadm) as Hw.
  apply wp_done in Hw as ([st wr] & s' & E & Hs' & [Hst Hp]). simpl in *. subst st. exists wr, s'. split; [done|].
  destruct Hp as (f & news & _ & Hset & _ & _ & _ & _ & Hplan & _). set (f' := AFile _ _ _ _ _) in *.
  assert (Hf' : a_files (abs s') !! std_hash (write_name w) = Some f') by (rewrite Hset; apply lookup_insert_eq).
  intros pos k a Hin. rewrite Hplan in Hin. apply list_elem_of_fmap in Hin as (x & [= -> Hloc] & _).
  symmetry in Hloc. destruct (a_loc_block _ _ _ _ Hloc) as (nr & Hnr & Hr). split.
  - destruct (inv_in_region _ _ _ _ _ Hs' Hf' Hnr) as (t & Ht & Hrange). rewrite Hset in Ht.
    exists t. split; [done|]. pose proof FILE_BLOCK_SIZE_eq. nia.
  - intros h g off Hne Hg Hg'. destruct (a_loc_block _ _ _ _ Hg') as (nr' & Hnr' & Hr').
    assert (nr' = nr) as -> by by eapply block_of_addr.
    apply list_elem_of_lookup in Hnr as [j Hj], Hnr' as [j' Hj'].
    destruct (inv_no_sharing s' _ _ _ _ _ _ _ Hs' Hg Hf' Hj' Hj) as [? _]. done.
Qed.

Lemma writes_do_not_overlap_witness :
  ∃ wr s', WriteFile {| write_name := "bb"; write_offset := 0; write_length := 3 |} Demo.demo = Done (OK, wr, s') ∧
    ∀ pos k a, (pos, Some (k, a)) ∈ plan_bytes (write_block_info wr) →
      ∃ t, a_total (abs Demo.demo) !! k = Some t ∧ 0 ≤ a < t * FILE_BLOCK_SIZE.
Proof.
  destruct (writes_do_not_overlap Demo.demo {| write_name := "bb"; write_offset := 0; write_length := 3 |})
    as (wr & s' & E & Hin).
  - exact Demo.demo_inv.
  - rewrite Demo.demo_abs. unfold admissible, room_to_grow, added, file_at. simpl.
    split; [left; eexists; reflexivity|]. split_and!; try done. intros _. split; [done|].
    intros k t. rewrite lookup_insert_Some, lookup_singleton_Some.
    intros [[<- <-]|[_ [<- <-]]]; vm_compute; congruence.
  - exists wr, s'. split; [exact E|]. intros pos k a Hp. apply (Hin pos k a Hp).
Defined.

(** The owner of a block: a position in the block list of a file. *)
Definition owned (A : astate) (h : Z) (j : nat) (b : Z * Z) : Prop :=
  ∃ f, a_files A !! h = Some f ∧ af_blocks f !! j = Some b.

(** C15: No handler ever gives a storage block away twice.  After any session of a fresh server - writes,
    creations, removals and registrations in any admissible order - no block belongs to two files, or
    twice to one, every block of a file lies inside the region its server registered, and none is in
    the free list the server's next block is taken from. *)
Theorem blocks_never_shared `{StringHash, RandLaws} count cs :
  all_admissible empty_state cs →
  ∃ s rs s', make_service count = Done s ∧ serve_all cs s = Done (rs, s') ∧
    (∀ h h' j j' b, owned (abs s') h j b → owned (abs s') h' j' b → h = h' ∧ j = j') ∧
    (∀ h j k nr, owned (abs s') h j (k, nr) → ∃ sm, space_manager_ s' !! k = Some sm ∧
       0 ≤ nr < SpaceManager.total_blocks_ sm ∧ nr ∉ SpaceManager.free_list_ sm).
Proof.
  intros Hadm. destruct (make_service_inv count) as (s & Hmk & Hs & Habs). rewrite <- Habs in Hadm.
  pose proof (serve_all_post s cs Hs Hadm) as Hw. apply wp_done in Hw as (rs & s' & E & Hs' & _).
  exists s, rs, s'. split_and!; [done..| |].
  - intros h h' j j' b (f & Hf & Hj) (f' & Hf' & Hj'). by eapply inv_no_sharing.
  - intros h j k nr (f & Hf & Hj%list_elem_of_lookup_2). by eapply inv_not_free.
Qed.

Lemma blocks_never_shared_witness :
  ∃ s rs s', make_service 1 = Done s ∧ serve_all Demo.demo_calls s = Done (rs, s') ∧
    ∃ sm, space_manager_ s' !! 2 = Some sm ∧ 0 ∉ SpaceManager.free_list_ sm.
Proof.
  destruct (blocks_never_shared 1 Demo.demo_calls Demo.demo_admissible) as (s & rs & s' & Hmk & E & _ & Hin).
  exists s, rs, s'. split; [exact Hmk|]. split; [exact E|].
  destruct (Hin 1 1%nat 2 0) as (sm & Hsm & _ & Hfree); [|exists sm; split; [exact Hsm|exact Hfree]].
  exists (AFile 1 "a" false 2500000 [(1, 0); (2, 0); (1, 1)]). split; [|reflexivity].
  assert (Hd : s' = Demo.demo) by (unfold Demo.demo; by rewrite Hmk, E).
  rewrite Hd, Demo.demo_abs. reflexivity.
Defined.

(** C9: RemoveFile gives everything back: the name is gone, every block the file had is in the free list
    of its server, and its inode number is in the free list of the table. *)
Theorem remove_reclaims `{StringHash} s rq f :
  service_inv s → a_files (abs s) !! std_hash (remove_name rq) = Some f →
  ∃ s', RemoveFile rq s = Done (OK, {| remove_success := true |}, s') ∧ service_inv s' ∧
    a_files (abs s') = delete (std_hash (remove_name rq)) (a_files (abs s)) ∧
    (∀ k nr, (k, nr) ∈ af_blocks f →
      ∃ sm, space_manager_ s' !! k = Some sm ∧ nr ∈ SpaceManager.free_list_ sm) ∧
    af_inum f ∈ InodeTable.free_list_ (inode_table_ s').
Proof.
  intros Hs Hf. pose proof (serve_remove s rq Hs) as Hw.
  apply wp_done in Hw as ([st [b]] & s' & E & Hs' & [Hst [Hb Hset]]).
  cbn [fst snd remove_success] in Hst, Hb. subst st.
  rewrite Hf, bool_decide_true in Hb by eauto. subst b. exists s'. split; [done|]. split; [done|].
  rewrite Hset. split; [done|]. pose proof (so_fs _ (si_ok _ Hs')) as Hfs'. split.
  - intros k nr Hin. destruct (inv_in_region _ _ _ _ _ Hs Hf Hin) as (t & Ht & Hr).
    assert (a_total (abs s') !! k = Some t) as Ht' by by rewrite Hset.
    simpl in Ht'. apply lookup_fmap_Some in Ht' as (sm & <- & Hsm). exists sm. split; [done|].
    destruct (fs_spaces _ _ Hfs') as [Hsp _]. destruct (Hsp k sm Hsm) as ([_ Hinv] & _).
    destruct (proj2 (space_range sm nr Hinv) Hr) as [|Hused]; [done|]. exfalso.
    rewrite <- (used_on_inused _ _ ∅ ∅ _ _ Hfs' Hsm) in Hused.
    apply elem_of_used_on in Hused as (h & g & Hg & Hgb).
    change (a_files (abs s') !! h = Some g) in Hg. rewrite Hset in Hg. simpl in Hg.
    apply lookup_delete_Some in Hg as [Hne Hg]. apply list_elem_of_lookup in Hin as [j Hj], Hgb as [j' Hj'].
    by destruct (inv_no_sharing s _ _ _ _ _ _ _ Hs Hf Hg Hj Hj').
  - pose proof Hf as (d & i & Hd & Hi & ->)%abs_found. simpl.
    destruct (dir_entry _ (inv_dir s Hs) _ _ Hd) as (_ & Hne & _).
    pose proof (so_table _ (si_ok _ Hs)) as Hok. pose proof (so_table _ (si_ok _ Hs')) as Hok'.
    destruct (proj2 (table_numbers _ (Dentry.inum_ d) Hok')) as [|[p Hp]]; [|done|exfalso].
    + rewrite (si_inodes _ Hs'), <- (si_inodes _ Hs). apply (table_numbers _ _ Hok). right.
      apply files_Some in Hi as (p & ? & _). eauto.
    + assert (is_Some (fs s' !! Dentry.inum_ d)) as Hsome.
      { destruct (InodeTable.ok_live _ Hok' _ _ Hp) as (i' & ? & _). exists i'. apply files_Some. eauto. }
      apply abs_inum in Hsome as (h & g & Hg & Hn); [|by apply inv_dir|done].
      change (a_files (abs s') !! h = Some g) in Hg. rewrite Hset in Hg. simpl in Hg.
      apply lookup_delete_Some in Hg as [Hh (d' & i' & Hd' & _ & ->)%abs_files_Some]. simpl in Hn.
      destruct Hh. by eapply dir_inj; [apply (inv_dir s Hs)|..].
Qed.

Lemma remove_reclaims_witness :
  ∃ s', RemoveFile {| remove_name := "a"; remove_is_dir := false |} Demo.demo =
    Done (OK, {| remove_success := true |}, s') ∧ 1 ∈ InodeTable.free_list_ (inode_table_ s').
Proof.
  destruct (remove_reclaims Demo.demo {| remove_name := "a"; remove_is_dir := false |}
    (AFile 1 "a" false 2500000 [(1, 0); (2, 0); (1, 1)])) as (s' & E & _ & _ & _ & Hin).
  - exact Demo.demo_inv.
  - rewrite Demo.demo_abs. reflexivity.
  - exists s'. split; [exact E|exact Hin].
Defined.

(** C19: The block loops of ReadFile and WriteFile terminate by their own counter.  From any cursor and on
    any file, however many blocks it has, both loops over whole blocks make [c_left / FILE_BLOCK_SIZE]
    rounds, or stop earlier at a block the file does not have: with more fuel than that they have one
    result that does not depend on it, and if it is a cursor then an entry was added in each round and
    less than a block is left.  The plans built from them never run out of the fuel of the model, even
    for a length that wrapped around. *)
Theorem block_loops_terminate i c off len :
  0 ≤ c_left c < 2 ^ 64 → 0 ≤ c_block c → Inode.GetBlockNum i < 2 ^ 64 → 0 ≤ off →
  let n := c_left c / FILE_BLOCK_SIZE in
  (∃ o, (∀ fuel, n < Z.of_nat fuel → read_full_blocks fuel c i = o) ∧ counted_down n c o) ∧
  (∃ o, (∀ fuel, n < Z.of_nat fuel → write_full_blocks fuel c i = o) ∧ counted_down n c o) ∧
  read_blocks off len i ≠ Fault OutOfFuel ∧ write_blocks off len i ≠ Fault OutOfFuel.
Proof.
  intros Hc Hb Hn Ho n. pose proof FILE_BLOCK_SIZE_eq. assert (Hn0 : 0 ≤ n) by (apply Z.div_pos; lia).
  split_and!; [| |by apply read_blocks_fuel|by apply write_blocks_fuel].
  - destruct (read_full_counts (Z.to_nat n) i c) as (o & Ho1 & Ho2); [done|lia|].
    rewrite Z2Nat.id in Ho1, Ho2 by done. by exists o.
  - destruct (write_full_counts (Z.to_nat n) i c) as (o & Ho1 & Ho2); [done|done|lia|].
    rewrite Z2Nat.id in Ho1, Ho2 by done. by exists o.
Qed.

Lemma block_loops_terminate_witness :
  (∃ o, ∀ fuel, 3 < Z.of_nat fuel → read_full_blocks fuel (Cursor [] 0 4000000 0) (Inode.make REG_FILE 1) = o) ∧
  read_blocks 0 (2 ^ 64 - 1) (Inode.make REG_FILE 1) ≠ Fault OutOfFuel.
Proof.
  destruct (block_loops_terminate (Inode.make REG_FILE 1) (Cursor [] 0 4000000 0) 0 (2 ^ 64 - 1))
    as ((o & Ho & _) & _ & Hr & _).
  - simpl. lia.
  - done.
  - done.
  - done.
  - split; [exists o; exact Ho|exact Hr].
Defined.
