(* ===== verification/MetaFaults.v ===== *)
(** * The requests the metadata service does not survive, and the states it does not repair.

    Each theorem runs a handler from a well-formed state on a request outside [admissible] and says
    what the code does with it. *)
From S2P Require Import Prelude FsInode IdPool FsTable FsFiles FsSpace MetaProto MetaServer MetaPlan.
From S2P Require Import MetaInv MetaSteps MetaHandlers MetaRpc MetaSpec MetaRefine MetaFacts.
Local Open Scope Z_scope.
#[local] Existing Instances Demo.demo_hash Demo.demo_rand Demo.demo_rand_laws InodeTable.InodeTable_mutex.

(** ** Running a handler up to the point where it fails *)

Section runs.
Context `{StringHash}.
Implicit Types (s : MetadataServiceImpl) (i : Inode).

Lemma wp_run {S A} (m : M S A) (s s' : S) a : wp m (λ x t, x = a ∧ t = s') s → m s = Done (a, s').
Proof. intros Hw. apply wp_done in Hw as (? & ? & -> & -> & ->). done. Qed.

Lemma run_GetInode s n p i : InodeTable.table_ok (inode_table_ s) → points s n p i →
  GetInode n s = Done (Some p, s).
Proof.
  intros Hok Hp. apply wp_run. pose proof (points_fs _ _ _ _ Hp) as Hn.
  eapply wp_svc_GetInode; [done..|]. intros q [Hq _]. destruct Hp. split; [congruence|done].
Qed.

Lemma run_read_inode {A} s n p i (f : Inode → A) : points s n p i →
  on_inode (Some p) (gets f) s = Done (f i, s).
Proof. intros Hp. apply wp_run. by eapply wp_read_inode. Qed.

(** Every handler starts at its root directory. *)
Lemma run_root s : service_ok s →
  ∃ p r, points s ROOT_INUM p r ∧ dir (fs s) = Inode.children_ r ∧
    GetInode ROOT_INUM s = Done (Some p, s).
Proof.
  intros [Hok _ Hfs]. destruct (dir_root _ (fs_dir _ _ Hfs)) as (r & Hr & _).
  destruct (fs_points _ _ _ Hr) as [p Hp]. exists p, r. split_and!; [done| |].
  - unfold dir. by rewrite Hr.
  - by eapply run_GetInode.
Qed.

Lemma run_gets {A B} s (f : MetadataServiceImpl → A) (k : A → Srv B) : (gets f ≫= k) s = k (f s) s.
Proof. done. Qed.
End runs.

(** A method that fails makes the call fail. *)
Lemma on_inode_fault {A} s n p i (m : M Inode A) f : points s n p i → m i = Fault f →
  on_inode (Some p) m s = Fault f.
Proof.
  intros [_ Hp] Hm. unfold on_inode, zoom, InodeTable.on_inode, mbind, M_bind, gets. simpl.
  rewrite Hp. simpl. by rewrite Hm.
Qed.

(** ** Reads outside the file *)

(** The loop over whole blocks leaves the bounds of the block list before it runs out of bytes. *)
Lemma read_full_overrun fuel i c :
  0 ≤ c_block c < 2 ^ 63 → c_left c < 2 ^ 64 → 0 < Z.of_nat fuel →
  Inode.GetBlockNum i < 2 ^ 63 → Inode.GetBlockNum i - c_block c < Z.of_nat fuel →
  (Z.max 0 (Inode.GetBlockNum i - c_block c) + 1) * FILE_BLOCK_SIZE ≤ c_left c →
  read_full_blocks fuel c i = Fault OutOfRange.
Proof.
  pose proof FILE_BLOCK_SIZE_eq. unfold Inode.GetBlockNum. revert c.
  induction fuel as [|fuel IH]; intros c Hb Hl Hpos Hn Hf Hover; [lia|]. simpl.
  rewrite (proj2 (Z.leb_le _ _)) by lia.
  destruct (Inode.block_info_list_ i !! Z.to_nat (c_block c)) as [b|] eqn:Hlk.
  - pose proof (lookup_lt_Some _ _ _ Hlk). rewrite (outcome_bind_done _ _ _ _ _ (GetBlockInfo_run _ _ _ Hlk)).
    apply IH; simpl; rewrite ?u64_small; lia.
  - by rewrite (outcome_bind_fault _ _ _ _ (GetBlockInfo_out _ _ Hlk)).
Qed.

Lemma read_blocks_overrun i off size :
  0 ≤ size < off → off < 2 ^ 64 → Inode.GetBlockNum i ≤ 2 ^ 40 →
  read_blocks off (2 ^ 64 + size - off) i = Fault OutOfRange.
Proof.
  intros Ho Hmax Hn. pose proof FILE_BLOCK_SIZE_eq as HBS. unfold read_blocks.
  assert (Hq : 0 ≤ off / FILE_BLOCK_SIZE) by (apply Z.div_pos; lia).
  assert (Hq2 : off / FILE_BLOCK_SIZE < 2 ^ 44) by (apply Z.div_lt_upper_bound; lia).
  pose proof (Z.div_mod off FILE_BLOCK_SIZE ltac:(lia)) as Hdm.
  pose proof (Z.mod_pos_bound off FILE_BLOCK_SIZE ltac:(lia)) as Hm.
  assert (Hloop : ∀ c, 0 ≤ c_block c < 2 ^ 63 → c_left c < 2 ^ 64 →
    (Z.max 0 (Inode.GetBlockNum i - c_block c) + 1) * FILE_BLOCK_SIZE ≤ c_left c →
    (fuel ← gets block_fuel; c2 ← read_full_blocks fuel c; read_last_block c2) i = Fault OutOfRange).
  { intros c H1 H2 H3. rewrite (outcome_bind_done _ _ _ (block_fuel i) i eq_refl).
    apply outcome_bind_fault, read_full_overrun; unfold block_fuel, Inode.GetBlockNum in *; lia. }
  set (c0 := Cursor [] 0 (2 ^ 64 + size - off) (off / FILE_BLOCK_SIZE)).
  unfold read_first_block. rewrite FILE_BLOCK_MASK_mod.
  destruct (Z.eqb_spec (off `mod` FILE_BLOCK_SIZE) 0) as [He|Hne]; cbn [negb].
  - rewrite (outcome_bind_done _ _ _ c0 i eq_refl). apply Hloop; simpl; [lia|lia|]. nia.
  - destruct (Inode.block_info_list_ i !! Z.to_nat (off / FILE_BLOCK_SIZE)) as [b|] eqn:Hlk.
    + pose proof (lookup_lt_Some _ _ _ Hlk) as Hlt.
      erewrite outcome_bind_done; [|by rewrite (outcome_bind_done _ _ _ _ _ (GetBlockInfo_run (c_block c0) _ _ Hlk))].
      rewrite (u64_small (FILE_BLOCK_SIZE - _)) by lia. unfold Inode.GetBlockNum in *.
      rewrite Z.min_l by (simpl; nia). apply Hloop; simpl; rewrite ?u64_small by nia; unfold Inode.GetBlockNum; nia.
    + apply outcome_bind_fault. by rewrite (outcome_bind_fault _ _ _ _ (GetBlockInfo_out (c_block c0) _ Hlk)).
Qed.

(** ReadFile of a name that does not exist dereferences a null entry: the null test and its CANCELLED
    reply come after the first use of the pointer. *)
Theorem read_of_missing_file_faults `{StringHash} s rq :
  service_ok s → dir (fs s) !! std_hash (read_name rq) = None → ReadFile rq s = Fault NullDeref.
Proof.
  intros Hs Hd. unfold ReadFile. destruct (run_root s Hs) as (p & r & Hp & Hdir & E).
  rewrite (outcome_bind_done _ _ _ _ _ E). erewrite outcome_bind_done; [|by eapply run_read_inode].
  unfold Inode.GetDentry. rewrite <- Hdir, Hd. done.
Qed.

Lemma read_of_missing_file_faults_witness :
  ReadFile {| read_name := "nothing"; read_offset := 0; read_length := 1 |} Demo.demo = Fault NullDeref.
Proof.
  apply read_of_missing_file_faults; [exact (si_ok _ Demo.demo_inv)|]. vm_compute. reflexivity.
Defined.

(** C30: A read that starts past the end of the file is not refused: the clipped length is
    size - offset computed on unsigned integers, which wraps around, and the handler then reads
    past the end of the block list. *)
Theorem read_past_end_overruns `{StringHash} s rq d i :
  service_ok s → dir (fs s) !! std_hash (read_name rq) = Some d → fs s !! Dentry.inum_ d = Some i →
  Inode.size_ i < read_offset rq → 0 ≤ read_length rq → read_offset rq + read_length rq < 2 ^ 64 →
  Inode.GetBlockNum i ≤ 2 ^ 40 →
  ReadFile rq s = Fault OutOfRange.
Proof.
  intros Hs Hd Hi Hoff Hlen Hend Hblocks. pose proof Hs as [Hok _ Hfs].
  destruct (fs_inode _ _ Hfs _ _ Hi) as (_ & Hsize & _).
  unfold ReadFile. destruct (run_root s Hs) as (p & r & Hp & Hdir & E).
  rewrite (outcome_bind_done _ _ _ _ _ E).
  erewrite outcome_bind_done; [|by eapply run_read_inode].
  unfold Inode.GetDentry. rewrite <- Hdir, Hd.
  destruct (fs_points _ _ _ Hi) as [q Hq].
  rewrite (outcome_bind_done _ _ _ (Dentry.inum_ d) s eq_refl).
  rewrite (outcome_bind_done _ _ _ _ _ (run_GetInode _ _ _ _ Hok Hq)).
  unfold read_inode. rewrite decide_False by done. rewrite (outcome_bind_done _ _ _ tt s eq_refl).
  erewrite outcome_bind_done; [|by eapply run_read_inode]. apply outcome_bind_fault.
  eapply on_inode_fault; [done|]. unfold clip, Inode.GetSize.
  rewrite (u64_small (read_offset rq + _)), (proj2 (Z.ltb_lt _ _)), u64_neg by lia.
  rewrite <- (read_blocks_overrun i (read_offset rq) (Inode.size_ i)) by lia. f_equal. lia.
Qed.

Lemma read_past_end_overruns_witness :
  ReadFile {| read_name := "a"; read_offset := 3000000; read_length := 10 |} Demo.demo = Fault OutOfRange.
Proof.
  eapply read_past_end_overruns; [exact (si_ok _ Demo.demo_inv)|vm_compute; reflexivity|
    vm_compute; reflexivity|vm_compute; congruence..].
Defined.

(** ** Writes without room *)

Section no_room.
Context `{StringHash, Rand}.

(** A write that must grow an existing file starts with the allocation of a block. *)
Lemma write_needs_block s rq d i f :
  service_ok s → dir (fs s) !! std_hash (write_name rq) = Some d → fs s !! Dentry.inum_ d = Some i →
  0 ≤ write_offset rq → 0 ≤ write_length rq → write_offset rq + write_length rq + FILE_BLOCK_SIZE ≤ 2 ^ 64 →
  0 < blocks_added (Inode.GetBlockNum i) (write_offset rq) (write_length rq) < 2 ^ 31 →
  (∀ p, append_block p s = Fault f) → WriteFile rq s = Fault f.
Proof.
  intros Hs Hd Hi Ho Hl He Hadd Hf. pose proof Hs as [Hok _ Hfs].
  unfold WriteFile. destruct (run_root s Hs) as (p & r & Hp & Hdir & E).
  rewrite (outcome_bind_done _ _ _ _ _ E).
  erewrite outcome_bind_done; [|by eapply run_read_inode].
  unfold Inode.GetDentry at 1. rewrite <- Hdir, Hd.
  unfold Inode.GetDentry at 1. rewrite <- Hdir, Hd.
  destruct (fs_points _ _ _ Hi) as [q Hq].
  rewrite (outcome_bind_done _ _ _ (Some d) s eq_refl).
  rewrite (outcome_bind_done _ _ _ (Dentry.inum_ d) s eq_refl).
  rewrite (outcome_bind_done _ _ _ _ _ (run_GetInode _ _ _ _ Hok Hq)).
  unfold write_inode. erewrite outcome_bind_done; [|by eapply run_read_inode].
  destruct (blocks_needed_spec (write_offset rq) (write_length rq)); [done..|].
  assert (0 ≤ Inode.GetBlockNum i) by (unfold Inode.GetBlockNum; lia).
  unfold blocks_added in Hadd.
  rewrite (proj2 (Z.ltb_lt _ _)), (u64_small (blocks_needed _ _ - _)), s32_small by lia.
  destruct (Z.to_nat _) as [|m] eqn:Em; [lia|]. apply outcome_bind_fault. simpl. apply outcome_bind_fault, Hf.
Qed.
End no_room.

(** Before any storage server has registered, a write that needs a block divides by zero: randInt is
    called with the number of servers. *)
Theorem write_without_servers_faults `{StringHash, Rand} s rq d i :
  service_ok s → dir (fs s) !! std_hash (write_name rq) = Some d → fs s !! Dentry.inum_ d = Some i →
  0 ≤ write_offset rq → 0 ≤ write_length rq → write_offset rq + write_length rq + FILE_BLOCK_SIZE ≤ 2 ^ 64 →
  0 < blocks_added (Inode.GetBlockNum i) (write_offset rq) (write_length rq) < 2 ^ 31 →
  space_manager_ s = ∅ → WriteFile rq s = Fault DivByZero.
Proof.
  intros Hs Hd Hi Ho Hl He Hadd Hsp. eapply write_needs_block; [done..|]. intros p.
  unfold append_block. by rewrite run_gets, Hsp.
Qed.

Definition no_servers : MetadataServiceImpl :=
  match make_service 1 with
  | Done s => match CreateFile {| create_name := "a"; create_is_dir := false |} s with
              | Done (_, s') => s' | Fault _ => s end
  | Fault _ => Demo.demo
  end.

Lemma no_servers_ok : service_ok no_servers.
Proof.
  unfold no_servers. destruct (make_service_inv 1) as (s & -> & Hs & Habs).
  assert (Hadm : admissible (abs s) (CCreate {| create_name := "a"; create_is_dir := false |})).
  { rewrite Habs. right. done. }
  pose proof (serve_create s _ Hs Hadm) as Hw. apply wp_done in Hw as (a & s' & -> & Hs' & _). apply Hs'.
Qed.

Lemma write_without_servers_faults_witness :
  WriteFile {| write_name := "a"; write_offset := 0; write_length := 1 |} no_servers = Fault DivByZero.
Proof.
  eapply write_without_servers_faults; [exact no_servers_ok|vm_compute; reflexivity|vm_compute; reflexivity|..];
    try (vm_compute; congruence). split; vm_compute; reflexivity.
Defined.

(** A write that needs a block when the server [rand()] picks has none calls top() on an empty heap:
    the handler does not check the room left, on that server or on any other. *)
Theorem write_without_room_faults `{StringHash, RandLaws} s rq d i :
  service_ok s → dir (fs s) !! std_hash (write_name rq) = Some d → fs s !! Dentry.inum_ d = Some i →
  0 ≤ write_offset rq → 0 ≤ write_length rq → write_offset rq + write_length rq + FILE_BLOCK_SIZE ≤ 2 ^ 64 →
  0 < blocks_added (Inode.GetBlockNum i) (write_offset rq) (write_length rq) < 2 ^ 31 →
  space_manager_ s ≠ ∅ →
  (∀ sm, space_manager_ s !! pick_server (map_keys (space_manager_ s)) 0
      (rand (rand_calls s) `mod` Z.of_nat (size (space_manager_ s))) = Some sm →
    SpaceManager.free_list_ sm = []) →
  WriteFile rq s = Fault EmptyTop.
Proof.
  intros Hs Hd Hi Ho Hl He Hadd Hsp Hempty. eapply write_needs_block; [done..|]. intros p.
  destruct Hs as [_ _ Hfs]. destruct (fs_spaces _ _ Hfs) as [Hspm Hsz].
  assert (Hpos : 0 < Z.of_nat (size (space_manager_ s))).
  { assert (size (space_manager_ s) ≠ 0%nat); [|lia]. by intros ?%map_size_empty_inv. }
  unfold append_block. rewrite run_gets, s32_small by lia.
  pose proof (rand_nonneg (rand_calls s)).
  unfold randInt, mbind at 1, M_bind at 1. rewrite (proj2 (Z.eqb_neq _ _)) by lia.
  rewrite Z.rem_mod_nonneg by lia. rewrite run_gets. cbn [space_manager_].
  set (x := rand (rand_calls s) `mod` Z.of_nat (size (space_manager_ s))) in *.
  destruct (pick_server_key (space_manager_ s) x) as [sm Hsm]; [by apply Z.mod_pos_bound|].
  apply outcome_bind_fault. unfold on_space. cbn [space_manager_]. rewrite Hsm.
  rewrite AllocateOneBlock_empty; [done| |by apply Hempty]. by destruct (Hspm _ _ Hsm) as ([? _] & _).
Qed.

(** A server with one block, which the file "a" has. *)
Definition no_room_calls : list call :=
  [ CRegister {| nodeid := 1; addr := 0; region_length := FILE_BLOCK_SIZE |};
    CWrite {| write_name := "a"; write_offset := 0; write_length := 1 |} ].

Definition no_room_state : MetadataServiceImpl :=
  match make_service 1 with
  | Done s => match serve_all no_room_calls s with Done (_, s') => s' | Fault _ => s end
  | Fault _ => Demo.demo
  end.

Lemma no_room_ok : service_inv no_room_state.
Proof.
  unfold no_room_state. destruct (make_service_inv 1) as (s & -> & Hs & Habs).
  assert (Hadm : all_admissible (abs s) no_room_calls).
  { rewrite Habs. split; [by split_and!|].
    intros r A1 [_ Hp]. destruct (r.2); try done. destruct Hp as (st & Hst & Hr & ->). simpl in *.
    apply Demo.aligned_zero in Hst as ->; [|done]. split; [|done].
    unfold room_for, room_to_grow, added, file_at. simpl. split_and!; try done; [by right|].
    intros _. split; [done|]. intros k t. rewrite lookup_insert_Some, lookup_empty.
    intros [[<- <-]|[_ ?]]; [vm_compute; congruence|done]. }
  pose proof (serve_all_post s no_room_calls Hs Hadm) as Hw. by apply wp_done in Hw as (a & s' & -> & Hs' & _).
Qed.

Lemma write_without_room_faults_witness :
  WriteFile {| write_name := "a"; write_offset := FILE_BLOCK_SIZE; write_length := 1 |} no_room_state =
    Fault EmptyTop.
Proof.
  eapply write_without_room_faults; [exact (si_ok _ no_room_ok)|vm_compute; reflexivity|vm_compute; reflexivity|..];
    try (vm_compute; congruence).
  - split; vm_compute; reflexivity.
  - intros sm. vm_compute. intros [= <-]. reflexivity.
Defined.

(** ** Calls that return and do harm *)

(** C31: A write that ends before the end of the file truncates it: the new size is offset + length, and
    the blocks behind it stay allocated to the file. *)
Theorem write_truncates `{StringHash, RandLaws} s w f :
  service_inv s → admissible (abs s) (CWrite w) → a_files (abs s) !! std_hash (write_name w) = Some f →
  write_offset w + write_length w < af_size f →
  ∃ wr s', WriteFile w s = Done (OK, wr, s') ∧
    a_files (abs s') !! std_hash (write_name w) =
      Some (AFile (af_inum f) (af_name f) (af_dir f) (write_offset w + write_length w) (af_blocks f)).
Proof.
  intros Hs Hadm Hf Hlt. pose proof (serve_write s w Hs Hadm) as Hw.
  apply wp_done in Hw as ([st wr] & s' & E & Hs' & [Hst Hp]). cbn [fst snd] in Hst, Hp. subst st.
  exists wr, s'. split; [done|]. destruct Hp as (g & news & Htgt & -> & Hnum & _).
  destruct Htgt as [Hg|[Hg _]]; [|congruence]. assert (g = f) as -> by congruence.
  assert (news = []) as ->.
  { destruct Hadm as (_ & Ho & Hl & He & _). unfold added, file_at in Hnum. rewrite Hf in Hnum. simpl in Hnum.
    destruct (blocks_needed_spec (write_offset w) (write_length w)); [done..|].
    pose proof Hf as (d & i & Hd & Hi & ->)%abs_found.
    destruct (fs_inode _ _ (so_fs _ (si_ok _ Hs)) _ _ Hi) as (_ & _ & Hcov). simpl in *.
    pose proof FILE_BLOCK_SIZE_eq. unfold Inode.GetBlockNum, blocks_added in *. rewrite length_fmap in Hnum.
    destruct news; [done|]. simpl in Hnum. nia. }
  rewrite app_nil_r. simpl. apply lookup_insert_eq.
Qed.

Lemma write_truncates_witness :
  ∃ wr s', WriteFile {| write_name := "a"; write_offset := 0; write_length := 1 |} Demo.demo = Done (OK, wr, s') ∧
    a_files (abs s') !! 1 = Some (AFile 1 "a" false 1 [(1, 0); (2, 0); (1, 1)]).
Proof.
  destruct (write_truncates Demo.demo {| write_name := "a"; write_offset := 0; write_length := 1 |}
    (AFile 1 "a" false 2500000 [(1, 0); (2, 0); (1, 1)])) as (wr & s' & E & Hf).
  - exact Demo.demo_inv.
  - rewrite Demo.demo_abs. unfold admissible, room_to_grow, added, file_at. simpl.
    split; [left; eexists; reflexivity|]. split_and!; try done.
  - rewrite Demo.demo_abs. reflexivity.
  - done.
  - exists wr, s'. split; [exact E|exact Hf].
Defined.

Lemma list_dentries_dangling l s d :
  InodeTable.table_ok (inode_table_ s) → d ∈ l → fs s !! Dentry.inum_ d = None →
  list_dentries l s = Fault NullDeref.
Proof.
  intros Hok Hin Hd. induction l as [|d' l IH]; [by apply not_elem_of_nil in Hin|]. simpl.
  destruct (fs s !! Dentry.inum_ d') as [i|] eqn:Hi.
  - apply elem_of_cons in Hin as [->|Hin]; [congruence|]. destruct (fs_points _ _ _ Hi) as [p Hp].
    erewrite outcome_bind_done.
    2:{ apply wp_run. unfold list_dentry. wp_auto. eapply wp_svc_GetInode; [done..|]. intros q Hq.
        do 2 (wp_auto; eapply wp_read_inode; [done|]). wp_auto. split; reflexivity. }
    by rewrite (outcome_bind_fault _ _ _ _ (IH Hin)).
  - apply outcome_bind_fault. unfold list_dentry.
    rewrite (outcome_bind_done _ _ _ None (update table (update mutex true (inode_table_ s)) s)); [done|].
    unfold GetInode, zoom. simpl. rewrite GetInode_missing; [done|apply Hok|]. by apply files_None.
Qed.

(** With the inode table full, CreateFile still answers OK: it enters the name in the directory with
    an inode number no inode has, and from then on listing the directory dereferences a null inode. *)
Theorem create_in_full_table `{StringHash} s rq ls :
  service_ok s → table_full s → dir (fs s) !! std_hash (create_name rq) = None →
  ∃ s', CreateFile rq s =
      Done (OK, {| create_inum := InodeTable.total_size_ (inode_table_ s) + 1 |}, s') ∧
    fs s' !! (InodeTable.total_size_ (inode_table_ s) + 1) = None ∧
    ReadDirectory ls s' = Fault NullDeref.
Proof.
  intros Hs Hfull Hd. pose proof Hs as [Hok _ Hfs]. set (n := InodeTable.total_size_ (inode_table_ s) + 1).
  assert (Hn : fs s !! n = None).
  { apply files_None; [done|]. apply eq_None_not_Some. intros Hsome.
    pose proof (proj1 (table_numbers _ n Hok) (or_intror Hsome)). lia. }
  assert (Hw : wp (CreateFile rq) (λ a s', a = (OK, {| create_inum := n |}) ∧ ∃ r, fs s !! ROOT_INUM = Some r ∧
    upd s s' (<[ROOT_INUM := add_child (std_hash (create_name rq)) (Dentry.make (create_name rq) n) r]> (fs s))
      (space_manager_ s)) s).
  { apply wp_root; [done|]. intros p r Hr Hdir. rewrite Hdir in Hd.
    apply wp_bind. eapply wp_read_inode; [done|]. unfold Inode.GetDentry. rewrite Hd.
    assert (Hgo : ∀ ty, wp (zoom table (InodeTable.AllocateFreeInode ty)) (λ m t, m = n ∧ t = s) s).
    { intros ty. by apply wp_alloc_full. }
    apply wp_bind. apply wp_mono with (Q := λ m t, m = n ∧ t = s).
    { destruct (create_is_dir rq); apply Hgo. }
    intros m t [-> ->]. apply wp_bind. eapply wp_write_inode; [done..|].
    apply wp_AddDentry; [done|]. split; [done|]. intros s' U. wp_auto. split; [done|].
    exists r. split; [by eapply points_fs|done]. }
  apply wp_done in Hw as (a & s' & E & -> & r & Hr & U). exists s'. split; [done|].
  assert (Hroot : n ≠ ROOT_INUM) by congruence.
  assert (Hn' : fs s' !! n = None) by (rewrite (upd_files _ _ _ _ U), lookup_insert_ne; done).
  split; [done|]. pose proof (upd_ok _ _ _ _ U) as Hok'.
  destruct (fs_points s' ROOT_INUM _ ltac:(rewrite (upd_files _ _ _ _ U); apply lookup_insert_eq)) as [p Hp].
  unfold ReadDirectory. rewrite (outcome_bind_done _ _ _ _ _ (run_GetInode _ _ _ _ Hok' Hp)).
  erewrite outcome_bind_done; [|by eapply run_read_inode].
  apply outcome_bind_fault. apply (list_dentries_dangling _ _ (Dentry.make (create_name rq) n)); [done| |done].
  apply list_elem_of_fmap. exists (std_hash (create_name rq), Dentry.make (create_name rq) n).
  split; [done|]. apply elem_of_map_to_list. simpl. apply lookup_insert_eq.
Qed.

(** A table of one inode is full from the start. *)
Definition tiny_service : MetadataServiceImpl :=
  match InodeTable.make 1 with
  | Done t => Service 1 t ∅ (FileMap.make 100) 1 0
  | Fault _ => Demo.demo
  end.

Lemma tiny_service_ok : service_ok tiny_service.
Proof.
  destruct (make_service_ok 1) as (s & Hmk & [_ Hfds Hfs] & Hf & Hsp & _).
  destruct (make_run 1) as (t & E & Hok & Hft & _); [done|]. unfold tiny_service. rewrite E.
  assert (fs (Service 1 t ∅ (FileMap.make 100) 1 0) = fs s) as Heq by (rewrite Hf; exact Hft).
  split; [exact Hok|apply fds_make_ok; done|]. rewrite Heq. rewrite Hsp in Hfs. exact Hfs.
Qed.

Lemma create_in_full_table_witness :
  ∃ s', CreateFile {| create_name := "a"; create_is_dir := false |} tiny_service =
      Done (OK, {| create_inum := 2 |}, s') ∧ ReadDirectory {| path := "/" |} s' = Fault NullDeref.
Proof.
  destruct (create_in_full_table tiny_service {| create_name := "a"; create_is_dir := false |} {| path := "/" |})
    as (s' & E & _ & Hl); [exact tiny_service_ok|reflexivity|vm_compute; reflexivity|].
  exists s'. split; [exact E|exact Hl].
Defined.

(** C32: Registering a server again while files have blocks on it makes those blocks free again: the next
    allocations give them to other files. *)
Theorem reregistration_frees_used_blocks `{StringHash} s rq h f nr :
  service_inv s → 0 ≤ nodeid rq < 2 ^ 31 → 0 ≤ addr rq → FILE_BLOCK_SIZE ≤ region_length rq < 2 ^ 64 →
  addr rq + region_length rq ≤ 2 ^ 64 →
  a_files (abs s) !! h = Some f → (nodeid rq, nr) ∈ af_blocks f →
  0 ≤ nr < SpaceManager.total_blocks_ (region_space rq) →
  ∃ s' sm, RegisterMemoryRegion rq s = Done (OK, {| register_success := false |}, s') ∧
    a_files (abs s') !! h = Some f ∧ space_manager_ s' !! nodeid rq = Some sm ∧
    nr ∈ SpaceManager.free_list_ sm.
Proof.
  intros Hs Hn Ha Hl He Hf Hb Hr. do 2 eexists. split; [reflexivity|]. split; [exact Hf|].
  rewrite s32_small by lia. split; [apply lookup_insert_eq|]. fold (region_space rq).
  destruct (make_spec 20 (addr rq) (region_length rq) (nodeid rq)) as ([_ Hinv] & Hu & _);
    [lia|done|exact Hl|done|]. change (2 ^ 20) with FILE_BLOCK_SIZE in *. fold (region_space rq) in Hinv, Hu.
  destruct (proj2 (space_range _ nr Hinv) Hr) as [|Hin]; [done|]. rewrite Hu in Hin. set_solver.
Qed.

Lemma reregistration_frees_used_blocks_witness :
  ∃ s' sm, RegisterMemoryRegion {| nodeid := 1; addr := 0; region_length := 8 * FILE_BLOCK_SIZE |} Demo.demo =
      Done (OK, {| register_success := false |}, s') ∧
    a_files (abs s') !! 1 = Some (AFile 1 "a" false 2500000 [(1, 0); (2, 0); (1, 1)]) ∧
    space_manager_ s' !! 1 = Some sm ∧ 0 ∈ SpaceManager.free_list_ sm.
Proof.
  destruct (reregistration_frees_used_blocks Demo.demo
    {| nodeid := 1; addr := 0; region_length := 8 * FILE_BLOCK_SIZE |}
    1 (AFile 1 "a" false 2500000 [(1, 0); (2, 0); (1, 1)]) 0) as (s' & sm & E & Hf & Hsm & Hin).
  - exact Demo.demo_inv.
  - cbn [nodeid]. lia.
  - cbn [addr]. lia.
  - split; vm_compute; congruence.
  - vm_compute. congruence.
  - rewrite Demo.demo_abs. reflexivity.
  - apply list_elem_of_here.
  - split; vm_compute; congruence.
  - exists s', sm. split; [exact E|]. split; [exact Hf|]. split; [exact Hsm|exact Hin].
Defined.
