(* ===== verification/Rdma.v ===== *)
(** * RDMA transfers: the data plane of [class RdmaSocket], src/net/RdmaSocket.cpp.

    The verbs library (libibverbs) is not part of the program: it is the class [Verbs], an argument
    of every definition that posts or polls.  A memory is a function from addresses to bytes; the
    memory of the process is reached through the device, which reads and writes it too.  Timing
    statistics and diagnostics are left out. *)
From S2P Require Import Prelude.
Local Open Scope Z_scope.

Definition MAX_POST_LIST : Z := 24.
Definition QPS_MAX_DEPTH : Z := 128.
Definition SIGNAL_BATCH : Z := 31.
Definition WORKER_NUMBER : Z := 2.
Definition QP_NUMBER : Z := 1 + WORKER_NUMBER.

(** ** The verbs library *)

Definition mem : Type := Z → Z.

(** [memcpy]: [n] bytes from [s] of [src] to [d] of [dst]. *)
Definition copy (src : mem) (s : Z) (dst : mem) (d n : Z) : mem := λ a,
  if (d <=? a) && (a <? d + n) then src (s + (a - d)) else dst a.

Inductive ibv_wr_opcode :=
  | IBV_WR_SEND_WITH_IMM | IBV_WR_RDMA_READ | IBV_WR_RDMA_WRITE | IBV_WR_RDMA_WRITE_WITH_IMM
  | IBV_WR_ATOMIC_FETCH_AND_ADD | IBV_WR_ATOMIC_CMP_AND_SWP.

#[export] Instance opcode_eq_dec : EqDecision ibv_wr_opcode.
Proof. solve_decision. Defined.

Record ibv_sge := Sge { sge_addr : Z; sge_length : Z; sge_lkey : Z }.

Record ibv_send_wr := SendWr {
  wr_id : Z;
  sg_list : ibv_sge;
  opcode : ibv_wr_opcode;
  signaled : bool;
  imm_data : Z;
  remote_addr : Z;
  wr_rkey : Z;
  compare_add : Z;
  swap : Z;
}.

Record ibv_recv_wr := RecvWr { recv_sg_list : ibv_sge }.

Record ibv_wc := Wc { wc_status : Z }.
Definition IBV_WC_SUCCESS : Z := 0.

(** A declared [struct ibv_wc] before the library has filled it. *)
Definition uninit_wc : ibv_wc := Wc (-1).

(** A pointer member that the constructor does not set is garbage until it is assigned. *)
Inductive slot (A : Type) := Garbage | Null | Ptr (a : A).
Arguments Garbage {A}.
Arguments Null {A}.
Arguments Ptr {A} a.

Definition slot_of {A} (o : option A) : slot A := match o with Some a => Ptr a | None => Null end.

(** [if (p)] *)
Definition test_slot {S A} (p : slot A) : M S (option A) :=
  match p with
  | Garbage => fail Uninit
  | Null => mret None
  | Ptr a => mret (Some a)
  end.

(** Using a pointer member: [mr->rkey], or [ctx] as an argument. *)
Definition deref_slot {S A} (p : slot A) : M S A :=
  match p with
  | Garbage => fail Uninit
  | Null => fail NullDeref
  | Ptr a => mret a
  end.

Class Verbs (Dev : Type) := {
  host : lens Dev mem;                                       (* the memory of the process *)
  ibv_post_send : Z → list ibv_send_wr → M Dev Z;            (* queue pair, chain of requests *)
  ibv_post_recv : Z → list ibv_recv_wr → M Dev Z;
  ibv_poll_cq : Z → Z → ibv_wc → M Dev (Z * ibv_wc);         (* queue, entries, first entry *)
}.

(** ** Sockets *)

Record PeerSockData := Peer {
  qp : list Z;
  peer_cq : Z;
  qpNum : list Z;
  RegisteredMemory : Z;
  peer_rkey : Z;
  peer_lid : Z;
  peer_gid : list Z;
  peer_sock : Z;
  peer_NodeID : Z;
  counter : Z;
}.

Record TransferTask := Task {
  OpType : bool;
  task_NodeID : Z;
  task_size : Z;
  bufferSend : Z;
  bufferReceive : Z;
}.

Section socket.
Context {Dev : Type} `{Verbs Dev}.

Record RdmaSocket := Socket {
  peers : gmap Z PeerSockData;     (* an index that is absent is a null pointer *)
  cq : list Z;
  isServer : bool;
  MyNodeID : Z;
  mm : Z;
  mr : slot (Z * Z);               (* lkey, rkey *)
  TransferSignal : Z;
  WriteSize : list Z;
  ReadSize : list Z;
  WriteTest : option bool;         (* [None]: not given a value yet *)
  dev : Dev;
}.

Abbreviation Sock := (M RdmaSocket).

Definition device : lens RdmaSocket Dev := Lens dev (λ d s,
  Socket (peers s) (cq s) (isServer s) (MyNodeID s) (mm s) (mr s) (TransferSignal s)
         (WriteSize s) (ReadSize s) (WriteTest s) d).
Definition set_peer (n : Z) (p : PeerSockData) (s : RdmaSocket) : RdmaSocket :=
  Socket (<[n := p]> (peers s)) (cq s) (isServer s) (MyNodeID s) (mm s) (mr s)
         (TransferSignal s) (WriteSize s) (ReadSize s) (WriteTest s) (dev s).
Definition set_signal (n : Z) (s : RdmaSocket) : RdmaSocket :=
  Socket (peers s) (cq s) (isServer s) (MyNodeID s) (mm s) (mr s) n
         (WriteSize s) (ReadSize s) (WriteTest s) (dev s).
Definition set_sizes (w r : list Z) (s : RdmaSocket) : RdmaSocket :=
  Socket (peers s) (cq s) (isServer s) (MyNodeID s) (mm s) (mr s) (TransferSignal s)
         w r (WriteTest s) (dev s).
Definition set_test (b : option bool) (s : RdmaSocket) : RdmaSocket :=
  Socket (peers s) (cq s) (isServer s) (MyNodeID s) (mm s) (mr s) (TransferSignal s)
         (WriteSize s) (ReadSize s) b (dev s).

(** [peers[NodeID]->]: the array has 1000 entries and the index is a [uint16_t]. *)
Definition peer_at (NodeID : Z) : Sock PeerSockData :=
  if NodeID <? 1000 then
    ps ← gets peers;
    or_fault NullDeref (ps !! NodeID)
  else fail OutOfRange.

(** [mr->lkey] *)
Definition local_key : Sock Z :=
  s ← get;
  m ← deref_slot (mr s);
  mret m.1.

Definition memcpy (dst src n : Z) : Sock unit :=
  zoom device (modify (λ d, update host (copy (view host d) src (view host d) dst n) d)).

Definition post_send (q : Z) (wrs : list ibv_send_wr) : Sock bool :=
  r ← zoom device (ibv_post_send q wrs);
  mret (r =? 0).
Definition post_recv (q : Z) (wrs : list ibv_recv_wr) : Sock bool :=
  r ← zoom device (ibv_post_recv q wrs);
  mret (r =? 0).

(** ** Polling *)

(** [do count += ibv_poll_cq(...) while (count < PollNumber)] *)
Fixpoint poll_loop (fuel : nat) (q PollNumber count : Z) (wc : ibv_wc) : Sock (Z * ibv_wc) :=
  match fuel with
  | O => fail OutOfFuel
  | S fuel =>
      r ← zoom device (ibv_poll_cq q 1 wc);
      let count := s32 (count + r.1) in
      if count <? PollNumber then poll_loop fuel q PollNumber count r.2
      else mret (count, r.2)
  end.

Definition check_status (r : Z * ibv_wc) : Z * ibv_wc :=
  if r.1 <? 0 then (-1, r.2)
  else if negb (wc_status r.2 =? IBV_WC_SUCCESS) then (-1, r.2)
  else r.

Definition PollCompletion (fuel : nat) (NodeID PollNumber : Z) (wc : ibv_wc) : Sock (Z * ibv_wc) :=
  p ← peer_at NodeID;
  r ← poll_loop fuel (peer_cq p) PollNumber 0 wc;
  mret (check_status r).

Definition PollWithCQ (fuel : nat) (cqPtr PollNumber : Z) (wc : ibv_wc) : Sock (Z * ibv_wc) :=
  cqs ← gets cq;
  q ← or_fault OutOfRange (cqs !! Z.to_nat cqPtr);
  r ← poll_loop fuel q PollNumber 0 wc;
  mret (check_status r).

Definition PollOnce (cqPtr PollNumber : Z) (wc : ibv_wc) : Sock (Z * ibv_wc) :=
  cqs ← gets cq;
  q ← or_fault OutOfRange (cqs !! Z.to_nat cqPtr);
  r ← zoom device (ibv_poll_cq q PollNumber wc);
  if r.1 =? 0 then mret (0, r.2)
  else if r.1 <? 0 then mret (0, r.2)
  else if negb (wc_status r.2 =? IBV_WC_SUCCESS) then mret (-1, r.2)
  else mret r.

(** ** Single requests *)

Definition RdmaSend (NodeID SourceBuffer BufferSize : Z) : Sock bool :=
  s ← get;
  lk ← local_key;
  p ← peer_at NodeID;
  q ← or_fault OutOfRange (qp p !! 0%nat);
  post_send q [SendWr 0 (Sge SourceBuffer (u32 BufferSize) lk) IBV_WR_SEND_WITH_IMM true
                 (MyNodeID s) 0 0 0 0].

Definition RdmaReceive (NodeID SourceBuffer BufferSize : Z) : Sock bool :=
  lk ← local_key;
  p ← peer_at NodeID;
  q ← or_fault OutOfRange (qp p !! 0%nat);
  post_recv q [RecvWr (Sge SourceBuffer (u32 BufferSize) lk)].

Definition RdmaRead (NodeID SourceBuffer DesBuffer BufferSize TaskID : Z) : Sock bool :=
  lk ← local_key;
  p ← peer_at NodeID;
  q ← or_fault OutOfRange (qp p !! Z.to_nat TaskID);
  post_send q [SendWr 0 (Sge SourceBuffer (u32 BufferSize) lk) IBV_WR_RDMA_READ true 0
                 (u64 (DesBuffer + RegisteredMemory p)) (peer_rkey p) 0 0].

(** [imm] is a [uint32_t]; the test reads it as an [int32_t]. *)
Definition RdmaWrite (NodeID SourceBuffer DesBuffer BufferSize imm TaskID : Z) : Sock bool :=
  lk ← local_key;
  p ← peer_at NodeID;
  q ← or_fault OutOfRange (qp p !! Z.to_nat TaskID);
  let op := if s32 imm =? -1 then IBV_WR_RDMA_WRITE else IBV_WR_RDMA_WRITE_WITH_IMM in
  post_send q [SendWr 0 (Sge SourceBuffer (u32 BufferSize) lk) op true
                 (if s32 imm =? -1 then 0 else imm)
                 (u64 (DesBuffer + RegisteredMemory p)) (peer_rkey p) 0 0].

Definition RdmaFetchAndAdd (NodeID SourceBuffer DesBuffer Add : Z) : Sock bool :=
  lk ← local_key;
  p ← peer_at NodeID;
  q ← or_fault OutOfRange (qp p !! 0%nat);
  post_send q [SendWr 0 (Sge SourceBuffer 8 lk) IBV_WR_ATOMIC_FETCH_AND_ADD true 0
                 (u64 (DesBuffer + RegisteredMemory p)) (peer_rkey p) Add 0].

Definition RdmaCompareAndSwap (NodeID SourceBuffer DesBuffer Compare Swap : Z) : Sock bool :=
  lk ← local_key;
  p ← peer_at NodeID;
  q ← or_fault OutOfRange (qp p !! 0%nat);
  post_send q [SendWr 0 (Sge SourceBuffer 8 lk) IBV_WR_ATOMIC_CMP_AND_SWP true 0
                 (u64 (DesBuffer + RegisteredMemory p)) (peer_rkey p) Compare Swap].

(** ** Batches

    One request in [SIGNAL_BATCH + 1] asks for a completion; a client collects it before it issues the
    next signalled request.  The requests are built in an array of [MAX_POST_LIST] entries. *)

Definition due (p : PeerSockData) : bool := Z.land (counter p) SIGNAL_BATCH =? 0.

Definition bump (p : PeerSockData) : PeerSockData :=
  Peer (qp p) (peer_cq p) (qpNum p) (RegisteredMemory p) (peer_rkey p) (peer_lid p) (peer_gid p)
       (peer_sock p)
       (peer_NodeID p) (u64 (counter p + 1)).

(** The loop that fills the array from [w_i] on; [mk] fills one entry from the
    local key, the socket, the peer and its index. *)
Fixpoint fill_batch (fuel : nat) (NodeID : Z) (mk : Z → RdmaSocket → PeerSockData → Z → ibv_send_wr)
    (n : nat) (w_i : Z) : Sock (list ibv_send_wr) :=
  match n with
  | O => mret []
  | S n' =>
      s ← get;
      p ← peer_at NodeID;
      (if due p && (0 <? counter p) && negb (isServer s) then
         PollCompletion fuel NodeID 1 uninit_wc;; mret ()
       else mret ());;
      (if w_i <? MAX_POST_LIST then mret () else fail OutOfRange);;
      lk ← local_key;
      let wr := mk lk s p w_i in
      modify (set_peer NodeID (bump p));;
      rest ← fill_batch fuel NodeID mk n' (w_i + 1);
      mret (wr :: rest)
  end.

(** [&send_wr[0]] is posted even when the loop has filled nothing. *)
Definition post_batch (fuel : nat) (NodeID BatchSize : Z)
    (mk : Z → RdmaSocket → PeerSockData → Z → ibv_send_wr) : Sock bool :=
  wrs ← fill_batch fuel NodeID mk (Z.to_nat BatchSize) 0;
  p ← peer_at NodeID;
  q ← or_fault OutOfRange (qp p !! 0%nat);
  match wrs with
  | [] => fail Uninit
  | _ => post_send q wrs
  end.

Definition RdmaBatchSend (fuel : nat) (NodeID SourceBuffer BufferSize BatchSize : Z) : Sock bool :=
  ps ← gets peers;
  (if decide (ps !! NodeID = None) then fail AssertFailed else mret ());;
  post_batch fuel NodeID BatchSize (λ lk s p w_i,
    SendWr 0 (Sge (u64 (SourceBuffer + w_i * 4096)) (u32 BufferSize) lk) IBV_WR_SEND_WITH_IMM
      (due p) (MyNodeID s) 0 0 0 0).

(** The source advances by 8 bytes from one request to the next, the remote address does not. *)
Definition RdmaBatchRead (fuel : nat) (NodeID SourceBuffer DesBuffer BufferSize BatchSize : Z) : Sock bool :=
  post_batch fuel NodeID BatchSize (λ lk s p w_i,
    SendWr 0 (Sge (u64 (SourceBuffer + w_i * 8)) (u32 BufferSize) lk) IBV_WR_RDMA_READ
      (due p) 0 (u64 (DesBuffer + RegisteredMemory p)) (peer_rkey p) 0 0).

(** Here [imm] is compared with 0, not with -1. *)
Definition RdmaBatchWrite (fuel : nat) (NodeID SourceBuffer DesBuffer BufferSize imm BatchSize : Z) : Sock bool :=
  post_batch fuel NodeID BatchSize (λ lk s p w_i,
    SendWr 0 (Sge (u64 (SourceBuffer + w_i * 4096)) (u32 BufferSize) lk)
      (if s32 imm =? 0 then IBV_WR_RDMA_WRITE else IBV_WR_RDMA_WRITE_WITH_IMM)
      (due p) (if s32 imm =? 0 then 0 else imm)
      (u64 (DesBuffer + RegisteredMemory p + w_i * 4096)) (peer_rkey p) 0 0).

(** Receive requests ask for no completion of their own and are not counted. *)
Definition RdmaBatchReceive (NodeID SourceBuffer BufferSize BatchSize : Z) : Sock bool :=
  (if MAX_POST_LIST <? BatchSize then fail OutOfRange
   else if BatchSize <? 1 then fail Uninit else mret ());;
  lk ← local_key;
  p ← peer_at NodeID;
  q ← or_fault OutOfRange (qp p !! 0%nat);
  post_recv q ((λ w_i, RecvWr (Sge (u64 (SourceBuffer + w_i * 4096)) (u32 BufferSize) lk))
    <$> seqZ 0 BatchSize).

(** ** Transfers through the pool of a task *)

Definition SendPoolSize : Z := 1024 * 1024.
Definition SendPoolAddr (s : RdmaSocket) (TaskID : Z) : Z := u64 (mm s + 4 * 1024 + TaskID * 1024 * 1024).
Definition SendSize (size TotalSizeSend : Z) : Z :=
  if SendPoolSize <=? u64 (size - TotalSizeSend) then SendPoolSize else u64 (size - TotalSizeSend).

Definition add_at (l : list Z) (k : Z) (n : Z) : list Z :=
  match l !! Z.to_nat k with Some x => <[Z.to_nat k := u64 (x + n)]> l | None => l end.

(** [__sync_fetch_and_add(&TransferSignal, 1)] on a [uint16_t]. *)
Definition signal_done : Sock unit := modify (λ s, set_signal (u16 (TransferSignal s + 1)) s).

(** [while (TotalSizeSend < size)] of InboundHamal; [pf] is the fuel of each polling loop. *)
Fixpoint inbound_loop (fuel pf : nat) (TaskID bufferSend NodeID bufferReceive size TotalSizeSend : Z) :
    Sock unit :=
  match fuel with
  | O => fail OutOfFuel
  | S fuel =>
      if TotalSizeSend <? size then
        pool ← gets (λ s, SendPoolAddr s TaskID);
        let n := SendSize size TotalSizeSend in
        RdmaRead NodeID pool (u64 (bufferReceive + TotalSizeSend)) n (TaskID + 1);;
        PollCompletion pf NodeID 1 uninit_wc;;
        memcpy (u64 (bufferSend + TotalSizeSend)) pool n;;
        modify (λ s, set_sizes (WriteSize s) (add_at (ReadSize s) TaskID n) s);;
        inbound_loop fuel pf TaskID bufferSend NodeID bufferReceive size (u64 (TotalSizeSend + n))
      else mret ()
  end.

(** Enough rounds: each moves a whole pool but the last. *)
Definition chunk_fuel (size : Z) : nat := S (S (Z.to_nat (size / SendPoolSize))).

Definition InboundHamal (pf : nat) (TaskID bufferSend NodeID bufferReceive size : Z) : Sock bool :=
  inbound_loop (chunk_fuel size) pf TaskID bufferSend NodeID bufferReceive size 0;;
  signal_done;;
  mret true.

(** Ten writes of the whole pool to the start of the range, once. *)
Definition test_round (pf : nat) (pool TaskID NodeID bufferReceive : Z) : Sock unit :=
  RdmaWrite NodeID pool bufferReceive SendPoolSize (-1) (TaskID + 1);;
  PollCompletion pf NodeID 1 uninit_wc;;
  mret ().

Definition write_test (pf : nat) (pool TaskID NodeID bufferReceive : Z) : Sock unit :=
  test ← gets WriteTest;
  testing ← or_fault Uninit test;
  if (testing : bool) then
    for_each (seqZ 0 10) (λ _, test_round pf pool TaskID NodeID bufferReceive);;
    modify (set_test (Some false))
  else mret ().

Fixpoint outbound_loop (fuel pf : nat) (TaskID bufferSend NodeID bufferReceive size TotalSizeSend : Z) :
    Sock unit :=
  match fuel with
  | O => fail OutOfFuel
  | S fuel =>
      if TotalSizeSend <? size then
        pool ← gets (λ s, SendPoolAddr s TaskID);
        let n := SendSize size TotalSizeSend in
        memcpy pool (u64 (bufferSend + TotalSizeSend)) n;;
        RdmaWrite NodeID pool (u64 (bufferReceive + TotalSizeSend)) n (-1) (TaskID + 1);;
        PollCompletion pf NodeID 1 uninit_wc;;
        modify (λ s, set_sizes (add_at (WriteSize s) TaskID n) (ReadSize s) s);;
        write_test pf pool TaskID NodeID bufferReceive;;
        outbound_loop fuel pf TaskID bufferSend NodeID bufferReceive size (u64 (TotalSizeSend + n))
      else mret ()
  end.

Definition OutboundHamal (pf : nat) (TaskID bufferSend NodeID bufferReceive size : Z) : Sock bool :=
  outbound_loop (chunk_fuel size) pf TaskID bufferSend NodeID bufferReceive size 0;;
  signal_done;;
  mret true.

(** [shipSize] is an [int]. *)
Definition shipSize (size : Z) : Z := Z.shiftl (Z.shiftr (s32 (size / WORKER_NUMBER)) 12) 12.

Definition make_task (op : bool) (send NodeID receive size i : Z) : TransferTask :=
  Task op NodeID (if i <? 3 then u64 (shipSize size) else u64 (size - 3 * shipSize size))
    (u64 (send + s32 (i * shipSize size))) (u64 (receive + s32 (i * shipSize size))).

(** ** The transfer workers

    A worker that has popped a task runs InboundHamal or OutboundHamal on it.  The two workers share
    the completion queue of the peer, so their rounds are modelled as interleaved steps: a step goes
    up to the next call of [ibv_poll_cq], or is one such call. *)

Inductive wpc :=
  | WTop                              (* at the test of the loop over the chunks *)
  | WPoll (count : Z) (wc : ibv_wc)   (* in PollCompletion *)
  | WIdle.                            (* back in PopPolling *)

Record worker := Worker { w_task : TransferTask; w_total : Z; w_pc : wpc }.

(** Which worker takes the [n]-th step. *)
Class Sched := sched : nat → bool.

(** From the test of the loop to PollCompletion, or to the end. *)
Definition worker_post (id : Z) (t : TransferTask) (TotalSizeSend : Z) : Sock worker :=
  if TotalSizeSend <? task_size t then
    pool ← gets (λ s, SendPoolAddr s id);
    let n := SendSize (task_size t) TotalSizeSend in
    (if OpType t then
       memcpy pool (u64 (bufferSend t + TotalSizeSend)) n;;
       RdmaWrite (task_NodeID t) pool (u64 (bufferReceive t + TotalSizeSend)) n (-1) (id + 1)
     else RdmaRead (task_NodeID t) pool (u64 (bufferReceive t + TotalSizeSend)) n (id + 1));;
    mret (Worker t TotalSizeSend (WPoll 0 uninit_wc))
  else
    signal_done;;
    mret (Worker t TotalSizeSend WIdle).

(** What follows PollCompletion in the round. *)
Definition worker_round_end (pf : nat) (id : Z) (t : TransferTask) (TotalSizeSend : Z) : Sock worker :=
  pool ← gets (λ s, SendPoolAddr s id);
  let n := SendSize (task_size t) TotalSizeSend in
  (if OpType t then
     modify (λ s, set_sizes (add_at (WriteSize s) id n) (ReadSize s) s);;
     write_test pf pool id (task_NodeID t) (bufferReceive t)
   else
     memcpy (u64 (bufferSend t + TotalSizeSend)) pool n;;
     modify (λ s, set_sizes (WriteSize s) (add_at (ReadSize s) id n) s));;
  mret (Worker t (u64 (TotalSizeSend + n)) WTop).

Definition DataTransferWorker (pf : nat) (id : Z) (w : worker) : Sock worker :=
  let t := w_task w in
  match w_pc w with
  | WIdle => mret w
  | WTop => worker_post id t (w_total w)
  | WPoll count wc =>
      p ← peer_at (task_NodeID t);
      r ← zoom device (ibv_poll_cq (peer_cq p) 1 wc);
      let count := s32 (count + r.1) in
      if count <? 1 then mret (Worker t (w_total w) (WPoll count r.2))
      else worker_round_end pf id t (w_total w)
  end.

(** [while (TransferSignal != WORKER_NUMBER)], while the workers run. *)
Fixpoint run_workers `{Sched} (fuel pf n : nat) (w0 w1 : worker) : Sock bool :=
  sig ← gets TransferSignal;
  if sig =? WORKER_NUMBER then mret true
  else match fuel with
  | O => fail OutOfFuel
  | S fuel =>
      if sched n then w ← DataTransferWorker pf 1 w1; run_workers fuel pf (S n) w0 w
      else w ← DataTransferWorker pf 0 w0; run_workers fuel pf (S n) w w1
  end.

(** The tasks reach the workers through their queues. *)
Definition ship `{Sched} (pf : nat) (op : bool) (send NodeID receive size : Z) : Sock bool :=
  modify (set_signal 0);;
  run_workers pf pf 0 (Worker (make_task op send NodeID receive size 0) 0 WTop)
                      (Worker (make_task op send NodeID receive size 1) 0 WTop).

Definition RemoteRead `{Sched} (pf : nat) (bufferSend NodeID bufferReceive size : Z) : Sock bool :=
  if size <? 4 * 1024 * 1024 then
    InboundHamal pf 0 bufferSend NodeID bufferReceive size;;
    mret true
  else ship pf false bufferSend NodeID bufferReceive size.

Definition RemoteWrite `{Sched} (pf : nat) (bufferSend NodeID bufferReceive size : Z) : Sock bool :=
  if size <? 4 * 1024 * 1024 then
    OutboundHamal pf 0 bufferSend NodeID bufferReceive size;;
    mret true
  else ship pf true bufferSend NodeID bufferReceive size.

End socket.
Arguments RdmaSocket : clear implicits.
