(* ===== verification/RdmaLaws.v ===== *)
(** * What the program relies on the verbs library for, and the transfers proved from it.

    [VerbsLaws] states the documented behaviour of a reliable connection in the ready-to-send state:
    a signalled RDMA READ or WRITE that is posted with nothing else outstanding, whose local range lies
    in the region of its local key and whose remote range lies in the region the node has registered
    under its remote key, is carried out, and after finitely many empty polls its completion is
    reported.  Nothing is assumed of a request outside these regions.  [Ideal] of RdmaTheorems is a
    device that keeps the laws. *)
From S2P Require Import Prelude Rdma.
Local Open Scope Z_scope.

(** What a request does to the memory of the process ([h]) and of the remote node ([r]). *)
Definition effect (wr : ibv_send_wr) (h r h' r' : mem) : Prop :=
  let sg := sg_list wr in
  match opcode wr with
  | IBV_WR_RDMA_READ =>
      (∀ a, h' a = copy r (remote_addr wr) h (sge_addr sg) (sge_length sg) a) ∧ (∀ a, r' a = r a)
  | IBV_WR_RDMA_WRITE =>
      (∀ a, h' a = h a) ∧ (∀ a, r' a = copy h (sge_addr sg) r (remote_addr wr) (sge_length sg) a)
  | _ => True
  end.

(** [k] empty polls of [q], then one that reports a completion. *)
Inductive completes {Dev} `{Verbs Dev} (q : Z) : nat → Dev → Dev → Prop :=
  | completes_now d d' :
      (∀ wc, ibv_poll_cq q 1 wc d = Done (1, Wc IBV_WC_SUCCESS, d')) → completes q 0 d d'
  | completes_later k d d' d'' :
      (∀ wc, ibv_poll_cq q 1 wc d = Done (0, wc, d')) → completes q k d' d'' → completes q (S k) d d''.

(** The range of [n] bytes from [a] lies in the region [r]: its first address and its length. *)
Definition covers (r : option (Z * Z)) (a n : Z) : bool :=
  match r with
  | Some (b, len) => (b <=? a) && (a + n <=? b + len)
  | None => false
  end.

Lemma covers_inside r a n a' n' : covers r a n → a ≤ a' → a' + n' ≤ a + n → covers r a' n'.
Proof.
  destruct r as [[b len]|]; [|done]. simpl. rewrite !andb_True, !Is_true_true, !Z.leb_le. lia.
Qed.

Lemma covers_grows (o o' : option (Z * Z)) a n : (∀ r, o = Some r → o' = Some r) → covers o a n → covers o' a n.
Proof. destruct o as [r|]; [|done]. intros Hr. by rewrite (Hr r eq_refl). Qed.

(** The status of a request outside the region of its remote key. *)
Definition IBV_WC_REM_ACCESS_ERR : Z := 10.

Class VerbsLaws (Dev : Type) `{Verbs Dev} := {
  remote_mem : Dev → Z → mem;
  connected : Dev → Z → Z → Z → Prop;      (* queue pair, its completion queue, its node *)
  local_mr : Dev → Z → option (Z * Z);        (* the region of a local key *)
  remote_mr : Dev → Z → Z → option (Z * Z);   (* node, remote key *)
  host_view d m : view host (update host m d) = m;
  host_remote d m n : remote_mem (update host m d) n = remote_mem d n;
  host_connected d m q c n : connected d q c n → connected (update host m d) q c n;
  host_local_mr d m k : local_mr (update host m d) k = local_mr d k;
  host_remote_mr d m n k : remote_mr (update host m d) n k = remote_mr d n k;
  verbs_exec d q c n wr :
    connected d q c n → signaled wr = true →
    opcode wr = IBV_WR_RDMA_READ ∨ opcode wr = IBV_WR_RDMA_WRITE →
    covers (local_mr d (sge_lkey (sg_list wr))) (sge_addr (sg_list wr)) (sge_length (sg_list wr)) →
    covers (remote_mr d n (wr_rkey wr)) (remote_addr wr) (sge_length (sg_list wr)) →
    ∃ d1 k d2, ibv_post_send q [wr] d = Done (0, d1) ∧ completes c k d1 d2 ∧
      effect wr (view host d) (remote_mem d n) (view host d2) (remote_mem d2 n) ∧
      (∀ n' a, n' ≠ n → remote_mem d2 n' a = remote_mem d n' a) ∧
      (∀ q' c' n', connected d q' c' n' → connected d2 q' c' n') ∧
      (∀ k', local_mr d2 k' = local_mr d k') ∧ (∀ n' k', remote_mr d2 n' k' = remote_mr d n' k');
}.

(** ** Results that hold from some fuel on *)

Definition ev {S A} (m : nat → M S A) (s : S) (a : A) (s' : S) : Prop :=
  ∃ K, ∀ pf, (K ≤ pf)%nat → m pf s = Done (a, s').

Definition wpe {S A} (m : nat → M S A) (Q : A → S → Prop) (s : S) : Prop :=
  ∃ a s', ev m s a s' ∧ Q a s'.

Section wpe_rules.
Context {S : Type}.

Lemma wpe_bind {A B} (m : nat → M S A) (k : nat → A → M S B) Q s :
  wpe m (λ a, wpe (λ pf, k pf a) Q) s → wpe (λ pf, m pf ≫= k pf) Q s.
Proof.
  intros (a & s1 & [K1 H1] & b & s2 & [K2 H2] & HQ). exists b, s2. split; [|done].
  exists (Nat.max K1 K2). intros pf Hpf.
  rewrite (outcome_bind_done _ _ _ _ _ (H1 pf ltac:(lia))). apply H2. lia.
Qed.

Lemma wpe_pure {A} (m : M S A) Q s : wp m Q s → wpe (λ _, m) Q s.
Proof. intros (a & s' & E & HQ)%wp_done. exists a, s'. split; [|done]. by exists 0%nat. Qed.

Lemma wpe_mono {A} (m : nat → M S A) (Q Q' : A → S → Prop) s :
  wpe m Q s → (∀ a s', Q a s' → Q' a s') → wpe m Q' s.
Proof. intros (a & s' & ? & ?) HQ. exists a, s'. auto. Qed.

Lemma wpe_ev {A} (m : nat → M S A) Q s : wpe m Q s ↔ ∃ a s', ev m s a s' ∧ Q a s'.
Proof. done. Qed.
End wpe_rules.

(** ** Copies *)

Lemma copy_in src s dst d n a : d ≤ a < d + n → copy src s dst d n a = src (s + (a - d)).
Proof. intros. unfold copy. rewrite (proj2 (Z.leb_le _ _)), (proj2 (Z.ltb_lt _ _)) by lia. done. Qed.

Lemma copy_out src s dst d n a : a < d ∨ d + n ≤ a → copy src s dst d n a = dst a.
Proof. intros. unfold copy. destruct (Z.leb_spec d a), (Z.ltb_spec a (d + n)); simpl; try done; lia. Qed.

Lemma copy_0 src s dst d a : copy src s dst d 0 a = dst a.
Proof. apply copy_out. lia. Qed.

(** The next chunk extends the copy. *)
Lemma copy_extend (src src' : mem) s (dst : mem) d t n a : 0 ≤ t → 0 ≤ n →
  (∀ x, t ≤ x < t + n → src' (s + x) = src (s + x)) →
  copy src' (s + t) (copy src s dst d t) (d + t) n a = copy src s dst d (t + n) a.
Proof.
  intros Ht Hn Hsrc. destruct (decide (d + t ≤ a < d + t + n)) as [Hin|Hout].
  - rewrite copy_in, copy_in by lia. replace (s + t + (a - (d + t))) with (s + (a - d)) by lia.
    apply Hsrc. lia.
  - rewrite copy_out by lia. destruct (decide (d ≤ a < d + t)).
    + rewrite !copy_in by lia. done.
    + rewrite !copy_out by lia. done.
Qed.

(** ** Single transfers *)

Section transfers.
Context {Dev : Type} `{VerbsLaws Dev}.
Implicit Types (s : RdmaSocket Dev).

(** The parts of a socket a transfer leaves alone. *)
Definition same_sock s s' : Prop :=
  peers s' = peers s ∧ cq s' = cq s ∧ isServer s' = isServer s ∧ MyNodeID s' = MyNodeID s ∧
  mm s' = mm s ∧ mr s' = mr s ∧ WriteTest s' = WriteTest s ∧
  (∀ q c n, connected (dev s) q c n → connected (dev s') q c n) ∧
  (∀ k, local_mr (dev s') k = local_mr (dev s) k) ∧ (∀ n k, remote_mr (dev s') n k = remote_mr (dev s) n k).

Lemma same_sock_refl s : same_sock s s.
Proof. by split_and!. Qed.

Lemma same_sock_trans s1 s2 s3 : same_sock s1 s2 → same_sock s2 s3 → same_sock s1 s3.
Proof. intros (?&?&?&?&?&?&?&?&?&?) (?&?&?&?&?&?&?&?&?&?). split_and!; try congruence; eauto. Qed.

Abbreviation hmem s := (view host (dev s)).
Abbreviation rmem s n := (remote_mem (dev s) n).

(** The connection of task [T] to node [n] is up. *)
Record linked s (T n : Z) (p : PeerSockData) (q : Z) : Prop := {
  ln_node : 0 ≤ n < 1000;
  ln_task : 0 ≤ T;
  ln_peer : peers s !! n = Some p;
  ln_qp : qp p !! Z.to_nat (T + 1) = Some q;
  ln_up : connected (dev s) q (peer_cq p) n;
}.

Lemma linked_same s s' T n p q : linked s T n p q → same_sock s s' → linked s' T n p q.
Proof. intros [] (Hp&_&_&_&_&_&_&Hc&_). split; [done|done|by rewrite Hp|done|by apply Hc]. Qed.

Lemma wp_peer_at s n p (Q : PeerSockData → RdmaSocket Dev → Prop) :
  0 ≤ n < 1000 → peers s !! n = Some p → Q p s → wp (peer_at n) Q s.
Proof.
  intros Hn Hp HQ. unfold peer_at. rewrite (proj2 (Z.ltb_lt _ _)) by lia. wp_auto.
  by eapply wp_or_fault.
Qed.

Lemma with_device_self s : update device (view device s) s = s.
Proof. by destruct s. Qed.

(** Polling until the completion that is on its way. *)
Lemma poll_completes q k d d' s wc : completes q k d d' → dev s = d →
  ev (λ pf, poll_loop pf q 1 0 wc) s (1, Wc IBV_WC_SUCCESS) (update device d' s).
Proof.
  intros Hc. revert s wc. induction Hc as [d d' Hp|k d d' d'' Hp Hc IH]; intros s wc Hd.
  - exists 1%nat. intros [|pf] Hpf; [lia|]. simpl.
    assert (E : zoom device (ibv_poll_cq q 1 wc) s = Done (1, Wc IBV_WC_SUCCESS, update device d' s)).
    { unfold zoom. simpl. by rewrite Hd, Hp. }
    by rewrite (outcome_bind_done _ _ _ _ _ E).
  - destruct (IH (update device d' s) wc eq_refl) as [K HK]. exists (S K). intros [|pf] Hpf; [lia|]. simpl.
    assert (E : zoom device (ibv_poll_cq q 1 wc) s = Done (0, wc, update device d' s)).
    { unfold zoom. simpl. by rewrite Hd, Hp. }
    rewrite (outcome_bind_done _ _ _ _ _ E). simpl. rewrite HK by lia. done.
Qed.

(** A request posted on a connection and polled for. *)
Lemma wpe_post_poll s n p q c wr (Q : Z * ibv_wc → RdmaSocket Dev → Prop) :
  0 ≤ n < 1000 → peers s !! n = Some p → peer_cq p = c → connected (dev s) q c n →
  signaled wr = true → opcode wr = IBV_WR_RDMA_READ ∨ opcode wr = IBV_WR_RDMA_WRITE →
  covers (local_mr (dev s) (sge_lkey (sg_list wr))) (sge_addr (sg_list wr)) (sge_length (sg_list wr)) →
  covers (remote_mr (dev s) n (wr_rkey wr)) (remote_addr wr) (sge_length (sg_list wr)) →
  (∀ s', same_sock s s' → effect wr (hmem s) (rmem s n) (hmem s') (rmem s' n) →
    (∀ n' a, n' ≠ n → rmem s' n' a = rmem s n' a) →
    TransferSignal s' = TransferSignal s → Q (1, Wc IBV_WC_SUCCESS) s') →
  wpe (λ pf, post_send q [wr];; PollCompletion pf n 1 uninit_wc) Q s.
Proof.
  intros Hn Hp <- Hc Hsig Hop Hlo Hre HQ.
  destruct (verbs_exec (dev s) q (peer_cq p) n wr Hc Hsig Hop Hlo Hre)
    as (d1 & k & d2 & Hpost & Hcomp & Heff & Hoth & Hcon & Hlm & Hrm).
  apply wpe_bind, wpe_pure. unfold post_send. wp_auto. unfold wp. simpl. rewrite Hpost. simpl.
  unfold PollCompletion. apply wpe_bind, wpe_pure. eapply wp_peer_at; [done|exact Hp|].
  apply wpe_bind. eexists _, _. split; [by eapply (poll_completes _ _ d1 d2)|].
  apply wpe_pure. wp_auto. unfold check_status. simpl. apply HQ; [|done..].
  by split_and!.
Qed.
End transfers.

(** ** Chunks and loops *)

Section chunks.
Context {Dev : Type} `{VerbsLaws Dev}.
Implicit Types (s : RdmaSocket Dev).

Abbreviation hmem s := (view host (dev s)).
Abbreviation rmem s n := (remote_mem (dev s) n).

Lemma wpe_ext {S A} (m m' : nat → M S A) Q (s : S) : (∀ pf, m pf s = m' pf s) → wpe m' Q s → wpe m Q s.
Proof.
  intros Heq (a & s' & [K HK] & HQ). exists a, s'. split; [|done]. exists K. intros pf Hpf.
  rewrite Heq. auto.
Qed.

(** A whole chunk: the pool of the task and the queue pair are those of the connection. *)
Lemma local_key_run s k : mr s = Ptr k → local_key s = Done (k.1, s).
Proof. intros Hk. unfold local_key, get, mbind, M_bind. by rewrite Hk. Qed.

Lemma RdmaWrite_run s T n p q k src des len : linked s T n p q → mr s = Ptr k →
  RdmaWrite n src des len (-1) (T + 1) s =
  post_send q [SendWr 0 (Sge src (u32 len) k.1) IBV_WR_RDMA_WRITE true 0
    (u64 (des + RegisteredMemory p)) (peer_rkey p) 0 0] s.
Proof.
  intros [Hn HT Hp Hq _] Hk. unfold RdmaWrite, peer_at. unfold gets, mbind, M_bind.
  rewrite (local_key_run _ _ Hk), (proj2 (Z.ltb_lt _ _)) by lia. rewrite Hp. simpl. by rewrite Hq.
Qed.

Lemma RdmaRead_run s T n p q k src des len : linked s T n p q → mr s = Ptr k →
  RdmaRead n src des len (T + 1) s =
  post_send q [SendWr 0 (Sge src (u32 len) k.1) IBV_WR_RDMA_READ true 0
    (u64 (des + RegisteredMemory p)) (peer_rkey p) 0 0] s.
Proof.
  intros [Hn HT Hp Hq _] Hk. unfold RdmaRead, peer_at. unfold gets, mbind, M_bind.
  rewrite (local_key_run _ _ Hk), (proj2 (Z.ltb_lt _ _)) by lia. rewrite Hp. simpl. by rewrite Hq.
Qed.

(** The ranges of a transfer: the buffer of the caller, the remote range and the pool of the task
    do not wrap around, the buffer and the pool are apart, and the pool and the remote range are
    registered under the keys of the socket and of the peer. *)
Record ranges s (T n : Z) (p : PeerSockData) (send rcv size : Z) : Prop := {
  rg_size : 0 ≤ size;
  rg_send : 0 ≤ send ∧ send + size ≤ 2 ^ 64;
  rg_rcv : 0 ≤ rcv ∧ 0 ≤ RegisteredMemory p ∧ rcv + RegisteredMemory p + size ≤ 2 ^ 64;
  rg_pool : 0 ≤ mm s ∧ 0 ≤ T ∧ mm s + 4 * 1024 + T * 1024 * 1024 + SendPoolSize ≤ 2 ^ 64;
  rg_apart : send + size ≤ SendPoolAddr s T ∨ SendPoolAddr s T + SendPoolSize ≤ send;
  rg_local : ∃ k, mr s = Ptr k ∧ covers (local_mr (dev s) k.1) (SendPoolAddr s T) SendPoolSize;
  rg_remote : covers (remote_mr (dev s) n (peer_rkey p)) (rcv + RegisteredMemory p) size;
}.

Lemma pool_addr s T : 0 ≤ mm s → 0 ≤ T → mm s + 4 * 1024 + T * 1024 * 1024 + SendPoolSize ≤ 2 ^ 64 →
  SendPoolAddr s T = mm s + 4 * 1024 + T * 1024 * 1024.
Proof. intros. unfold SendPoolAddr, SendPoolSize in *. rewrite u64_small; lia. Qed.

Lemma SendSize_min size t : 0 ≤ t ≤ size → size ≤ 2 ^ 64 → t < size →
  SendSize size t = Z.min SendPoolSize (size - t) ∨ size - t = 2 ^ 64.
Proof.
  intros. destruct (decide (size - t = 2 ^ 64)); [by right|left]. unfold SendSize.
  rewrite u64_small by lia. destruct (Z.leb_spec SendPoolSize (size - t)); lia.
Qed.

Definition outside_pool s T (a : Z) : Prop := a < SendPoolAddr s T ∨ SendPoolAddr s T + SendPoolSize ≤ a.

(** What a finished write of [size] bytes leaves. *)
Record sent s s' (T n : Z) (p : PeerSockData) (send rcv size : Z) : Prop := {
  sent_same : same_sock s s';
  sent_host a : outside_pool s T a → hmem s' a = hmem s a;
  sent_remote a : rmem s' n a = copy (hmem s) send (rmem s n) (rcv + RegisteredMemory p) size a;
  sent_others n' a : n' ≠ n → rmem s' n' a = rmem s n' a;
}.

(** What a finished read of [size] bytes leaves. *)
Record fetched s s' (T n : Z) (p : PeerSockData) (send rcv size : Z) : Prop := {
  fetched_same : same_sock s s';
  fetched_host a : outside_pool s T a →
    hmem s' a = copy (rmem s n) (rcv + RegisteredMemory p) (hmem s) send size a;
  fetched_remote n' a : rmem s' n' a = rmem s n' a;
}.

Lemma memcpy_run s dst src len :
  memcpy dst src len s = Done (tt, update device (update host (copy (hmem s) src (hmem s) dst len) (dev s)) s).
Proof. done. Qed.

Lemma same_sock_host s m : same_sock s (update device (update host m (dev s)) s).
Proof.
  split_and!; try done; intros; simpl; [by apply host_connected|by rewrite host_local_mr|by rewrite host_remote_mr].
Qed.

Lemma same_sock_sizes s w r : same_sock s (set_sizes w r s).
Proof. by split_and!. Qed.

Lemma same_sock_signal s g : same_sock s (set_signal g s).
Proof. by split_and!. Qed.

(** One round of OutboundHamal, from [t] bytes sent to [t + len]. *)
Lemma wpe_send_chunk s0 s T n p q send rcv size t len (Q : unit → RdmaSocket Dev → Prop) :
  linked s0 T n p q → ranges s0 T n p send rcv size → sent s0 s T n p send rcv t →
  0 ≤ t → 0 < len ≤ SendPoolSize → t + len ≤ size → WriteTest s0 = Some false →
  (∀ s', sent s0 s' T n p send rcv (t + len) → TransferSignal s' = TransferSignal s → Q tt s') →
  wpe (λ pf,
    memcpy (SendPoolAddr s T) (u64 (send + t)) len;;
    RdmaWrite n (SendPoolAddr s T) (u64 (rcv + t)) len (-1) (T + 1);;
    PollCompletion pf n 1 uninit_wc;;
    modify (λ s, set_sizes (add_at (WriteSize s) T len) (ReadSize s) s);;
    write_test pf (SendPoolAddr s T) T n rcv) Q s.
Proof.
  intros Hlk [Hsz Hsend Hrcv Hpool Hap (key & Hkey & Hlocal) Hremote] [Hsame Hh Hr Ho] Ht Hlen Hend Htest HQ.
  assert (Hpa : SendPoolAddr s T = SendPoolAddr s0 T).
  { unfold SendPoolAddr. by destruct Hsame as (_&_&_&_&->&_). }
  pose proof (pool_addr s0 T ltac:(lia) ltac:(lia) ltac:(lia)) as Hpe.
  unfold SendPoolSize in *. rewrite Hpa, (u64_small (send + t)), (u64_small (rcv + t)) by lia.
  set (pool := SendPoolAddr s0 T) in *.
  set (s1 := update device (update host (copy (hmem s) (send + t) (hmem s) pool len) (dev s)) s).
  assert (Hs1 : same_sock s0 s1) by (eapply same_sock_trans; [exact Hsame|apply same_sock_host]).
  apply wpe_bind, wpe_pure. unfold wp. rewrite memcpy_run. fold s1.
  pose proof (linked_same _ _ _ _ _ _ Hlk Hs1) as Hlk1. pose proof Hlk1 as [Hn HT Hp Hq Hc].
  pose proof Hs1 as (_&_&_&_&_&Hmr&_&_&Hlmr&Hrmr). rewrite <- Hmr in Hkey.
  set (wr := SendWr 0 (Sge pool (u32 len) key.1) IBV_WR_RDMA_WRITE true 0
    (u64 (rcv + t + RegisteredMemory p)) (peer_rkey p) 0 0).
  eapply (wpe_ext _ (λ pf, (post_send q [wr];; PollCompletion pf n 1 uninit_wc) ≫= λ _,
    modify (λ s, set_sizes (add_at (WriteSize s) T len) (ReadSize s) s);; write_test pf pool T n rcv)).
  { intros pf. unfold mbind, M_bind. rewrite (RdmaWrite_run s1 T n p q key) by done. fold wr.
    destruct (post_send q [wr] s1) as [[b s2]|]; [|done].
    by destruct (PollCompletion pf n 1 uninit_wc s2) as [[r s3]|]. }
  apply wpe_bind. eapply wpe_post_poll; [done|exact Hp|done|done|done|by right|..].
  { simpl. rewrite Hlmr. unfold u32. rewrite Z.mod_small by lia. eapply covers_inside; [exact Hlocal|lia..]. }
  { simpl. rewrite Hrmr. unfold u32. rewrite Z.mod_small, u64_small by lia. eapply covers_inside; [exact Hremote|lia..]. }
  intros s2 Hs2 Heff Hoth Hsig. unfold effect in Heff. simpl in Heff. destruct Heff as [Heh Her].
  apply wpe_bind, wpe_pure, wp_modify. unfold write_test. apply wpe_bind, wpe_pure, wp_gets.
  assert (Hs3 : same_sock s0 (set_sizes (add_at (WriteSize s2) T len) (ReadSize s2) s2)).
  { eapply same_sock_trans; [exact Hs1|]. eapply same_sock_trans; [exact Hs2|apply same_sock_sizes]. }
  pose proof Hs3 as (_&_&_&_&_&_&Hwt&_). rewrite Hwt, Htest. apply wpe_pure. wp_auto. cbn beta iota.
  assert (Hh1 : ∀ a, hmem s1 a = copy (hmem s) (send + t) (hmem s) pool len a).
  { intros a. unfold s1. simpl. by rewrite host_view. }
  assert (Hr1 : ∀ m a, rmem s1 m a = rmem s m a).
  { intros m a. unfold s1. simpl. by rewrite host_remote. }
  apply HQ; [|by simpl; rewrite Hsig]. split; [done| | |].
  - intros a Ha. simpl. rewrite Heh, Hh1. unfold outside_pool, SendPoolSize in Ha. fold pool in Ha.
    rewrite copy_out by lia. by apply Hh.
  - intros a. simpl. rewrite Her. unfold u32. rewrite (Z.mod_small len) by lia.
    rewrite (u64_small (rcv + t + _)) by lia.
    rewrite <- (copy_extend (hmem s0) (hmem s) send (rmem s0 n) (rcv + RegisteredMemory p) t len a); [|lia|lia|].
    + replace (rcv + t + RegisteredMemory p) with (rcv + RegisteredMemory p + t) by lia.
      destruct (decide (rcv + RegisteredMemory p + t ≤ a < rcv + RegisteredMemory p + t + len)).
      * rewrite !copy_in by lia. rewrite Hh1, copy_in by lia. f_equal. lia.
      * rewrite !(copy_out _ _ _ (rcv + RegisteredMemory p + t)) by lia. by rewrite Hr1, Hr.
    + intros x Hx. apply Hh. unfold outside_pool, SendPoolSize. fold pool. lia.
  - intros n' a Hn'. simpl. rewrite Hoth, Hr1 by done. by apply Ho.
Qed.
End chunks.

Section loops.
Context {Dev : Type} `{VerbsLaws Dev, Sched}.
Implicit Types (s : RdmaSocket Dev).

Abbreviation hmem s := (view host (dev s)).
Abbreviation rmem s n := (remote_mem (dev s) n).

Lemma chunk_size size t : 0 ≤ t < size → size < 2 ^ 64 →
  SendSize size t = Z.min SendPoolSize (size - t) ∧ 0 < SendSize size t ≤ SendPoolSize ∧
  t + SendSize size t ≤ size.
Proof.
  intros Ht Hs. destruct (SendSize_min size t) as [E|E]; [lia..| |lia]. rewrite E.
  unfold SendPoolSize. lia.
Qed.

(** The rounds that are left after [t] bytes. *)
Definition rounds (size t : Z) : Z := (size - t + SendPoolSize - 1) / SendPoolSize.

Lemma rounds_step size t : 0 ≤ t < size → size < 2 ^ 64 →
  rounds size (t + SendSize size t) < rounds size t.
Proof.
  intros Ht Hs. destruct (chunk_size size t Ht Hs) as [E Hb]. unfold rounds.
  destruct (decide (SendPoolSize ≤ size - t)) as [Hge|Hlt].
  - rewrite E, Z.min_l by lia.
    replace (size - t + SendPoolSize - 1) with (size - (t + SendPoolSize) + SendPoolSize - 1 + 1 * SendPoolSize) by lia.
    rewrite Z.div_add by done. lia.
  - rewrite E, Z.min_r by lia. replace (size - (t + (size - t)) + SendPoolSize - 1) with (SendPoolSize - 1) by lia.
    rewrite (Z.div_small (SendPoolSize - 1)) by (unfold SendPoolSize; lia).
    apply Z.div_str_pos. unfold SendPoolSize in *. lia.
Qed.

Lemma rounds_start size : 0 ≤ size → rounds size 0 < Z.of_nat (chunk_fuel size).
Proof.
  intros Hs. unfold rounds, chunk_fuel. rewrite Z.sub_0_r.
  pose proof (Z.div_pos size SendPoolSize Hs ltac:(done)).
  assert ((size + SendPoolSize - 1) / SendPoolSize ≤ size / SendPoolSize + 1); [|lia].
  replace (size / SendPoolSize + 1) with ((size + 1 * SendPoolSize) / SendPoolSize) by by rewrite Z.div_add.
  apply Z.div_le_mono; unfold SendPoolSize; lia.
Qed.

(** A bind nested in a sequence, for [wpe]. *)
Lemma wpe_assoc {S A B C} (m : nat → M S A) (k : nat → A → M S B) (l : nat → B → M S C) Q (s : S) :
  wpe (λ pf, (m pf ≫= k pf) ≫= l pf) Q s → wpe (λ pf, m pf ≫= λ a, k pf a ≫= l pf) Q s.
Proof.
  apply wpe_ext. intros pf. unfold mbind, M_bind. by destruct (m pf s) as [[a s1]|].
Qed.

Lemma wpe_outbound fuel s0 s T n p q send rcv size t (Q : unit → RdmaSocket Dev → Prop) :
  linked s0 T n p q → ranges s0 T n p send rcv size → WriteTest s0 = Some false →
  sent s0 s T n p send rcv t → 0 ≤ t ≤ size → size < 2 ^ 64 → rounds size t < Z.of_nat fuel →
  (∀ s', sent s0 s' T n p send rcv size → TransferSignal s' = TransferSignal s → Q tt s') →
  wpe (λ pf, outbound_loop fuel pf T send n rcv size t) Q s.
Proof.
  intros Hlk Hrg Htest. revert s t. induction fuel as [|fuel IH]; intros s t Hsent Ht Hsz Hf HQ.
  { exfalso. assert (0 ≤ rounds size t) by (apply Z.div_pos; unfold SendPoolSize; lia). lia. }
  simpl. destruct (Z.ltb_spec t size) as [Hlt|Hge].
  - destruct (chunk_size size t ltac:(lia) Hsz) as [_ [Hlen Hend]].
    pose proof (rounds_step size t ltac:(lia) Hsz) as Hstep.
    apply wpe_bind, wpe_pure, wp_gets. cbv zeta.
    eapply (wpe_ext _ (λ pf, (memcpy (SendPoolAddr s T) (u64 (send + t)) (SendSize size t);;
      RdmaWrite n (SendPoolAddr s T) (u64 (rcv + t)) (SendSize size t) (-1) (T + 1);;
      PollCompletion pf n 1 uninit_wc;;
      modify (λ s, set_sizes (add_at (WriteSize s) T (SendSize size t)) (ReadSize s) s);;
      write_test pf (SendPoolAddr s T) T n rcv) ≫= λ _,
      outbound_loop fuel pf T send n rcv size (u64 (t + SendSize size t)))).
    { intros pf. unfold mbind, M_bind. repeat (case_match; try done). }
    apply wpe_bind. eapply (wpe_send_chunk s0 s T n p q send rcv size t); [done|done|done|lia|lia|lia|done|].
    intros s' Hs' Hsig. rewrite u64_small by lia. apply IH; [done|lia|done|lia|].
    intros s'' Hs'' Hsig'. apply HQ; [done|congruence].
  - assert (t = size) as -> by lia. apply wpe_pure. wp_auto. by apply HQ.
Qed.

(** One round of InboundHamal. *)
Lemma wpe_fetch_chunk s0 s T n p q send rcv size t len (Q : unit → RdmaSocket Dev → Prop) :
  linked s0 T n p q → ranges s0 T n p send rcv size → fetched s0 s T n p send rcv t →
  0 ≤ t → 0 < len ≤ SendPoolSize → t + len ≤ size →
  (∀ s', fetched s0 s' T n p send rcv (t + len) → TransferSignal s' = TransferSignal s → Q tt s') →
  wpe (λ pf,
    RdmaRead n (SendPoolAddr s T) (u64 (rcv + t)) len (T + 1);;
    PollCompletion pf n 1 uninit_wc;;
    memcpy (u64 (send + t)) (SendPoolAddr s T) len;;
    modify (λ s, set_sizes (WriteSize s) (add_at (ReadSize s) T len) s)) Q s.
Proof.
  intros Hlk [Hsz Hsend Hrcv Hpool Hap (key & Hkey & Hlocal) Hremote] [Hsame Hh Hr] Ht Hlen Hend HQ.
  assert (Hpa : SendPoolAddr s T = SendPoolAddr s0 T).
  { unfold SendPoolAddr. by destruct Hsame as (_&_&_&_&->&_). }
  pose proof (pool_addr s0 T ltac:(lia) ltac:(lia) ltac:(lia)) as Hpe.
  unfold SendPoolSize in *. rewrite Hpa, (u64_small (send + t)), (u64_small (rcv + t)) by lia.
  set (pool := SendPoolAddr s0 T) in *.
  pose proof (linked_same _ _ _ _ _ _ Hlk Hsame) as Hlk1. pose proof Hlk1 as [Hn HT Hp Hq Hc].
  pose proof Hsame as (_&_&_&_&_&Hmr&_&_&Hlmr&Hrmr). rewrite <- Hmr in Hkey.
  set (wr := SendWr 0 (Sge pool (u32 len) key.1) IBV_WR_RDMA_READ true 0
    (u64 (rcv + t + RegisteredMemory p)) (peer_rkey p) 0 0).
  eapply (wpe_ext _ (λ pf, (post_send q [wr];; PollCompletion pf n 1 uninit_wc) ≫= λ _,
    memcpy (send + t) pool len;; modify (λ s, set_sizes (WriteSize s) (add_at (ReadSize s) T len) s))).
  { intros pf. unfold mbind, M_bind. rewrite (RdmaRead_run s T n p q key) by done. fold wr.
    destruct (post_send q [wr] s) as [[b s2]|]; [|done].
    by destruct (PollCompletion pf n 1 uninit_wc s2) as [[r s3]|]. }
  apply wpe_bind. eapply wpe_post_poll; [done|exact Hp|done|done|done|by left|..].
  { simpl. rewrite Hlmr. unfold u32. rewrite Z.mod_small by lia. eapply covers_inside; [exact Hlocal|lia..]. }
  { simpl. rewrite Hrmr. unfold u32. rewrite Z.mod_small, u64_small by lia. eapply covers_inside; [exact Hremote|lia..]. }
  intros s2 Hs2 Heff Hoth Hsig. unfold effect in Heff. simpl in Heff. destruct Heff as [Heh Her].
  unfold u32 in Heh. rewrite (Z.mod_small len), (u64_small (rcv + t + _)) in Heh by lia.
  apply wpe_pure. wp_auto. unfold wp. rewrite memcpy_run. simpl.
  assert (Hs3 := same_sock_trans _ _ _ Hsame (same_sock_trans _ _ _ Hs2 (same_sock_host s2
    (copy (hmem s2) pool (hmem s2) (send + t) len)))).
  apply HQ; [|done]. split; [exact Hs3| |].
  - intros a Ha. unfold outside_pool, SendPoolSize in Ha. fold pool in Ha. simpl. rewrite host_view.
    rewrite <- (copy_extend (rmem s0 n) (rmem s n) (rcv + RegisteredMemory p) (hmem s0) send t len a); [|lia|lia|].
    + destruct (decide (send + t ≤ a < send + t + len)).
      * rewrite !copy_in by lia. rewrite Heh, copy_in by lia. f_equal. lia.
      * rewrite !(copy_out _ _ _ (send + t)) by lia. rewrite Heh, copy_out by lia. by apply Hh.
    + intros x _. apply Hr.
  - intros n' a. simpl. rewrite host_remote. destruct (decide (n' = n)) as [->|Hne].
    + rewrite Her. apply Hr.
    + rewrite Hoth by done. apply Hr.
Qed.

Lemma wpe_inbound fuel s0 s T n p q send rcv size t (Q : unit → RdmaSocket Dev → Prop) :
  linked s0 T n p q → ranges s0 T n p send rcv size →
  fetched s0 s T n p send rcv t → 0 ≤ t ≤ size → size < 2 ^ 64 → rounds size t < Z.of_nat fuel →
  (∀ s', fetched s0 s' T n p send rcv size → TransferSignal s' = TransferSignal s → Q tt s') →
  wpe (λ pf, inbound_loop fuel pf T send n rcv size t) Q s.
Proof.
  intros Hlk Hrg. revert s t. induction fuel as [|fuel IH]; intros s t Hf0 Ht Hsz Hf HQ.
  { exfalso. assert (0 ≤ rounds size t) by (apply Z.div_pos; unfold SendPoolSize; lia). lia. }
  simpl. destruct (Z.ltb_spec t size) as [Hlt|Hge].
  - destruct (chunk_size size t ltac:(lia) Hsz) as [_ [Hlen Hend]].
    pose proof (rounds_step size t ltac:(lia) Hsz) as Hstep.
    apply wpe_bind, wpe_pure, wp_gets. cbv zeta.
    eapply (wpe_ext _ (λ pf, (RdmaRead n (SendPoolAddr s T) (u64 (rcv + t)) (SendSize size t) (T + 1);;
      PollCompletion pf n 1 uninit_wc;;
      memcpy (u64 (send + t)) (SendPoolAddr s T) (SendSize size t);;
      modify (λ s, set_sizes (WriteSize s) (add_at (ReadSize s) T (SendSize size t)) s)) ≫= λ _,
      inbound_loop fuel pf T send n rcv size (u64 (t + SendSize size t)))).
    { intros pf. unfold mbind, M_bind. repeat (case_match; try done). }
    apply wpe_bind. eapply (wpe_fetch_chunk s0 s T n p q send rcv size t); [done|done|done|lia|lia|lia|].
    intros s' Hs' Hsig. rewrite u64_small by lia. apply IH; [done|lia|done|lia|].
    intros s'' Hs'' Hsig'. apply HQ; [done|congruence].
  - assert (t = size) as -> by lia. apply wpe_pure. wp_auto. by apply HQ.
Qed.

Lemma sent_nothing s T n p send rcv : sent s s T n p send rcv 0.
Proof. split; [apply same_sock_refl|done| |done]. intros a. by rewrite copy_0. Qed.

Lemma fetched_nothing s T n p send rcv : fetched s s T n p send rcv 0.
Proof. split; [apply same_sock_refl| |done]. intros a _. by rewrite copy_0. Qed.

Lemma sent_signal s s' T n p send rcv size g :
  sent s s' T n p send rcv size → sent s (set_signal g s') T n p send rcv size.
Proof. intros [Hs Hh Hr Ho]. split; [|done..]. eapply same_sock_trans; [exact Hs|apply same_sock_signal]. Qed.

Lemma fetched_signal s s' T n p send rcv size g :
  fetched s s' T n p send rcv size → fetched s (set_signal g s') T n p send rcv size.
Proof. intros [Hs Hh Hr]. split; [|done..]. eapply same_sock_trans; [exact Hs|apply same_sock_signal]. Qed.

Lemma wpe_OutboundHamal s T n p q send rcv size (Q : bool → RdmaSocket Dev → Prop) :
  linked s T n p q → ranges s T n p send rcv size → WriteTest s = Some false → size < 2 ^ 64 →
  (∀ s', sent s s' T n p send rcv size → TransferSignal s' = u16 (TransferSignal s + 1) → Q true s') →
  wpe (λ pf, OutboundHamal pf T send n rcv size) Q s.
Proof.
  intros Hlk Hrg Ht Hsz HQ. unfold OutboundHamal. apply wpe_bind.
  eapply (wpe_outbound _ s s); [done..|apply sent_nothing|split; [done|apply Hrg]|done|by apply rounds_start, Hrg|].
  intros s' Hs' Hsig. apply wpe_pure. unfold signal_done. wp_auto. apply HQ; [by apply sent_signal|].
  simpl. by rewrite Hsig.
Qed.

Lemma wpe_InboundHamal s T n p q send rcv size (Q : bool → RdmaSocket Dev → Prop) :
  linked s T n p q → ranges s T n p send rcv size → size < 2 ^ 64 →
  (∀ s', fetched s s' T n p send rcv size → TransferSignal s' = u16 (TransferSignal s + 1) → Q true s') →
  wpe (λ pf, InboundHamal pf T send n rcv size) Q s.
Proof.
  intros Hlk Hrg Hsz HQ. unfold InboundHamal. apply wpe_bind.
  eapply (wpe_inbound _ s s); [done..|apply fetched_nothing|split; [done|apply Hrg]|done|by apply rounds_start, Hrg|].
  intros s' Hs' Hsig. apply wpe_pure. unfold signal_done. wp_auto. apply HQ; [by apply fetched_signal|].
  simpl. by rewrite Hsig.
Qed.

(** Below 4 MB both calls run on the thread of the caller. *)
Lemma wpe_RemoteWrite s n p q send rcv size (Q : bool → RdmaSocket Dev → Prop) :
  linked s 0 n p q → ranges s 0 n p send rcv size → WriteTest s = Some false → size < 4 * 1024 * 1024 →
  (∀ s', sent s s' 0 n p send rcv size → Q true s') →
  wpe (λ pf, RemoteWrite pf send n rcv size) Q s.
Proof.
  intros Hlk Hrg Ht Hsz HQ. unfold RemoteWrite. rewrite (proj2 (Z.ltb_lt _ _)) by done.
  apply wpe_bind. eapply wpe_OutboundHamal; [done..|lia|]. intros s' Hs' _. apply wpe_pure. wp_auto. auto.
Qed.

Lemma wpe_RemoteRead s n p q send rcv size (Q : bool → RdmaSocket Dev → Prop) :
  linked s 0 n p q → ranges s 0 n p send rcv size → size < 4 * 1024 * 1024 →
  (∀ s', fetched s s' 0 n p send rcv size → Q true s') →
  wpe (λ pf, RemoteRead pf send n rcv size) Q s.
Proof.
  intros Hlk Hrg Hsz HQ. unfold RemoteRead. rewrite (proj2 (Z.ltb_lt _ _)) by done.
  apply wpe_bind. eapply wpe_InboundHamal; [done..|lia|]. intros s' Hs' _. apply wpe_pure. wp_auto. auto.
Qed.
End loops.
