(* ===== verification/RdmaTheorems.v ===== *)
(** * Theorems on RDMA transfers, and a device that keeps the laws of the verbs library. *)
From S2P Require Import Prelude Rdma RdmaLaws.
Local Open Scope Z_scope.

(** ** The ideal device

    Requests wait in order; a poll of a completion queue carries out the oldest one if it completes
    there.  A request outside the regions of its keys completes with an error and moves nothing. *)
Module Ideal.

Record device := Mk {
  memory : mem;
  nodes : Z → mem;
  qp_node : gmap Z Z;
  qp_cq : gmap Z Z;
  regions : Z → option (Z * Z);             (* of a local key *)
  exports : Z → Z → option (Z * Z);         (* node, remote key *)
  pending : list (Z * Z * ibv_send_wr);     (* completion queue, node, request *)
}.

Definition allowed (n : Z) (wr : ibv_send_wr) (d : device) : bool :=
  let sg := sg_list wr in
  covers (regions d (sge_lkey sg)) (sge_addr sg) (sge_length sg) &&
  covers (exports d n (wr_rkey wr)) (remote_addr wr) (sge_length sg).

Definition with_pending (l : list (Z * Z * ibv_send_wr)) (d : device) : device :=
  Mk (memory d) (nodes d) (qp_node d) (qp_cq d) (regions d) (exports d) l.

Definition set_memory (m : mem) (d : device) : device :=
  Mk m (nodes d) (qp_node d) (qp_cq d) (regions d) (exports d) (pending d).

Definition carry_out (n : Z) (wr : ibv_send_wr) (rest : list (Z * Z * ibv_send_wr)) (d : device) : device :=
  let sg := sg_list wr in
  match opcode wr with
  | IBV_WR_RDMA_READ =>
      Mk (copy (nodes d n) (remote_addr wr) (memory d) (sge_addr sg) (sge_length sg))
         (nodes d) (qp_node d) (qp_cq d) (regions d) (exports d) rest
  | IBV_WR_RDMA_WRITE =>
      Mk (memory d)
         (λ m, if m =? n then copy (memory d) (sge_addr sg) (nodes d n) (remote_addr wr) (sge_length sg)
               else nodes d m)
         (qp_node d) (qp_cq d) (regions d) (exports d) rest
  | _ => with_pending rest d
  end.

#[export] Instance ideal_verbs : Verbs device := {
  host := Lens memory set_memory;
  ibv_post_send q wrs := λ d,
    match qp_node d !! q, qp_cq d !! q with
    | Some n, Some c => Done (0, with_pending (pending d ++ ((λ wr, (c, n, wr)) <$> wrs)) d)
    | _, _ => Done (22, d)
    end;
  ibv_post_recv q wrs := λ d, Done (0, d);
  ibv_poll_cq c _ wc := λ d,
    match pending d with
    | (c', n, wr) :: rest =>
        if c' =? c then
          if allowed n wr d then Done (1, Wc IBV_WC_SUCCESS, carry_out n wr rest d)
          else Done (1, Wc IBV_WC_REM_ACCESS_ERR, with_pending rest d)
        else Done (0, wc, d)
    | [] => Done (0, wc, d)
    end;
}.

#[export] Instance ideal_laws : VerbsLaws device.
Proof.
  unshelve refine {|
    remote_mem := nodes;
    connected d q c n := qp_node d !! q = Some n ∧ qp_cq d !! q = Some c ∧ pending d = [];
    local_mr := regions;
    remote_mr := exports;
  |}; try done.
  intros d q c n wr (Hn & Hc & Hp) _ Hop Hlo Hre. simpl. rewrite Hn, Hc, Hp.
  do 3 eexists. split; [reflexivity|].
  assert (Hall : allowed n wr d = true) by (by apply Is_true_true, andb_True).
  split; [apply completes_now; intros wc; simpl; rewrite Z.eqb_refl; unfold allowed in *; simpl; by rewrite Hall|].
  unfold effect, carry_out. destruct Hop as [-> | ->]; simpl.
  - by split_and!.
  - rewrite Z.eqb_refl. split_and!; try done. intros n' a Hne. by rewrite (proj2 (Z.eqb_neq _ _) Hne).
Defined.

(** A client connected to node 1 with the queue pairs 10, 11 and 12; the first 4 MB of its memory are
    registered, and 64 MB of the node; its byte at [a] is [a mod 251]. *)
Definition fabric : device :=
  Mk (λ a, a `mod` 251) (λ _ _, 0) {[10 := 1; 11 := 1; 12 := 1]} {[10 := 5; 11 := 5; 12 := 5]}
    (λ k, if k =? 9 then Some (0, 4194304) else None)
    (λ n k, if (n =? 1) && (k =? 77) then Some (65536, 67108864) else None) [].

Definition node1 : PeerSockData := Peer [10; 11; 12] 5 [] 65536 77 0 [] 3 1 0.

Definition client : RdmaSocket device :=
  Socket {[1 := node1]} [5] false 3 0 (Ptr (9, 10)) 0 [0; 0] [0; 0] (Some false) fabric.

Lemma client_linked T q : (T, q) = (0, 11) ∨ (T, q) = (1, 12) → linked client T 1 node1 q.
Proof. intros [[= -> ->]|[= -> ->]]; split; try done; lia. Qed.

Lemma client_ranges T send rcv size : 0 ≤ T < 2 → 4194304 ≤ send → 0 ≤ rcv → 0 ≤ size →
  send + size ≤ 2 ^ 64 → rcv + size ≤ 67108864 → ranges client T 1 node1 send rcv size.
Proof.
  intros. assert (Hp : SendPoolAddr client T = 4096 + T * 1048576) by (rewrite pool_addr; unfold SendPoolSize; simpl; lia).
  split; [done|lia|simpl; lia|unfold SendPoolSize; simpl; lia| | |].
  - right. rewrite Hp. unfold SendPoolSize. lia.
  - exists (9, 10). split; [done|]. rewrite Hp. apply andb_True. unfold SendPoolSize. rewrite !Is_true_true, !Z.leb_le. lia.
  - apply andb_True. simpl. rewrite !Is_true_true, !Z.leb_le. lia.
Qed.

End Ideal.

(** The memory of node 1 of the ideal fabric. *)
Definition nodes1 (s : RdmaSocket Ideal.device) : mem := Ideal.nodes (dev s) 1.
#[local] Existing Instances Ideal.ideal_verbs Ideal.ideal_laws.

(** The workers in turn; small transfers do not use them. *)
#[local] Instance in_turn : Sched := Nat.odd.

(** ** Transfers *)

Section theorems.
Context {Dev : Type} `{VerbsLaws Dev, Sched}.
Implicit Types (s : RdmaSocket Dev).

Abbreviation hmem s := (view host (dev s)).
Abbreviation rmem s n := (remote_mem (dev s) n).

(** C11: RemoteWrite of less than 4 MB returns true, for every sufficiently patient polling, and then the
    bytes of the caller's buffer are at their place in the memory of the node: nothing else changed
    on any node, and in the process only the staging pool did. *)
Theorem remote_write_places s n p q send rcv size :
  linked s 0 n p q → ranges s 0 n p send rcv size → WriteTest s = Some false → size < 4 * 1024 * 1024 →
  ∃ s', ev (λ pf, RemoteWrite pf send n rcv size) s true s' ∧
    (∀ x, 0 ≤ x < size → rmem s' n (RegisteredMemory p + rcv + x) = hmem s (send + x)) ∧
    (∀ m a, m ≠ n ∨ a < RegisteredMemory p + rcv ∨ RegisteredMemory p + rcv + size ≤ a →
      rmem s' m a = rmem s m a) ∧
    (∀ a, outside_pool s 0 a → hmem s' a = hmem s a) ∧ linked s' 0 n p q.
Proof.
  intros Hlk Hrg Ht Hsz.
  destruct (wpe_RemoteWrite s n p q send rcv size (λ b s', b = true ∧ sent s s' 0 n p send rcv size) Hlk Hrg Ht Hsz)
    as (b & s' & Hev & -> & [Hsame Hh Hr Ho]); [auto|]. exists s'. split; [done|]. split_and!.
  - intros x Hx. rewrite Hr, copy_in by lia. f_equal. lia.
  - intros m a Ha. destruct (decide (m = n)) as [->|Hne]; [|by apply Ho].
    rewrite Hr, copy_out; [done|]. destruct Ha as [?|?]; [done|lia].
  - done.
  - by eapply linked_same.
Qed.

(** C12: RemoteRead of less than 4 MB returns true, for every sufficiently patient polling, and then the
    bytes of the remote range are in the caller's buffer; no node changed, and in the process only
    the buffer and the staging pool did. *)
Theorem remote_read_fetches s n p q send rcv size :
  linked s 0 n p q → ranges s 0 n p send rcv size → size < 4 * 1024 * 1024 →
  ∃ s', ev (λ pf, RemoteRead pf send n rcv size) s true s' ∧
    (∀ x, 0 ≤ x < size → hmem s' (send + x) = rmem s n (RegisteredMemory p + rcv + x)) ∧
    (∀ m a, rmem s' m a = rmem s m a) ∧
    (∀ a, outside_pool s 0 a → a < send ∨ send + size ≤ a → hmem s' a = hmem s a).
Proof.
  intros Hlk Hrg Hsz.
  destruct (wpe_RemoteRead s n p q send rcv size (λ b s', b = true ∧ fetched s s' 0 n p send rcv size) Hlk Hrg Hsz)
    as (b & s' & Hev & -> & [Hsame Hh Hr]); [auto|]. exists s'. split; [done|].
  destruct Hrg as [_ _ _ _ Hap _ _]. split_and!; [|done|].
  - intros x Hx. rewrite Hh, copy_in by (try (unfold outside_pool); lia). f_equal. lia.
  - intros a Ha Hout. rewrite Hh, copy_out by (done || lia). done.
Qed.

End theorems.

Lemma remote_write_places_witness :
  ∃ s', ev (λ pf, RemoteWrite pf 5000000 1 4096 3000) Ideal.client true s' ∧
    nodes1 s' 70000 = 5000368 `mod` 251.
Proof.
  destruct (remote_write_places Ideal.client 1 Ideal.node1 11 5000000 4096 3000) as (s' & Hev & Hb & _).
  - by apply Ideal.client_linked; left.
  - by apply Ideal.client_ranges.
  - done.
  - done.
  - exists s'. split; [exact Hev|]. exact (Hb 368 ltac:(lia)).
Defined.

Lemma remote_read_fetches_witness :
  ∃ s', ev (λ pf, RemoteRead pf 5000000 1 4096 3000) Ideal.client true s' ∧
    Ideal.memory (dev s') 5000368 = 0.
Proof.
  destruct (remote_read_fetches Ideal.client 1 Ideal.node1 11 5000000 4096 3000) as (s' & Hev & Hb & _).
  - by apply Ideal.client_linked; left.
  - by apply Ideal.client_ranges.
  - done.
  - exists s'. split; [exact Hev|]. exact (Hb 368 ltac:(lia)).
Defined.

(** ** Polling *)

Section polling.
Context {Dev : Type} `{Verbs Dev}.
Implicit Types (s : RdmaSocket Dev).

Lemma peer_at_run s n p : 0 ≤ n < 1000 → peers s !! n = Some p → peer_at n s = Done (p, s).
Proof.
  intros Hn Hp. unfold peer_at. rewrite (proj2 (Z.ltb_lt _ _)) by lia. unfold gets, mbind, M_bind.
  by rewrite Hp.
Qed.

Lemma poll_loop_spins fuel q PollNumber c wc s :
  (∀ wc', ibv_poll_cq q 1 wc' (dev s) = Done (-1, wc', dev s)) →
  0 < PollNumber → - 2 ^ 31 + Z.of_nat fuel ≤ c ≤ 0 →
  poll_loop fuel q PollNumber c wc s = Fault OutOfFuel.
Proof.
  intros Hp Hn. revert c wc. induction fuel as [|fuel IH]; intros c wc Hc; [done|]. simpl.
  assert (E : zoom device (ibv_poll_cq q 1 wc) s = Done (-1, wc, s)).
  { unfold zoom. simpl. rewrite Hp. by destruct s. }
  rewrite (outcome_bind_done _ _ _ _ _ E). simpl. rewrite s32_small by lia.
  rewrite (proj2 (Z.ltb_lt _ _)) by lia. apply IH. lia.
Qed.

(** An error of the completion queue is never reported: when ibv_poll_cq fails (a negative count),
    PollCompletion adds the negative count up and polls on (for two billion rounds, until the counter
    overflows); the test count < 0 behind the loop is not reached. *)
Theorem poll_error_spins pf s n p PollNumber wc :
  0 ≤ n < 1000 → peers s !! n = Some p → 0 < PollNumber → Z.of_nat pf ≤ 2 ^ 31 →
  (∀ wc', ibv_poll_cq (peer_cq p) 1 wc' (dev s) = Done (-1, wc', dev s)) →
  PollCompletion pf n PollNumber wc s = Fault OutOfFuel.
Proof.
  intros Hn Hp Hpn Hpf Hfail. unfold PollCompletion.
  rewrite (outcome_bind_done _ _ _ _ _ (peer_at_run s n p Hn Hp)).
  apply outcome_bind_fault, poll_loop_spins; [done..|lia].
Qed.

(** Whatever the device does, a count that PollCompletion returns is at least the one asked for. *)
Lemma poll_loop_count fuel q PollNumber c wc s r s' :
  poll_loop fuel q PollNumber c wc s = Done (r, s') → PollNumber ≤ r.1.
Proof.
  revert c wc s. induction fuel as [|fuel IH]; intros c wc s; [done|]. simpl.
  destruct (zoom device (ibv_poll_cq q 1 wc) s) as [[[k wc'] s1]|f] eqn:E.
  - rewrite (outcome_bind_done _ _ _ _ _ E). simpl.
    destruct (Z.ltb_spec (s32 (c + k)) PollNumber); [apply IH|]. intros [= <- <-]. done.
  - by rewrite (outcome_bind_fault _ _ _ _ E).
Qed.
End polling.

(** A device whose polls always fail. *)
#[local] Instance broken_verbs : Verbs unit := {
  host := Lens (λ _ _, 0) (λ _ u, u);
  ibv_post_send _ _ := λ u, Done (0, u);
  ibv_post_recv _ _ := λ u, Done (0, u);
  ibv_poll_cq _ _ wc := λ u, Done (-1, wc, u);
}.

Lemma poll_error_spins_witness :
  PollCompletion 1000 1 1 uninit_wc (Socket {[1 := Ideal.node1]} [5] false 3 0 (Ptr (9, 10)) 0 [] [] (Some false) tt) = Fault OutOfFuel.
Proof.
  apply (poll_error_spins 1000 _ 1 Ideal.node1 1 uninit_wc); try done.
Defined.

(** ** Batches *)

Section batches.
Context {Dev : Type} `{Verbs Dev}.
Implicit Types (s : RdmaSocket Dev).

Lemma set_peer_twice s n p p' : set_peer n p' (set_peer n p s) = set_peer n p' s.
Proof. unfold set_peer. simpl. by rewrite insert_insert_eq. Qed.

Definition bumped (p : PeerSockData) (k : Z) : PeerSockData :=
  Peer (qp p) (peer_cq p) (qpNum p) (RegisteredMemory p) (peer_rkey p) (peer_lid p) (peer_gid p)
       (peer_sock p)
       (peer_NodeID p) (counter p + k).

Lemma due_mod p : 0 ≤ counter p → due p = (counter p `mod` 32 =? 0).
Proof. intros _. unfold due, SIGNAL_BATCH. by rewrite (land_mask 5). Qed.

(** Whether the loop that fills the next [k] requests to [p] is to collect a completion. *)
Definition collects (p : PeerSockData) (k : Z) : bool :=
  existsb (λ i, ((counter p + i) `mod` 32 =? 0) && (0 <? counter p + i)) (seqZ 0 k).

(** The device after that: a client polls until the completion is reported. *)
Definition collected s (p : PeerSockData) (k : Z) (d' : Dev) : Prop :=
  if negb (isServer s) && collects p k then ∃ j, completes (peer_cq p) j (dev s) d' else d' = dev s.

Lemma bumped_bump p i : 0 ≤ counter p → counter p + 1 < 2 ^ 64 → bumped (bump p) i = bumped p (1 + i).
Proof. intros. unfold bumped, bump. simpl. rewrite u64_small by lia. f_equal. lia. Qed.

Lemma collects_cons p k : 0 ≤ counter p → counter p + 1 < 2 ^ 64 →
  collects p (Z.of_nat (S k)) = (due p && (0 <? counter p)) || collects (bump p) (Z.of_nat k).
Proof.
  intros Hc Hm. unfold collects. rewrite (seqZ_cons 0) by lia. cbn [existsb]. rewrite Z.add_0_r, due_mod by done. f_equal.
  replace (seqZ (Z.succ 0) (Z.pred (Z.of_nat (S k)))) with (Z.add 1 <$> seqZ 0 (Z.of_nat k)) by
    (rewrite fmap_add_seqZ; f_equal; lia).
  induction (seqZ 0 (Z.of_nat k)) as [|i l IH]; [done|]. cbn [existsb fmap list_fmap]. rewrite <- IH.
  unfold bump at 1 2. cbn [counter]. rewrite u64_small by lia. by replace (counter p + 1 + i) with (counter p + (1 + i)) by lia.
Qed.

(** One request in 32: after one that is due come 31 that are not. *)
Lemma collects_none p k : 0 ≤ counter p → counter p + 1 < 2 ^ 64 → due p = true → Z.of_nat k < 32 →
  collects (bump p) (Z.of_nat k) = false.
Proof.
  intros Hc Hm Hd Hk. rewrite due_mod in Hd by done. apply Z.eqb_eq in Hd. unfold collects, bump. cbn [counter].
  rewrite u64_small by lia. apply not_true_is_false. intros (i & Hi & Hb)%existsb_exists.
  apply list_elem_of_In, elem_of_seqZ in Hi. apply andb_prop in Hb as [Hb%Z.eqb_eq _].
  pose proof (Z.div_mod (counter p) 32 ltac:(done)). pose proof (Z.div_mod (counter p + 1 + i) 32 ltac:(done)). lia.
Qed.

(** The loop that fills the array. *)
Lemma fill_batch_run n mk key k : ∀ p w s d',
  mr s = Ptr key → 0 ≤ n < 1000 → peers s !! n = Some p → 0 ≤ counter p →
  counter p + Z.of_nat k < 2 ^ 64 → 0 ≤ w → w + Z.of_nat k ≤ MAX_POST_LIST → collected s p (Z.of_nat k) d' →
  (∀ s' s'' p' i, MyNodeID s' = MyNodeID s'' → mk key.1 s' p' i = mk key.1 s'' p' i) →
  ∃ K, ∀ fuel, (K ≤ fuel)%nat → fill_batch fuel n mk k w s = Done
    ((λ i, mk key.1 s (bumped p i) (w + i)) <$> seqZ 0 (Z.of_nat k),
     if decide (k = 0%nat) then s else set_peer n (bumped p (Z.of_nat k)) (update device d' s)).
Proof.
  induction k as [|k IH]; intros p w s d' Hkey Hn Hp Hc Hmax Hw Hcap Hcol Hmk; [by exists 0%nat|].
  set (polls := due p && (0 <? counter p) && negb (isServer s)).
  assert (Hone : ∃ d1 K1, (∀ fuel, (K1 ≤ fuel)%nat →
      (if polls then PollCompletion fuel n 1 uninit_wc;; mret () else mret ()) s = Done (tt, update device d1 s)) ∧
      collected (set_peer n (bump p) (update device d1 s)) (bump p) (Z.of_nat k) d').
  { unfold collected in *. rewrite collects_cons in Hcol by lia.
    destruct polls eqn:Hpl; unfold polls in Hpl.
    - apply andb_prop in Hpl as [Hdue Hcl]. rewrite Hcl, Hdue in Hcol. apply andb_prop in Hdue as [Hdue Hpos]. cbn [orb andb] in Hcol.
      destruct Hcol as [j Hj]. destruct (poll_completes _ _ _ _ s uninit_wc Hj eq_refl) as [K HK]. exists d', K. split.
      + intros fuel Hf. unfold PollCompletion, mbind, M_bind. rewrite (peer_at_run s n p Hn Hp), (HK fuel Hf). done.
      + assert (Hno : collects (bump p) (Z.of_nat k) = false) by (apply collects_none; unfold MAX_POST_LIST in *; lia || done).
        change (isServer (set_peer _ _ _)) with (isServer s). by rewrite Hno, andb_false_r.
    - exists (dev s), 0%nat. split; [intros fuel _; by rewrite (with_device_self s : update device (dev s) s = s)|].
      change (isServer (set_peer _ _ _)) with (isServer s). destruct (negb (isServer s)) eqn:Hcl; [|done]. rewrite andb_true_r in Hpl. rewrite Hpl in Hcol.
      exact Hcol. }
  destruct Hone as (d1 & K1 & Hone & Hcol1). set (s1 := set_peer n (bump p) (update device d1 s)) in *.
  destruct (IH (bump p) (w + 1) s1 d') as [K2 HK2]; [done|done|apply lookup_insert_eq| |simpl; rewrite u64_small; lia|lia|lia|done|done|].
  { simpl. apply Z.mod_pos_bound. lia. }
  exists (Nat.max K1 K2). intros fuel Hf. specialize (Hone fuel ltac:(lia)). specialize (HK2 fuel ltac:(lia)).
  cbn [fill_batch]. rewrite (outcome_bind_done _ _ _ s s eq_refl).
  rewrite (outcome_bind_done _ _ _ _ _ (peer_at_run s n p Hn Hp)). fold polls.
  rewrite (outcome_bind_done _ _ _ _ _ Hone). unfold MAX_POST_LIST in *.
  rewrite (proj2 (Z.ltb_lt w 24)) by lia. rewrite (outcome_bind_done _ _ _ tt (update device d1 s) eq_refl).
  rewrite (outcome_bind_done _ _ _ _ _ (local_key_run (update device d1 s) key Hkey)).
  rewrite (outcome_bind_done _ _ _ tt s1 eq_refl), (outcome_bind_done _ _ _ _ _ HK2).
  rewrite (decide_False (P := S k = 0%nat)) by done. unfold mret, M_ret. f_equal. f_equal.
  - rewrite (seqZ_cons 0 (Z.of_nat (S k))) by lia. rewrite fmap_cons. f_equal.
    + rewrite Z.add_0_r. f_equal. unfold bumped. destruct p. simpl. by rewrite Z.add_0_r.
    + replace (seqZ (Z.succ 0) (Z.pred (Z.of_nat (S k)))) with (Z.add 1 <$> seqZ 0 (Z.of_nat k)) by
        (rewrite fmap_add_seqZ; f_equal; lia).
      rewrite <- list_fmap_compose. apply list_fmap_ext. intros _ i _. simpl. rewrite bumped_bump by lia.
      replace (w + 1 + i) with (w + (1 + i)) by lia. by apply Hmk.
  - destruct (decide (k = 0%nat)) as [->|].
    + unfold collected in Hcol1. change (collects (bump p) (Z.of_nat 0)) with false in Hcol1. rewrite andb_false_r in Hcol1.
      subst d'. unfold s1, bump, bumped. simpl. by rewrite u64_small by lia.
    + unfold s1. change (update device d' (set_peer n (bump p) (update device d1 s))) with (set_peer n (bump p) (update device d' s)).
      rewrite set_peer_twice, bumped_bump by lia. f_equal. f_equal. lia.
Qed.
End batches.

(** C28: _RdmaBatchWrite of 1 to 24 requests posts them as one chain to the first queue pair: request [i]
    moves [len] bytes from SourceBuffer + 4096 i to DesBuffer + 4096 i of the peer's region,
    and asks for a completion exactly when the peer's running count of requests is a multiple of 32.
    A client that comes past such a request first polls until a completion is reported; a server does
    not.  With [imm] 0 the requests are plain writes, with any other value - also with -1, which the
    header file documents as a plain write - writes with that immediate value. *)
Theorem batch_write_chain {Dev} `{Verbs Dev} (s : RdmaSocket Dev) n p q key src des len imm k d' :
  mr s = Ptr key → 0 ≤ n < 1000 → peers s !! n = Some p → qp p !! 0%nat = Some q →
  0 ≤ counter p → counter p + k < 2 ^ 64 → 1 ≤ k ≤ MAX_POST_LIST → 0 ≤ imm < 2 ^ 32 → collected s p k d' →
  ∃ K, ∀ fuel, (K ≤ fuel)%nat → RdmaBatchWrite fuel n src des len imm k s =
    post_send q ((λ i, SendWr 0 (Sge (u64 (src + i * 4096)) (u32 len) key.1)
        (if imm =? 0 then IBV_WR_RDMA_WRITE else IBV_WR_RDMA_WRITE_WITH_IMM)
        ((counter p + i) `mod` 32 =? 0) imm (u64 (des + RegisteredMemory p + i * 4096)) (peer_rkey p) 0 0)
        <$> seqZ 0 k) (set_peer n (bumped p k) (update device d' s)).
Proof.
  intros Hkey Hn Hp Hq Hc Hmax Hk Himm Hcol. rewrite <- (Z2Nat.id k) in Hcol by lia.
  destruct (fill_batch_run n (λ lk s p w_i, SendWr 0 (Sge (u64 (src + w_i * 4096)) (u32 len) lk)
      (if s32 imm =? 0 then IBV_WR_RDMA_WRITE else IBV_WR_RDMA_WRITE_WITH_IMM)
      (due p) (if s32 imm =? 0 then 0 else imm)
      (u64 (des + RegisteredMemory p + w_i * 4096)) (peer_rkey p) 0 0) key (Z.to_nat k) p 0 s d') as [K HK]; [done..|lia|lia|lia|done|done|].
  exists K. intros fuel Hf. specialize (HK fuel Hf). unfold RdmaBatchWrite, post_batch.
  rewrite (outcome_bind_done _ _ _ _ _ HK), decide_False, Z2Nat.id by lia. set (s' := set_peer n _ _).
  assert (E : peer_at n s' = Done (bumped p k, s')) by (apply peer_at_run; [done|apply lookup_insert_eq]).
  rewrite (outcome_bind_done _ _ _ _ _ E). simpl. rewrite Hq. rewrite (outcome_bind_done _ _ _ q _ eq_refl).
  assert (Hz : (s32 imm =? 0) = (imm =? 0)).
  { destruct (Z.eqb_spec imm 0) as [->|Hne]; [done|]. apply Z.eqb_neq. unfold s32.
    pose proof (Z.div_mod (imm + 2 ^ 31) (2 ^ 32) ltac:(done)). pose proof (Z.mod_pos_bound (imm + 2 ^ 31) (2 ^ 32) ltac:(done)). lia. }
  rewrite Hz.
  lazymatch goal with |- match ?l with [] => _ | _ => _ end _ = post_send _ ?r _ =>
    assert (Hw : l = r); [|rewrite Hw; destruct r eqn:Ew; [|done]] end.
  - apply list_fmap_ext. intros _ i Hi%list_elem_of_lookup_2%elem_of_seqZ. rewrite due_mod by (simpl; lia).
    by destruct (Z.eqb_spec imm 0) as [->|].
  - apply (f_equal length) in Ew. rewrite length_fmap, length_seqZ in Ew. simpl in Ew. lia.
Qed.

(** The client of the example, which has one request outstanding when it comes past its 32nd. *)
Definition busy : RdmaSocket Ideal.device :=
  Socket {[1 := bumped Ideal.node1 31]} [5] false 3 0 (Ptr (9, 10)) 0 [0; 0] [0; 0] (Some false)
    (Ideal.with_pending [(5, 1, SendWr 0 (Sge 4096 8 9) IBV_WR_RDMA_READ true 0 65536 77 0 0)] Ideal.fabric).

Lemma batch_write_chain_witness : ∃ d' K, ∀ fuel, (K ≤ fuel)%nat →
  RdmaBatchWrite fuel 1 4096 0 4096 7 2 busy =
    post_send 10 [SendWr 0 (Sge 4096 4096 9) IBV_WR_RDMA_WRITE_WITH_IMM false 7 65536 77 0 0;
                  SendWr 0 (Sge 8192 4096 9) IBV_WR_RDMA_WRITE_WITH_IMM true 7 69632 77 0 0]
      (set_peer 1 (bumped Ideal.node1 33) (update device d' busy)) ∧ Ideal.pending d' = [].
Proof.
  set (d' := Ideal.carry_out 1 (SendWr 0 (Sge 4096 8 9) IBV_WR_RDMA_READ true 0 65536 77 0 0) [] (dev busy)).
  exists d'. destruct (batch_write_chain busy 1 (bumped Ideal.node1 31) 10 (9, 10) 4096 0 4096 7 2 d') as [K HK].
  - reflexivity.
  - lia.
  - reflexivity.
  - reflexivity.
  - done.
  - done.
  - done.
  - lia.
  - exists 0%nat. apply completes_now. intros wc. reflexivity.
  - exists K. intros fuel Hf. split; [exact (HK fuel Hf)|reflexivity].
Defined.
