(* ===== verification/RdmaEquiv.v ===== *)
(** * A transfer worker that runs alone: it carries out its task.

    The steps of DataTransferWorker cut the code of a worker at its polls.  Put together again, without the
    other worker in between, they are InboundHamal or OutboundHamal ([worker_alone_is_hamal]), and so
    they move the bytes of the task ([worker_alone_transfers]). *)
From S2P Require Import Prelude Rdma RdmaLaws RdmaTheorems.
Local Open Scope Z_scope.

Section alone.
Context {Dev : Type} `{Verbs Dev}.
Implicit Types (s : RdmaSocket Dev) (t : TransferTask).

Abbreviation Sock := (M (RdmaSocket Dev)).

(** The steps of one worker until it is back in PopPolling. *)
Fixpoint run_worker (n pf : nat) (id : Z) (w : worker) : Sock worker :=
  match w_pc w with
  | WIdle => mret w
  | _ => match n with
         | O => fail OutOfFuel
         | S n' => w' ← DataTransferWorker pf id w; run_worker n' pf id w'
         end
  end.

(** What a worker calls for its task. *)
Definition Hamal (pf : nat) (id : Z) (t : TransferTask) : Sock bool :=
  if OpType t then OutboundHamal pf id (bufferSend t) (task_NodeID t) (bufferReceive t) (task_size t)
  else InboundHamal pf id (bufferSend t) (task_NodeID t) (bufferReceive t) (task_size t).

(** ** Both loops as one *)

(** A round up to PollCompletion, and from there on. *)
Definition before (id : Z) t (n : Z) : Sock unit :=
  pool ← gets (λ s, SendPoolAddr s id);
  let len := SendSize (task_size t) n in
  (if OpType t then
     memcpy pool (u64 (bufferSend t + n)) len;;
     RdmaWrite (task_NodeID t) pool (u64 (bufferReceive t + n)) len (-1) (id + 1)
   else RdmaRead (task_NodeID t) pool (u64 (bufferReceive t + n)) len (id + 1));;
  mret ().

Definition after (pf : nat) (id : Z) t (n : Z) : Sock unit := worker_round_end pf id t n;; mret ().

Fixpoint rounds_loop (fuel pf tf : nat) (id : Z) t (n : Z) : Sock unit :=
  match fuel with
  | O => fail OutOfFuel
  | S fuel =>
      if n <? task_size t then
        before id t n;;
        PollCompletion pf (task_NodeID t) 1 uninit_wc;;
        after tf id t n;;
        rounds_loop fuel pf tf id t (u64 (n + SendSize (task_size t) n))
      else mret ()
  end.

Lemma dev_pool s d id : SendPoolAddr (update device d s) id = SendPoolAddr s id.
Proof. done. Qed.

(** ** What a request and its completion leave alone *)

(** A part [f] of the socket that the device is no part of. *)
Section keeping.
Context {B : Type} (f : RdmaSocket Dev → B) (Hf : ∀ d s, f (update device d s) = f s).

Definition keeps {A} (m : Sock A) : Prop := ∀ s a s', m s = Done (a, s') → f s' = f s.

Lemma keeps_zoom {A} (m : M Dev A) : keeps (zoom device m).
Proof using Hf. intros s a s'. unfold zoom. destruct (m _) as [[? ?]|]; [|done]. intros [= _ <-]. apply Hf. Qed.

Lemma keeps_bind {A C} (m : Sock A) (k : A → Sock C) : keeps m → (∀ a, keeps (k a)) → keeps (m ≫= k).
Proof.
  intros Hm Hk s c s'. unfold mbind, M_bind. destruct (m s) as [[a s1]|] eqn:E; [|done].
  intros ->%Hk. by eapply Hm.
Qed.

Lemma keeps_same {A} (m : Sock A) : (∀ s a s', m s = Done (a, s') → s' = s) → keeps m.
Proof. intros Hm s a s' E. by rewrite (Hm _ _ _ E). Qed.

Lemma keeps_peer n : keeps (peer_at (Dev := Dev) n).
Proof.
  apply keeps_same. intros s a s'. unfold peer_at. case_match; [|done]. unfold gets, mbind, M_bind, or_fault.
  case_match; [|done]. by intros [= _ <-].
Qed.

Lemma keeps_key : keeps (local_key (Dev := Dev)).
Proof. apply keeps_same. intros s a s'. unfold local_key, get, mbind, M_bind. destruct (mr s); [done..|]. by intros [= _ <-]. Qed.

Lemma keeps_or_fault {A} x (o : option A) : keeps (or_fault x o).
Proof. apply keeps_same. intros s a s'. unfold or_fault. destruct o; [|done]. by intros [= _ <-]. Qed.

Lemma keeps_get : keeps (get (S := RdmaSocket Dev)).
Proof. apply keeps_same. by intros s a s' [= _ <-]. Qed.

Lemma keeps_gets {A} (g : RdmaSocket Dev → A) : keeps (gets g).
Proof. apply keeps_same. by intros s a s' [= _ <-]. Qed.

Lemma keeps_ret {A} (a : A) : keeps (mret a).
Proof. apply keeps_same. by intros s b s' [= _ <-]. Qed.

Hint Resolve keeps_zoom keeps_bind keeps_peer keeps_key keeps_or_fault keeps_get keeps_gets keeps_ret : keeps.

Lemma keeps_post q l : keeps (post_send (Dev := Dev) q l).
Proof using Hf. unfold post_send. auto with keeps. Qed.

Lemma keeps_memcpy dst src n : keeps (memcpy (Dev := Dev) dst src n).
Proof using Hf. unfold memcpy. auto with keeps. Qed.

Lemma keeps_poll_loop fuel : ∀ q n c wc, keeps (poll_loop (Dev := Dev) fuel q n c wc).
Proof using Hf.
  induction fuel as [|fuel IH]; intros q n c wc; simpl; [done|]. apply keeps_bind; [auto with keeps|].
  intros r. case_match; auto with keeps.
Qed.

Lemma keeps_write n pool des len imm k : keeps (RdmaWrite (Dev := Dev) n pool des len imm k).
Proof using Hf. unfold RdmaWrite. auto 6 using keeps_post with keeps. Qed.

Lemma keeps_read n pool des len k : keeps (RdmaRead (Dev := Dev) n pool des len k).
Proof using Hf. unfold RdmaRead. auto 6 using keeps_post with keeps. Qed.

Lemma keeps_PollCompletion fuel n k wc : keeps (PollCompletion (Dev := Dev) fuel n k wc).
Proof using Hf. unfold PollCompletion. auto using keeps_poll_loop with keeps. Qed.

Lemma keeps_before id t n : keeps (before id t n).
Proof using Hf.
  unfold before. apply keeps_bind; [auto with keeps|]. intros pool. apply keeps_bind; [|auto with keeps].
  destruct (OpType t); auto using keeps_memcpy, keeps_write, keeps_read with keeps.
Qed.
End keeping.

(** The address of the pool behind the request and its completion. *)
Lemma same_pool id t n pf k wc s u s1 r s2 : before id t n s = Done (u, s1) →
  PollCompletion pf (task_NodeID t) k wc s1 = Done (r, s2) → SendPoolAddr s2 id = SendPoolAddr s id.
Proof.
  intros E1%(keeps_before mm) E2%(keeps_PollCompletion mm); try done. unfold SendPoolAddr. by rewrite E2, E1.
Qed.

Lemma rounds_outbound fuel pf id t : OpType t = true → ∀ n s,
  outbound_loop fuel pf id (bufferSend t) (task_NodeID t) (bufferReceive t) (task_size t) n s =
  rounds_loop fuel pf pf id t n s.
Proof.
  intros Hop. induction fuel as [|fuel IH]; intros n s; [done|]. cbn [outbound_loop rounds_loop].
  destruct (n <? task_size t); [|done].
  pose proof (same_pool id t n pf 1 uninit_wc s) as Hpool. revert Hpool.
  unfold before, after, worker_round_end. rewrite Hop. unfold mbind, M_bind, gets.
  destruct (memcpy _ _ _ s) as [[[] s1]|]; [|done]. destruct (RdmaWrite _ _ _ _ _ _ s1) as [[b s2]|]; [|done].
  cbn [mret M_ret]. intros Hpool.
  destruct (PollCompletion pf (task_NodeID t) 1 uninit_wc s2) as [[r s3]|] eqn:Ep; [|done].
  rewrite (Hpool tt s2 r s3 eq_refl Ep). unfold modify.
  destruct (write_test _ _ _ _ _ _) as [[[] s4]|]; [|done]. apply IH.
Qed.

Lemma rounds_inbound fuel pf tf id t : OpType t = false → ∀ n s,
  inbound_loop fuel pf id (bufferSend t) (task_NodeID t) (bufferReceive t) (task_size t) n s =
  rounds_loop fuel pf tf id t n s.
Proof.
  intros Hop. induction fuel as [|fuel IH]; intros n s; [done|]. cbn [inbound_loop rounds_loop].
  destruct (n <? task_size t); [|done].
  pose proof (same_pool id t n pf 1 uninit_wc s) as Hpool. revert Hpool.
  unfold before, after, worker_round_end. rewrite Hop. unfold mbind, M_bind, gets.
  destruct (RdmaRead _ _ _ _ _ s) as [[b s2]|]; [|done]. cbn [mret M_ret]. intros Hpool.
  destruct (PollCompletion pf (task_NodeID t) 1 uninit_wc s2) as [[r s3]|] eqn:Ep; [|done].
  rewrite (Hpool tt s2 r s3 eq_refl Ep). unfold modify.
  destruct (memcpy _ _ _ s3) as [[[] s4]|]; [|done]. apply IH.
Qed.

Lemma Hamal_rounds pf id t s : Hamal pf id t s =
  (rounds_loop (chunk_fuel (task_size t)) pf pf id t 0;; signal_done;; mret true) s.
Proof.
  unfold Hamal, OutboundHamal, InboundHamal, mbind, M_bind.
  destruct (OpType t) eqn:Hop; [by rewrite rounds_outbound|by rewrite (rounds_inbound _ pf pf)].
Qed.

(** ** Polls *)

Lemma poll_loop_more f q c wc s r : poll_loop f q 1 c wc s = Done r → ∀ g, (f ≤ g)%nat → poll_loop g q 1 c wc s = Done r.
Proof.
  revert c wc s. induction f as [|f IH]; intros c wc s; [done|]. intros E [|g] Hg; [lia|]. simpl in *.
  unfold mbind, M_bind in *. destruct (zoom _ _ _) as [[x s1]|]; [|done].
  destruct (s32 (c + x.1) <? 1); [apply IH; [done|lia]|done].
Qed.

Lemma peers_zoom {A} (m : M Dev A) s a s' : zoom device m s = Done (a, s') → peers s' = peers s.
Proof. unfold zoom. destruct (m _) as [[? ?]|]; [|done]. by intros [= _ <-]. Qed.

Lemma peer_at_same n s s' p : peers s' = peers s → peer_at n s = Done (p, s) → peer_at n s' = Done (p, s').
Proof.
  unfold peer_at. case_match; [|done]. unfold gets, mbind, M_bind. intros ->. destruct (peers s !! n); [|done].
  cbn. by intros [= <-].
Qed.

Lemma peer_at_state n s p s' : peer_at n s = Done (p, s') → s' = s.
Proof.
  unfold peer_at. case_match; [|done]. unfold gets, mbind, M_bind. destruct (peers s !! n); [|done].
  cbn. by intros [= _ <-].
Qed.

(** The polls of a worker are those of PollCompletion. *)
Lemma polls_of_loop pf id t tot p f : ∀ c wc s r s1, peer_at (task_NodeID t) s = Done (p, s) →
  poll_loop f (peer_cq p) 1 c wc s = Done (r, s1) →
  ∃ j, ∀ m, run_worker (j + m) pf id (Worker t tot (WPoll c wc)) s =
    (w ← worker_round_end pf id t tot; run_worker m pf id w) s1.
Proof.
  induction f as [|f IH]; intros c wc s r s1 Hp; [done|]. simpl. unfold mbind at 1, M_bind.
  destruct (zoom device (ibv_poll_cq (peer_cq p) 1 wc) s) as [[x s2]|] eqn:Ez; [|done].
  pose proof (peer_at_same _ _ _ _ (peers_zoom _ _ _ _ Ez) Hp) as Hp2. 
  destruct (s32 (c + x.1) <? 1) eqn:Ec; intros E.
  - destruct (IH _ _ _ _ _ Hp2 E) as [j Hj]. exists (S j). intros m. simpl. unfold DataTransferWorker. simpl.
    unfold mbind, M_bind in *. rewrite Hp. rewrite Ez, Ec. simpl. apply Hj.
  - injection E as <- <-. exists 1%nat. intros m. simpl. unfold DataTransferWorker. simpl. unfold mbind, M_bind. rewrite Hp, Ez, Ec.
    done.
Qed.

Lemma loop_of_polls pf id t tot m : ∀ c wc s r, run_worker m pf id (Worker t tot (WPoll c wc)) s = Done r →
  ∃ p f c' s1 m', peer_at (task_NodeID t) s = Done (p, s) ∧ poll_loop f (peer_cq p) 1 c wc s = Done (c', s1) ∧
    (m' < m)%nat ∧ (w ← worker_round_end pf id t tot; run_worker m' pf id w) s1 = Done r.
Proof.
  induction m as [|m IH]; intros c wc s r; [done|]. simpl. unfold DataTransferWorker. simpl. unfold mbind, M_bind.
  destruct (peer_at (task_NodeID t) s) as [[p s0]|] eqn:Hp; [|done]. pose proof (peer_at_state _ _ _ _ Hp) as ->.
  destruct (zoom device (ibv_poll_cq (peer_cq p) 1 wc) s) as [[x s2]|] eqn:Ez; [|done].
  pose proof (peer_at_same _ _ _ _ (peers_zoom _ _ _ _ Ez) Hp) as Hp2.
  destruct (s32 (c + x.1) <? 1) eqn:Ec; intros E.
  - destruct (IH _ _ _ _ E) as (p' & f & c' & s1 & m' & Hp' & Hf & Hm & Hr). rewrite Hp2 in Hp'. injection Hp' as <-.
    exists p, (S f), c', s1, m'. split; [done|]. split; [|split; [lia|exact Hr]]. simpl. unfold mbind at 1, M_bind. by rewrite Ez, Ec.
  - exists p, 1%nat, (s32 (c + x.1), x.2), s2, m. split; [done|]. split; [|split; [lia|exact E]]. simpl. unfold mbind, M_bind. by rewrite Ez, Ec.
Qed.

(** ** Rounds *)

Lemma worker_post_before id t n s : n < task_size t →
  worker_post id t n s = (before id t n;; mret (Worker t n (WPoll 0 uninit_wc))) s.
Proof.
  intros Hn. unfold worker_post, before. rewrite (proj2 (Z.ltb_lt _ _)) by done. unfold mbind, M_bind, gets.
  destruct (OpType t); [destruct (memcpy _ _ _ s) as [[[] s1]|]; [|done]|];
    [destruct (RdmaWrite _ _ _ _ _ _ s1) as [[b s2]|]|destruct (RdmaRead _ _ _ _ _ s) as [[b s2]|]]; done.
Qed.

Lemma round_end_after tf id t n s w s' : worker_round_end tf id t n s = Done (w, s') →
  w = Worker t (u64 (n + SendSize (task_size t) n)) WTop ∧ after tf id t n s = Done (tt, s').
Proof.
  intros E. unfold after, mbind at 1, M_bind. rewrite E. split; [|done]. revert E. unfold worker_round_end.
  unfold gets, mbind, M_bind. repeat (case_match; try done); by intros [= <- _].
Qed.

Lemma after_round_end tf id t n s s' : after tf id t n s = Done (tt, s') →
  worker_round_end tf id t n s = Done (Worker t (u64 (n + SendSize (task_size t) n)) WTop, s').
Proof.
  unfold after, mbind at 1, M_bind. destruct (worker_round_end tf id t n s) as [[w s1]|] eqn:E; [|done].
  destruct (round_end_after _ _ _ _ _ _ _ E) as [-> _]. by intros [= <-].
Qed.

Lemma PollCompletion_inv pf n s r s' : PollCompletion pf n 1 uninit_wc s = Done (r, s') →
  ∃ p c, peer_at n s = Done (p, s) ∧ poll_loop pf (peer_cq p) 1 0 uninit_wc s = Done (c, s').
Proof.
  unfold PollCompletion, mbind, M_bind. destruct (peer_at n s) as [[p s0]|] eqn:Hp; [|done].
  pose proof (peer_at_state _ _ _ _ Hp) as ->. destruct (poll_loop _ _ _ _ _ s) as [[c s1]|] eqn:E; [|done].
  intros [= _ <-]. by exists p, c.
Qed.

Lemma PollCompletion_of pf n s p c s' : peer_at n s = Done (p, s) →
  poll_loop pf (peer_cq p) 1 0 uninit_wc s = Done (c, s') → ∀ g, (pf ≤ g)%nat →
  PollCompletion g n 1 uninit_wc s = Done (check_status c, s').
Proof.
  intros Hp Hc g Hg. unfold PollCompletion, mbind, M_bind. by rewrite Hp, (poll_loop_more _ _ _ _ _ _ Hc g Hg).
Qed.

Lemma worker_of_rounds fuel pf tf id t : ∀ n s s', rounds_loop fuel pf tf id t n s = Done (tt, s') →
  ∃ j tot, ∀ m, run_worker (j + m) tf id (Worker t n WTop) s = Done (Worker t tot WIdle, set_signal (u16 (TransferSignal s' + 1)) s').
Proof.
  induction fuel as [|fuel IH]; intros n s s'; [done|]. cbn [rounds_loop]. destruct (n <? task_size t) eqn:Hn.
  - unfold mbind, M_bind. destruct (before id t n s) as [[[] s1]|] eqn:Eb; [|done].
    destruct (PollCompletion pf (task_NodeID t) 1 uninit_wc s1) as [[r s2]|] eqn:Ep; [|done].
    destruct (after tf id t n s2) as [[[] s3]|] eqn:Ea; [|done]. intros Er.
    destruct (PollCompletion_inv _ _ _ _ _ Ep) as (p & c & Hp & Hc).
    destruct (polls_of_loop tf id t n p _ _ _ _ _ _ Hp Hc) as [j1 Hj1]. destruct (IH _ _ _ Er) as (j2 & tot & Hj2).
    exists (S (j1 + j2)), tot. intros m. simpl. unfold DataTransferWorker. simpl.
    unfold mbind at 1, M_bind. rewrite worker_post_before by by apply Z.ltb_lt. unfold mbind, M_bind in *. rewrite Eb. simpl.
    rewrite <- Nat.add_assoc, Hj1. rewrite (after_round_end _ _ _ _ _ _ Ea). apply Hj2.
  - intros [= <-]. exists 1%nat, n. intros m. simpl. unfold DataTransferWorker, worker_post. simpl.
    unfold mbind, M_bind. rewrite Hn. simpl. by destruct m.
Qed.

Lemma write_test_off tf tf' pool id n des s : WriteTest s = Some false →
  write_test tf pool id n des s = write_test tf' pool id n des s.
Proof. intros Ht. unfold write_test, gets, mbind, M_bind. by rewrite Ht. Qed.

Lemma after_off tf tf' id t n s : WriteTest s = Some false → after tf id t n s = after tf' id t n s ∧
  ∀ s', after tf id t n s = Done (tt, s') → WriteTest s' = Some false.
Proof.
  intros Ht. unfold after, worker_round_end, gets, mbind, M_bind, modify.
  destruct (OpType t).
  - rewrite (write_test_off tf tf') by done. split; [done|]. intros s'. unfold write_test, gets, mbind, M_bind. simpl.
    rewrite Ht. by intros [= <-].
  - split; [done|]. intros s'. rewrite memcpy_run. by intros [= <-].
Qed.

Lemma rounds_off fuel pf tf tf' id t : ∀ n s, WriteTest s = Some false →
  rounds_loop fuel pf tf id t n s = rounds_loop fuel pf tf' id t n s.
Proof.
  induction fuel as [|fuel IH]; intros n s Ht; [done|]. cbn [rounds_loop]. destruct (n <? task_size t); [|done].
  unfold mbind, M_bind. destruct (before id t n s) as [[[] s1]|] eqn:Eb; [|done].
  destruct (PollCompletion pf (task_NodeID t) 1 uninit_wc s1) as [[r s2]|] eqn:Ep; [|done].
  assert (Ht2 : WriteTest s2 = Some false).
  { apply (keeps_before WriteTest) in Eb; [|done]. apply (keeps_PollCompletion WriteTest) in Ep; [|done]. congruence. }
  destruct (after_off tf tf' id t n s2 Ht2) as [<- Hk]. destruct (after tf id t n s2) as [[[] s3]|] eqn:Ea; [|done].
  apply IH. by apply Hk.
Qed.

Lemma rounds_of_worker tf id t fuel : 0 ≤ task_size t < 2 ^ 64 → ∀ m n s w s',
  0 ≤ n ≤ task_size t → rounds (task_size t) n < Z.of_nat fuel →
  run_worker m tf id (Worker t n WTop) s = Done (w, s') →
  ∃ K s1, (∀ pf, (K ≤ pf)%nat → rounds_loop fuel pf tf id t n s = Done (tt, s1)) ∧
    s' = set_signal (u16 (TransferSignal s1 + 1)) s1.
Proof.
  intros Hsz. induction fuel as [|fuel IH]; intros m n s w s' Hn Hr E.
  { exfalso. assert (0 ≤ rounds (task_size t) n) by (apply Z.div_pos; unfold SendPoolSize; lia). lia. }
  destruct m as [|m]; [done|]. simpl in E. unfold DataTransferWorker in E. simpl in E. unfold mbind at 1, M_bind in E.
  destruct (Z.ltb_spec n (task_size t)) as [Hlt|Hge].
  - rewrite worker_post_before in E by done. unfold mbind at 1, M_bind in E.
    destruct (before id t n s) as [[[] s1]|] eqn:Eb; [|done]. simpl in E.
    apply loop_of_polls in E as (p & f & c & s2 & m' & Hp & Hc & _ & E). unfold mbind at 1, M_bind in E.
    destruct (worker_round_end tf id t n s2) as [[w1 s3]|] eqn:Ea; [|done].
    apply round_end_after in Ea as [-> Ea]. destruct (chunk_size (task_size t) n ltac:(lia) ltac:(lia)) as (_ & Hc1 & Hc2).
    pose proof (rounds_step (task_size t) n ltac:(lia) ltac:(lia)). rewrite u64_small in E by lia.
    destruct (IH m' (n + SendSize (task_size t) n) s3 w s' ltac:(lia) ltac:(lia) E) as (K & s4 & HK & Hs'). exists (Nat.max f K), s4. split; [|done].
    intros pf Hpf. cbn [rounds_loop]. rewrite (proj2 (Z.ltb_lt _ _)) by done. unfold mbind, M_bind. rewrite Eb.
    rewrite (PollCompletion_of f (task_NodeID t) s1 p c s2 Hp Hc) by lia. rewrite Ea, u64_small by lia. apply HK. lia.
  - unfold worker_post in E. rewrite (proj2 (Z.ltb_ge _ _)) in E by lia. exists 0%nat, s. split.
    + intros pf _. cbn [rounds_loop]. by rewrite (proj2 (Z.ltb_ge _ _)) by lia.
    + revert E. cbn. destruct m; by intros [= _ <-].
Qed.

(** A worker that runs alone is the function it calls: with the test flag off, the steps of the worker
    on a task return to PopPolling in a state exactly when InboundHamal or OutboundHamal on that task
    returns true in that state, from some patience of the polling loops on. *)
Lemma worker_alone_is_hamal pf id t s s' : 0 ≤ task_size t < 2 ^ 64 → WriteTest s = Some false →
  (∃ n w, run_worker n pf id (Worker t 0 WTop) s = Done (w, s')) ↔ ev (λ pf, Hamal pf id t) s true s'.
Proof.
  intros Hsz Ht. pose proof (rounds_start (task_size t) ltac:(lia)) as Hr. split.
  - intros (n & w & E). destruct (rounds_of_worker pf id t _ Hsz n 0 s w s' ltac:(lia) Hr E) as (K & s1 & HK & ->).
    exists K. intros pf' Hpf. rewrite Hamal_rounds. unfold mbind, M_bind.
    by rewrite (rounds_off _ _ pf' pf), HK.
  - intros [K HK]. specialize (HK K (le_n K)). rewrite Hamal_rounds in HK. unfold mbind at 1, M_bind in HK.
    destruct (rounds_loop _ K K id t 0 s) as [[[] s1]|] eqn:E; [|done]. injection HK as <-.
    rewrite (rounds_off _ _ K pf) in E by done. destruct (worker_of_rounds _ _ _ _ _ _ _ _ E) as (j & tot & Hj).
    specialize (Hj 0%nat). eexists _, _. exact Hj.
Qed.

(** A step leaves TransferSignal alone, or adds one to it and ends the task. *)
Lemma step_signal pf id w s w' s' : DataTransferWorker pf id w s = Done (w', s') → w_pc w ≠ WIdle →
  (w_pc w' = WIdle ∧ TransferSignal s' = u16 (TransferSignal s + 1)) ∨
  (w_pc w' ≠ WIdle ∧ TransferSignal s' = TransferSignal s).
Proof.
  destruct w as [t tot pc]. unfold DataTransferWorker. cbn [w_pc w_task w_total]. destruct pc as [|c wc|]; [| |done]; intros E _.
  - unfold worker_post in E. destruct (tot <? task_size t) eqn:Hn.
    + assert (E' : worker_post id t tot s = Done (w', s')) by (unfold worker_post; by rewrite Hn).
      rewrite worker_post_before in E' by by apply Z.ltb_lt. unfold mbind, M_bind in E'.
      destruct (before id t tot s) as [[u s1]|] eqn:Eb; [|done]. injection E' as <- <-. right. split; [done|].
      by apply (keeps_before TransferSignal) in Eb.
    + injection E as <- <-. by left.
  - right. unfold mbind at 1, M_bind in E. destruct (peer_at (task_NodeID t) s) as [[p s0]|] eqn:Hp; [|done].
    apply peer_at_state in Hp as ->. unfold mbind at 1, M_bind in E.
    destruct (zoom device _ s) as [[x s1]|] eqn:Ez; [|done].
    apply (keeps_zoom TransferSignal) in Ez; [|done]. rewrite <- Ez.
    destruct (s32 (c + x.1) <? 1); [by injection E as <- <-|]. revert E. clear Ez. unfold worker_round_end, write_test.
    unfold mbind, M_bind, gets, modify. destruct (OpType t).
    + cbn. destruct (WriteTest s1) as [[]|]; cbn; [|by intros [= <- <-]|done].
      match goal with |- context [for_each ?l ?b ?x] => assert (Hfe : keeps TransferSignal (for_each l b)) end.
      { clear. induction (seqZ 0 10) as [|i l IH]; [by apply keeps_ret|]. cbn [for_each].
        apply keeps_bind; [|done]. unfold test_round. apply keeps_bind; [by apply keeps_write|]. intros b.
        apply keeps_bind; [by apply keeps_PollCompletion|]. intros r. by apply keeps_ret. }
      match goal with |- context [for_each ?l ?b ?x] => destruct (for_each l b x) as [[u s2]|] eqn:Ef end; [|done].
      apply Hfe in Ef. intros [= <- <-]. done.
    + cbn. by intros [= <- <-].
Qed.

(** With the test flag off the patience of the test does not matter. *)
Lemma step_off pf pf' id w s : WriteTest s = Some false →
  DataTransferWorker pf id w s = DataTransferWorker pf' id w s ∧
  ∀ w' s', DataTransferWorker pf id w s = Done (w', s') → WriteTest s' = Some false.
Proof.
  destruct w as [t tot pc]. unfold DataTransferWorker. cbn [w_pc w_task w_total]. intros Ht. destruct pc as [|c wc|].
  - split; [done|]. intros w' s'. unfold worker_post. destruct (tot <? task_size t) eqn:Hn.
    + intros E. assert (E' : worker_post id t tot s = Done (w', s')) by (unfold worker_post; by rewrite Hn).
      rewrite worker_post_before in E' by by apply Z.ltb_lt. unfold mbind, M_bind in E'.
      destruct (before id t tot s) as [[u s1]|] eqn:Eb; [|done]. injection E' as <- <-.
      apply (keeps_before WriteTest) in Eb; [congruence|done].
    + by intros [= <- <-].
  - unfold mbind at 1 3 5, M_bind. destruct (peer_at (task_NodeID t) s) as [[p s0]|] eqn:Hp; [|done].
    apply peer_at_state in Hp as ->. unfold mbind at 1 2 3, M_bind.
    destruct (zoom device _ s) as [[x s1]|] eqn:Ez; [|done].
    apply (keeps_zoom WriteTest) in Ez; [|done]. rewrite Ht in Ez.
    destruct (s32 (c + x.1) <? 1); [split; [done|]; intros w' s' E; by injection E as <- <-|].
    destruct (after_off pf pf' id t tot s1 Ez) as [Heq Hk]. split.
    + destruct (worker_round_end pf id t tot s1) as [[w1 s2]|f] eqn:E1.
      * destruct (round_end_after _ _ _ _ _ _ _ E1) as [-> Ea]. rewrite Heq in Ea. by rewrite (after_round_end _ _ _ _ _ _ Ea).
      * unfold after, mbind, M_bind in Heq. rewrite E1 in Heq. destruct (worker_round_end pf' id t tot s1) as [[w2 s2]|f']; [done|].
        by injection Heq as ->.
    + intros w' s' E1. destruct (round_end_after _ _ _ _ _ _ _ E1) as [-> Ea]. by apply Hk.
  - split; [done|]. by intros w' s' [= <- <-].
Qed.

Lemma run_worker_off n pf pf' id : ∀ w s, WriteTest s = Some false → run_worker n pf id w s = run_worker n pf' id w s.
Proof.
  induction n as [|n IH]; intros w s Ht; [done|]. cbn [run_worker]. destruct (w_pc w); try done.
  - unfold mbind, M_bind. destruct (step_off pf pf' id w s Ht) as [<- Hk].
    destruct (DataTransferWorker pf id w s) as [[w1 s1]|]; [|done]. by eapply IH, Hk.
  - unfold mbind, M_bind. destruct (step_off pf pf' id w s Ht) as [<- Hk].
    destruct (DataTransferWorker pf id w s) as [[w1 s1]|]; [|done]. by eapply IH, Hk.
Qed.

(** A schedule that gives all its steps to one worker until that worker is done. *)
Lemma run_workers_alone (b : bool) m pf : ∀ k w0 w1 s w' s',
  run_worker m pf (Z.b2z b) (if b then w1 else w0) s = Done (w', s') → 0 ≤ TransferSignal s < WORKER_NUMBER →
  w_pc (if b then w1 else w0) ≠ WIdle → TransferSignal s' = TransferSignal s + 1 ∧ ∃ j,
  ∀ (sch : Sched), (∀ i, (i < j)%nat → sch (k + i)%nat = b) → ∀ fuel,
    run_workers (H0 := sch) (j + fuel) pf k w0 w1 s =
    run_workers (H0 := sch) fuel pf (k + j) (if b then w0 else w') (if b then w' else w1) s'.
Proof.
  unfold WORKER_NUMBER. induction m as [|m IH]; intros k w0 w1 s w' s' E Hsig Hpc.
  { simpl in E. destruct (w_pc (if b then w1 else w0)); done. }
  assert (E1 : ∃ w2 s2, DataTransferWorker pf (Z.b2z b) (if b then w1 else w0) s = Done (w2, s2) ∧
    run_worker m pf (Z.b2z b) w2 s2 = Done (w', s')).
  { cbn [run_worker] in E. unfold mbind, M_bind in E.
    destruct (w_pc (if b then w1 else w0)); [| |done];
      destruct (DataTransferWorker pf (Z.b2z b) (if b then w1 else w0) s) as [[w2 s2]|]; try done; by exists w2, s2. }
  destruct E1 as (w2 & s2 & Es & Er).
  assert (Hrun : ∀ (sch : Sched) fuel, sch k = b → run_workers (H0 := sch) (S fuel) pf k w0 w1 s =
    run_workers (H0 := sch) fuel pf (S k) (if b then w0 else w2) (if b then w2 else w1) s2).
  { intros sch fuel Hk. cbn [run_workers]. unfold gets. unfold mbind at 1, M_bind. unfold WORKER_NUMBER.
    rewrite (proj2 (Z.eqb_neq _ _)) by lia. unfold sched. rewrite Hk. unfold mbind, M_bind. destruct b; cbn [Z.b2z] in Es; by rewrite Es. }
  destruct (step_signal _ _ _ _ _ _ Es Hpc) as [[Hi Hs2]|[Hi Hs2]].
  - assert (Hend : w' = w2 ∧ s' = s2).
    { destruct m; cbn [run_worker] in Er; rewrite Hi in Er; by injection Er as <- <-. }
    destruct Hend as [-> ->]. split; [rewrite Hs2; apply Z.mod_small; lia|]. exists 1%nat. intros sch Hk fuel.
    rewrite Nat.add_1_r. apply (Hrun sch fuel). specialize (Hk 0%nat ltac:(lia)). by rewrite Nat.add_0_r in Hk.
  - destruct (IH (S k) (if b then w0 else w2) (if b then w2 else w1) s2 w' s') as (Hs' & j & Hj);
      [by destruct b|lia|by destruct b|]. split; [lia|]. exists (S j). intros sch Hk fuel.
    change (S j + fuel)%nat with (S (j + fuel)). rewrite (Hrun sch (j + fuel)%nat) by (specialize (Hk 0%nat ltac:(lia)); by rewrite Nat.add_0_r in Hk).
    replace (k + S j)%nat with (S k + j)%nat by lia. rewrite (Hj sch); [by destruct b|].
    intros i Hi'. specialize (Hk (S i) ltac:(lia)). by rewrite Nat.add_succ_r in Hk.
Qed.

Lemma run_worker_idle n pf id : ∀ w s w' s', run_worker n pf id w s = Done (w', s') → w_pc w' = WIdle.
Proof.
  induction n as [|n IH]; intros w s w' s'; simpl; destruct (w_pc w) eqn:E; try done; try by intros [= <- _].
  - unfold mbind, M_bind. destruct (DataTransferWorker pf id w s) as [[w1 s1]|]; [|done]. apply IH.
  - unfold mbind, M_bind. destruct (DataTransferWorker pf id w s) as [[w1 s1]|]; [|done]. apply IH.
Qed.
End alone.

Section transfers.
Context {Dev : Type} `{VerbsLaws Dev}.
Implicit Types (s : RdmaSocket Dev) (t : TransferTask).

(** What a worker calls for its task moves the bytes of the task. *)
Lemma Hamal_transfers id t s p q : linked s id (task_NodeID t) p q →
  ranges s id (task_NodeID t) p (bufferSend t) (bufferReceive t) (task_size t) →
  WriteTest s = Some false → task_size t < 2 ^ 64 →
  ∃ s', ev (λ pf, Hamal pf id t) s true s' ∧ TransferSignal s' = u16 (TransferSignal s + 1) ∧
    if OpType t then sent s s' id (task_NodeID t) p (bufferSend t) (bufferReceive t) (task_size t)
    else fetched s s' id (task_NodeID t) p (bufferSend t) (bufferReceive t) (task_size t).
Proof.
  intros Hlk Hrg Ht Hsz. unfold Hamal. destruct (OpType t).
  - destruct (wpe_OutboundHamal s id (task_NodeID t) p q (bufferSend t) (bufferReceive t) (task_size t)
      (λ b s', b = true ∧ TransferSignal s' = u16 (TransferSignal s + 1) ∧
         sent s s' id (task_NodeID t) p (bufferSend t) (bufferReceive t) (task_size t)) Hlk Hrg Ht Hsz)
      as (b & s' & Hev & -> & Hres); [by auto|by exists s'].
  - destruct (wpe_InboundHamal s id (task_NodeID t) p q (bufferSend t) (bufferReceive t) (task_size t)
      (λ b s', b = true ∧ TransferSignal s' = u16 (TransferSignal s + 1) ∧
         fetched s s' id (task_NodeID t) p (bufferSend t) (bufferReceive t) (task_size t)) Hlk Hrg Hsz)
      as (b & s' & Hev & -> & Hres); [by auto|by exists s'].
Qed.

(** C16: A transfer worker that has taken a task and is not disturbed by the other worker carries it out:
    after finitely many of its steps it is back in PopPolling, has added one to TransferSignal, and
    exactly the bytes of the task have been moved - for a write from the buffer to the memory of the
    node, with nothing else changed on any node and in the process only the staging pool of this
    worker, for a read from the node to the buffer. *)
Theorem worker_alone_transfers pf id t s p q :
  let n := task_NodeID t in
  linked s id n p q → ranges s id n p (bufferSend t) (bufferReceive t) (task_size t) →
  WriteTest s = Some false → task_size t < 2 ^ 64 →
  ∃ m w s', run_worker m pf id (Worker t 0 WTop) s = Done (w, s') ∧ w_pc w = WIdle ∧
    TransferSignal s' = u16 (TransferSignal s + 1) ∧
    if OpType t then sent s s' id n p (bufferSend t) (bufferReceive t) (task_size t)
    else fetched s s' id n p (bufferSend t) (bufferReceive t) (task_size t).
Proof.
  intros n Hlk Hrg Ht Hsz. pose proof (rg_size _ _ _ _ _ _ _ Hrg) as Hsz0.
  destruct (Hamal_transfers id t s p q Hlk Hrg Ht Hsz) as (s' & Hev & Hsig & Hres).
  destruct (proj2 (worker_alone_is_hamal pf id t s s' ltac:(lia) Ht) Hev) as (m & w & E).
  exists m, w, s'. split; [exact E|]. split; [by eapply run_worker_idle|done].
Qed.
End transfers.

#[local] Existing Instances Ideal.ideal_verbs Ideal.ideal_laws.

(** 3000000 bytes by worker 1, in three rounds. *)
Definition example_task : TransferTask := Task true 1 3000000 5000000 0.

Lemma worker_alone_transfers_witness : ∃ m w s',
  run_worker m 5 1 (Worker example_task 0 WTop) Ideal.client = Done (w, s') ∧ TransferSignal s' = 1 ∧
  nodes1 s' (65536 + 2999999) = (5000000 + 2999999) `mod` 251.
Proof.
  destruct (worker_alone_transfers 5 1 example_task Ideal.client Ideal.node1 12) as (m & w & s' & E & _ & Hsig & Hs).
  - by apply Ideal.client_linked; right.
  - by apply Ideal.client_ranges.
  - reflexivity.
  - done.
  - exists m, w, s'. split; [exact E|]. split; [exact Hsig|].
    exact (eq_trans (sent_remote _ _ _ _ _ _ _ _ Hs (65536 + 2999999)) eq_refl).
Defined.
