(* ===== verification/RdmaWorkers.v ===== *)
(** * Theorems on large transfers: what the two workers do, however their steps interleave. *)
From S2P Require Import Prelude Rdma RdmaLaws RdmaTheorems RdmaEquiv.
Local Open Scope Z_scope.

(** ** What is assumed of the device

    The memory of a node changes only where a write that was posted is still under way. *)

Definition writes_at (wrs : list ibv_send_wr) (a : Z) : Prop :=
  ∃ wr, wr ∈ wrs ∧ remote_addr wr ≤ a < remote_addr wr + sge_length (sg_list wr).

Class VerbsScope (Dev : Type) `{VerbsLaws Dev} := {
  attached : Dev → Z → Z → Prop;          (* queue pair, node *)
  in_flight : Dev → Z → Z → Prop;         (* node, address *)
  host_scope d m :
    (∀ n a, in_flight (update host m d) n a → in_flight d n a) ∧
    (∀ q n, attached d q n → attached (update host m d) q n);
  post_scope d q n wrs r d' : attached d q n → ibv_post_send q wrs d = Done (r, d') →
    (∀ m a, in_flight d' m a → in_flight d m a ∨ (m = n ∧ writes_at wrs a)) ∧
    (∀ m a, in_flight d m a ∨ (m = n ∧ writes_at wrs a) ∨ remote_mem d' m a = remote_mem d m a) ∧
    (∀ q' n', attached d q' n' → attached d' q' n');
  poll_scope d c k wc r d' : ibv_poll_cq c k wc d = Done (r, d') →
    (∀ m a, in_flight d' m a → in_flight d m a) ∧
    (∀ m a, in_flight d m a ∨ remote_mem d' m a = remote_mem d m a) ∧
    (∀ q' n', attached d q' n' → attached d' q' n');
}.

(** ** Whenever a computation returns *)

Definition wlp {S A} (m : M S A) (Q : A → S → Prop) (s : S) : Prop :=
  ∀ a s', m s = Done (a, s') → Q a s'.

Section wlp_rules.
Context {S : Type}.

Lemma wlp_bind {A B} (m : M S A) (k : A → M S B) Q (s : S) :
  wlp m (λ a, wlp (k a) Q) s → wlp (m ≫= k) Q s.
Proof.
  intros Hm b s2. unfold mbind, M_bind. destruct (m s) as [[a s1]|] eqn:E; [|done]. by apply (Hm a s1).
Qed.

Lemma wlp_wp {A} (m : M S A) Q (s : S) : wp m Q s → wlp m Q s.
Proof. intros Hw a s' E. unfold wp in Hw. by rewrite E in Hw. Qed.

Lemma wlp_mono {A} (m : M S A) (Q Q' : A → S → Prop) (s : S) :
  wlp m Q s → (∀ a s', Q a s' → Q' a s') → wlp m Q' s.
Proof. intros Hm HQ a s' E. by apply HQ, Hm. Qed.
End wlp_rules.

(** ** The invariant of the workers *)

Section workers.
Context {Dev : Type} `{VerbsScope Dev}.
Implicit Types (s : RdmaSocket Dev).

Abbreviation rmem s n := (remote_mem (dev s) n).

(** A task writes [[lo, lo + size)] of the region of node [n]. *)
Record task_ok (p : PeerSockData) (n lo size : Z) (t : TransferTask) : Prop := {
  tk_op : OpType t = true;
  tk_node : task_NodeID t = n;
  tk_size : task_size t = size;
  tk_rcv : bufferReceive t = lo;
  tk_range : 0 ≤ lo ∧ 0 ≤ size ∧ 0 ≤ RegisteredMemory p ∧ lo + size + RegisteredMemory p ≤ 2 ^ 64;
}.

Definition worker_ok (p : PeerSockData) (n lo size : Z) (w : worker) : Prop :=
  task_ok p n lo size (w_task w) ∧ 0 ≤ w_total w ≤ size ∧
  (∀ c wc, w_pc w = WPoll c wc → w_total w < size).

(** The socket is connected to node [n], and only bytes in [[lo, lo + size)] of its region have changed
    or may still change. *)
Record confined s0 s (n : Z) (p : PeerSockData) (lo size : Z) : Prop := {
  cf_peer : peers s !! n = Some p;
  cf_node : 0 ≤ n < 1000;
  cf_test : WriteTest s = Some false;
  cf_att id q : 0 ≤ id < 2 → qp p !! Z.to_nat (id + 1) = Some q → attached (dev s) q n;
  cf_flight m a : in_flight (dev s) m a →
    m = n ∧ lo + RegisteredMemory p ≤ a < lo + size + RegisteredMemory p;
  cf_same m a : m ≠ n ∨ a < lo + RegisteredMemory p ∨ lo + size + RegisteredMemory p ≤ a →
    rmem s m a = rmem s0 m a;
}.

Lemma confined_dev s0 s d n p lo size : confined s0 s n p lo size →
  (∀ m a, in_flight d m a → in_flight (dev s) m a ∨
     (m = n ∧ lo + RegisteredMemory p ≤ a < lo + size + RegisteredMemory p)) →
  (∀ m a, in_flight (dev s) m a ∨
     (m = n ∧ lo + RegisteredMemory p ≤ a < lo + size + RegisteredMemory p) ∨
     remote_mem d m a = rmem s m a) →
  (∀ q m, attached (dev s) q m → attached d q m) →
  confined s0 (update device d s) n p lo size.
Proof.
  intros [Hp Hn Ht Ha Hf Hs] Hf' Hs' Ha'. split; try done.
  - intros id q Hid Hq. by eapply Ha', Ha.
  - intros m a [Hfl|Hr]%Hf'; [by apply Hf|done].
  - intros m a Hout. simpl. destruct (Hs' m a) as [Hfl|[Hr|E]].
    + apply Hf in Hfl. lia.
    + lia.
    + rewrite E. by apply Hs.
Qed.

Lemma wlp_memcpy s0 s n p lo size dst src len (Q : unit → RdmaSocket Dev → Prop) :
  confined s0 s n p lo size → (∀ s', confined s0 s' n p lo size → Q tt s') → wlp (memcpy dst src len) Q s.
Proof.
  intros Hc HQ [] s' E. rewrite memcpy_run in E. injection E as <-. apply HQ.
  eapply confined_dev; [done|..].
  - intros m a Hfl. left. by apply host_scope in Hfl.
  - intros m a. right. right. by rewrite host_remote.
  - intros q m. apply host_scope.
Qed.

Lemma wlp_poll s0 s n p lo size c k wc (Q : Z * ibv_wc → RdmaSocket Dev → Prop) :
  confined s0 s n p lo size → (∀ r s', confined s0 s' n p lo size → Q r s') →
  wlp (zoom device (ibv_poll_cq c k wc)) Q s.
Proof.
  intros Hc HQ r s' E. unfold zoom in E. cbn [view device] in E.
  destruct (ibv_poll_cq c k wc (dev s)) as [[r' d']|] eqn:Ep; [|done]. injection E as -> <-. apply HQ.
  destruct (poll_scope _ _ _ _ _ _ Ep) as (Hf & Hs & Ha). eapply confined_dev; [done| | |done].
  - intros m a Hfl. left. by apply Hf.
  - intros m a. destruct (Hs m a); auto.
Qed.

(** A write that is posted inside the range of the task. *)
Lemma wlp_RdmaWrite s0 s n p lo size src des len id (Q : bool → RdmaSocket Dev → Prop) :
  confined s0 s n p lo size → 0 ≤ id < 2 → lo ≤ des → 0 < len → des + len ≤ lo + size →
  0 ≤ RegisteredMemory p → 0 ≤ lo → lo + size + RegisteredMemory p ≤ 2 ^ 64 → len < 2 ^ 32 →
  (∀ b s', confined s0 s' n p lo size → Q b s') →
  wlp (RdmaWrite n src des len (-1) (id + 1)) Q s.
Proof.
  intros Hc Hid Hd Hl He Hr Hlo Hmax Hl32 HQ b s' E. pose proof Hc as [Hp Hn _ Hatt _ _].
  assert (Hk : ∃ k, mr s = Ptr k).
  { revert E. unfold RdmaWrite, local_key, get, mbind, M_bind. destruct (mr s) as [| |k]; [done..|by exists k]. }
  destruct Hk as [k Hk]. unfold RdmaWrite in E. rewrite (outcome_bind_done _ _ _ _ _ (local_key_run s k Hk)) in E.
  rewrite (outcome_bind_done _ _ _ _ _ (peer_at_run s n p Hn Hp)) in E.
  destruct (qp p !! Z.to_nat (id + 1)) as [q|] eqn:Hq; [|done].
  rewrite (outcome_bind_done _ _ _ q s eq_refl) in E. unfold post_send, zoom, mbind, M_bind in E.
  cbn [view device] in E. destruct (ibv_post_send q _ (dev s)) as [[r d']|] eqn:Ep; [|done].
  injection E as <- <-. apply HQ. destruct (post_scope _ _ n _ _ _ (Hatt _ _ Hid Hq) Ep) as (Hf & Hs & Ha).
  assert (Hw : ∀ a, writes_at [SendWr 0 (Sge src (u32 len) k.1) IBV_WR_RDMA_WRITE true 0
      (u64 (des + RegisteredMemory p)) (peer_rkey p) 0 0] a →
    lo + RegisteredMemory p ≤ a < lo + size + RegisteredMemory p).
  { intros a (wr & ->%list_elem_of_singleton & Hwa). simpl in Hwa. unfold u32 in Hwa.
    rewrite u64_small, Z.mod_small in Hwa by lia. lia. }
  eapply confined_dev; [done| | |done].
  - intros m a [Hfl|[-> Hwa]]%Hf; [by left|]. right. split; [done|]. by apply Hw.
  - intros m a. destruct (Hs m a) as [Hfl|[[-> Hwa]|E]]; [by left| |by right; right].
    right. left. split; [done|]. by apply Hw.
Qed.

Lemma confined_sizes s0 s n p lo size w r : confined s0 s n p lo size → confined s0 (set_sizes w r s) n p lo size.
Proof. by intros []. Qed.

Lemma confined_signal s0 s n p lo size g : confined s0 s n p lo size → confined s0 (set_signal g s) n p lo size.
Proof. by intros []. Qed.

(** One step of a worker whose task lies in [[lo, lo + size)]. *)
Lemma wlp_worker s0 s n p lo size lo' size' pf id w (Q : worker → RdmaSocket Dev → Prop) :
  confined s0 s n p lo size → worker_ok p n lo' size' w → 0 ≤ id < 2 → lo ≤ lo' → lo' + size' ≤ lo + size →
  lo + size + RegisteredMemory p ≤ 2 ^ 64 → 0 ≤ lo → size' < 2 ^ 64 →
  (∀ w' s', confined s0 s' n p lo size → worker_ok p n lo' size' w' → Q w' s') →
  wlp (DataTransferWorker pf id w) Q s.
Proof.
  intros Hc (Htk & Htot & Hpoll) Hid Hlo Hhi Hmax Hlo0 Hs64 HQ.
  pose proof Htk as [Hop Hnode Hsize Hrcv (Hr1 & Hr2 & Hr3 & Hr4)].
  unfold DataTransferWorker. destruct (w_pc w) as [|count wc|] eqn:Hpc.
  - unfold worker_post. rewrite Hsize. destruct (Z.ltb_spec (w_total w) size') as [Hlt|Hge].
    + destruct (chunk_size size' (w_total w) ltac:(lia) Hs64) as (_ & Hn1 & Hn2).
      assert (SendSize size' (w_total w) < 2 ^ 32) by (unfold SendPoolSize in *; lia).
      apply wlp_bind, wlp_wp, wp_gets. rewrite Hop, Hnode, Hrcv. apply wlp_bind, wlp_bind.
      eapply wlp_memcpy; [done|]. intros s1 Hc1. rewrite u64_small by lia.
      eapply wlp_RdmaWrite; [done|done|lia|lia|lia|done|done|done|done|].
      intros b s2 Hc2. apply wlp_wp, wp_ret, HQ; [done|]. split_and!; [done|simpl; lia..|]. simpl. lia.
    + apply wlp_bind, wlp_wp. unfold signal_done. wp_auto. apply wlp_wp, wp_ret, HQ; [by apply confined_signal|].
      split_and!; [done|simpl; lia..|]. done.
  - specialize (Hpoll count wc eq_refl). rewrite Hnode. apply wlp_bind, wlp_wp. eapply wp_peer_at; [apply Hc..|].
    apply wlp_bind. eapply wlp_poll; [done|]. intros r s1 Hc1.
    destruct (s32 (count + r.1) <? 1).
    + apply wlp_wp, wp_ret, HQ; [done|]. split_and!; [done|simpl; lia..|]. simpl. lia.
    + unfold worker_round_end. apply wlp_bind, wlp_wp, wp_gets. rewrite Hop, Hsize.
      destruct (chunk_size size' (w_total w) ltac:(lia) Hs64) as (_ & Hn1 & Hn2).
      apply wlp_bind, wlp_bind, wlp_wp, wp_modify. unfold write_test. apply wlp_bind, wlp_wp, wp_gets.
      rewrite (cf_test _ _ _ _ _ _ (confined_sizes _ _ _ _ _ _ _ _ Hc1)).
      apply wlp_bind, wlp_wp. eapply wp_or_fault; [reflexivity|].
      apply wlp_wp, wp_ret, wlp_wp, wp_ret, HQ; [by apply confined_sizes|].
      split_and!; [done|simpl; rewrite u64_small; lia..|]. done.
  - apply wlp_wp, wp_ret, HQ; [done|]. split_and!; [done|lia..|]. intros c wc Hcc. congruence.
Qed.

Lemma wlp_run_workers `{Sched} s0 s n p lo h fuel pf k w0 w1 (Q : bool → RdmaSocket Dev → Prop) :
  confined s0 s n p lo (2 * h) → worker_ok p n lo h w0 → worker_ok p n (lo + h) h w1 →
  lo + 2 * h + RegisteredMemory p ≤ 2 ^ 64 → 0 ≤ lo → 0 ≤ h < 2 ^ 63 →
  (∀ s', confined s0 s' n p lo (2 * h) → Q true s') →
  wlp (run_workers fuel pf k w0 w1) Q s.
Proof.
  intros Hc Hw0 Hw1 Hmax Hlo Hh HQ. revert s k w0 w1 Hc Hw0 Hw1.
  induction fuel as [|fuel IH]; intros s k w0 w1 Hc Hw0 Hw1; cbn [run_workers];
    apply wlp_bind, wlp_wp, wp_gets; destruct (TransferSignal s =? WORKER_NUMBER);
    [by apply wlp_wp, wp_ret, HQ|done|by apply wlp_wp, wp_ret, HQ|].
  destruct (sched k); apply wlp_bind.
  - eapply (wlp_worker s0 s n p lo (2 * h) (lo + h) h); [done|done|lia..|]. intros w' s' Hc' Hw'. by apply IH.
  - eapply (wlp_worker s0 s n p lo (2 * h) lo h); [done|done|lia..|]. intros w' s' Hc' Hw'. by apply IH.
Qed.

Lemma shipSize_eq size : 0 ≤ size < 2 ^ 32 → shipSize size = size / 8192 * 4096.
Proof.
  intros Hs. unfold shipSize, WORKER_NUMBER.
  assert (0 ≤ size / 2 < 2 ^ 31) by (split; [apply Z.div_pos; lia|apply Z.div_lt_upper_bound; lia]).
  rewrite s32_small, Z.shiftl_mul_pow2, Z.shiftr_div_pow2, Z.div_div by lia. done.
Qed.

(** A part of the range of a transfer. *)
Lemma ranges_part s s' T n p send rcv size o h : ranges s T n p send rcv size → same_sock s s' →
  0 ≤ o → 0 ≤ h → o + h ≤ size → ranges s' T n p (send + o) (rcv + o) h.
Proof.
  intros [Hsz Hsend Hrcv Hpool Hap (k & Hk & Hc) Hre] (_&_&_&_&Hm&Hmr&_&_&Hl&Hr) Ho Hh Hoh.
  assert (Hp : SendPoolAddr s' T = SendPoolAddr s T) by (unfold SendPoolAddr; by rewrite Hm).
  split; rewrite ?Hp, ?Hm; try lia.
  - exists k. split; [congruence|]. by rewrite Hl.
  - rewrite Hr. eapply covers_inside; [done|lia..].
Qed.

Lemma ranges_same s s' T n p send rcv size : ranges s T n p send rcv size → same_sock s s' →
  ranges s' T n p send rcv size.
Proof.
  intros Hr Hs. pose proof (ranges_part s s' T n p send rcv size 0 size Hr Hs) as H'.
  rewrite !Z.add_0_r in H'. apply H'; try lia. apply Hr.
Qed.

(** With the test flag off the patience of its polls does not matter. *)
Lemma run_workers_off `{Sched} fuel pf pf' : ∀ k w0 w1 s, WriteTest s = Some false →
  run_workers fuel pf k w0 w1 s = run_workers fuel pf' k w0 w1 s.
Proof.
  induction fuel as [|fuel IH]; intros k w0 w1 s Ht; [done|]. cbn [run_workers].
  unfold gets, mbind, M_bind. destruct (TransferSignal s =? WORKER_NUMBER); [done|].
  destruct (sched k).
  - destruct (step_off pf pf' 1 w1 s Ht) as [<- Hk]. destruct (DataTransferWorker pf 1 w1 s) as [[w s1]|]; [|done].
    by eapply IH, Hk.
  - destruct (step_off pf pf' 0 w0 s Ht) as [<- Hk]. destruct (DataTransferWorker pf 0 w0 s) as [[w s1]|]; [|done].
    by eapply IH, Hk.
Qed.

Lemma run_workers_end `{Sched} fuel pf k w0 w1 s : TransferSignal s = WORKER_NUMBER →
  run_workers fuel pf k w0 w1 s = Done (true, s).
Proof. intros Hs. destruct fuel; cbn [run_workers]; unfold gets, mbind, M_bind; by rewrite Hs. Qed.

(** The first [k] steps go to worker 0, the others to worker 1. *)
Definition first_then (k : nat) : Sched := λ i, (k <=? i)%nat.

(** A worker alone on a write. *)
Lemma worker_sends id n h send rcv s p q : linked s id n p q → ranges s id n p send rcv h →
  WriteTest s = Some false → h < 2 ^ 64 →
  ∃ m w s', run_worker m 0 id (Worker (Task true n h send rcv) 0 WTop) s = Done (w, s') ∧
    TransferSignal s' = u16 (TransferSignal s + 1) ∧ sent s s' id n p send rcv h.
Proof.
  intros Hlk Hrg Ht Hh.
  destruct (Hamal_transfers id (Task true n h send rcv) s p q Hlk Hrg Ht Hh) as (s' & Hev & Hsig & Hs).
  destruct (proj2 (worker_alone_is_hamal 0 id (Task true n h send rcv) s s' (conj (rg_size _ _ _ _ _ _ _ Hrg) Hh) Ht) Hev) as (m & w & E). by exists m, w, s'.
Qed.

(** Two workers whose tasks move [h] bytes each, one after the other. *)
Lemma run_in_order s n p q0 q1 send rcv size h :
  linked s 0 n p q0 → linked s 1 n p q1 → ranges s 0 n p send rcv size → ranges s 1 n p send rcv size →
  WriteTest s = Some false → TransferSignal s = 0 → 0 ≤ h → 2 * h ≤ size → h < 2 ^ 31 →
  ∃ sch K s', (∀ fuel pf, (K ≤ fuel)%nat → run_workers (H0 := sch) fuel pf 0
      (Worker (Task true n h send rcv) 0 WTop) (Worker (Task true n h (send + h) (rcv + h)) 0 WTop) s = Done (true, s')) ∧
    ∀ x, 0 ≤ x < 2 * h → rmem s' n (rcv + RegisteredMemory p + x) = view host (dev s) (send + x).
Proof.
  intros Hl0 Hl1 Hr0 Hr1 Ht Hsig Hh Hh2 Hh31.
  set (t0 := Task true n h send rcv). set (t1 := Task true n h (send + h) (rcv + h)).
  assert (R0 : ranges s 0 n p send rcv h).
  { pose proof (ranges_part s s 0 n p send rcv size 0 h Hr0 (same_sock_refl s)) as Hr.
    rewrite !Z.add_0_r in Hr. apply Hr; lia. }
  destruct (worker_sends 0 n h send rcv s p q0 Hl0 R0 Ht ltac:(lia)) as (m0 & w0 & s1 & E0 & Hsig0 & Hsent0).
  pose proof (sent_same _ _ _ _ _ _ _ _ Hsent0) as Hs1.
  assert (Ht1 : WriteTest s1 = Some false) by (destruct Hs1 as (_&_&_&_&_&_&->&_); done).
  pose proof (ranges_part s s1 1 n p send rcv size h h Hr1 Hs1 Hh Hh ltac:(lia)) as R1.
  destruct (worker_sends 1 n h (send + h) (rcv + h) s1 p q1 (linked_same _ _ _ _ _ _ Hl1 Hs1) R1 Ht1 ltac:(lia))
    as (m1 & w1 & s2 & E1 & Hsig1 & Hsent1).
  rewrite Hsig in Hsig0. rewrite Hsig0 in Hsig1.
  destruct (run_workers_alone false m0 0 0 (Worker t0 0 WTop) (Worker t1 0 WTop) s w0 s1 E0)
    as (_ & j0 & Hj0); [by rewrite Hsig|done|].
  destruct (run_workers_alone true m1 0 (0 + j0) w0 (Worker t1 0 WTop) s1 w1 s2 E1)
    as (_ & j1 & Hj1); [by rewrite Hsig0|done|].
  exists (first_then j0), (j0 + j1)%nat, s2. split.
  - intros fuel pf Hf. rewrite (run_workers_off _ pf 0%nat) by done.
    replace fuel with (j0 + (j1 + (fuel - j0 - j1)))%nat by lia.
    rewrite Hj0 by (intros i Hi; apply Nat.leb_gt; lia).
    rewrite Hj1 by (intros i Hi; apply Nat.leb_le; lia). by apply run_workers_end.
  - intros x Hx. rewrite (sent_remote _ _ _ _ _ _ _ _ Hsent1).
    assert (Hout : send + x < SendPoolAddr s 0 ∨ SendPoolAddr s 0 + SendPoolSize ≤ send + x).
    { pose proof (rg_apart _ _ _ _ _ _ _ Hr0). lia. }
    destruct (decide (h ≤ x)).
    + rewrite copy_in by lia. replace (send + h + _) with (send + x) by lia. by apply (sent_host _ _ _ _ _ _ _ _ Hsent0).
    + rewrite copy_out by lia. rewrite (sent_remote _ _ _ _ _ _ _ _ Hsent0), copy_in by lia. f_equal. lia.
Qed.

Lemma make_tasks n p send rcv size s T : 0 < size < 2 ^ 32 → ranges s T n p send rcv size →
  let h := shipSize size in
  make_task true send n rcv size 0 = Task true n h send rcv ∧
  make_task true send n rcv size 1 = Task true n h (send + h) (rcv + h).
Proof.
  intros Hs Hr. pose proof (rg_send _ _ _ _ _ _ _ Hr). pose proof (rg_rcv _ _ _ _ _ _ _ Hr).
  pose proof (shipSize_eq size ltac:(lia)) as Hh. pose proof (Z.div_mod size 8192 ltac:(lia)).
  pose proof (Z.mod_pos_bound size 8192 ltac:(lia)). unfold make_task. cbv zeta.
  rewrite Z.mul_0_l, Z.mul_1_l, (s32_small (shipSize size)) by lia. change (s32 0) with 0.
  change (0 <? 3) with true. change (1 <? 3) with true. cbn iota. rewrite !Z.add_0_r,
    (u64_small (shipSize size)), (u64_small send), (u64_small rcv), (u64_small (send + shipSize size)), (u64_small (rcv + shipSize size)) by lia. done.
Qed.

(** C35: A RemoteWrite of 4 MB or more (and less than 4 GB) loses the end of the data: the two workers
    get equal parts of whole pages, together [size - size mod 8192] bytes.  However their steps
    interleave, when the call returns no byte of any node outside the first [size - size mod 8192]
    bytes of the range has changed; and there is an order of the steps, one worker after the other, in
    which the call returns true and these bytes have arrived. *)
Theorem remote_write_drops_tail s n p q0 q1 send rcv size :
  linked s 0 n p q0 → linked s 1 n p q1 → ranges s 0 n p send rcv size → ranges s 1 n p send rcv size →
  WriteTest s = Some false → attached (dev s) q0 n → attached (dev s) q1 n →
  (∀ m a, ~ in_flight (dev s) m a) → 4 * 1024 * 1024 ≤ size < 2 ^ 32 →
  2 * shipSize size = size - size `mod` 8192 ∧
  (∀ (sch : Sched) pf s', RemoteWrite pf send n rcv size s = Done (true, s') →
    ∀ m a, m ≠ n ∨ a < rcv + RegisteredMemory p ∨ rcv + RegisteredMemory p + (size - size `mod` 8192) ≤ a →
      rmem s' m a = rmem s m a) ∧
  (∃ (sch : Sched) K s', (∀ pf, (K ≤ pf)%nat → RemoteWrite pf send n rcv size s = Done (true, s')) ∧
    ∀ x, 0 ≤ x < size - size `mod` 8192 → rmem s' n (rcv + RegisteredMemory p + x) = view host (dev s) (send + x)).
Proof.
  intros Hl0 Hl1 Hr0 Hr1 Ht Ha0 Ha1 Hfl Hsz. pose proof Hl0 as [Hn _ Hp Hq0 _]. pose proof (ln_qp _ _ _ _ _ Hl1) as Hq1.
  pose proof (rg_rcv _ _ _ _ _ _ _ Hr0) as (Hrcv & Hreg & Hmax).
  pose proof (shipSize_eq size ltac:(lia)) as Hh. pose proof (Z.div_mod size 8192 ltac:(lia)) as Hdm.
  pose proof (Z.mod_pos_bound size 8192 ltac:(lia)). destruct (make_tasks n p send rcv size s 0 ltac:(lia) Hr0) as [Ht0 Ht1].
  set (h := shipSize size) in *.
  assert (Hunf : ∀ (sch : Sched) pf, RemoteWrite pf send n rcv size s = run_workers pf pf 0
    (Worker (Task true n h send rcv) 0 WTop) (Worker (Task true n h (send + h) (rcv + h)) 0 WTop) (set_signal 0 s)).
  { intros sch pf. unfold RemoteWrite. rewrite (proj2 (Z.ltb_ge _ _)) by lia. unfold ship. by rewrite Ht0, Ht1. }
  split; [lia|]. split.
  - intros sch pf s' E m a Hout. rewrite Hunf in E.
    refine (cf_same _ _ _ _ _ _ (wlp_run_workers (H2 := sch) s (set_signal 0 s) n p rcv h pf pf 0 _ _
      (λ _ s', confined s s' n p rcv (2 * h)) _ _ _ _ _ _ _ _ _ E) m a _); [..|lia]; try lia; [|split..|done].
    + split; [done..| | |done]; [|intros m' a' Hf; by apply Hfl in Hf].
      intros id q Hid Hq. assert (id = 0 ∨ id = 1) as [-> | ->] by lia.
      * by assert (q = q0) as -> by congruence.
      * by assert (q = q1) as -> by congruence.
    + split; simpl; try done; lia.
    + simpl. split; [lia|done].
    + split; simpl; try done; lia.
    + simpl. split; [lia|done].
  - destruct (run_in_order (set_signal 0 s) n p q0 q1 send rcv size h) as (sch & K & s' & HK & Hin);
      try (eapply linked_same; [eassumption|apply same_sock_signal]); try done; try lia.
    1,2: eapply ranges_same; [eassumption|apply same_sock_signal].
    exists sch, K, s'. split; [intros pf Hpf; rewrite Hunf; by apply HK|]. intros x Hx. apply Hin. lia.
Qed.
End workers.

(** ** The ideal device *)

#[export] Existing Instances Ideal.ideal_verbs Ideal.ideal_laws.

Definition pending_at (l : list (Z * Z * ibv_send_wr)) (n a : Z) : Prop :=
  ∃ c wr, (c, n, wr) ∈ l ∧ remote_addr wr ≤ a < remote_addr wr + sge_length (sg_list wr).

Lemma pending_post c n wrs l m a : pending_at (l ++ ((λ wr, (c, n, wr)) <$> wrs)) m a →
  pending_at l m a ∨ (m = n ∧ writes_at wrs a).
Proof.
  intros (c' & wr & [Hin|Hin]%elem_of_app & Ha); [left; by exists c', wr|right].
  apply list_elem_of_fmap in Hin as (wr' & [= -> -> ->] & Hin). split; [done|]. by exists wr'.
Qed.

Lemma carry_out_scope c n wr rest d : Ideal.pending d = (c, n, wr) :: rest →
  Ideal.pending (Ideal.carry_out n wr rest d) = rest ∧ Ideal.qp_node (Ideal.carry_out n wr rest d) = Ideal.qp_node d ∧
  ∀ m a, pending_at (Ideal.pending d) m a ∨ Ideal.nodes (Ideal.carry_out n wr rest d) m a = Ideal.nodes d m a.
Proof.
  intros Hp. unfold Ideal.carry_out. rewrite Hp.
  split_and!; [by destruct (opcode wr)..|]. intros m a. destruct (opcode wr); simpl; auto.
  destruct (Z.eqb_spec m n) as [->|]; [|auto].
  destruct (decide (remote_addr wr ≤ a < remote_addr wr + sge_length (sg_list wr))).
  - left. exists c, wr. split; [left|done].
  - right. apply copy_out. lia.
Qed.

#[export] Instance ideal_scope : VerbsScope Ideal.device.
Proof.
  unshelve refine {|
    attached d q n := Ideal.qp_node d !! q = Some n;
    in_flight d n a := pending_at (Ideal.pending d) n a;
  |}.
  - done.
  - intros d q n wrs r d' Hn. simpl. rewrite Hn. destruct (Ideal.qp_cq d !! q) as [c|]; intros [= _ <-]; simpl; [|by auto].
    split_and!; [|by auto|done]. intros m a. apply pending_post.
  - intros d c k wc r d'. simpl. destruct (Ideal.pending d) as [|[[c' n] wr] rest] eqn:Hp.
    { intros [= _ <-]. rewrite Hp. by auto. }
    destruct (c' =? c); [|intros [= _ <-]; rewrite Hp; by auto].
    destruct (Ideal.allowed n wr d); intros [= _ <-].
    2:{ simpl. split_and!; [|by auto|done]. intros m a (c1 & wr1 & Hin & Ha). exists c1, wr1. split; [by right|done]. }
    destruct (carry_out_scope _ _ _ _ _ Hp) as (Hr & Hq & Hs). rewrite Hp in Hs. rewrite Hr.
    split_and!; [|done|by rewrite Hq]. intros m a (c1 & wr1 & Hin & Ha). exists c1, wr1. split; [by right|done].
Defined.

(** The two workers in turn. *)
Definition in_turn : Sched := Nat.odd.

Lemma remote_write_drops_tail_witness :
  (∃ (sch : Sched) K s', (∀ pf, (K ≤ pf)%nat → RemoteWrite pf 5000000 1 0 4200000 Ideal.client = Done (true, s')) ∧
    ∀ x, 0 ≤ x < 4194304 → nodes1 s' (65536 + x) = (5000000 + x) `mod` 251) ∧
  ∃ s', RemoteWrite (H0 := in_turn) 30 5000000 1 0 4200000 Ideal.client = Done (true, s') ∧
    nodes1 s' (65536 + 4199999) = 0 ∧ (5000000 + 4199999) `mod` 251 ≠ 0.
Proof.
  destruct (remote_write_drops_tail Ideal.client 1 Ideal.node1 11 12 5000000 0 4200000) as (_ & Hb & Hc).
  - by apply Ideal.client_linked; left.
  - by apply Ideal.client_linked; right.
  - by apply Ideal.client_ranges.
  - by apply Ideal.client_ranges.
  - reflexivity.
  - reflexivity.
  - reflexivity.
  - intros m a (c & wr & Hin & _). by apply not_elem_of_nil in Hin.
  - lia.
  - split.
    + destruct Hc as (sch & K & s' & HK & Hin). exists sch, K, s'. split; [exact HK|]. intros x Hx.
      exact (eq_trans (Hin x Hx) eq_refl).
    + destruct (RemoteWrite (H0 := in_turn) 30 5000000 1 0 4200000 Ideal.client) as [[[] s']|f] eqn:E.
      * exists s'. split; [reflexivity|]. split; [|done].
        apply (Hb in_turn 30%nat s' E 1 (65536 + 4199999)). right. right. vm_compute. congruence.
      * exfalso. apply (f_equal (λ o, match o with Done (b, _) => b | Fault _ => true end)) in E.
        vm_compute in E. discriminate E.
      * exfalso. apply (f_equal (λ o, match o with Done (b, _) => b | Fault _ => false end)) in E.
        vm_compute in E. discriminate E.
Defined.

(** ** Completions that go to the wrong worker *)

(** Worker 1 takes the completion of worker 0 for its own and refills its pool while its first request is
    still waiting; then worker 0 takes the completion of that request. *)
Definition crossed : Sched := λ n, nth n [false; true; true; true; false; false; true; false; true; false] false.

(** C36: The two workers of a large transfer poll one completion queue and do not look which request a
    completion belongs to.  There is an order of their steps, with every request carried out in the
    order it was posted, in which RemoteWrite returns true and bytes of the range hold the data of
    another part of the buffer. *)
Theorem workers_cross_completions :
  ∃ s' : RdmaSocket Ideal.device,
    RemoteWrite (H0 := crossed) 30 5000000 1 0 4194304 Ideal.client = Done (true, s') ∧
    2 * shipSize 4194304 = 4194304 ∧
    let x := 2097152 in
    nodes1 s' (65536 + x) = (5000000 + (x + 1048576)) `mod` 251 ∧
    nodes1 s' (65536 + x) ≠ Ideal.memory (dev Ideal.client) (5000000 + x).
Proof.
  destruct (RemoteWrite (H0 := crossed) 30 5000000 1 0 4194304 Ideal.client) as [[b s']|f] eqn:E.
  - assert (Hb : b = true ∧ nodes1 s' (65536 + 2097152) = (5000000 + (2097152 + 1048576)) `mod` 251).
    { apply (f_equal (λ o, match o with Done (b, s) => Some (b, nodes1 s (65536 + 2097152)) | Fault _ => None end)) in E.
      vm_compute in E. injection E as <- Hn. split; [done|]. symmetry. exact Hn. }
    destruct Hb as [-> Hb]. exists s'. split; [done|]. split; [done|]. split; [done|]. rewrite Hb. done.
  - exfalso. apply (f_equal (λ o, match o with Done _ => true | Fault _ => false end)) in E. vm_compute in E. done.
Qed.
