(* ===== verification/Queue.v ===== *)
(** * The task queue between a caller and a transfer worker: include/queue.h.

    [PushPolling] and [PopPolling] take no lock: the producer appends to the vector and then adds one
    to [offset], the consumer waits for [offset], takes the front and then subtracts one.  They are
    modelled as the interleaved steps of one producer and one consumer, which is how RdmaSocket uses a
    queue (the caller of RemoteRead or RemoteWrite, and worker [i] on queue [i]).

    A call of a method of the vector is no single step: it begins, and it ends.  When one thread begins
    such a call while the other is inside one, the program has a data race and the run ends with the
    fault [DataRace]: nothing is said of what follows.  Each atomic addition to [offset] and each read
    of it by the loop of PopPolling is one step; the read is the load the compiled loop makes anew
    each time, which the source, where [offset] is a plain [uint8_t], does not ask for.

    The class alone does not keep the threads apart ([queue_races]).  RdmaSocket does: RemoteRead and
    RemoteWrite push one task to each worker and wait for TransferSignal before they return, so, as long
    as one thread at a time calls them, the next PushPolling begins when everything pushed before has
    been popped ([one_at_a_time]). *)
From S2P Require Import Prelude.
Local Open Scope Z_scope.

Section queue.
Context {T : Type}.

Record Queue := Mk {
  queue : list T;
  offset : Z;      (* a [uint8_t] *)
}.

Definition empty_queue : Queue := Mk [] 0.

(** ** The locked operations

    The body of [push] and [pop] between taking and releasing the mutex; [pop] waits on the condition
    variable, [None], while the vector is empty. *)

Definition push (item : T) (q : Queue) : Queue := Mk (queue q ++ [item]) (offset q).

Definition pop (q : Queue) : option (T * Queue) :=
  match queue q with
  | [] => None
  | item :: rest => Some (item, Mk rest (offset q))
  end.

(** ** The polling operations *)

(** Where the producer is: outside, inside [push_back], or after it. *)
Inductive ppc := PIdle | PPush (item : T) | PAdd.

(** Where the consumer is: spinning on [offset], before [front()], inside it, before [erase], inside
    it, before the subtraction. *)
Inductive cpc := CSpin | CFront | CReading | CErase (item : T) | CErasing (item : T) | CSub (item : T).

Record state := St {
  q : Queue;
  producer : ppc;
  consumer : cpc;
  pushed : list T;      (* the arguments of PushPolling so far *)
  popped : list T;      (* the results of PopPolling so far *)
}.

Definition start : state := St empty_queue PIdle CSpin [] [].

(** A thread is inside a call of a method of the vector. *)
Definition producer_inside (p : ppc) : bool := match p with PPush _ => true | _ => false end.
Definition consumer_inside (c : cpc) : bool := match c with CReading | CErasing _ => true | _ => false end.

Inductive event :=
  | EPushBegin (item : T) | EPushEnd | EAdd
  | EPoll | EFrontBegin | EFrontEnd | EEraseBegin | EEraseEnd | ESub.

Definition set_producer (p : ppc) (s : state) : state := St (q s) p (consumer s) (pushed s) (popped s).
Definition set_consumer (c : cpc) (s : state) : state := St (q s) (producer s) c (pushed s) (popped s).
Definition set_queue (l : Queue) (s : state) : state := St l (producer s) (consumer s) (pushed s) (popped s).

Definition unless_race (racing : bool) (s : state) : outcome state := if racing then Fault DataRace else Done s.

(** PushPolling(item): [None] when the step is not the next one of the thread. *)
Definition push_step (e : event) (s : state) : option (outcome state) :=
  match e, producer s with
  | EPushBegin item, PIdle =>
      Some (unless_race (consumer_inside (consumer s))
        (St (q s) (PPush item) (consumer s) (pushed s ++ [item]) (popped s)))
  | EPushEnd, PPush item =>
      Some (Done (set_producer PAdd (set_queue (Mk (queue (q s) ++ [item]) (offset (q s))) s)))
  | EAdd, PAdd =>
      Some (Done (set_producer PIdle (set_queue (Mk (queue (q s)) (u8 (offset (q s) + 1))) s)))
  | _, _ => None
  end.

(** PopPolling(): [None] also when the consumer spins.  [front()] and [erase(begin())] of an empty
    vector are faults. *)
Definition pop_step (e : event) (s : state) : option (outcome state) :=
  match e, consumer s with
  | EPoll, CSpin => if offset (q s) =? 0 then None else Some (Done (set_consumer CFront s))
  | EFrontBegin, CFront => Some (unless_race (producer_inside (producer s)) (set_consumer CReading s))
  | EFrontEnd, CReading =>
      match queue (q s) with
      | [] => Some (Fault EmptyTop)
      | item :: _ => Some (Done (set_consumer (CErase item) s))
      end
  | EEraseBegin, CErase item => Some (unless_race (producer_inside (producer s)) (set_consumer (CErasing item) s))
  | EEraseEnd, CErasing item =>
      match queue (q s) with
      | [] => Some (Fault EmptyTop)
      | _ :: rest => Some (Done (set_consumer (CSub item) (set_queue (Mk rest (offset (q s))) s)))
      end
  | ESub, CSub item =>
      Some (Done (St (Mk (queue (q s)) (u8 (offset (q s) - 1))) (producer s) CSpin (pushed s) (popped s ++ [item])))
  | _, _ => None
  end.

Definition consumer_event (e : event) : bool :=
  match e with EPushBegin _ | EPushEnd | EAdd => false | _ => true end.

Definition step (e : event) (s : state) : option (outcome state) :=
  if consumer_event e then pop_step e s else push_step e s.

(** What interleaved steps can reach when every step keeps the discipline [D]. *)
Inductive reaches (D : event → state → Prop) : state → outcome state → Prop :=
  | reaches_refl s : reaches D s (Done s)
  | reaches_step s s1 e o : reaches D s (Done s1) → D e s1 → step e s1 = Some o → reaches D s o.

(** Any interleaving at all. *)
Definition anyhow (e : event) (s : state) : Prop := True.

(** PushPolling is called when PopPolling has returned everything that was pushed before. *)
Definition one_at_a_time (e : event) (s : state) : Prop :=
  match e with EPushBegin _ => popped s = pushed s | _ => True end.

(** ** The invariant *)

(** The item that [push_back] is about to add, and the item between [erase] and the end of PopPolling. *)
Definition in_push (p : ppc) : list T := match p with PPush item => [item] | _ => [] end.
Definition in_hand (c : cpc) : list T := match c with CSub item => [item] | _ => [] end.

(** The items in the vector that [offset] does not count yet. *)
Definition adding (p : ppc) : Z := match p with PAdd => 1 | _ => 0 end.

(** The item the consumer has read and not yet erased. *)
Definition taken (c : cpc) : option T := match c with CErase item | CErasing item => Some item | _ => None end.

Definition past_poll (c : cpc) : bool := match c with CSpin | CSub _ => false | _ => true end.

Record inv (s : state) : Prop := {
  inv_fifo : popped s ++ in_hand (consumer s) ++ queue (q s) ++ in_push (producer s) = pushed s;
  inv_count : offset (q s) =
    u8 (Z.of_nat (length (in_hand (consumer s))) + Z.of_nat (length (queue (q s))) - adding (producer s));
  inv_adding : adding (producer s) ≤ Z.of_nat (length (queue (q s)));
  inv_polled : past_poll (consumer s) = true → adding (producer s) < Z.of_nat (length (queue (q s)));
  inv_taken item : taken (consumer s) = Some item → head (queue (q s)) = Some item;
}.

Lemma inv_start : inv start.
Proof. by split. Qed.

Lemma u8_add a b : u8 (u8 a + b) = u8 (a + b).
Proof. unfold u8. by rewrite Zplus_mod_idemp_l. Qed.

Lemma head_app (l k : list T) x : head l = Some x → head (l ++ k) = Some x.
Proof. by destruct l. Qed.

Lemma push_step_inv e s s' : inv s → push_step e s = Some (Done s') → inv s'.
Proof.
  intros [Hf Hc Ha Hp Ht]. destruct s as [[l o] pr c pu po]. unfold push_step. simpl in *.
  destruct e; try done; destruct pr as [|x|]; try done; simpl in *.
  - unfold unless_race. destruct (consumer_inside c); [done|]. intros [= <-]. split; simpl; try done.
    by rewrite <- Hf, app_nil_r, !app_assoc.
  - intros [= <-]. split; simpl; rewrite ?app_nil_r, ?length_app; simpl; try done; try lia.
    + rewrite Hc. f_equal. lia.
    + intros Hpp. specialize (Hp Hpp). lia.
    + intros item Hi. by apply head_app, Ht.
  - intros [= <-]. split; simpl; try done; try lia.
    rewrite Hc, u8_add. f_equal. lia.
Qed.

Lemma pop_step_inv e s s' : inv s → pop_step e s = Some (Done s') → inv s'.
Proof.
  intros [Hf Hc Ha Hp Ht]. destruct s as [[l o] pr c pu po]. unfold pop_step. simpl in *.
  destruct e; try done; destruct c as [| | |x|x|x]; try done; simpl in *.
  - destruct (Z.eqb_spec o 0); [done|]. intros [= <-]. split; simpl; try done.
    intros _. destruct (decide (Z.of_nat (length l) = adding pr)) as [E|]; [|lia].
    exfalso. apply n. rewrite Hc, E. unfold u8. by replace (0 + _ - _) with 0 by lia.
  - unfold unless_race. destruct (producer_inside pr); [done|]. by intros [= <-].
  - destruct l as [|x l']; [done|]. intros [= <-]. by split.
  - unfold unless_race. destruct (producer_inside pr); [done|]. by intros [= <-].
  - specialize (Hp eq_refl). specialize (Ht x eq_refl). destruct l as [|y l']; [done|]. injection Ht as ->.
    intros [= <-]. simpl in *. split; simpl; try done; try lia. rewrite Hc. f_equal. lia.
  - intros [= <-]. split; simpl; try done.
    + by rewrite <- Hf, <- app_assoc.
    + rewrite Hc. unfold Z.sub at 1. rewrite u8_add. f_equal. lia.
Qed.

(** From a state of the invariant the only fault is a race of two vector accesses. *)
Lemma step_faults e s f : inv s → step e s = Some (Fault f) →
  f = DataRace ∧ (producer_inside (producer s) = true ∨ consumer_inside (consumer s) = true).
Proof.
  intros [Hf Hc Ha Hp Ht]. destruct s as [[l o] pr c pu po]. unfold step, push_step, pop_step, unless_race. simpl in *.
  destruct e; simpl; try (destruct pr; done); try (destruct c; done).
  - destruct pr; try done. destruct (consumer_inside c) eqn:E; [|done]. intros [= <-]. auto.
  - destruct c; try done. by destruct (o =? 0).
  - destruct c; try done. destruct (producer_inside pr) eqn:E; [|done]. intros [= <-]. auto.
  - destruct c; try done. specialize (Hp eq_refl). destruct l; [|done]. destruct pr; simpl in *; lia.
  - destruct c; try done. destruct (producer_inside pr) eqn:E; [|done]. intros [= <-]. auto.
  - destruct c; try done. specialize (Hp eq_refl). destruct l; [|done]. destruct pr; simpl in *; lia.
Qed.

Lemma step_inv e s o : inv s → step e s = Some o → o = Fault DataRace ∨ ∃ s', o = Done s' ∧ inv s'.
Proof.
  intros Hi E. destruct o as [s'|f].
  - right. exists s'. split; [done|]. revert E. unfold step. destruct (consumer_event e).
    + by apply pop_step_inv.
    + by apply push_step_inv.
  - left. by destruct (step_faults e s f Hi E) as [-> _].
Qed.

Lemma reaches_inv D s o : inv s → reaches D s o → o = Fault DataRace ∨ ∃ s', o = Done s' ∧ inv s'.
Proof.
  intros Hi. induction 1 as [s|s s1 e o Hr IH HD Hst]; [eauto|].
  destruct (IH Hi) as [|(s' & [= <-] & Hi')]; [done|]. by eapply step_inv.
Qed.

Lemma reaches_done_inv D s s' : inv s → reaches D s (Done s') → inv s'.
Proof. intros Hi Hr. by destruct (reaches_inv D s _ Hi Hr) as [|(? & [= <-] & ?)]. Qed.

(** ** One task at a time *)

(** While a task is being pushed the consumer spins and [offset] is 0, so that it reads nothing of the
    vector before the addition. *)
Definition exclusive (s : state) : Prop :=
  producer s ≠ PIdle → consumer s = CSpin ∧ offset (q s) = 0 ∧ popped s ++ queue (q s) ++ in_push (producer s) = pushed s.

Lemma all_popped s : inv s → popped s = pushed s → consumer s = CSpin ∧ producer s ≠ PAdd ∧ queue (q s) = [] ∧ offset (q s) = 0.
Proof.
  intros [Hf Hc Ha Hp Ht] E. rewrite E in Hf. rewrite <- (app_nil_r (pushed s)) in Hf at 2. apply app_inv_head in Hf.
  apply app_eq_nil in Hf as [Hh [Hq Hpu]%app_eq_nil]. rewrite Hq, Hh in *. simpl in *.
  assert (Hpr : producer s ≠ PAdd) by (intros E'; rewrite E' in Ha; simpl in Ha; lia).
  assert (Hz : adding (producer s) = 0) by (by destruct (producer s)). split_and!; try done.
  - destruct (consumer s); try done; specialize (Hp eq_refl); lia.
  - by rewrite Hc, Hz.
Qed.

Lemma one_at_a_time_exclusive e s o : inv s → exclusive s → one_at_a_time e s → step e s = Some o →
  ∃ s', o = Done s' ∧ inv s' ∧ exclusive s'.
Proof.
  intros Hi Hex HD E. pose proof Hi as [Hf Hc Ha Hp Ht]. destruct (step_inv e s o Hi E) as [->|(s' & -> & Hi')].
  - exfalso. destruct (step_faults e s _ Hi E) as [_ Hin]. unfold exclusive in Hex.
    destruct s as [[l o] pr c pu po]. unfold step, push_step, pop_step, unless_race in E. simpl in *.
    destruct e; simpl in E, HD; try (destruct pr; done); try (destruct c; done).
    + destruct pr; try done. destruct (all_popped _ Hi HD) as (Hcs & _). simpl in Hcs. by subst.
    + destruct c; try done. by destruct (o =? 0).
    + destruct c; try done. destruct pr; try done. by destruct Hex.
    + destruct c; try done. by destruct l.
    + destruct c; try done. destruct pr; try done. by destruct Hex.
    + destruct c; try done. by destruct l.
  - exists s'. split_and!; [done..|]. unfold exclusive in *.
    destruct s as [[l o] pr c pu po]. unfold step, push_step, pop_step, unless_race in E. simpl in *.
    destruct e; simpl in E, HD.
    + destruct pr; try done. destruct (all_popped _ Hi HD) as (Hcs & _ & Hq & Ho). simpl in Hcs, Hq, Ho. subst.
      injection E as <-. done.
    + destruct pr; try done. injection E as <-. simpl. intros _. destruct Hex as (-> & -> & <-); [done|].
      by rewrite app_nil_r.
    + destruct pr; try done. by injection E as <-.
    + destruct c; try done. destruct (Z.eqb_spec o 0); [done|]. injection E as <-. simpl. intros Hne. by destruct (Hex Hne) as (_ & ? & _).
    + destruct c; try done. destruct (producer_inside pr); [done|]. injection E as <-. simpl. intros Hne. by destruct (Hex Hne).
    + destruct c; try done. destruct l; [done|]. injection E as <-. simpl. intros Hne. by destruct (Hex Hne).
    + destruct c; try done. destruct (producer_inside pr); [done|]. injection E as <-. simpl. intros Hne. by destruct (Hex Hne).
    + destruct c; try done. destruct l; [done|]. injection E as <-. simpl. intros Hne. by destruct (Hex Hne).
    + destruct c; try done. injection E as <-. simpl. intros Hne. by destruct (Hex Hne).
Qed.

Lemma used_inv o : reaches one_at_a_time start o → ∃ s, o = Done s ∧ inv s ∧ exclusive s.
Proof.
  intros Hr. assert (Hgen : ∀ s, reaches one_at_a_time s o → inv s → exclusive s → ∃ s', o = Done s' ∧ inv s' ∧ exclusive s').
  { clear. induction 1 as [s|s s1 e o Hr IH HD Hst]; [eauto|]. intros Hi Hex.
    destruct (IH Hi Hex) as (s' & [= <-] & Hi' & Hex'). by eapply one_at_a_time_exclusive. }
  apply (Hgen start Hr); [apply inv_start|done].
Qed.

(** ** What the queue promises *)

Definition in_flight_tasks (s : state) : Z := Z.of_nat (length (pushed s)) - Z.of_nat (length (popped s)).

(** The steps the consumer has left for the items in the vector. *)
Definition work (s : state) : Z :=
  6 * Z.of_nat (length (queue (q s))) +
  match consumer s with
  | CSpin => 0 | CFront => -1 | CReading => -2 | CErase _ => -3 | CErasing _ => -4 | CSub _ => 1
  end.

(** No work is left when everything has been handed over, and while there is some, with fewer than 256
    tasks on their way, the consumer has a next step. *)
Lemma work_enabled s : inv s → producer s = PIdle → in_flight_tasks s < 256 →
  0 ≤ work s ∧ (work s = 0 → popped s = pushed s) ∧
  (0 < work s → ∃ e s', consumer_event e = true ∧ step e s = Some (Done s')).
Proof.
  intros [Hf Hc Ha Hp Ht] Hpr. unfold in_flight_tasks, work, step. destruct s as [[l o] pr c pu po]. simpl in *. subst pr. simpl in *.
  rewrite app_nil_r in Hf. apply (f_equal length) in Hf as Hl. rewrite !length_app in Hl. intros Hlt.
  destruct c as [| | |x|x|x]; simpl in *; try specialize (Hp eq_refl).
  - split; [lia|]. split; [intros Hz; destruct l; [by rewrite app_nil_r in Hf|simpl in Hz; lia]|].
    intros Hw. exists EPoll. simpl. unfold pop_step. simpl. rewrite (proj2 (Z.eqb_neq _ _)); [by eexists|].
    rewrite Hc. unfold u8. rewrite Z.mod_small by lia. lia.
  - split; [lia|]. split; [lia|]. intros _. exists EFrontBegin. by eexists.
  - split; [lia|]. split; [lia|]. intros _. exists EFrontEnd. unfold pop_step. simpl. destruct l; [simpl in *; lia|]. by eexists.
  - split; [lia|]. split; [lia|]. intros _. exists EEraseBegin. by eexists.
  - split; [lia|]. split; [lia|]. intros _. exists EEraseEnd. unfold pop_step. simpl. destruct l; [simpl in *; lia|]. by eexists.
  - split; [lia|]. split; [lia|]. intros _. exists ESub. by eexists.
Qed.

(** The promise of a state: what has been returned is a first part of what was pushed, and a task that
    has been pushed does not wait forever. *)
Definition fifo (s : state) : Prop :=
  popped s `prefix_of` pushed s ∧
  (producer s = PIdle → popped s ≠ pushed s → in_flight_tasks s < 256 →
    ∃ e s', consumer_event e = true ∧ step e s = Some (Done s')).

Lemma inv_is_fifo s : inv s → fifo s.
Proof.
  intros Hi. split; [eexists; symmetry; apply Hi|]. intros Hp Hne Hlt.
  destruct (work_enabled s Hi Hp Hlt) as (H0 & Hz & Hpos). apply Hpos. destruct (decide (work s = 0)); [by destruct Hne; auto|lia].
Qed.

(** Only PushPolling puts a task on its way. *)
Lemma step_flight e s s' : step e s = Some (Done s') →
  in_flight_tasks s' ≤ in_flight_tasks s + 1 ∧
  ((∀ x, e ≠ EPushBegin x) → in_flight_tasks s' ≤ in_flight_tasks s).
Proof.
  unfold in_flight_tasks, step, push_step, pop_step, unless_race. destruct s as [[l o] pr c pu po].
  destruct e as [x| | | | | | | |]; simpl.
  - destruct pr; try done. destruct (consumer_inside c); [done|]. intros [= <-]. simpl. rewrite length_app.
    simpl. split; [lia|]. intros Hn. by destruct (Hn x).
  - destruct pr; try done. intros [= <-]. simpl. lia.
  - destruct pr; try done. intros [= <-]. simpl. lia.
  - destruct c; try done. destruct (o =? 0); [done|]. intros [= <-]. simpl. lia.
  - destruct c; try done. destruct (producer_inside pr); [done|]. intros [= <-]. simpl. lia.
  - destruct c; try done. destruct l; [done|]. intros [= <-]. simpl. lia.
  - destruct c; try done. destruct (producer_inside pr); [done|]. intros [= <-]. simpl. lia.
  - destruct c; try done. destruct l; [done|]. intros [= <-]. simpl. lia.
  - destruct c; try done. intros [= <-]. simpl. rewrite length_app. simpl. lia.
Qed.

Lemma used_few s : reaches one_at_a_time start (Done s) → in_flight_tasks s < 2.
Proof.
  assert (Hgen : ∀ s0 o, reaches one_at_a_time s0 o → in_flight_tasks s0 < 2 → ∀ s, o = Done s → in_flight_tasks s < 2).
  { induction 1 as [s0|s0 s1 e o Hr IH HD Hst]; intros H0; [by intros s' [= <-]|]. intros s' ->.
    specialize (IH H0 s1 eq_refl). destruct (step_flight e s1 s' Hst) as [Hle Hno].
    destruct e as [x| | | | | | | |]; try (by eapply Z.le_lt_trans; [apply Hno|exact IH]); simpl in *.
    unfold in_flight_tasks in *. rewrite HD in Hle. lia. }
  intros Hr. by apply (Hgen start (Done s) Hr).
Qed.

(** C17: The queue without a lock, used the way RdmaSocket uses it (PushPolling only when everything pushed
    before has been popped), hands the tasks over in order: however the steps of the two threads
    interleave, no two accesses of the vector overlap, PopPolling never takes the front of an empty
    vector, what it has returned is a first part of what was pushed, and a task that was pushed never
    leaves the consumer stuck.  Used in any other way the queue keeps the same promise, with fewer than
    256 tasks on their way, up to the first race. *)
Theorem queue_fifo o :
  (reaches one_at_a_time start o → ∃ s, o = Done s ∧ fifo s ∧ exclusive s ∧ in_flight_tasks s < 2) ∧
  (reaches anyhow start o → o = Fault DataRace ∨ ∃ s, o = Done s ∧ fifo s).
Proof.
  split; intros Hr.
  - destruct (used_inv o Hr) as (s & -> & Hi & Hex). exists s. split_and!; [done|by apply inv_is_fifo|done|].
    by apply used_few.
  - destruct (reaches_inv _ _ _ inv_start Hr) as [|(s & -> & Hi)]; [by left|right].
    exists s. split; [done|by apply inv_is_fifo].
Qed.

(** A sequence of steps, evaluated. *)
Fixpoint run (es : list event) (s : state) : option (outcome state) :=
  match es with
  | [] => Some (Done s)
  | e :: es' => match step e s with
                | Some (Done s') => run es' s'
                | o => o
                end
  end.

(** The steps of [run] keep the discipline. *)
Fixpoint along (D : event → state → Prop) (es : list event) (s : state) : Prop :=
  match es with
  | [] => True
  | e :: es' => D e s ∧ match step e s with Some (Done s') => along D es' s' | _ => True end
  end.

Lemma reaches_run D es s o : run es s = Some o → along D es s → reaches D s o.
Proof.
  enough (Hgen : ∀ s0, reaches D s0 (Done s) → run es s = Some o → along D es s → reaches D s0 o) by
    (intros; by eapply Hgen; [constructor|..]).
  revert s. induction es as [|e es IH]; intros s s0 Hr; simpl; [by intros [= <-]|]. intros E [HD Hal].
  destruct (step e s) as [[s1|f]|] eqn:Es; try done.
  - by apply (IH s1); [eapply reaches_step|..].
  - injection E as <-. by eapply reaches_step.
Qed.

Lemma along_anyhow es : ∀ s, along anyhow es s.
Proof. induction es as [|e es IH]; intros s; simpl; [done|]. split; [done|]. by destruct (step e s) as [[]|]. Qed.

(** Nothing in the class keeps the two threads apart: the second of two tasks can be pushed while the
    first is being read. *)
Lemma queue_races (x y : T) : reaches anyhow start (Fault DataRace).
Proof. by apply (reaches_run anyhow [EPushBegin x; EPushEnd; EAdd; EPoll; EFrontBegin; EPushBegin y]); [|apply along_anyhow]. Qed.

(** ** The consumer left to itself *)

Lemma consumer_step e s o : consumer_event e = true → inv s → producer s = PIdle → step e s = Some o →
  ∃ s', o = Done s' ∧ inv s' ∧ work s' = work s - 1 ∧ producer s' = PIdle ∧ pushed s' = pushed s ∧
    (length (popped s) ≤ length (popped s'))%nat.
Proof.
  intros He Hi Hpr E. destruct (step_inv e s o Hi E) as [->|(s' & -> & Hi')].
  { exfalso. destruct (step_faults e s _ Hi E) as [_ [Hin|Hin]]; [by rewrite Hpr in Hin|].
    unfold step in E. rewrite He in E. unfold pop_step in E.
    destruct s as [[l o] pr c pu po]. simpl in *. subst pr. destruct c; try done; destruct e; try done; by destruct l. }
  exists s'. split; [done|]. split; [done|]. unfold step in E. rewrite He in E. unfold pop_step, unless_race in E.
  destruct s as [[l o] pr c pu po]. simpl in *. subst pr. unfold work.
  destruct e; try done; destruct c as [| | |x|x|x]; try done; simpl in *.
  - destruct (o =? 0); [done|]. injection E as <-. simpl. split_and!; [lia|done..].
  - injection E as <-. simpl. split_and!; [lia|done..].
  - destruct l; [done|]. injection E as <-. simpl. split_and!; [lia|done..].
  - injection E as <-. simpl. split_and!; [lia|done..].
  - destruct l; [done|]. injection E as <-. simpl. split_and!; [lia|done..].
  - injection E as <-. simpl. rewrite length_app. split_and!; try done; lia.
Qed.

Lemma consumer_run es : ∀ s o, forallb consumer_event es = true → inv s → producer s = PIdle → run es s = Some o →
  ∃ s', o = Done s' ∧ inv s' ∧ work s' = work s - Z.of_nat (length es) ∧ producer s' = PIdle ∧ pushed s' = pushed s ∧
    (length (popped s) ≤ length (popped s'))%nat.
Proof.
  induction es as [|e es IH]; intros s o He Hi Hp; simpl.
  { intros [= <-]. exists s. split_and!; [done..|lia|done|done|lia]. }
  simpl in He. apply andb_prop in He as [He Hes]. destruct (step e s) as [o1|] eqn:E; [|done].
  destruct (consumer_step e s o1 He Hi Hp E) as (s1 & -> & Hi1 & Hw & Hp1 & Hpu & Hl). intros Hr.
  destruct (IH s1 o Hes Hi1 Hp1 Hr) as (s' & -> & Hi' & Hw' & Hp' & Hpu' & Hl').
  exists s'. split_and!; [done..|lia|done|congruence|lia].
Qed.

(** C18: Every task that was pushed is handed over.  From any state the two threads can reach without a
    race in which the producer is outside and fewer than 256 tasks are on their way, every run of the
    consumer alone is free of races, can be continued as long as it has made fewer than [work s] steps,
    makes no more, and after that many steps PopPolling has returned every pushed task, in order. *)
Theorem queue_drains s es o : reaches anyhow start (Done s) → producer s = PIdle → in_flight_tasks s < 256 →
  forallb consumer_event es = true → run es s = Some o →
  ∃ s', o = Done s' ∧ Z.of_nat (length es) ≤ work s ∧
    (Z.of_nat (length es) = work s → popped s' = pushed s) ∧
    (Z.of_nat (length es) < work s → ∃ e s'', consumer_event e = true ∧ step e s' = Some (Done s'')).
Proof.
  intros Hr Hp Hlt Hes Hrun. pose proof (reaches_done_inv _ _ _ inv_start Hr) as Hi.
  destruct (consumer_run es s o Hes Hi Hp Hrun) as (s' & -> & Hi' & Hw & Hp' & Hpu & Hl).
  assert (Hlt' : in_flight_tasks s' < 256) by (unfold in_flight_tasks in *; rewrite Hpu; lia).
  destruct (work_enabled s' Hi' Hp' Hlt') as (H0 & Hz & Hpos). rewrite Hpu in Hz. exists s'. split; [done|]. split; [lia|].
  split; [intros E; apply Hz; lia|intros E; apply Hpos; lia].
Qed.

(** [n] complete calls of PushPolling. *)
Lemma push_all items s : producer s = PIdle → consumer s = CSpin → 0 ≤ offset (q s) < 256 →
  reaches anyhow s (Done (St (Mk (queue (q s) ++ items) (u8 (offset (q s) + Z.of_nat (length items))))
    PIdle CSpin (pushed s ++ items) (popped s))).
Proof.
  intros Hp Hc Ho. induction items as [|x items IH] using rev_ind.
  - simpl. rewrite !app_nil_r, Z.add_0_r. unfold u8. rewrite Z.mod_small by lia.
    destruct s as [[] ? ? ? ?]. simpl in *. subst. constructor.
  - eapply (reaches_step _ _ _ EAdd); [eapply (reaches_step _ _ _ EPushEnd);
      [eapply (reaches_step _ _ _ (EPushBegin x)); [exact IH|done|reflexivity]|done|reflexivity]|done|].
    unfold step, push_step. simpl. rewrite u8_add, length_app, !app_assoc. unfold set_producer, set_queue. simpl.
    do 5 f_equal. lia.
Qed.

(** The 256th task is one too many: offset is a uint8_t, so after 256 pushes that no pop has followed
    it is 0 again and PopPolling waits in front of 256 tasks; nothing but a further push can happen. *)
Theorem queue_wraps items : length items = 256%nat →
  ∃ s, reaches anyhow start (Done s) ∧ queue (q s) = items ∧ popped s = [] ∧
    ∀ e o, step e s = Some o → ∃ x, e = EPushBegin x.
Proof.
  intros Hl. pose proof (push_all items start eq_refl eq_refl ltac:(simpl; lia)) as Hr. rewrite Hl in Hr.
  eexists. split; [exact Hr|]. split_and!; [done..|]. intros e o. destruct e; simpl; eauto; done.
Qed.
End queue.
Arguments Queue : clear implicits.
Arguments state : clear implicits.
Arguments event : clear implicits.

Lemma queue_fifo_witness : ∃ s : state Z, reaches one_at_a_time start (Done s) ∧ pushed s = [7; 8] ∧ popped s = [7] ∧
  exclusive s ∧ fifo s.
Proof.
  set (s := St (Mk [8] 0) PAdd CSpin [7; 8] [7]). exists s.
  assert (Hr : reaches one_at_a_time start (Done s)).
  { eapply (reaches_run one_at_a_time [EPushBegin 7; EPushEnd; EAdd; EPoll; EFrontBegin; EFrontEnd; EEraseBegin; EEraseEnd; ESub;
      EPushBegin 8; EPushEnd]); [reflexivity|]. vm_compute. tauto. }
  split; [exact Hr|]. split; [reflexivity|]. split; [reflexivity|].
  destruct (proj1 (queue_fifo (Done s)) Hr) as (s' & [= <-] & Hf & Hex & _). split; [exact Hex|exact Hf].
Defined.

Lemma queue_drains_witness : ∃ s s' : state Z, reaches anyhow start (Done s) ∧
  run [EPoll; EFrontBegin; EFrontEnd; EEraseBegin; EEraseEnd; ESub; EPoll; EFrontBegin; EFrontEnd; EEraseBegin; EEraseEnd; ESub] s =
    Some (Done s') ∧ popped s' = [7; 8].
Proof.
  set (s := St (Mk [7; 8] 2) PIdle CSpin [7; 8] []).
  set (es := [EPoll; EFrontBegin; EFrontEnd; EEraseBegin; EEraseEnd; ESub; EPoll; EFrontBegin; EFrontEnd; EEraseBegin; EEraseEnd; ESub]
    : list (event Z)).
  assert (Hr : reaches anyhow start (Done s)).
  { apply (reaches_run anyhow [EPushBegin 7; EPushEnd; EAdd; EPushBegin 8; EPushEnd; EAdd]); [reflexivity|apply along_anyhow]. }
  exists s, (St (Mk [] 0) PIdle CSpin [7; 8] [7; 8]). split; [exact Hr|]. split; [reflexivity|].
  destruct (queue_drains s es (Done (St (Mk [] 0) PIdle CSpin [7; 8] [7; 8]))) as (s' & [= <-] & _ & Hp & _);
    [exact Hr|reflexivity|reflexivity|reflexivity|reflexivity|]. exact (Hp eq_refl).
Defined.

Lemma queue_wraps_witness :
  ∃ s : state Z, reaches anyhow start (Done s) ∧ length (queue (q s)) = 256%nat ∧ step EPoll s = None.
Proof.
  destruct (queue_wraps (replicate 256 0) (length_replicate 256 0)) as (s & Hr & Hq & _ & Hstep). exists s.
  split; [exact Hr|]. split; [by rewrite Hq, length_replicate|].
  destruct (step EPoll s) as [o|] eqn:E; [|done]. by destruct (Hstep _ _ E).
Defined.
