(* ===== verification/Config.v ===== *)
(** * The configuration: src/net/Configuration.cpp.

    The XML file is read by Boost, which is not part of the program: its result is the list of the
    [(id, ip)] entries of [address.storage] in file order, and the other values. *)
From S2P Require Import Prelude.
Local Open Scope Z_scope.

Record ptree := Tree {
  storage : list (Z * string);     (* [id] is an [int] *)
  meta : string;
  port : Z;
  tcp : Z;
}.

Record Configuration := Conf {
  id2ip : gmap Z string;      (* keys are [uint16_t] *)
  ip2id : gmap string Z;      (* values are [uint16_t] *)
  ServerCount : Z;
  metaip : string;
  rdmaPort : Z;
  rdmaTcpPort : Z;
}.

Definition add_server (c : Configuration) (e : Z * string) : Configuration :=
  Conf (<[u16 e.1 := e.2]> (id2ip c)) (<[e.2 := u16 e.1]> (ip2id c)) (s32 (ServerCount c + 1))
    (metaip c) (rdmaPort c) (rdmaTcpPort c).

(** [Configuration::Configuration()] *)
Definition make_configuration (pt : ptree) : Configuration :=
  let c := foldl add_server (Conf ∅ ∅ 0 "" 0 0) (storage pt) in
  Conf (id2ip c) (ip2id c) (ServerCount c) (meta pt) (port pt) (tcp pt).

(** [operator[]] of an [unordered_map] adds the default value for a key that is absent. *)
Definition getIPbyID (id : Z) : M Configuration string := λ c,
  match id2ip c !! id with
  | Some ip => Done (ip, c)
  | None => Done (""%string, Conf (<[id := ""%string]> (id2ip c)) (ip2id c) (ServerCount c) (metaip c) (rdmaPort c) (rdmaTcpPort c))
  end.

Definition getIDbyIP (ip : string) : M Configuration Z := λ c,
  match ip2id c !! ip with
  | Some id => Done (id, c)
  | None => Done (0, Conf (id2ip c) (<[ip := 0]> (ip2id c)) (ServerCount c) (metaip c) (rdmaPort c) (rdmaTcpPort c))
  end.

Definition getInstance : M Configuration (gmap Z string) := gets id2ip.
Definition getServerCount : M Configuration Z := gets ServerCount.

(** ** Lemmas *)

Lemma fold_servers l c :
  foldl add_server c l = Conf
    (foldl (λ m e, <[u16 e.1 := e.2]> m) (id2ip c) l) (foldl (λ m e, <[e.2 := u16 e.1]> m) (ip2id c) l)
    (foldl (λ n _, s32 (n + 1)) (ServerCount c) l) (metaip c) (rdmaPort c) (rdmaTcpPort c).
Proof. revert c. induction l as [|e l IH]; intros c; simpl; [by destruct c|]. by rewrite IH. Qed.

Lemma fold_insert_other {K V E} `{Countable K} (k : E → K) (v : E → V) l (m : gmap K V) x :
  x ∉ (k <$> l) → foldl (λ m e, <[k e := v e]> m) m l !! x = m !! x.
Proof.
  revert m. induction l as [|e l IH]; intros m Hx; simpl; [done|].
  apply not_elem_of_cons in Hx as [Hne Hx]. rewrite IH by done. by rewrite lookup_insert_ne.
Qed.

(** Distinct keys keep the value they were given. *)
Lemma fold_insert_lookup {K V E} `{Countable K} (k : E → K) (v : E → V) l (m : gmap K V) e :
  NoDup (k <$> l) → e ∈ l → foldl (λ m e, <[k e := v e]> m) m l !! k e = Some (v e).
Proof.
  revert m. induction l as [|e' l IH]; intros m Hnd He; simpl; [by apply not_elem_of_nil in He|].
  simpl in Hnd. apply NoDup_cons in Hnd as [Hni Hnd]. apply elem_of_cons in He as [->|He]; [|by apply IH].
  rewrite fold_insert_other by done. apply lookup_insert_eq.
Qed.

Lemma fold_count {E} (l : list E) n : 0 ≤ n → n + Z.of_nat (length l) < 2 ^ 31 →
  foldl (λ n _, s32 (n + 1)) n l = n + Z.of_nat (length l).
Proof.
  revert n. induction l as [|e l IH]; intros n Hn Hl; simpl in *; [lia|].
  rewrite s32_small, IH by lia. lia.
Qed.

(** With distinct ids and addresses in the file the two tables are inverse to each other: each
    server is found by its id and by its address, the count is the number of servers, and the lookups
    change nothing. *)
Theorem configuration_lookups pt id ip :
  NoDup (fst <$> storage pt) → NoDup (snd <$> storage pt) → Forall (λ e, 0 ≤ e.1 < 2 ^ 16) (storage pt) →
  (id, ip) ∈ storage pt →
  let c := make_configuration pt in
  getIPbyID id c = Done (ip, c) ∧ getIDbyIP ip c = Done (id, c) ∧
  getServerCount c = Done (Z.of_nat (length (storage pt)), c).
Proof.
  intros Hid Hip Hr Hin c. subst c. unfold make_configuration. rewrite fold_servers. simpl.
  assert (Hu : ∀ e, e ∈ storage pt → u16 e.1 = e.1).
  { intros e He. unfold u16. apply Z.mod_small. by apply (proj1 (Forall_forall _ _) Hr e). }
  assert (Hnd : NoDup ((λ e, u16 e.1) <$> storage pt)).
  { replace ((λ e, u16 e.1) <$> storage pt) with (fst <$> storage pt); [done|].
    apply list_fmap_ext. intros j e He%list_elem_of_lookup_2. symmetry. by apply Hu. }
  assert (Hsz : Z.of_nat (length (storage pt)) < 2 ^ 31).
  { assert (Hle : (length (fst <$> storage pt) ≤ length (seqZ 0 (2 ^ 16)))%nat).
    { apply submseteq_length, NoDup_submseteq; [done|]. intros x (e & -> & He)%list_elem_of_fmap.
      apply elem_of_seqZ. pose proof (proj1 (Forall_forall _ _) Hr e He) as Hb. simpl in Hb. lia. }
    rewrite length_fmap, length_seqZ in Hle. lia. }
  pose proof (fold_insert_lookup (λ e, u16 e.1) snd (storage pt) ∅ _ Hnd Hin) as H1.
  pose proof (fold_insert_lookup snd (λ e, u16 e.1) (storage pt) ∅ _ Hip Hin) as H2.
  pose proof (Hu _ Hin) as Huid. simpl in H1, H2, Huid. rewrite Huid in H1, H2.
  unfold getIPbyID, getIDbyIP, getServerCount, gets. simpl. rewrite H1, H2, fold_count by lia. done.
Qed.

Lemma configuration_lookups_witness :
  let c := make_configuration (Tree [(1, "10.0.0.1"); (2, "10.0.0.2")]%string "10.0.0.9:1" 1 2) in
  getIDbyIP "10.0.0.2" c = Done (2, c) ∧ getServerCount c = Done (2, c).
Proof.
  destruct (configuration_lookups (Tree [(1, "10.0.0.1"); (2, "10.0.0.2")]%string "10.0.0.9:1" 1 2) 2 "10.0.0.2")
    as (_ & H1 & H2).
  - by apply (bool_decide_unpack _).
  - by apply (bool_decide_unpack _).
  - by repeat constructor.
  - by apply (bool_decide_unpack _).
  - exact (conj H1 H2).
Defined.
