(* ===== verification/MetaProcess.v ===== *)
(** * The process of the metadata server: RunServer of src/metadata/MetaServer.cpp and main of
    src/server/spongemeta.cpp.

    gRPC, which serves the requests one handler at a time, is not part of the program. *)
From S2P Require Import Prelude FsInode FsTable FsFiles FsSpace MetaProto MetaServer MetaPlan.
From S2P Require Import MetaInv MetaSteps MetaHandlers MetaRpc MetaSpec MetaRefine MetaFacts Config.
From stdpp Require Import pretty numbers.
Local Open Scope Z_scope.

(** [std::stoi]: blanks, a sign, digits; it throws when there is no digit or the value is no [int]. *)
Definition code (c : Ascii.ascii) : Z := Z.of_N (Ascii.N_of_ascii c).
Definition is_blank (c : Ascii.ascii) : bool := (code c =? 32) || ((9 <=? code c) && (code c <=? 13)).
Definition is_digit (c : Ascii.ascii) : bool := (48 <=? code c) && (code c <=? 57).

Fixpoint skip_blanks (s : string) : string :=
  match s with
  | String c s' => if is_blank c then skip_blanks s' else s
  | EmptyString => s
  end.

Fixpoint digits (acc : Z) (s : string) : Z :=
  match s with
  | String c s' => if is_digit c then digits (10 * acc + (code c - 48)) s' else acc
  | EmptyString => acc
  end.

(** The digits behind the sign. *)
Definition magnitude (s : string) : option Z :=
  match s with
  | String c _ => if is_digit c then Some (digits 0 s) else None
  | EmptyString => None
  end.

Definition stoi (s : string) : outcome Z :=
  let n := match skip_blanks s with
           | String c s' => if code c =? 45 then Z.opp <$> magnitude s'
                            else if code c =? 43 then magnitude s'
                            else magnitude (String c s')
           | EmptyString => None
           end in
  match n with
  | Some n => if (- 2 ^ 31 <=? n) && (n <? 2 ^ 31) then Done n else Fault Exited
  | None => Fault Exited
  end.

(** [s.substr(s.find(':') + 1, s.size())]: the whole string when there is no colon. *)
Fixpoint after_colon (s : string) : option string :=
  match s with
  | String c s' => if code c =? 58 then Some s' else after_colon s'
  | EmptyString => None
  end.

(** [RunServer], up to the wait: the address the server listens on, and the service behind it.  The
    parameter [port] is not used. *)
Definition RunServer (pt : ptree) (port : Z) : outcome (string * MetadataServiceImpl) :=
  let conf := make_configuration pt in
  match stoi (default (metaip conf) (after_colon (metaip conf))) with
  | Fault f => Fault f
  | Done confPort =>
      let server_address := ("0.0.0.0:" ++ pretty confPort)%string in
      match make_service (Config.ServerCount conf) with
      | Fault f => Fault f
      | Done s => Done (server_address, s)
      end
  end.

(** ** The port *)

Section numbers.
Implicit Types (s : string) (x : N).

Definition starts_with_digit s : Prop := ∃ c s', s = String c s' ∧ is_digit c = true.

Lemma code_pretty x : (x < 10)%N → code (pretty_N_char x) = 48 + Z.of_N x.
Proof.
  intros Hx. assert (x = 0 ∨ x = 1 ∨ x = 2 ∨ x = 3 ∨ x = 4 ∨ x = 5 ∨ x = 6 ∨ x = 7 ∨ x = 8 ∨ x = 9)%N as Hx' by lia.
  repeat destruct Hx' as [->|Hx']; try reflexivity. by subst x.
Qed.

Lemma pretty_digit x : (x < 10)%N → is_digit (pretty_N_char x) = true.
Proof.
  intros Hx. unfold is_digit. rewrite code_pretty by done.
  by rewrite (proj2 (Z.leb_le _ _)), (proj2 (Z.leb_le _ _)) by lia.
Qed.

Lemma digits_pretty x : ∀ s, digits 0 (pretty_N_go x s) = digits (Z.of_N x) s ∧
  ((0 < x)%N → starts_with_digit (pretty_N_go x s)).
Proof.
  induction (N.lt_wf_0 x) as [x _ IH]. intros s. destruct (decide (x = 0%N)) as [->|Hx].
  { rewrite pretty_N_go_0. split; [done|lia]. }
  rewrite pretty_N_go_step by lia. assert (Hm : (x `mod` 10 < 10)%N) by (by apply N.mod_lt).
  assert (Hlt : (x `div` 10 < x)%N) by (apply N.div_lt; lia).
  destruct (IH (x `div` 10)%N Hlt (String (pretty_N_char (x `mod` 10)) s)) as [Hd Hs]. split.
  - rewrite Hd. simpl. rewrite pretty_digit, code_pretty by done. f_equal. pose proof (N.div_mod x 10 ltac:(done)). lia.
  - intros _. destruct (decide (x `div` 10 = 0)%N) as [E|E]; [|by apply Hs, N.neq_0_lt_0].
    rewrite E, pretty_N_go_0. eexists _, _. split; [reflexivity|]. by apply pretty_digit.
Qed.

(** stoi reads back what was printed. *)
Lemma stoi_pretty p : 0 ≤ p < 2 ^ 31 → stoi (pretty p) = Done p.
Proof.
  intros Hp. destruct p as [|p|p]; [reflexivity| |lia]. change (pretty (Z.pos p)) with (pretty_N_go (N.pos p) "").
  destruct (digits_pretty (N.pos p) "") as [Hd Hs]. destruct (Hs ltac:(lia)) as (c & s' & E & Hc). rewrite E in *.
  unfold stoi. pose proof Hc as Hc'. unfold is_digit in Hc'. apply andb_prop in Hc' as [H1%Z.leb_le H2%Z.leb_le].
  cbn [skip_blanks]. unfold is_blank. rewrite (proj2 (Z.eqb_neq _ _)), (proj2 (Z.leb_gt (code c) 13)) by lia.
  rewrite andb_false_r. cbn [orb]. rewrite (proj2 (Z.eqb_neq _ _)), (proj2 (Z.eqb_neq _ _)) by lia.
  unfold magnitude. rewrite Hc, Hd. cbn [digits].
  rewrite (proj2 (Z.leb_le _ _)), (proj2 (Z.ltb_lt _ _)) by lia. done.
Qed.

Lemma after_colon_app h s : after_colon h = None → after_colon (h +:+ String (Ascii.ascii_of_nat 58) s) = Some s.
Proof.
  induction h as [|c h IH]; intros Hh; [done|].
  change (String c h +:+ ?x) with (String c (h +:+ x)) in *. cbn [after_colon] in *.
  destruct (code c =? 58); [done|]. by apply IH.
Qed.
End numbers.

(** The metadata server listens on the port that the clients dial: for a configured address
    "host:port" it parses the port back, and it starts with no file and no storage server.  The [--port]
    flag has no effect. *)
Theorem server_listens_where_dialled `{StringHash} pt h p flag :
  meta pt = (h +:+ ":" +:+ pretty p)%string → after_colon h = None → 0 ≤ p < 2 ^ 31 →
  ∃ s, RunServer pt flag = Done (("0.0.0.0:" ++ pretty p)%string, s) ∧ service_inv s ∧ abs s = empty_state.
Proof.
  intros Hm Hh Hp. unfold RunServer. change (metaip (make_configuration pt)) with (meta pt).
  assert (Ha : after_colon (meta pt) = Some (pretty p)) by (rewrite Hm; by apply after_colon_app).
  rewrite Ha. simpl default. rewrite stoi_pretty by done.
  destruct (make_service_inv (Config.ServerCount (make_configuration pt))) as (s & -> & Hs & Habs). by exists s.
Qed.

#[local] Existing Instance Demo.demo_hash.
Definition example_tree : ptree := Tree [(1, "10.0.0.1"%string)] "10.0.0.9:50055" 1 5678.

Lemma server_listens_where_dialled_witness : ∃ s, RunServer example_tree 50055 = Done ("0.0.0.0:50055"%string, s) ∧ service_inv s.
Proof.
  destruct (server_listens_where_dialled example_tree "10.0.0.9" 50055 50055) as (s & E & Hs & _).
  - reflexivity.
  - reflexivity.
  - lia.
  - exists s. split; [exact E|exact Hs].
Defined.
