(* ===== verification/Wire.v ===== *)
(** * The structs that two nodes exchange over a socket: include/RdmaSocket.hpp.

    They are sent as they lie in memory, so the layout is the one of the compilers the program is built
    with (x86-64 Linux: little-endian integers, each at a multiple of its size).  Padding is never read;
    it is sent as zero. *)
From S2P Require Import Prelude Rdma.
From stdpp Require Import list_numbers.
Local Open Scope Z_scope.

Definition le (n : nat) (z : Z) : list Z := Z_to_little_endian (Z.of_nat n) 8 z.

(** The integer in the first [n] bytes. *)
Definition le_at (n : nat) (bs : list Z) : Z := little_endian_to_Z 8 (take n bs).

(** A type with a layout: [sizeof] bytes, written and read. *)
Class Layout (A : Type) := {
  sizeof : nat;
  to_bytes : A → list Z;
  of_bytes : list Z → A;
}.
Arguments sizeof A {_}.

(** Reading back what was written, for the values that fit the fields. *)
Class LayoutLaws (A : Type) `{Layout A} (fits : A → Prop) := {
  to_bytes_length x : length (to_bytes x) = sizeof A;
  to_bytes_range x : Forall (λ b, 0 ≤ b < 256) (to_bytes x);
  of_to_bytes x rest : fits x → of_bytes (to_bytes x ++ rest) = x;
}.

(** ** The structs *)

(** [isServer] is the byte of a [bool]; a byte other than 0 and 1 is no value of the type. *)
Record ExchangeID := ExId { id_NodeID : Z; id_isServer : Z; id_GivenID : Z }.

Definition read_bool {S} (b : Z) : M S bool :=
  if b =? 0 then mret false else if b =? 1 then mret true else fail NotBool.

Record ExchangeMeta := ExMeta {
  meta_rkey : Z;
  meta_qpNum : list Z;
  meta_lid : Z;
  meta_gid : list Z;
  meta_RegisteredMemory : Z;
  meta_NodeID : Z;
}.

#[export] Instance ExchangeID_layout : Layout ExchangeID := {
  sizeof := 6;
  to_bytes x := le 2 (id_NodeID x) ++ le 1 (id_isServer x) ++ le 1 0 ++ le 2 (id_GivenID x);
  of_bytes bs := ExId (le_at 2 bs) (le_at 1 (drop 2 bs)) (le_at 2 (drop 4 bs));
}.

(** Three queue pair numbers and sixteen bytes of gid, whatever the lists hold. *)
Definition nums (l : list Z) : list Z := take 3 (l ++ replicate 3 0).
Definition gid_bytes (l : list Z) : list Z := take 16 ((λ b, b `mod` 256) <$> (l ++ replicate 16 0)).

#[export] Instance ExchangeMeta_layout : Layout ExchangeMeta := {
  sizeof := 56;
  to_bytes x :=
    le 4 (meta_rkey x) ++ (nums (meta_qpNum x) ≫= le 4) ++ le 2 (meta_lid x) ++
    gid_bytes (meta_gid x) ++ le 6 0 ++ le 8 (meta_RegisteredMemory x) ++ le 2 (meta_NodeID x) ++ le 6 0;
  of_bytes bs := ExMeta (le_at 4 bs)
    [le_at 4 (drop 4 bs); le_at 4 (drop 8 bs); le_at 4 (drop 12 bs)] (le_at 2 (drop 16 bs))
    (take 16 (drop 18 bs)) (le_at 8 (drop 40 bs)) (le_at 2 (drop 48 bs));
}.

(** The values of the C++ types. *)
Definition id_fits (x : ExchangeID) : Prop :=
  0 ≤ id_NodeID x < 2 ^ 16 ∧ 0 ≤ id_isServer x < 2 ^ 8 ∧ 0 ≤ id_GivenID x < 2 ^ 16.

Record meta_fits (x : ExchangeMeta) : Prop := {
  mf_rkey : 0 ≤ meta_rkey x < 2 ^ 32;
  mf_nums : length (meta_qpNum x) = 3%nat ∧ Forall (λ n, 0 ≤ n < 2 ^ 32) (meta_qpNum x);
  mf_lid : 0 ≤ meta_lid x < 2 ^ 16;
  mf_gid : length (meta_gid x) = 16%nat ∧ Forall (λ b, 0 ≤ b < 256) (meta_gid x);
  mf_mem : 0 ≤ meta_RegisteredMemory x < 2 ^ 64;
  mf_node : 0 ≤ meta_NodeID x < 2 ^ 16;
}.

(** ** Lemmas *)

Lemma length_le n z : length (le n z) = n.
Proof. pose proof (length_Z_to_little_endian (Z.of_nat n) 8 z ltac:(lia)). unfold le. lia. Qed.

Lemma le_range n z : Forall (λ b, 0 ≤ b < 256) (le n z).
Proof. apply (Z_to_little_endian_bound (Z.of_nat n) 8); lia. Qed.

Lemma le_at_le n z bs : le_at n (le n z ++ bs) = z `mod` 2 ^ (8 * Z.of_nat n).
Proof.
  unfold le_at. rewrite take_app_length' by by rewrite length_le. unfold le.
  rewrite little_endian_to_Z_to_little_endian by lia. f_equal. f_equal. lia.
Qed.

(** Skipping a field. *)
Lemma drop_le k n z bs : drop (n + k) (le n z ++ bs) = drop k bs.
Proof. rewrite <- drop_drop, drop_app_length' by by rewrite length_le. done. Qed.

Lemma drop_le_0 n z bs : drop n (le n z ++ bs) = bs.
Proof. by rewrite drop_app_length' by by rewrite length_le. Qed.

#[export] Instance ExchangeID_laws : LayoutLaws ExchangeID id_fits.
Proof.
  split.
  - intros x. cbn [to_bytes sizeof ExchangeID_layout]. by rewrite !length_app, !length_le.
  - intros x. cbn [to_bytes ExchangeID_layout]. rewrite !Forall_app. split_and!; apply le_range.
  - intros [n b g] rest (Hn & Hb & Hg).
    cbn [to_bytes of_bytes ExchangeID_layout id_NodeID id_isServer id_GivenID] in *. rewrite <- !app_assoc.
    change (drop (A:=Z) 4) with (drop (A:=Z) (2 + 2)). rewrite drop_le, drop_le_0.
    change (drop (A:=Z) 2) with (drop (A:=Z) (1 + 1)). rewrite drop_le, drop_le_0, !le_at_le. change (8 * Z.of_nat 2) with 16. change (8 * Z.of_nat 1) with 8.
    by rewrite !Z.mod_small by lia.
Qed.

Lemma nums_id l : length l = 3%nat → nums l = l.
Proof. intros Hl. unfold nums. by rewrite take_app_length'. Qed.

Lemma gid_bytes_id l : length l = 16%nat → Forall (λ b, 0 ≤ b < 256) l → gid_bytes l = l.
Proof.
  intros Hl Hr. unfold gid_bytes. rewrite fmap_app, take_app_length' by by rewrite length_fmap.
  induction Hr as [|b l Hb Hr IH] in Hl |- *; [done|].
  rewrite <- (list_fmap_id (b :: l)) at 2. apply list_fmap_ext. intros i x Hx. apply Z.mod_small.
  assert (Hall : Forall (λ b, 0 ≤ b < 256) (b :: l)) by by constructor.
  by apply (proj1 (Forall_lookup _ _) Hall i).
Qed.

Lemma length_gid_bytes l : length (gid_bytes l) = 16%nat.
Proof. unfold gid_bytes. rewrite length_take, length_fmap, length_app, length_replicate. lia. Qed.

#[export] Instance ExchangeMeta_laws : LayoutLaws ExchangeMeta meta_fits.
Proof.
  assert (Hnums : ∀ l, length (nums l ≫= le 4) = 12%nat ∧ Forall (λ b, 0 ≤ b < 256) (nums l ≫= le 4)).
  { intros l. assert (Hl : length (nums l) = 3%nat) by (unfold nums; rewrite length_take, length_app, length_replicate; lia).
    destruct (nums l) as [|a [|b [|c [|? ?]]]]; try done. cbn [mbind list_bind].
    rewrite !length_app, !length_le. split; [done|]. rewrite !Forall_app. split_and!; try apply le_range. done. }
  split.
  - intros x. cbn [to_bytes sizeof ExchangeMeta_layout]. destruct (Hnums (meta_qpNum x)) as [Hl _].
    by rewrite !length_app, Hl, !length_le, length_gid_bytes.
  - intros x. cbn [to_bytes ExchangeMeta_layout]. rewrite !Forall_app. destruct (Hnums (meta_qpNum x)) as [_ Hr].
    split_and!; try apply le_range; try done. unfold gid_bytes. apply Forall_take, Forall_fmap, Forall_true.
    intros b. simpl. apply Z.mod_pos_bound. lia.
  - intros [rk ns lid gid rm nid] rest [Hrk [Hlen Hns] Hlid [Hgl Hgr] Hm Hn].
    cbn [to_bytes of_bytes ExchangeMeta_layout meta_rkey meta_qpNum meta_lid meta_gid meta_RegisteredMemory meta_NodeID] in *.
    destruct ns as [|a [|b [|c [|? ?]]]]; try done. clear Hlen.
    apply Forall_cons in Hns as [Ha Hns]. apply Forall_cons in Hns as [Hb Hns]. apply Forall_cons in Hns as [Hc _].
    rewrite (nums_id [a; b; c]), (gid_bytes_id gid) by done. cbn [mbind list_bind]. rewrite app_nil_r, <- !app_assoc.
    change 48%nat with (4 + (4 + (4 + (4 + (2 + (16 + (6 + 8)))))))%nat.
    change 40%nat with (4 + (4 + (4 + (4 + (2 + (16 + 6))))))%nat.
    change 18%nat with (4 + (4 + (4 + (4 + 2))))%nat. change (drop 16) with (drop (A:=Z) (4 + (4 + (4 + 4)))).
    change 12%nat with (4 + (4 + 4))%nat. change (drop 8) with (drop (A:=Z) (4 + 4)).
    rewrite !drop_le, !drop_le_0.
    assert (Hg : ∀ k bs, drop (16 + k) (gid ++ bs) = drop k bs).
    { intros k bs. rewrite <- Hgl, <- drop_drop, drop_app_length. done. }
    rewrite !Hg, !drop_le, !drop_le_0, (take_app_length' gid) by done. rewrite !le_at_le.
    change (8 * Z.of_nat 4) with 32. change (8 * Z.of_nat 2) with 16. change (8 * Z.of_nat 8) with 64.
    by rewrite !Z.mod_small by lia.
Qed.

(** ** Where the compiler puts the fields

    A field is an array of [f_count] integers of [f_size] bytes (an array of one for a plain member), at
    the first multiple of [f_size] behind the field before it; the struct ends at a multiple of its
    largest alignment. *)
Record field := Field { f_count : nat; f_size : nat }.

Definition align_up (n a : nat) : nat := (n + a - 1) / a * a.

Fixpoint offsets (o : nat) (fs : list field) : list nat :=
  match fs with
  | [] => []
  | f :: fs' => let o' := align_up o (f_size f) in o' :: offsets (o' + f_count f * f_size f) fs'
  end.

Fixpoint end_of (o : nat) (fs : list field) : nat :=
  match fs with
  | [] => o
  | f :: fs' => end_of (align_up o (f_size f) + f_count f * f_size f) fs'
  end.

Definition struct_size (fs : list field) : nat := align_up (end_of 0 fs) (foldr (λ f, Nat.max (f_size f)) 1%nat fs).

(** The integers of each field. *)
Definition read_field (bs : list Z) (f : field) (o : nat) : list Z :=
  (λ i, le_at (f_size f) (drop (o + i * f_size f) bs)) <$> seq 0 (f_count f).

Definition read_fields (bs : list Z) (fs : list field) : list (list Z) := zip_with (read_field bs) fs (offsets 0 fs).

Definition ExchangeID_fields : list field := [Field 1 2; Field 1 1; Field 1 2].
Definition ExchangeMeta_fields : list field := [Field 1 4; Field 3 4; Field 1 2; Field 16 1; Field 1 8; Field 1 2].

Lemma bytes_at n : ∀ o bs, (o + n ≤ length bs)%nat →
  (λ i, le_at 1 (drop (o + i * 1) bs)) <$> seq 0 n = take n (drop o bs).
Proof.
  intros o bs Hl. apply list_eq. intros i. rewrite list_lookup_fmap. destruct (decide (i < n)%nat) as [Hi|Hi].
  - rewrite lookup_seq_lt by done. simpl. rewrite lookup_take_lt by done. rewrite lookup_drop.
    destruct (lookup_lt_is_Some_2 bs (o + i)) as [b Hb]; [lia|]. rewrite Hb. f_equal.
    rewrite Nat.mul_1_r. unfold le_at. rewrite (drop_S _ _ _ Hb). simpl. by rewrite Z.shiftl_0_l, Z.lor_0_r.
  - rewrite lookup_seq_ge by lia. rewrite lookup_take_ge by lia. done.
Qed.

Lemma meta_read_back bs (m : ExchangeMeta) : of_bytes bs = m → (34 ≤ length bs)%nat →
  read_fields bs ExchangeMeta_fields =
    [[meta_rkey m]; meta_qpNum m; [meta_lid m]; meta_gid m; [meta_RegisteredMemory m]; [meta_NodeID m]].
Proof.
  intros <- Hl. unfold read_fields. change (offsets 0 ExchangeMeta_fields) with [0; 4; 16; 18; 40; 48]%nat.
  cbn [zip_with ExchangeMeta_fields]. unfold read_field at 4. cbn [f_count f_size]. rewrite (bytes_at 16 18) by done.
  reflexivity.
Qed.


Definition example_meta : ExchangeMeta := ExMeta 77 [1; 2; 70000] 6 (seqZ 0 16) (2 ^ 32 + 5) 3.

