(* ===== verification/RdmaConn.v ===== *)
(** * Connection management: the control plane of [class RdmaSocket], src/net/RdmaSocket.cpp.

    The control calls of libibverbs are the class [VerbsCtl], the system calls the class [Os]: both are
    arguments of the definitions, over the device [Dev] of the data plane.  A pointer these calls
    return is [None] for NULL; a queue pair or a completion queue is its handle.  Diagnostics are left
    out, but not what they dereference. *)
From S2P Require Import Prelude Rdma Wire Config.
Local Open Scope Z_scope.

(** ** The libraries *)

Inductive ibv_qp_state :=
  | IBV_QPS_RESET | IBV_QPS_INIT | IBV_QPS_RTR | IBV_QPS_RTS
  | IBV_QPS_SQD | IBV_QPS_SQE | IBV_QPS_ERR | IBV_QPS_UNKNOWN.

#[export] Instance qp_state_eq_dec : EqDecision ibv_qp_state.
Proof. solve_decision. Defined.

Inductive ibv_qp_type := IBV_QPT_UNSET | IBV_QPT_RC | IBV_QPT_UC.

(** [path_mtu]; memset leaves a value that names no MTU. *)
Inductive ibv_mtu := IBV_MTU_UNSET | IBV_MTU_4096.

Inductive ibv_access :=
  | IBV_ACCESS_LOCAL_WRITE | IBV_ACCESS_REMOTE_READ | IBV_ACCESS_REMOTE_WRITE | IBV_ACCESS_REMOTE_ATOMIC.

Inductive ibv_qp_mask :=
  | IBV_QP_STATE | IBV_QP_PKEY_INDEX | IBV_QP_PORT | IBV_QP_ACCESS_FLAGS
  | IBV_QP_AV | IBV_QP_PATH_MTU | IBV_QP_DEST_QPN | IBV_QP_RQ_PSN
  | IBV_QP_MAX_DEST_RD_ATOMIC | IBV_QP_MIN_RNR_TIMER | IBV_QP_SQ_PSN
  | IBV_QP_TIMEOUT | IBV_QP_RETRY_CNT | IBV_QP_RNR_RETRY | IBV_QP_MAX_QP_RD_ATOMIC.

Record ibv_qp_init_attr := QpInit {
  qp_type : ibv_qp_type;
  sq_sig_all : Z;
  send_cq : Z;
  recv_cq : Z;
  max_send_wr : Z;
  max_recv_wr : Z;
  max_send_sge : Z;
  max_recv_sge : Z;
  max_inline_data : Z;
}.

(** The fields of [struct ibv_qp_attr] that the program sets; memset makes the others zero. *)
Record ibv_qp_attr := QpAttr {
  qp_state : ibv_qp_state;
  port_num : Z;
  pkey_index : Z;
  qp_access_flags : list ibv_access;
  path_mtu : ibv_mtu;
  dest_qp_num : Z;
  rq_psn : Z;
  is_global : Z;
  dlid : Z;
  ah_port_num : Z;
  sq_psn : Z;
  max_dest_rd_atomic : Z;
  min_rnr_timer : Z;
  timeout : Z;
  retry_cnt : Z;
  rnr_retry : Z;
  max_rd_atomic : Z;
}.

Class VerbsCtl (Dev : Type) := {
  ibv_get_device_list : M Dev (option (list string));
  ibv_free_device_list : M Dev unit;
  ibv_open_device : string → M Dev (option Z);
  ibv_close_device : Z → M Dev Z;
  ibv_query_port : Z → Z → M Dev (Z * Z);                       (* result, lid *)
  ibv_create_cq : Z → Z → M Dev (option Z);
  ibv_destroy_cq : Z → M Dev Z;
  ibv_alloc_pd : Z → M Dev (option Z);
  ibv_dealloc_pd : Z → M Dev Z;
  ibv_reg_mr : Z → Z → Z → list ibv_access → M Dev (option (Z * Z));  (* lkey, rkey *)
  ibv_dereg_mr : Z * Z → M Dev Z;
  ibv_create_qp : Z → ibv_qp_init_attr → M Dev (option Z);
  ibv_destroy_qp : Z → M Dev Z;
  ibv_modify_qp : Z → ibv_qp_attr → list ibv_qp_mask → M Dev Z;
  ibv_query_qp : Z → M Dev ibv_qp_state;
  ibv_query_gid : Z → Z → Z → M Dev (Z * list Z);
  qp_num : Dev → Z → Z;                                         (* the field of the struct *)
}.

(** A network interface with an address: its name, whether the family is AF_INET, and what getnameinfo
    says of the address. *)
Record ifaddr := IfAddr { ifa_name : string; ifa_inet : bool; ifa_host : option string }.

Class Os (Dev : Type) := {
  os_write : Z → list Z → M Dev Z;
  os_read : Z → Z → M Dev (Z * list Z);                         (* result, the bytes read *)
  os_socket : M Dev Z;
  os_setsockopt : Z → M Dev Z;
  os_bind : Z → Z → M Dev Z;
  os_listen : Z → M Dev Z;
  os_accept : Z → M Dev Z;
  os_connect : Z → string → Z → M Dev Z;
  os_getifaddrs : M Dev (option (list (option ifaddr)));        (* [None]: no ifa_addr *)
}.

(** The byte an object holds that was never given a value. *)
Class Junk := junk : Z.

Section connection.
Context {Dev : Type} `{Verbs Dev, VerbsCtl Dev, Os Dev, Junk}.

(** ** The members of [RdmaSocket] that only connection management uses *)

Record Endpoint := Ep {
  sk : RdmaSocket Dev;
  DeviceName : option string;
  Port : Z;
  ServerPort : Z;
  GidIndex : Z;
  lid : slot Z;                 (* PortAttribute.lid *)
  ctx : slot Z;
  pd : slot Z;
  cqNum : Z;
  cqPtr : Z;
  mmSize : Z;
  conf : Configuration;
  MaxNodeID : Z;
  Mode : Z;
  ServerCount : Z;
}.

Abbreviation Conn := (M Endpoint).

Definition with_sk (s : RdmaSocket Dev) (e : Endpoint) : Endpoint :=
  Ep s (DeviceName e) (Port e) (ServerPort e) (GidIndex e) (lid e) (ctx e) (pd e) (cqNum e) (cqPtr e)
     (mmSize e) (conf e) (MaxNodeID e) (Mode e) (ServerCount e).
Definition sk_lens : lens Endpoint (RdmaSocket Dev) := Lens sk with_sk.
Definition set_dev (d : Dev) (e : Endpoint) : Endpoint := with_sk (update device d (sk e)) e.
Definition dev_lens : lens Endpoint Dev := Lens (λ e, dev (sk e)) set_dev.
Definition conf_lens : lens Endpoint Configuration := Lens conf (λ c e,
  Ep (sk e) (DeviceName e) (Port e) (ServerPort e) (GidIndex e) (lid e) (ctx e) (pd e) (cqNum e) (cqPtr e)
     (mmSize e) c (MaxNodeID e) (Mode e) (ServerCount e)).
Definition set_handles (n : option string) (l : slot Z) (c p : slot Z) (e : Endpoint) : Endpoint :=
  Ep (sk e) n (Port e) (ServerPort e) (GidIndex e) l c p (cqNum e) (cqPtr e)
     (mmSize e) (conf e) (MaxNodeID e) (Mode e) (ServerCount e).
Definition set_cqPtr (n : Z) (e : Endpoint) : Endpoint :=
  Ep (sk e) (DeviceName e) (Port e) (ServerPort e) (GidIndex e) (lid e) (ctx e) (pd e) (cqNum e) n
     (mmSize e) (conf e) (MaxNodeID e) (Mode e) (ServerCount e).
Definition set_MaxNodeID (n : Z) (e : Endpoint) : Endpoint :=
  Ep (sk e) (DeviceName e) (Port e) (ServerPort e) (GidIndex e) (lid e) (ctx e) (pd e) (cqNum e) (cqPtr e)
     (mmSize e) (conf e) n (Mode e) (ServerCount e).

(** Members of the data plane. *)
Definition set_sock (ps : gmap Z PeerSockData) (cqs : list Z) (node : Z) (m : slot (Z * Z)) (s : RdmaSocket Dev) :
    RdmaSocket Dev :=
  Socket ps cqs (isServer s) node (mm s) m (TransferSignal s) (WriteSize s) (ReadSize s) (WriteTest s) (dev s).
Definition set_cqs (l : list Z) : Conn unit :=
  modify (λ e, with_sk (set_sock (peers (sk e)) l (MyNodeID (sk e)) (mr (sk e)) (sk e)) e).
Definition set_MyNodeID (n : Z) : Conn unit :=
  modify (λ e, with_sk (set_sock (peers (sk e)) (cq (sk e)) n (mr (sk e)) (sk e)) e).
Definition set_mr (m : slot (Z * Z)) : Conn unit :=
  modify (λ e, with_sk (set_sock (peers (sk e)) (cq (sk e)) (MyNodeID (sk e)) m (sk e)) e).

Definition dcall {A} (m : M Dev A) : Conn A := zoom dev_lens m.

(** [peers[n] = peer] *)
Definition store_peer (n : Z) (p : PeerSockData) : Conn unit :=
  if n <? 1000 then
    modify (λ e, with_sk (set_peer n p (sk e)) e)
  else fail OutOfRange.

(** ** The device *)

(** The loop over the devices: the name of the first one is taken when none is set. *)
Fixpoint find_device (name : option string) (l : list string) : option string * option string :=
  match l with
  | [] => (name, None)
  | d :: l' =>
      let n := default d name in
      if decide (d = n) then (Some n, Some d) else find_device (Some n) l'
  end.

(** [for (i = 0; i < cqNum; i++)]: whether all were created. *)
Fixpoint create_cqs (c : Z) (n : nat) (i : nat) : Conn bool :=
  match n with
  | O => mret true
  | S n' =>
      r ← dcall (ibv_create_cq c QPS_MAX_DEPTH);
      cqs ← gets (λ e, cq (sk e));
      (if decide (i < length cqs)%nat then set_cqs (<[i := default 0 r]> cqs) else fail OutOfRange);;
      match r with
      | None => mret false
      | Some _ => create_cqs c n' (S i)
      end
  end.

(** From the port on: the list of devices has been freed. *)
Definition create_on_device : Conn bool :=
  e ← get;
  c ← deref_slot (ctx e);
  r ← dcall (ibv_query_port c (Port e));
  modify (λ e, set_handles (DeviceName e) (Ptr r.2) (ctx e) (pd e) e);;
  if negb (r.1 =? 0) then mret false
  else
    ok ← create_cqs c (Z.to_nat (cqNum e)) 0;
    if negb ok then mret false
    else
      p ← dcall (ibv_alloc_pd c);
      modify (λ e, set_handles (DeviceName e) (lid e) (ctx e) (slot_of p) e);;
      match p with
      | None => mret false
      | Some p =>
          e ← get;
          m ← dcall (ibv_reg_mr p (mm (sk e)) (mmSize e)
                [IBV_ACCESS_LOCAL_WRITE; IBV_ACCESS_REMOTE_READ; IBV_ACCESS_REMOTE_WRITE; IBV_ACCESS_REMOTE_ATOMIC]);
          set_mr (slot_of m);;
          mret (bool_decide (is_Some m))
      end.

(** Up to the label: whether all went well, and whether the list of devices is still to be freed. *)
Definition create_steps : Conn (bool * bool) :=
  l ← dcall ibv_get_device_list;
  match l with
  | None => mret (false, false)
  | Some [] => mret (false, true)
  | Some l =>
      name ← gets DeviceName;
      let found := find_device name l in
      modify (λ e, set_handles found.1 (lid e) (ctx e) (pd e) e);;
      match found.2 with
      | None => mret (false, true)
      | Some d =>
          c ← dcall (ibv_open_device d);
          modify (λ e, set_handles (DeviceName e) (lid e) (slot_of c) (pd e) e);;
          match c with
          | None => mret (false, true)
          | Some _ =>
              dcall ibv_free_device_list;;
              ok ← create_on_device;
              mret (ok, false)
          end
      end
  end.

(** The part behind CreateResourcesExit when something failed. *)
Definition cleanup (list_open : bool) : Conn unit :=
  cqs ← gets (λ e, cq (sk e));
  for_each cqs (λ c, if c =? 0 then mret () else dcall (ibv_destroy_cq c);; mret ());;
  e ← get;
  p ← test_slot (pd e);
  (match p with
   | Some p => dcall (ibv_dealloc_pd p);; modify (λ e, set_handles (DeviceName e) (lid e) (ctx e) Null e)
   | None => mret ()
   end);;
  c ← test_slot (ctx e);
  (match c with
   | Some c => dcall (ibv_close_device c);; modify (λ e, set_handles (DeviceName e) (lid e) Null (pd e) e)
   | None => mret ()
   end);;
  if list_open then dcall ibv_free_device_list else mret ().

Definition CreateResources : Conn bool :=
  r ← create_steps;
  if negb r.1 then cleanup r.2;; mret false
  else mret true.

(** ** Queue pairs *)

Definition set_qp (offset : nat) (h : Z) (p : PeerSockData) : PeerSockData :=
  Peer (take offset (qp p) ++ h :: drop (S offset) (qp p)) (peer_cq p) (qpNum p) (RegisteredMemory p)
       (peer_rkey p) (peer_lid p) (peer_gid p) (peer_sock p) (peer_NodeID p) (counter p).
Definition set_peer_cq (c : Z) (p : PeerSockData) : PeerSockData :=
  Peer (qp p) c (qpNum p) (RegisteredMemory p)
       (peer_rkey p) (peer_lid p) (peer_gid p) (peer_sock p) (peer_NodeID p) (counter p).
Definition set_peer_node (n : Z) (p : PeerSockData) : PeerSockData :=
  Peer (qp p) (peer_cq p) (qpNum p) (RegisteredMemory p)
       (peer_rkey p) (peer_lid p) (peer_gid p) (peer_sock p) n (counter p).
Definition set_peer_counter (n : Z) (p : PeerSockData) : PeerSockData :=
  Peer (qp p) (peer_cq p) (qpNum p) (RegisteredMemory p)
       (peer_rkey p) (peer_lid p) (peer_gid p) (peer_sock p) (peer_NodeID p) n.
Definition set_peer_meta (m : ExchangeMeta) (p : PeerSockData) : PeerSockData :=
  Peer (qp p) (peer_cq p) (meta_qpNum m) (meta_RegisteredMemory m)
       (meta_rkey m) (meta_lid m) (meta_gid m) (peer_sock p) (peer_NodeID p) (counter p).

(** [malloc]: the members other than these two are set by ConnectQueuePair before they are read. *)
Definition new_peer (sock node : Z) : PeerSockData := Peer [] 0 [] 0 0 0 [] sock node 0.

Definition cq_at (i : Z) : Conn Z :=
  cqs ← gets (λ e, cq (sk e));
  or_fault OutOfRange (cqs !! Z.to_nat i).

(** Which completion queue the queue pair gets. *)
Definition choose_cq (peer : PeerSockData) (offset : nat) : Conn Z :=
  e ← get;
  if isServer (sk e) && (0 <? peer_NodeID peer) && (peer_NodeID peer <=? ServerCount e) then cq_at 0
  else if isServer (sk e) then
    (if decide (offset = 0%nat) then
       let n := cqPtr e + 1 in
       modify (set_cqPtr (if cqNum e <=? n then 1 else n))
     else mret ());;
    n ← gets cqPtr;
    cq_at n
  else
    c ← cq_at (cqPtr e);
    let n := cqPtr e + 1 in
    modify (set_cqPtr (if cqNum e <=? n then 0 else n));;
    mret c.

(** The debug line reads [peer->qp[offset]->qp_num] before the null test. *)
Definition CreateQueuePair (peer : PeerSockData) (offset : nat) : Conn (bool * PeerSockData) :=
  e ← get;
  let t := if Mode e =? 0 then IBV_QPT_RC else if Mode e =? 1 then IBV_QPT_UC else IBV_QPT_UNSET in
  c ← choose_cq peer offset;
  p ← deref_slot (pd e);
  h ← dcall (ibv_create_qp p (QpInit t 0 c c QPS_MAX_DEPTH QPS_MAX_DEPTH 1 1 0));
  h ← or_fault NullDeref h;
  mret (true, set_qp offset h (set_peer_cq c peer)).

Definition rc_access : list ibv_access := [IBV_ACCESS_REMOTE_READ; IBV_ACCESS_REMOTE_WRITE; IBV_ACCESS_REMOTE_ATOMIC].

Definition init_attr (Mode Port : Z) : ibv_qp_attr :=
  QpAttr IBV_QPS_INIT Port 0
    (if Mode =? 0 then rc_access else if Mode =? 1 then [IBV_ACCESS_REMOTE_WRITE] else [])
    IBV_MTU_UNSET 0 0 0 0 0 0 0 0 0 0 0 0.

Definition ModifyQPtoInit (q : Z) : Conn bool :=
  e ← get;
  rc ← dcall (ibv_modify_qp q (init_attr (Mode e) (Port e))
         [IBV_QP_STATE; IBV_QP_PKEY_INDEX; IBV_QP_PORT; IBV_QP_ACCESS_FLAGS]);
  mret (rc =? 0).

Definition rtr_attr (Mode Port remote_qpn dlid : Z) : ibv_qp_attr :=
  QpAttr IBV_QPS_RTR 0 0 [] IBV_MTU_4096 remote_qpn 3185 0 dlid Port 0
    (if Mode =? 0 then 16 else 0) (if Mode =? 0 then 12 else 0) 0 0 0 0.

(** [dgid] is not used. *)
Definition ModifyQPtoRTR (q remote_qpn dlid : Z) (dgid : list Z) : Conn bool :=
  e ← get;
  rc ← dcall (ibv_modify_qp q (rtr_attr (Mode e) (Port e) remote_qpn dlid)
         ([IBV_QP_STATE; IBV_QP_AV; IBV_QP_PATH_MTU; IBV_QP_DEST_QPN; IBV_QP_RQ_PSN] ++
          (if Mode e =? 0 then [IBV_QP_MAX_DEST_RD_ATOMIC; IBV_QP_MIN_RNR_TIMER] else [])));
  mret (rc =? 0).

Definition rts_attr (Mode : Z) : ibv_qp_attr :=
  let m z := if Mode =? 0 then z else 0 in
  QpAttr IBV_QPS_RTS 0 0 [] IBV_MTU_UNSET 0 0 0 0 0 3185 (m 16) 0 (m 14) (m 7) (m 7) (m 16).

Definition ModifyQPtoRTS (q : Z) : Conn bool :=
  e ← get;
  rc ← dcall (ibv_modify_qp q (rts_attr (Mode e))
         ([IBV_QP_STATE; IBV_QP_SQ_PSN] ++
          (if Mode e =? 0 then [IBV_QP_TIMEOUT; IBV_QP_RETRY_CNT; IBV_QP_RNR_RETRY; IBV_QP_MAX_QP_RD_ATOMIC] else [])));
  mret (rc =? 0).

(** ** The exchange over the socket *)

(** [read(sock, RemoteData, size)]: the bytes go to the start of the buffer, every time. *)
Definition overwrite (bytes buf : list Z) : list Z := bytes ++ drop (length bytes) buf.

(** [while (!rc && totalReadBytes < size)]: a result 0 of [read] is stored in [rc] and does not leave the
    loop. *)
Fixpoint sync_read (fuel : nat) (sock size : Z) (RemoteData : list Z) (totalReadBytes : Z) :
    M Dev (Z * list Z) :=
  if totalReadBytes <? size then
    match fuel with
    | O => fail OutOfFuel
    | S fuel =>
        r ← os_read sock size;
        if 0 <? r.1 then sync_read fuel sock size (overwrite r.2 RemoteData) (s32 (totalReadBytes + r.1))
        else if r.1 =? 0 then sync_read fuel sock size RemoteData totalReadBytes
        else mret (r.1, RemoteData)
    end
  else mret (0, RemoteData).

(** The result and [RemoteData].  A short write leaves its count in [rc], and nothing is read unless it
    is 0. *)
Definition DataSyncwithSocket (fuel : nat) (sock : Z) (LocalData : list Z) (RemoteData : list Z) :
    M Dev (Z * list Z) :=
  let size := Z.of_nat (length LocalData) in
  rc ← os_write sock LocalData;
  if (rc <? size) && negb (rc =? 0) then mret (rc, RemoteData)
  else sync_read fuel sock size RemoteData 0.

(** A struct sent and one of the same type received. *)
Definition exchange {A} `{Layout A} (fuel : nat) (sock : Z) (local : A) : Conn (Z * A) :=
  r ← dcall (DataSyncwithSocket fuel sock (to_bytes local) (replicate (sizeof A) junk));
  mret (r.1, of_bytes r.2).

(** ** ConnectQueuePair *)

Definition local_id (e : Endpoint) : ExchangeID :=
  if isServer (sk e) then
    ExId (MyNodeID (sk e)) (Z.b2z true) (if MyNodeID (sk e) =? 1 then MaxNodeID e else 0)
  else ExId (MyNodeID (sk e)) (Z.b2z false) 0.

(** Who the other side is: the peer of a server gets its number here, a client takes the number it is
    given. *)
Definition assign_node (RemoteID : ExchangeID) (peer : PeerSockData) : Conn PeerSockData :=
  e ← get;
  if isServer (sk e) then
    other ← read_bool (id_isServer RemoteID);
    if (other : bool) then mret (set_peer_node (id_NodeID RemoteID) peer)
    else if negb (MyNodeID (sk e) =? 1) then mret (set_peer_node (id_NodeID RemoteID) peer)
    else
      modify (set_MaxNodeID (u16 (MaxNodeID e + 1)));;
      mret (set_peer_node (MaxNodeID e) peer)
  else
    (if negb (id_GivenID RemoteID =? 0) then set_MyNodeID (id_GivenID RemoteID) else mret ());;
    mret peer.

(** CreateQueuePair for the indices from [i] on; its result is not looked at. *)
Fixpoint create_qps (n : nat) (i : nat) (peer : PeerSockData) : Conn PeerSockData :=
  match n with
  | O => mret peer
  | S n' => r ← CreateQueuePair peer i; create_qps n' (S i) r.2
  end.

(** The numbers of the queue pairs; the entries that are not filled hold junk. *)
Definition local_meta (peer : PeerSockData) (gid : list Z) (n : nat) : Conn ExchangeMeta :=
  e ← get;
  rk ← (if isServer (sk e) then m ← deref_slot (mr (sk e)); mret m.2 else mret junk);
  l ← deref_slot (lid e);
  mret (ExMeta rk ((qp_num (dev (sk e)) <$> take n (qp peer)) ++ replicate (3 - n) junk) l gid
               (mm (sk e)) junk).

(** The three changes of state of each queue pair. *)
Fixpoint bring_up (n : nat) (i : nat) (peer : PeerSockData) : Conn bool :=
  match n with
  | O => mret true
  | S n' =>
      q ← or_fault Uninit (qp peer !! i);
      num ← or_fault OutOfRange (qpNum peer !! i);
      ok ← ModifyQPtoInit q;
      if negb ok then mret false
      else
        ok ← ModifyQPtoRTR q num (peer_lid peer) (peer_gid peer);
        if negb ok then mret false
        else
          ok ← ModifyQPtoRTS q;
          if negb ok then mret false
          else bring_up n' (S i) peer
  end.

(** A connection between a server and a client has a queue pair for each worker. *)
Definition DoubleQP (e : Endpoint) (peer : PeerSockData) : bool :=
  negb (isServer (sk e)) || (Config.ServerCount (conf e) <? peer_NodeID peer).

Definition ConnectQueuePair (fuel : nat) (peer : PeerSockData) : Conn (bool * PeerSockData) :=
  e ← get;
  r ← exchange fuel (peer_sock peer) (local_id e);
  if r.1 <? 0 then mret (false, peer)
  else
    peer ← assign_node r.2 peer;
    e ← get;
    let N := if DoubleQP e peer then Z.to_nat QP_NUMBER else 2%nat in
    peer ← create_qps N 0 peer;
    e ← get;
    c ← deref_slot (ctx e);
    g ← (if 0 <=? GidIndex e then dcall (ibv_query_gid c (Port e) (GidIndex e))
         else mret (0, replicate 16 0));
    if negb (g.1 =? 0) then mret (false, peer)
    else
      LocalMeta ← local_meta peer g.2 N;
      r ← exchange fuel (peer_sock peer) LocalMeta;
      if r.1 <? 0 then mret (false, peer)
      else
        let peer := set_peer_meta r.2 peer in
        ok ← bring_up N 0 peer;
        mret (ok, peer).

(** ** Accepting and connecting *)

(** Receives posted in advance. *)
Definition post_receives (node : Z) : Conn unit :=
  for_each (seqZ 0 QPS_MAX_DEPTH) (λ _,
    e ← get;
    zoom sk_lens (RdmaReceive node (u64 (mm (sk e) + node * 4096)) 0);;
    mret ()).

(** One round of the loop of RdmaAccept, on the connection [fd]. *)
Definition accept_one (fuel : nat) (fd : Z) : Conn unit :=
  r ← ConnectQueuePair fuel (set_peer_counter 0 (new_peer fd junk));
  if negb r.1 then mret ()
  else
    store_peer (peer_NodeID r.2) r.2;;
    post_receives (peer_NodeID r.2).

(** [isRunning] never becomes false: the loop ends when accept fails.  [n] bounds the rounds. *)
Fixpoint RdmaAccept (n fuel : nat) (sock : Z) : Conn unit :=
  match n with
  | O => fail OutOfFuel
  | S n' =>
      fd ← dcall (os_accept sock);
      if fd =? -1 then mret () else accept_one fuel fd;; RdmaAccept n' fuel sock
  end.

(** The socket the new thread accepts on.  No failure is looked at. *)
Definition RdmaListen : Conn Z :=
  sock ← dcall os_socket;
  dcall (os_setsockopt sock);;
  port ← gets ServerPort;
  dcall (os_bind sock port);;
  dcall (os_listen sock);;
  mret sock.

(** [while (t >= 0 && connect(...) < 0)]: whether some attempt succeeded. *)
Fixpoint try_connect (t : nat) (sock : Z) (ip : string) (port : Z) : Conn bool :=
  match t with
  | O => mret false
  | S t' =>
      r ← dcall (os_connect sock ip port);
      if r <? 0 then try_connect t' sock ip port else mret true
  end.

Definition SocketConnect (NodeID : Z) : Conn Z :=
  ip ← zoom conf_lens (getIPbyID NodeID);
  sock ← dcall os_socket;
  if sock <? 0 then mret (-1)
  else
    dcall (os_setsockopt sock);;
    port ← gets ServerPort;
    ok ← try_connect 4 sock ip port;
    mret (if (ok : bool) then sock else -1).

(** A connection to a node of the configuration: whether the caller goes on. *)
Definition connect_node (fuel : nat) (receives : bool) (NodeID : Z) : Conn bool :=
  sock ← SocketConnect NodeID;
  if sock <? 0 then mret false
  else
    r ← ConnectQueuePair fuel (new_peer sock NodeID);
    if negb r.1 then mret false
    else
      store_peer (peer_NodeID r.2) (set_peer_counter 0 r.2);;
      (if receives then post_receives (peer_NodeID r.2) else mret ());;
      mret true.

(** The loop over the configured nodes, to the first that fails; [skip] is the test on the node id. *)
Fixpoint connect_nodes (fuel : nat) (receives : bool) (skip : Z → bool) (l : list Z) : Conn unit :=
  match l with
  | [] => mret ()
  | n :: l' =>
      if skip n then connect_nodes fuel receives skip l'
      else
        ok ← connect_node fuel receives n;
        if (ok : bool) then connect_nodes fuel receives skip l' else mret ()
  end.

(** The order of an [unordered_map] is unspecified: [map_keys], and nothing is proved about it. *)
Definition ServerConnect (fuel : nat) : Conn unit :=
  id2ip ← zoom conf_lens getInstance;
  me ← gets (λ e, MyNodeID (sk e));
  connect_nodes fuel true (λ n, me <=? n) (map_keys id2ip).

(** Node 1 first: it gives the client its number. *)
Definition RdmaConnect (fuel : nat) : Conn unit :=
  ok ← connect_node fuel false 1;
  if negb ok then mret ()
  else
    id2ip ← zoom conf_lens getInstance;
    connect_nodes fuel false (λ n, n =? 1) (map_keys id2ip).

(** ** Starting and stopping *)

Definition IB_INTERFACE : string := "ibs47f0".

(** The loop over the interfaces; [host] is what getnameinfo last stored. *)
Fixpoint find_host (l : list (option ifaddr)) (host : option string) : option string :=
  match l with
  | [] => host
  | None :: l' => find_host l' host
  | Some a :: l' =>
      let host' := match ifa_host a with Some h => Some h | None => host end in
      if bool_decide (ifa_name a = IB_INTERFACE) && ifa_inet a then
        match ifa_host a with Some h => Some h | None => Some ""%string end
      else find_host l' host'
  end.

Definition getIP : M Dev string :=
  l ← os_getifaddrs;
  l ← or_fault Exited l;
  or_fault Uninit (find_host l None).

(** A socket whose members are as the initialisers of the constructor leave them. *)
Definition blank (cqNum mm mmSize : Z) (conf : Configuration) (isServer : bool) (Mode : Z) (d : Dev) : Endpoint :=
  Ep (Socket ∅ (replicate (Z.to_nat cqNum) 0) isServer junk mm Garbage junk [junk; junk] [junk; junk] None d)
     None (rdmaPort conf) (rdmaTcpPort conf) 0 Garbage Garbage Garbage cqNum 0 mmSize conf
     (u16 (Config.ServerCount conf + 1)) Mode (Config.ServerCount conf).

(** [RdmaSocket::RdmaSocket]; the result of CreateResources is not looked at. *)
Definition make_socket (cqNum mm mmSize : Z) (conf : Configuration) (isServer : bool) (Mode : Z) (d : Dev) :
    outcome Endpoint :=
  let body :=
    (if isServer then
       ip ← dcall getIP;
       id ← zoom conf_lens (getIDbyIP ip);
       set_MyNodeID id
     else mret ());;
    CreateResources;;
    (if isServer then mret ()
     else modify (λ e, with_sk (set_test (Some false) (set_sizes [0; 0] [0; 0] (sk e))) e)) in
  match body (blank cqNum mm mmSize conf isServer Mode d) with
  | Done (_, e) => Done e
  | Fault f => Fault f
  end.

(** [peers[i]] for an entry that was never assigned is garbage. *)
Definition destroy_peer (i : Z) : Conn unit :=
  if i <? 1000 then
    ps ← gets (λ e, peers (sk e));
    p ← or_fault Uninit (ps !! i);
    if decide (length (qp p) < Z.to_nat QP_NUMBER)%nat then fail Uninit
    else for_each (qp p) (λ q, dcall (ibv_destroy_qp q);; mret ())
  else fail OutOfRange.

(** A failure to deregister the memory stores 1, which is [true]. *)
Definition ResourcesDestroy : Conn bool :=
  e ← get;
  for_each (seqZ 1 (ServerCount e)) destroy_peer;;
  m ← test_slot (mr (sk e));
  (match m with Some m => dcall (ibv_dereg_mr m);; mret () | None => mret () end);;
  p ← test_slot (pd e);
  rc ← (match p with Some p => r ← dcall (ibv_dealloc_pd p); mret (r =? 0) | None => mret true end);
  c ← test_slot (ctx e);
  match c with
  | Some c => r ← dcall (ibv_close_device c); mret (if r =? 0 then rc else false)
  | None => mret rc
  end.

(** [RdmaSocket::~RdmaSocket]: the threads are detached. *)
Definition destroy_socket : Conn unit := ResourcesDestroy;; mret ().

(** ** Small members *)

Definition getCQCount : Conn Z := gets cqNum.
Definition getNodeID : Conn Z := gets (λ e, MyNodeID (sk e)).

(** [peers[NodeID]], which may be garbage. *)
Definition getPeerInformation (NodeID : Z) : Conn PeerSockData :=
  if NodeID <? 1000 then
    ps ← gets (λ e, peers (sk e));
    or_fault Uninit (ps !! NodeID)
  else fail OutOfRange.

(** The loop of WaitClientConnection is left when the entry is not null: at once, unless another thread
    assigns it. *)
Definition WaitClientConnection (NodeID : Z) : Conn unit := getPeerInformation NodeID;; mret ().

Definition SyncTool (fuel : nat) (NodeID : Z) : Conn unit :=
  p ← getPeerInformation NodeID;
  dcall (DataSyncwithSocket fuel (peer_sock p) [junk] [junk]);;
  mret ().

(** The name of the state that is printed. *)
Definition RdmaQueryQueuePair (NodeID : Z) : Conn string :=
  p ← getPeerInformation NodeID;
  q ← or_fault Uninit (qp p !! 0%nat);
  st ← dcall (ibv_query_qp q);
  mret (match st with
        | IBV_QPS_RESET => "IBV_QPS_RESET"
        | IBV_QPS_INIT => "IBV_QPS_INIT"
        | IBV_QPS_RTR => "IBV_QPS_RTR"
        | IBV_QPS_RTS => "IBV_QPS_RTS"
        | IBV_QPS_SQD => "IBV_QPS_SQD"
        | IBV_QPS_SQE => "IBV_QPS_SQE"
        | IBV_QPS_ERR => "IBV_QPS_ERR"
        | IBV_QPS_UNKNOWN => "IBV_QPS_UNKNOWN"
        end)%string.

End connection.
Arguments Endpoint : clear implicits.
