(* ===== verification/RdmaConnLaws.v ===== *)
(** * What connection management relies on the libraries for, and the handshake proved from it.

    [FabricLaws] states the documented behaviour of a host with resources: queue pairs can be created and
    go through RESET, INIT, RTR and RTS when the attributes each change needs are given, small
    messages arrive whole, and a server that serves an address and a port answers there.  Which node a
    queue pair reaches depends on the port (lid) and the number of the queue pair it was directed at
    ([partner]); in RTS it is the connection the data plane works on. *)
From S2P Require Import Prelude Rdma RdmaLaws Wire Config RdmaConn.
Local Open Scope Z_scope.

(** A queue pair: its state, its number, the number and the port of the queue pair it sends to, and its
    completion queue. *)
Record qp_info := QpInfo { qi_state : ibv_qp_state; qi_num : Z; qi_dest : Z; qi_dlid : Z; qi_cq : Z }.

(** The attributes a change of state needs, for a reliable connection. *)
Definition needs (a b : ibv_qp_state) : option (list ibv_qp_mask) :=
  match a, b with
  | IBV_QPS_RESET, IBV_QPS_INIT => Some [IBV_QP_STATE; IBV_QP_PKEY_INDEX; IBV_QP_PORT; IBV_QP_ACCESS_FLAGS]
  | IBV_QPS_INIT, IBV_QPS_RTR => Some [IBV_QP_STATE; IBV_QP_AV; IBV_QP_PATH_MTU; IBV_QP_DEST_QPN; IBV_QP_RQ_PSN;
      IBV_QP_MAX_DEST_RD_ATOMIC; IBV_QP_MIN_RNR_TIMER]
  | IBV_QPS_RTR, IBV_QPS_RTS => Some [IBV_QP_STATE; IBV_QP_SQ_PSN; IBV_QP_TIMEOUT; IBV_QP_RETRY_CNT;
      IBV_QP_RNR_RETRY; IBV_QP_MAX_QP_RD_ATOMIC]
  | _, _ => None
  end.

Definition moved_to (attr : ibv_qp_attr) (i : qp_info) : qp_info :=
  QpInfo (qp_state attr) (qi_num i)
    (if decide (qp_state attr = IBV_QPS_RTR) then dest_qp_num attr else qi_dest i)
    (if decide (qp_state attr = IBV_QPS_RTR) then dlid attr else qi_dlid i) (qi_cq i).

(** The part of the device that connection management sees: its queue pairs, the bytes that arrive on
    and have been sent over each connection, what the server at an address and a port sends to who
    connects, the connections waiting to be accepted, and whether no request is outstanding.
    [partner d l t n] is the node whose port has the lid [l] and which brings its queue pair [t] to
    ready-to-receive from our queue pair [n]. *)
Class Fabric (Dev : Type) := {
  qps : Dev → gmap Z qp_info;
  incoming : Dev → Z → list Z;
  outgoing : Dev → Z → list Z;
  serves : Dev → string → Z → option (list Z);
  partner : Dev → Z → Z → Z → option Z;
  backlog : Dev → list Z;
  quiet : Dev → Prop;
}.

(** What no call of connection management after the start changes: the servers, the partners and the
    registered memory. *)
Record same_world {Dev} `{VerbsLaws Dev, Fabric Dev} (d d' : Dev) : Prop := {
  sw_serves ip port : serves d' ip port = serves d ip port;
  sw_partner l t n : partner d' l t n = partner d l t n;
  sw_local k r : local_mr d k = Some r → local_mr d' k = Some r;
  sw_remote n k : remote_mr d' n k = remote_mr d n k;
  sw_quiet : quiet d → quiet d';
}.

(** Two devices that differ at most in their queue pairs. *)
Record same_net {Dev} `{VerbsLaws Dev, Fabric Dev} (d d' : Dev) : Prop := {
  sn_in fd : incoming d' fd = incoming d fd;
  sn_out fd : outgoing d' fd = outgoing d fd;
  sn_backlog : backlog d' = backlog d;
  sn_world : same_world d d';
}.

(** Two devices that differ at most in the streams of [fd]. *)
Record same_but {Dev} `{VerbsLaws Dev, Fabric Dev} (d d' : Dev) (fd : Z) : Prop := {
  sb_qps : qps d' = qps d;
  sb_in g : g ≠ fd → incoming d' g = incoming d g;
  sb_out g : g ≠ fd → outgoing d' g = outgoing d g;
  sb_backlog : backlog d' = backlog d;
  sb_world : same_world d d';
}.

Class FabricLaws (Dev : Type) `{VerbsLaws Dev, VerbsCtl Dev, Os Dev, Fabric Dev} := {
  create_qp_law d p a : ∃ h n d', ibv_create_qp p a d = Done (Some h, d') ∧ qps d !! h = None ∧
    0 ≤ n < 2 ^ 32 ∧ qps d' = <[h := QpInfo IBV_QPS_RESET n 0 0 (send_cq a)]> (qps d) ∧ same_net d d';
  qp_num_law d h i : qps d !! h = Some i → qp_num d h = qi_num i;
  modify_qp_law d h i attr mask l : qps d !! h = Some i → needs (qi_state i) (qp_state attr) = Some l →
    l ⊆ mask → ∃ d', ibv_modify_qp h attr mask d = Done (0, d') ∧
      qps d' = <[h := moved_to attr i]> (qps d) ∧ same_net d d';
  query_gid_law d c port i : ∃ g d', ibv_query_gid c port i d = Done ((0, g), d') ∧ length g = 16%nat ∧
    Forall (λ b, 0 ≤ b < 256) g ∧ qps d' = qps d ∧ same_net d d';
  write_law d fd bs : ∃ d', os_write fd bs d = Done (Z.of_nat (length bs), d') ∧
    outgoing d' fd = outgoing d fd ++ bs ∧ incoming d' fd = incoming d fd ∧ same_but d d' fd;
  read_law d fd n : 0 < n ≤ Z.of_nat (length (incoming d fd)) →
    ∃ d', os_read fd n d = Done ((n, take (Z.to_nat n) (incoming d fd)), d') ∧
      incoming d' fd = drop (Z.to_nat n) (incoming d fd) ∧ outgoing d' fd = outgoing d fd ∧ same_but d d' fd;
  post_recv_law d q wrs : ∃ r d', ibv_post_recv q wrs d = Done (r, d') ∧ qps d' = qps d ∧ same_net d d';
  socket_law d : ∃ fd d', os_socket d = Done (fd, d') ∧ 0 ≤ fd ∧ qps d' = qps d ∧ same_net d d';
  setsockopt_law d fd : ∃ r d', os_setsockopt fd d = Done (r, d') ∧ qps d' = qps d ∧ same_net d d';
  connect_law d fd ip port bs : serves d ip port = Some bs → ∃ d', os_connect fd ip port d = Done (0, d') ∧
    incoming d' fd = bs ∧ same_but d d' fd;
  accept_law d sock fd l : backlog d = fd :: l → ∃ d', os_accept sock d = Done (fd, d') ∧ 0 ≤ fd ∧
    backlog d' = l ∧ qps d' = qps d ∧ (∀ g, incoming d' g = incoming d g ∧ outgoing d' g = outgoing d g) ∧
    same_world d d';
  rts_connected d h num dest dl c n : quiet d → qps d !! h = Some (QpInfo IBV_QPS_RTS num dest dl c) →
    partner d dl dest num = Some n → connected d h c n;
}.

Section net_rules.
Context {Dev : Type} `{FabricLaws Dev}.
Implicit Types (d : Dev).

Lemma same_world_refl d : same_world d d.
Proof. by split. Qed.

Lemma same_world_trans d1 d2 d3 : same_world d1 d2 → same_world d2 d3 → same_world d1 d3.
Proof. intros [] []. split; try congruence; auto. Qed.

Lemma same_net_refl d : same_net d d.
Proof. split; [done..|apply same_world_refl]. Qed.

Lemma same_net_trans d1 d2 d3 : same_net d1 d2 → same_net d2 d3 → same_net d1 d3.
Proof. intros [] []. split; [congruence..|]. by eapply same_world_trans. Qed.

Lemma same_but_trans d1 d2 d3 fd : same_but d1 d2 fd → same_but d2 d3 fd → same_but d1 d3 fd.
Proof.
  intros [] []. split; [congruence| | |congruence|by eapply same_world_trans].
  - intros g Hg. by rewrite sb_in1, sb_in0.
  - intros g Hg. by rewrite sb_out1, sb_out0.
Qed.

Lemma same_net_but d1 d2 fd : qps d2 = qps d1 → same_net d1 d2 → same_but d1 d2 fd.
Proof. intros Hq []. by split. Qed.
End net_rules.

(** ** Messages over the socket *)

Section messages.
Context {Dev : Type} `{FabricLaws Dev} `{Junk}.
Implicit Types (d : Dev) (e : Endpoint Dev).

Abbreviation net e := (dev (sk e)).

Lemma wp_dcall {A} (m : M Dev A) Q e : wp m (λ a d, Q a (set_dev d e)) (net e) → wp (dcall m) Q e.
Proof. intros Hm. unfold dcall. apply wp_zoom. exact Hm. Qed.

Lemma overwrite_whole (bs buf : list Z) : length bs = length buf → overwrite bs buf = bs.
Proof. intros Hl. unfold overwrite. rewrite Hl, drop_all. apply app_nil_r. Qed.

(** A message that arrives whole. *)
Lemma wp_sync d fd fuel local buf bs rest (Q : Z * list Z → Dev → Prop) :
  incoming d fd = bs ++ rest → length bs = length local → length buf = length local → 
  0 < Z.of_nat (length local) < 2 ^ 31 → (1 ≤ fuel)%nat →
  (∀ d', same_but d d' fd → incoming d' fd = rest → outgoing d' fd = outgoing d fd ++ local → Q (0, bs) d') →
  wp (DataSyncwithSocket fuel fd local buf) Q d.
Proof.
  intros Hin Hbs Hbuf Hl Hf HQ. unfold DataSyncwithSocket.
  destruct (write_law d fd local) as (d1 & E1 & Ho1 & Hi1 & Hs1). apply wp_bind, wp_done. eexists _, d1. split; [exact E1|].
  rewrite (proj2 (Z.ltb_ge _ _)) by lia. cbn [andb]. destruct fuel as [|fuel]; [lia|]. cbn [sync_read].
  rewrite (proj2 (Z.ltb_lt _ _)) by lia.
  destruct (read_law d1 fd (Z.of_nat (length local))) as (d2 & E2 & Hi2 & Ho2 & Hs2).
  { rewrite Hi1, Hin, length_app. lia. }
  apply wp_bind, wp_done. eexists _, d2. split; [exact E2|]. cbn [fst snd].
  rewrite (proj2 (Z.ltb_lt _ _)) by lia. rewrite Nat2Z.id, Hi1, Hin in *.
  rewrite take_app_length' by done. rewrite drop_app_length' in Hi2 by done.
  rewrite overwrite_whole by congruence. rewrite s32_small by lia.
  assert (Hdone : wp (sync_read fuel fd (Z.of_nat (length local)) bs (0 + Z.of_nat (length local))) Q d2).
  { destruct fuel; cbn [sync_read]; rewrite (proj2 (Z.ltb_ge _ _)) by lia; apply wp_ret, HQ; try done;
      try (by eapply same_but_trans); congruence. }
  exact Hdone.
Qed.

Lemma wp_exchange {A} (L : Layout A) (fits : A → Prop) `{!LayoutLaws A fits} e fd fuel (local remote : A) rest
    (Q : Z * A → Endpoint Dev → Prop) :
  incoming (net e) fd = to_bytes remote ++ rest → fits remote → 0 < Z.of_nat (sizeof A) < 2 ^ 31 → (1 ≤ fuel)%nat →
  (∀ d', same_but (net e) d' fd → incoming d' fd = rest →
     outgoing d' fd = outgoing (net e) fd ++ to_bytes local → Q (0, remote) (set_dev d' e)) →
  wp (exchange fuel fd local) Q e.
Proof.
  intros Hin Hfit Hsz Hf HQ. unfold exchange. apply wp_bind, wp_dcall.
  eapply wp_sync; [exact Hin|by rewrite !to_bytes_length|by rewrite length_replicate, to_bytes_length|
    by rewrite to_bytes_length|done|].
  intros d' Hs Hi Ho. cbn [fst snd]. apply wp_ret.
  rewrite <- (app_nil_r (to_bytes remote)), of_to_bytes by done. by apply HQ.
Qed.
End messages.

(** Two devices that differ at most in their queue pairs and in the streams of [fd]. *)
Record elsewhere {Dev} `{VerbsLaws Dev, Fabric Dev} (d d' : Dev) (fd : Z) : Prop := {
  el_in g : g ≠ fd → incoming d' g = incoming d g;
  el_out g : g ≠ fd → outgoing d' g = outgoing d g;
  el_backlog : backlog d' = backlog d;
  el_world : same_world d d';
}.

Section elsewhere_rules.
Context {Dev : Type} `{FabricLaws Dev}.
Implicit Types (d : Dev).

Lemma elsewhere_trans d1 d2 d3 fd : elsewhere d1 d2 fd → elsewhere d2 d3 fd → elsewhere d1 d3 fd.
Proof.
  intros [] []. split; [| |congruence|by eapply same_world_trans].
  - intros g Hg. by rewrite el_in1, el_in0.
  - intros g Hg. by rewrite el_out1, el_out0.
Qed.

Lemma elsewhere_net d1 d2 fd : same_net d1 d2 → elsewhere d1 d2 fd.
Proof. intros []. by split. Qed.

Lemma elsewhere_but d1 d2 fd : same_but d1 d2 fd → elsewhere d1 d2 fd.
Proof. intros []. by split. Qed.
End elsewhere_rules.

#[export] Hint Resolve same_net_refl elsewhere_net elsewhere_but : sponge.
#[export] Hint Resolve elsewhere_trans same_net_trans : sponge.

(** ** Queue pairs *)

Section pairs.
Context {Dev : Type} `{FabricLaws Dev} `{Junk}.
Implicit Types (d : Dev) (e : Endpoint Dev).

Abbreviation net e := (dev (sk e)).

(** What CreateResources leaves, and the ranges of the C++ types.  A server needs a second completion
    queue: the first one is for the other servers.  The queue pairs of a client to one node use one
    completion queue only if there is only one. *)
Record conn_ok e : Prop := {
  co_cq : length (cq (sk e)) = Z.to_nat (cqNum e);
  co_ptr : 0 ≤ cqPtr e < cqNum e;
  co_num : if isServer (sk e) then 2 ≤ cqNum e else cqNum e = 1;
  co_mode : Mode e = 0;
  co_pd : ∃ p, pd e = Ptr p;
  co_ctx : ∃ c, ctx e = Ptr c;
  co_lid : ∃ l, lid e = Ptr l ∧ 0 ≤ l < 2 ^ 16;
  co_mr : ∃ k, mr (sk e) = Ptr k ∧ 0 ≤ k.2 < 2 ^ 32;
  co_mm : 0 ≤ mm (sk e) < 2 ^ 64;
  co_me : 0 ≤ MyNodeID (sk e) < 2 ^ 16;
  co_max : 0 ≤ MaxNodeID e < 2 ^ 16;
}.

(** The completion queue of the queue pairs to [node], and [cqPtr] after the first of them. *)
Definition pick e (node : Z) : Z :=
  if isServer (sk e) && (0 <? node) && (node <=? ServerCount e) then 0
  else if isServer (sk e) then if cqNum e <=? cqPtr e + 1 then 1 else cqPtr e + 1
  else 0.
Definition ptr_after e (node : Z) : Z :=
  if isServer (sk e) && (0 <? node) && (node <=? ServerCount e) then cqPtr e else pick e node.

Lemma pick_range e node : conn_ok e → 0 ≤ pick e node < cqNum e ∧ 0 ≤ ptr_after e node < cqNum e.
Proof.
  intros []. unfold ptr_after, pick. destruct (isServer (sk e)); cbn [andb]; repeat case_match; lia.
Qed.

Lemma pick_cq e node : conn_ok e → is_Some (cq (sk e) !! Z.to_nat (pick e node)).
Proof.
  intros He. apply lookup_lt_is_Some. rewrite co_cq by done. pose proof (pick_range e node He). lia.
Qed.

Lemma set_cqPtr_self e : set_cqPtr (cqPtr e) e = e.
Proof. by destruct e. Qed.

Lemma set_dev_self e : set_dev (net e) e = e.
Proof. by destruct e as [[] ]. Qed.

Lemma wp_cq_at e i c Q : cq (sk e) !! Z.to_nat i = Some c → Q c e → wp (cq_at i) Q e.
Proof. intros Hc HQ. unfold cq_at. wp_auto. by eapply wp_or_fault. Qed.

Lemma wp_choose_cq e d peer offset c Q : conn_ok e → cq (sk e) !! Z.to_nat (pick e (peer_NodeID peer)) = Some c →
  Q c (set_dev d (set_cqPtr (ptr_after e (peer_NodeID peer)) e)) →
  wp (choose_cq peer offset) Q (set_dev d (if decide (offset = 0%nat) then e else set_cqPtr (ptr_after e (peer_NodeID peer)) e)).
Proof.
  intros He Hc HQ. unfold choose_cq. apply wp_bind, wp_get.
  set (k := ptr_after e (peer_NodeID peer)) in *.
  assert (Hs : ∀ A (f : RdmaSocket Dev → A), (∀ s d, f (update device d s) = f s) →
    f (sk (set_dev d (if decide (offset = 0%nat) then e else set_cqPtr k e))) = f (sk e)).
  { intros A f Hf. destruct (decide _); apply Hf. }
  rewrite (Hs _ isServer) by done.
  assert (HS : ServerCount (set_dev d (if decide (offset = 0%nat) then e else set_cqPtr k e)) = ServerCount e)
    by by destruct (decide _).
  rewrite HS. subst k. unfold ptr_after, pick in *.
  destruct (isServer (sk e)) eqn:Hsv; cbn [andb] in *.
  - destruct ((0 <? peer_NodeID peer) && (peer_NodeID peer <=? ServerCount e)).
    + eapply wp_cq_at; [rewrite (Hs _ cq) by done; exact Hc|].
      rewrite set_cqPtr_self in HQ |- *. by destruct (decide _).
    + by destruct (decide _) as [->|Hne]; wp_auto; (eapply wp_cq_at; [exact Hc|]).
  - pose proof (co_num _ He) as Hn. pose proof (co_ptr _ He) as Hp. rewrite Hsv in Hn.
    assert (Hptr : cqPtr e = 0) by lia.
    assert (Hp0 : set_cqPtr 0 e = e) by by rewrite <- Hptr, set_cqPtr_self.
    rewrite Hp0 in *. assert (E : (if decide (offset = 0%nat) then e else e) = e) by by destruct (decide _).
    rewrite E. wp_auto. eapply wp_cq_at; [simpl; by rewrite Hptr|]. wp_auto. simpl. rewrite Hn, Hptr. simpl.
    rewrite <- Hp0 in HQ. exact HQ.
Qed.

(** Queue pairs [hs] with the numbers [ns], created one after the other. *)
Record created d d' (c : Z) (hs ns : list Z) : Prop := {
  cr_len : length ns = length hs;
  cr_nodup : NoDup hs;
  cr_fresh h : h ∈ hs → qps d !! h = None;
  cr_reset j h n : hs !! j = Some h → ns !! j = Some n → qps d' !! h = Some (QpInfo IBV_QPS_RESET n 0 0 c);
  cr_nums : Forall (λ n, 0 ≤ n < 2 ^ 32) ns;
  cr_kept h : h ∉ hs → qps d' !! h = qps d !! h;
  cr_net : same_net d d';
}.

Lemma created_nothing d c : created d d c [] [].
Proof. split; try done; [apply NoDup_nil_2|set_solver]. Qed.

Lemma created_one d d1 d2 c hs ns h n : created d d1 c hs ns → qps d1 !! h = None → 0 ≤ n < 2 ^ 32 →
  qps d2 = <[h := QpInfo IBV_QPS_RESET n 0 0 c]> (qps d1) → same_net d1 d2 →
  created d d2 c (hs ++ [h]) (ns ++ [n]).
Proof.
  intros [Hlen Hnd Hfr Hre Hnu Hke Hnet] Hh Hn Hq Hs.
  assert (Hnot : h ∉ hs).
  { intros [j Hj]%list_elem_of_lookup. destruct (lookup_lt_is_Some_2 ns j) as [m Hm].
    { rewrite Hlen. by eapply lookup_lt_Some. } by rewrite (Hre j h m Hj Hm) in Hh. }
  split.
  - rewrite !length_app, Hlen. done.
  - apply NoDup_app. split_and!; [done|set_solver|apply NoDup_singleton].
  - intros g [Hg| ->%list_elem_of_singleton]%elem_of_app; [by apply Hfr|]. by rewrite <- Hke.
  - intros j g m. rewrite Hq. destruct (decide (j < length hs)%nat) as [Hlt|Hge].
    + rewrite !lookup_app_l by lia. intros Hg Hm. rewrite lookup_insert_ne; [by eapply Hre|].
      intros ->. apply Hnot. by eapply list_elem_of_lookup_2.
    + rewrite !lookup_app_r, Hlen by lia. intros [_ <-]%list_lookup_singleton_Some [_ <-]%list_lookup_singleton_Some.
      apply lookup_insert_eq.
  - apply Forall_app. split; [done|by apply Forall_singleton].
  - intros g Hg. rewrite Hq, lookup_insert_ne, Hke; [done|set_solver..].
  - by eapply same_net_trans.
Qed.

(** The next queue pair of [peer]. *)
Lemma wp_CreateQueuePair e d peer offset c Q : conn_ok e →
  cq (sk e) !! Z.to_nat (pick e (peer_NodeID peer)) = Some c → length (qp peer) = offset →
  (∀ h n d', qps d !! h = None → 0 ≤ n < 2 ^ 32 → qps d' = <[h := QpInfo IBV_QPS_RESET n 0 0 c]> (qps d) →
     same_net d d' →
     Q (true, Peer (qp peer ++ [h]) c (qpNum peer) (RegisteredMemory peer) (peer_rkey peer) (peer_lid peer)
                (peer_gid peer) (peer_sock peer) (peer_NodeID peer) (counter peer))
       (set_dev d' (set_cqPtr (ptr_after e (peer_NodeID peer)) e))) →
  wp (CreateQueuePair peer offset) Q
     (set_dev d (if decide (offset = 0%nat) then e else set_cqPtr (ptr_after e (peer_NodeID peer)) e)).
Proof.
  intros He Hc Hlen HQ. unfold CreateQueuePair. apply wp_bind, wp_get.
  assert (Hmode : Mode (set_dev d (if decide (offset = 0%nat) then e
    else set_cqPtr (ptr_after e (peer_NodeID peer)) e)) = 0) by (destruct (decide _); exact (co_mode e He)).
  rewrite Hmode. simpl. apply wp_bind. eapply wp_choose_cq; [done|exact Hc|].
  destruct (co_pd _ He) as [p Hp]. apply wp_bind.
  match goal with |- context [deref_slot ?x] => assert (Hx : x = Ptr p) by by destruct (decide _) end.
  rewrite Hx. apply wp_ret.
  destruct (create_qp_law d p (QpInit IBV_QPT_RC 0 c c QPS_MAX_DEPTH QPS_MAX_DEPTH 1 1 0))
    as (h & n & d' & E & Hh & Hn & Hq & Hs).
  apply wp_bind, wp_dcall, wp_done. eexists _, _. split; [exact E|]. wp_auto.
  unfold set_qp, set_peer_cq. simpl. rewrite <- Hlen, firstn_all, skipn_all2 by lia.
  exact (HQ h n d' Hh Hn Hq Hs).
Qed.

Definition with_qps (hs : list Z) (c : Z) (p : PeerSockData) : PeerSockData :=
  Peer hs c (qpNum p) (RegisteredMemory p) (peer_rkey p) (peer_lid p) (peer_gid p) (peer_sock p)
       (peer_NodeID p) (counter p).

Lemma wp_create_qps n e d0 d peer hs ns c Q : conn_ok e →
  cq (sk e) !! Z.to_nat (pick e (peer_NodeID peer)) = Some c → qp peer = hs → created d0 d c hs ns →
  (0 < n + length hs)%nat → (hs = [] ∨ peer_cq peer = c) →
  (∀ hs' ns' d', created d0 d' c hs' ns' → length hs' = (length hs + n)%nat →
     Q (with_qps hs' c peer) (set_dev d' (set_cqPtr (ptr_after e (peer_NodeID peer)) e))) →
  wp (create_qps n (length hs) peer) Q
     (set_dev d (if decide (length hs = 0%nat) then e else set_cqPtr (ptr_after e (peer_NodeID peer)) e)).
Proof.
  intros He Hc Hqp. revert d peer hs ns Hc Hqp. induction n as [|n IH]; intros d peer hs ns Hc Hqp Hcr Hn Hcq HQ; simpl.
  - apply wp_ret. destruct (decide _) as [E|]; [lia|].
    specialize (HQ hs ns d Hcr ltac:(lia)). unfold with_qps in HQ.
    destruct Hcq as [-> | <-]; [done|]. rewrite <- Hqp in HQ. by destruct peer.
  - apply wp_bind. eapply wp_CreateQueuePair; [done|exact Hc|by rewrite Hqp|].
    intros h m d' Hh Hm Hq Hs. simpl.
    set (peer' := Peer (qp peer ++ [h]) c (qpNum peer) (RegisteredMemory peer) (peer_rkey peer) (peer_lid peer)
      (peer_gid peer) (peer_sock peer) (peer_NodeID peer) (counter peer)).
    specialize (IH d' peer' (hs ++ [h]) (ns ++ [m])). rewrite length_app in IH. simpl in IH.
    rewrite Nat.add_1_r in IH. simpl in IH. apply IH; [done|by subst peer'; simpl; rewrite Hqp| |lia|by right|].
    + by eapply created_one.
    + intros hs' ns' d'' Hcr' Hl. apply (HQ hs' ns' d''); [done|lia].
Qed.

(** *** From RESET to RTS *)

Lemma set_dev_twice d d' e : set_dev d' (set_dev d e) = set_dev d' e.
Proof. done. Qed.

Lemma wp_modify_qp e h i attr mask l Q : qps (net e) !! h = Some i →
  needs (qi_state i) (qp_state attr) = Some l → l ⊆ mask →
  (∀ d', qps d' = <[h := moved_to attr i]> (qps (net e)) → same_net (net e) d' → Q true (set_dev d' e)) →
  wp (rc ← dcall (ibv_modify_qp h attr mask); mret (rc =? 0)) Q e.
Proof.
  intros Hh Hl Hm HQ. destruct (modify_qp_law _ h i attr mask l Hh Hl Hm) as (d' & E & Hq & Hs).
  apply wp_bind, wp_dcall, wp_done. eexists _, _. split; [exact E|]. apply wp_ret. by apply HQ.
Qed.

(** The three changes of state of one queue pair. *)
Lemma wp_raise {A} e h m c dest dl dgid Q (no yes : M (Endpoint Dev) A) : Mode e = 0 →
  qps (net e) !! h = Some (QpInfo IBV_QPS_RESET m 0 0 c) →
  (∀ d', qps d' = <[h := QpInfo IBV_QPS_RTS m dest dl c]> (qps (net e)) → same_net (net e) d' →
     wp yes Q (set_dev d' e)) →
  wp (ok ← ModifyQPtoInit h;
      if negb ok then no
      else
        ok ← ModifyQPtoRTR h dest dl dgid;
        if negb ok then no
        else ok ← ModifyQPtoRTS h; if negb ok then no else yes) Q e.
Proof.
  intros Hmode Hh HQ. apply wp_bind. unfold ModifyQPtoInit. apply wp_bind, wp_get.
  eapply wp_modify_qp; [exact Hh|reflexivity|set_solver|]. intros d1 Hq1 Hs1. cbn [negb].
  apply wp_bind. unfold ModifyQPtoRTR. apply wp_bind, wp_get. cbn [Mode set_dev with_sk]. rewrite Hmode.
  eapply wp_modify_qp; [simpl; rewrite Hq1; apply lookup_insert_eq|reflexivity|set_solver|].
  intros d2 Hq2 Hs2. cbn [negb]. rewrite set_dev_twice.
  apply wp_bind. unfold ModifyQPtoRTS. apply wp_bind, wp_get. cbn [Mode set_dev with_sk]. rewrite Hmode.
  eapply wp_modify_qp; [simpl; rewrite Hq2; apply lookup_insert_eq|reflexivity|set_solver|].
  intros d3 Hq3 Hs3. cbn [negb]. rewrite set_dev_twice. apply HQ.
  - simpl in Hq1, Hq2, Hq3. by rewrite Hq3, Hq2, Hq1, !insert_insert_eq.
  - simpl in Hs2, Hs3. eauto using same_net_trans.
Qed.

(** The queue pairs [hs] with numbers [ns] went from RESET to RTS towards [dests] behind the port [dl]. *)
Record raised d d' (c dl : Z) (hs ns dests : list Z) : Prop := {
  ra_up j h n t : hs !! j = Some h → ns !! j = Some n → dests !! j = Some t →
    qps d' !! h = Some (QpInfo IBV_QPS_RTS n t dl c);
  ra_kept h : h ∉ hs → qps d' !! h = qps d !! h;
  ra_net : same_net d d';
}.

Lemma wp_bring_up hs : ∀ e peer pre tpre ns ts c Q, Mode e = 0 → qp peer = pre ++ hs → qpNum peer = tpre ++ ts →
  length pre = length tpre → length ns = length hs → (length hs ≤ length ts)%nat → NoDup hs →
  (∀ j h n, hs !! j = Some h → ns !! j = Some n → qps (net e) !! h = Some (QpInfo IBV_QPS_RESET n 0 0 c)) →
  (∀ d', raised (net e) d' c (peer_lid peer) hs ns ts → Q true (set_dev d' e)) →
  wp (bring_up (length hs) (length pre) peer) Q e.
Proof.
  induction hs as [|h hs IH]; intros e peer pre tpre ns ts c Q Hmode Hqp Hnum Hpre Hlen Hts Hnd Hre HQ.
  - apply wp_ret. rewrite <- (set_dev_self e). apply HQ. split; [done|done|apply same_net_refl].
  - destruct ns as [|n ns]; [done|]. destruct ts as [|t ts]; [simpl in Hts; lia|].
    apply NoDup_cons in Hnd as [Hni Hnd]. cbn [length bring_up].
    apply wp_bind. eapply wp_or_fault; [by rewrite Hqp, list_lookup_middle|].
    apply wp_bind. eapply wp_or_fault; [by rewrite Hnum, list_lookup_middle|].
    eapply wp_raise; [done|by apply (Hre 0%nat)|]. intros d1 Hq1 Hs1.
    replace (S (length pre)) with (length (pre ++ [h])) by (rewrite length_app; simpl; lia).
    apply (IH _ _ _ (tpre ++ [t]) ns ts c); simpl.
    + done.
    + by rewrite Hqp, <- app_assoc.
    + by rewrite Hnum, <- app_assoc.
    + rewrite !length_app. simpl. lia.
    + simpl in Hlen. lia.
    + simpl in Hts. lia.
    + done.
    + intros j g m Hg Hm. rewrite Hq1, lookup_insert_ne; [by apply (Hre (S j))|].
      intros ->. apply Hni. by eapply list_elem_of_lookup_2.
    + intros d2 [Hup Hke Hs2]. rewrite set_dev_twice. apply HQ. split.
      * intros [|j] g m u Hg Hm Hu; simpl in *; simplify_eq; [|by eapply Hup].
        rewrite Hke by done. rewrite Hq1. apply lookup_insert_eq.
      * intros g [Hg1 Hg2]%not_elem_of_cons. rewrite Hke by done. by rewrite Hq1, lookup_insert_ne.
      * by eapply same_net_trans.
Qed.

(** *** Who the other side is *)

Definition with_me (n : Z) e : Endpoint Dev :=
  with_sk (set_sock (peers (sk e)) (cq (sk e)) n (mr (sk e)) (sk e)) e.

(** Whether the other side is a client that gets its number here. *)
Definition numbers e (rid : ExchangeID) : bool :=
  isServer (sk e) && (id_isServer rid =? 0) && (MyNodeID (sk e) =? 1).

Definition met (rid : ExchangeID) e : Endpoint Dev :=
  if isServer (sk e) then if numbers e rid then set_MaxNodeID (u16 (MaxNodeID e + 1)) e else e
  else if id_GivenID rid =? 0 then e else with_me (id_GivenID rid) e.

Definition met_node (rid : ExchangeID) e (node : Z) : Z :=
  if isServer (sk e) then if numbers e rid then MaxNodeID e else id_NodeID rid else node.

Lemma wp_assign_node rid peer e d Q : (isServer (sk e) = true → id_isServer rid = 0 ∨ id_isServer rid = 1) →
  Q (set_peer_node (met_node rid e (peer_NodeID peer)) peer) (set_dev d (met rid e)) →
  wp (assign_node rid peer) Q (set_dev d e).
Proof.
  unfold assign_node, met_node, met, numbers. intros Hb HQ. apply wp_bind, wp_get.
  cbn [sk set_dev with_sk]. change (isServer (update device d (sk e))) with (isServer (sk e)).
  change (MyNodeID (update device d (sk e))) with (MyNodeID (sk e)).
  destruct (isServer (sk e)); cbn [andb] in *.
  - unfold read_bool. apply wp_bind. destruct (Hb eq_refl) as [E|E]; rewrite E in *; cbn [Z.eqb Pos.eqb andb] in *; apply wp_ret; [|by apply wp_ret].
    destruct (MyNodeID (sk e) =? 1); cbn [andb negb] in *; by wp_auto.
  - assert (E : set_peer_node (peer_NodeID peer) peer = peer) by by destruct peer. rewrite E in HQ.
    destruct (id_GivenID rid =? 0); cbn [negb]; by repeat (unfold set_MyNodeID; wp_auto).
Qed.

Lemma met_ok rid e : conn_ok e → id_fits rid → conn_ok (met rid e).
Proof.
  intros He (_ & _ & Hg). unfold met. destruct (isServer (sk e)) eqn:Hs.
  - destruct (numbers e rid); [|done]. destruct He. split; try done. apply Z.mod_pos_bound. lia.
  - destruct (id_GivenID rid =? 0); [done|]. destruct He. by split.
Qed.

Lemma met_net rid e : net (met rid e) = net e.
Proof. unfold met. by repeat case_match. Qed.

(** The members that meeting somebody leaves alone. *)
Lemma met_same rid e {A} (f : Endpoint Dev → A) :
  (∀ n e, f (set_MaxNodeID n e) = f e) → (∀ n e, f (with_me n e) = f e) → f (met rid e) = f e.
Proof. intros Hf Hg. unfold met. by repeat case_match. Qed.

(** ** ConnectQueuePair *)

Definition wanted e (node : Z) : nat :=
  if negb (isServer (sk e)) || (Config.ServerCount (conf e) <? node) then 3%nat else 2%nat.

(** The struct that is sent after the queue pairs [ns] were created. *)
Definition sent_meta e (l : Z) (gid : list Z) (k : Z * Z) (ns : list Z) : ExchangeMeta :=
  ExMeta (if isServer (sk e) then k.2 else junk) (ns ++ replicate (3 - length ns) junk) l gid (mm (sk e)) junk.

(** A successful handshake over [fd]: the queue pairs [hs] with numbers [ns] are new and ready to
    send to those of the other side, the two structs were exchanged, and no other connection was
    touched. *)
Record joined e d' (fd c : Z) (hs ns : list Z) (rmeta : ExchangeMeta) (rest : list Z) : Prop := {
  jo_len : length ns = length hs;
  jo_nodup : NoDup hs;
  jo_fresh h : h ∈ hs → qps (net e) !! h = None;
  jo_nums : Forall (λ n, 0 ≤ n < 2 ^ 32) ns;
  jo_up j h n t : hs !! j = Some h → ns !! j = Some n → meta_qpNum rmeta !! j = Some t →
    qps d' !! h = Some (QpInfo IBV_QPS_RTS n t (meta_lid rmeta) c);
  jo_kept h : h ∉ hs → qps d' !! h = qps (net e) !! h;
  jo_elsewhere : elsewhere (net e) d' fd;
  jo_read : incoming d' fd = rest;
  jo_sent : ∃ l gid k, lid e = Ptr l ∧ mr (sk e) = Ptr k ∧ length gid = 16%nat ∧ Forall (λ b, 0 ≤ b < 256) gid ∧
    outgoing d' fd = outgoing (net e) fd ++ to_bytes (local_id e) ++ to_bytes (sent_meta e l gid k ns);
}.

Definition joined_peer (p : PeerSockData) (hs : list Z) (c node : Z) (m : ExchangeMeta) : PeerSockData :=
  Peer hs c (meta_qpNum m) (meta_RegisteredMemory m) (meta_rkey m) (meta_lid m) (meta_gid m) (peer_sock p) node
       (counter p).

Lemma wp_local_meta e peer gid hs ns c l k Q : length ns = length hs → qp peer = hs → (length hs ≤ 3)%nat →
  (∀ j h n, hs !! j = Some h → ns !! j = Some n → qps (net e) !! h = Some (QpInfo IBV_QPS_RESET n 0 0 c)) →
  lid e = Ptr l → mr (sk e) = Ptr k → Q (sent_meta e l gid k ns) e → wp (local_meta peer gid (length hs)) Q e.
Proof.
  intros Hlen Hqp Hle Hre Hl Hk HQ. unfold local_meta. apply wp_bind, wp_get. apply wp_bind.
  assert (Hnums : qp_num (net e) <$> take (length hs) (qp peer) = ns).
  { rewrite Hqp, firstn_all. apply list_eq_same_length with (length hs); [done|by rewrite length_fmap|].
    intros j x y Hj Hx Hy. rewrite list_lookup_fmap in Hx. destruct (hs !! j) as [h|] eqn:Hh; [|done].
    injection Hx as <-. by rewrite (qp_num_law _ _ _ (Hre j h y Hh Hy)). }
  rewrite Hnums, <- Hlen. unfold sent_meta in HQ. rewrite Hl, Hk. 
  destruct (isServer (sk e)); wp_auto; exact HQ.
Qed.

Lemma wp_query_gid e c Q : 
  (∀ gid d', length gid = 16%nat → Forall (λ b, 0 ≤ b < 256) gid → qps d' = qps (net e) → same_net (net e) d' →
     Q (0, gid) (set_dev d' e)) →
  wp (if 0 <=? GidIndex e then dcall (ibv_query_gid c (Port e) (GidIndex e)) else mret (0, replicate 16 0)) Q e.
Proof.
  intros HQ. destruct (0 <=? GidIndex e).
  - destruct (query_gid_law (net e) c (Port e) (GidIndex e)) as (g & d' & E & Hl & Hg & Hq & Hs).
    apply wp_dcall, wp_done. eexists _, _. split; [exact E|]. by apply HQ.
  - apply wp_ret. rewrite <- (set_dev_self e). apply HQ; try done. by apply Forall_replicate.
Qed.

(** From the exchange of the second struct on. *)
Lemma wp_finish e peer hs ns c gid l k rmeta rest fuel (Q : bool * PeerSockData → Endpoint Dev → Prop) :
  Mode e = 0 → lid e = Ptr l → mr (sk e) = Ptr k → length ns = length hs → (length hs ≤ 3)%nat → NoDup hs → qp peer = hs →
  (∀ j h n, hs !! j = Some h → ns !! j = Some n → qps (net e) !! h = Some (QpInfo IBV_QPS_RESET n 0 0 c)) →
  incoming (net e) (peer_sock peer) = to_bytes rmeta ++ rest → meta_fits rmeta → (1 ≤ fuel)%nat →
  (∀ d1 d', same_but (net e) d1 (peer_sock peer) → raised d1 d' c (meta_lid rmeta) hs ns (meta_qpNum rmeta) →
     incoming d1 (peer_sock peer) = rest →
     outgoing d1 (peer_sock peer) = outgoing (net e) (peer_sock peer) ++ to_bytes (sent_meta e l gid k ns) →
     Q (true, set_peer_meta rmeta peer) (set_dev d' e)) →
  wp (LocalMeta ← local_meta peer gid (length hs);
      r ← exchange fuel (peer_sock peer) LocalMeta;
      if r.1 <? 0 then mret (false, peer)
      else
        let peer := set_peer_meta r.2 peer in
        ok ← bring_up (length hs) 0 peer;
        mret (ok, peer)) Q e.
Proof.
  intros Hmode Hl Hk Hlen Hle Hnd Hqp Hre Hin Hfit Hf HQ. apply wp_bind.
  eapply wp_local_meta; [done..|]. apply wp_bind.
  eapply (wp_exchange ExchangeMeta_layout meta_fits); [exact Hin|done|simpl; lia|done|].
  intros d1 Hs1 Hi1 Ho1. cbn [fst snd Z.ltb Z.compare]. cbv zeta. apply wp_bind.
  pose proof (mf_nums _ Hfit) as [Hn3 _].
  eapply (wp_bring_up hs _ _ [] [] ns (meta_qpNum rmeta) c); try done; [by rewrite Hn3| |].
  - intros j h n Hh Hn. simpl. rewrite (sb_qps _ _ _ Hs1). by eapply Hre.
  - intros d' Hup. rewrite set_dev_twice. apply wp_ret. by eapply HQ.
Qed.

Lemma wp_ConnectQueuePair e peer rid rmeta rest fuel c (Q : bool * PeerSockData → Endpoint Dev → Prop) :
  let e1 := met rid e in
  let node := met_node rid e (peer_NodeID peer) in
  conn_ok e → qp peer = [] → incoming (net e) (peer_sock peer) = to_bytes rid ++ to_bytes rmeta ++ rest →
  (isServer (sk e) = true → id_isServer rid = 0 ∨ id_isServer rid = 1) →
  id_fits rid → meta_fits rmeta → (1 ≤ fuel)%nat → cq (sk e) !! Z.to_nat (pick e1 node) = Some c →
  (∀ d' hs ns, length hs = wanted e1 node → joined e d' (peer_sock peer) c hs ns rmeta rest →
     Q (true, joined_peer peer hs c node rmeta) (set_dev d' (set_cqPtr (ptr_after e1 node) e1))) →
  wp (ConnectQueuePair fuel peer) Q e.
Proof.
  intros e1 node He Hqp Hin Hbool Hidf Hmf Hf Hc HQ. unfold ConnectQueuePair.
  pose proof (met_ok rid e He Hidf) as He1. fold e1 in He1.
  apply wp_bind, wp_get. apply wp_bind.
  eapply (wp_exchange ExchangeID_layout id_fits); [exact Hin|done|simpl; lia|done|].
  intros d1 Hs1 Hi1 Ho1. cbn [fst snd Z.ltb Z.compare]. apply wp_bind, wp_assign_node; [exact Hbool|].
  fold e1 node. apply wp_bind, wp_get. cbv zeta.
  set (peer1 := set_peer_node node peer).
  assert (HN : (if DoubleQP (set_dev d1 e1) peer1 then Z.to_nat QP_NUMBER else 2%nat) = wanted e1 node) by done.
  rewrite HN. apply wp_bind.
  assert (Hw : (2 ≤ wanted e1 node ≤ 3)%nat) by (unfold wanted; destruct (_ || _); lia).
  eapply (wp_create_qps _ e1 d1 d1 peer1 [] [] c); try done; [|apply created_nothing|simpl; lia|by left|].
  { unfold e1. by rewrite (met_same _ _ (λ e, cq (sk e))). }
  intros hs ns d2 [Hlen Hnd Hfr Hre Hnu Hke Hs2] Hhs. simpl in Hhs. cbn [peer_NodeID set_peer_node peer1].
  apply wp_bind, wp_get. set (e2 := set_cqPtr (ptr_after e1 node) e1).
  destruct (co_ctx _ He1) as [cx Hcx]. destruct (co_lid _ He1) as (l & Hl & _). destruct (co_mr _ He1) as (k & Hk & _).
  apply wp_bind. unfold deref_slot at 1. change (ctx (set_dev d2 e2)) with (ctx e1). rewrite Hcx. apply wp_ret.
  apply wp_bind, wp_query_gid. intros gid d3 Hgl Hgr Hq3 Hs3. cbn [fst snd Z.eqb negb].
  rewrite set_dev_twice, <- Hhs.
  pose proof (co_mode _ He1) as Hmode.
  assert (Hi2 : incoming d3 (peer_sock peer) = to_bytes rmeta ++ rest).
  { by rewrite (sn_in _ _ Hs3), (sn_in _ _ Hs2). }
  eapply (wp_finish (set_dev d3 e2) (with_qps hs c peer1) hs ns c gid l k rmeta rest fuel); try done.
  - by rewrite Hhs; apply Hw.
  - intros j h n Hh Hn. simpl. rewrite Hq3. by apply (Hre j).
  - intros d4 d5 Hs4 [Hup Hke5 Hs5] Hi4 Ho4.
    assert (HS : sent_meta (set_dev d3 e2) l gid k ns = sent_meta e l gid k ns).
    { unfold sent_meta. f_equal; [|by change (mm (sk (met rid e)) = mm (sk e)); rewrite (met_same _ _ (λ e, mm (sk e)))].
      change (isServer (sk (set_dev d3 e2))) with (isServer (sk e1)).
      unfold e1. by rewrite (met_same _ _ (λ e, isServer (sk e))). }
    rewrite HS in Ho4. clear HS. rewrite set_dev_twice. apply (HQ d5 hs ns); [done|]. simpl in Hs4, Ho4. split; try done.
    + intros h Hh. rewrite <- (sb_qps _ _ _ Hs1). by apply Hfr.
    + intros h Hh. by rewrite Hke5, (sb_qps _ _ _ Hs4), Hq3, Hke, (sb_qps _ _ _ Hs1) by done.
    + eapply elsewhere_trans; [by apply elsewhere_but|]. eapply elsewhere_trans; [by apply elsewhere_net|].
      eapply elsewhere_trans; [by apply elsewhere_net|]. eapply elsewhere_trans; [by apply elsewhere_but|].
      by apply elsewhere_net.
    + by rewrite (sn_in _ _ Hs5).
    + exists l, gid, k. unfold e1 in Hl, Hk.
      rewrite (met_same _ _ lid) in Hl by done. rewrite (met_same _ _ (λ e, mr (sk e))) in Hk by done. split_and!; try done.
      by rewrite (sn_out _ _ Hs5), Ho4, (sn_out _ _ Hs3), (sn_out _ _ Hs2), Ho1, <- app_assoc.
Qed.
End pairs.
