(* ===== verification/RdmaConnUp.v ===== *)
(** * Connections that are up: what a client and an accepting server have after their loops. *)
From S2P Require Import Prelude Rdma RdmaLaws Wire Config RdmaConn RdmaConnLaws.
Local Open Scope Z_scope.

Section up.
Context {Dev : Type} `{FabricLaws Dev} `{Junk}.
Implicit Types (d : Dev) (e : Endpoint Dev).

Abbreviation net e := (dev (sk e)).

(** The peer [p] of [e] is connected to the node that sent [m]: a queue pair in RTS towards each of its
    queue pairs, through its port, with the address and the key of its memory. *)
Record up e (n : Z) (m : ExchangeMeta) (p : PeerSockData) : Prop := {
  up_peer : peers (sk e) !! n = Some p;
  up_qp : length (qp p) = 3%nat;
  up_rts j q t : qp p !! j = Some q → meta_qpNum m !! j = Some t →
    ∃ k, qps (net e) !! q = Some (QpInfo IBV_QPS_RTS k t (meta_lid m) (peer_cq p));
  up_nums : qpNum p = meta_qpNum m;
  up_memory : RegisteredMemory p = meta_RegisteredMemory m;
  up_rkey : peer_rkey p = meta_rkey m;
  up_node : peer_NodeID p = n;
  up_counter : counter p = 0;
}.

(** What every step of connection management keeps. *)
Record progress e e' : Prop := {
  pg_ok : conn_ok e → conn_ok e';
  pg_isServer : isServer (sk e') = isServer (sk e);
  pg_conf : conf e' = conf e;
  pg_count : ServerCount e' = ServerCount e;
  pg_mm : mm (sk e') = mm (sk e);
  pg_mr : mr (sk e') = mr (sk e);
  pg_test : WriteTest (sk e') = WriteTest (sk e);
  pg_qps h i : qps (net e) !! h = Some i → qps (net e') !! h = Some i;
  pg_port : ServerPort e' = ServerPort e;
  pg_world : same_world (net e) (net e');
}.

Lemma progress_refl e : progress e e.
Proof. split; [done..|apply same_world_refl]. Qed.

Lemma progress_trans e1 e2 e3 : progress e1 e2 → progress e2 e3 → progress e1 e3.
Proof. intros [] []. split; try congruence; auto. by eapply same_world_trans. Qed.

(** A connection stays up. *)
Lemma up_progress e e' n m p : up e n m p → progress e e' → peers (sk e') !! n = peers (sk e) !! n → up e' n m p.
Proof.
  intros [] Hpg Hn. split; try done; [congruence|]. intros j q t Hq Ht. destruct (up_rts0 j q t Hq Ht) as [k Hk].
  exists k. by apply (pg_qps _ _ Hpg).
Qed.

(** What the data plane needs. *)
Lemma up_linked e n m p T : up e n m p → 0 ≤ n < 1000 → 0 ≤ T < 2 → length (meta_qpNum m) = 3%nat →
  (∀ t num, t ∈ meta_qpNum m → partner (net e) (meta_lid m) t num = Some n) → quiet (net e) → ∃ q, linked (sk e) T n p q.
Proof.
  intros [] Hn HT Hl Hown Hq.
  destruct (lookup_lt_is_Some_2 (qp p) (Z.to_nat (T + 1))) as [q Hqp]; [lia|].
  destruct (lookup_lt_is_Some_2 (meta_qpNum m) (Z.to_nat (T + 1))) as [t Ht]; [lia|].
  exists q. destruct (up_rts0 _ q t Hqp Ht) as [k Hk]. split; try done; [lia|].
  eapply rts_connected; [done|exact Hk|]. apply Hown. by eapply list_elem_of_lookup_2.
Qed.

(** The device changed, and nothing that was connected. *)
Lemma progress_dev e d' fd : qps d' = qps (net e) → elsewhere (net e) d' fd → progress e (set_dev d' e).
Proof.
  intros Hq []. split; try done; [|by simpl; rewrite Hq]. intros []. by split.
Qed.

(** A handshake is progress. *)
Lemma joined_progress e d' fd c hs ns rid rmeta rest node : conn_ok e → id_fits rid →
  joined e d' fd c hs ns rmeta rest →
  progress e (set_dev d' (set_cqPtr (ptr_after (met rid e) node) (met rid e))).
Proof.
  intros He Hid Hj. pose proof (met_ok rid e He Hid) as He1.
  split; try by simpl; rewrite ?(met_same rid e (λ e, isServer (sk e))), ?(met_same rid e conf),
    ?(met_same rid e RdmaConn.ServerCount), ?(met_same rid e (λ e, mm (sk e))), ?(met_same rid e (λ e, mr (sk e))),
    ?(met_same rid e ServerPort),
    ?(met_same rid e (λ e, WriteTest (sk e))).
  - intros _. pose proof (pick_range _ node He1) as [_ Hp]. destruct He1. by split.
  - intros h i Hh. simpl. rewrite (jo_kept _ _ _ _ _ _ _ _ Hj); [done|]. intros Hin.
    by rewrite (jo_fresh _ _ _ _ _ _ _ _ Hj h Hin) in Hh.
  - apply Hj.
Qed.

Lemma wp_store_peer n p e Q : n < 1000 → Q tt (with_sk (set_peer n p (sk e)) e) → wp (store_peer n p) Q e.
Proof. intros Hn HQ. unfold store_peer. rewrite (proj2 (Z.ltb_lt _ _)) by done. by wp_auto. Qed.

Lemma progress_store e n p : progress e (with_sk (set_peer n p (sk e)) e).
Proof. split; try done. intros []. by split. Qed.

(** Receives that are posted in advance only change the device. *)
Lemma wp_post_receives n p k e Q : 0 ≤ n < 1000 → mr (sk e) = Ptr k → peers (sk e) !! n = Some p → is_Some (qp p !! 0%nat) →
  (∀ d', qps d' = qps (net e) → same_net (net e) d' → Q tt (set_dev d' e)) → wp (post_receives n) Q e.
Proof.
  intros Hn Hk Hp [q Hq] HQ. unfold post_receives.
  apply (wp_for_each (λ _ e', ∃ d', e' = set_dev d' e ∧ qps d' = qps (net e) ∧ same_net (net e) d')).
  - intros i l' e' (d & -> & Hqd & Hs). apply wp_bind, wp_get, wp_bind, wp_zoom.
    unfold RdmaReceive. apply wp_bind, wp_done. eexists _, _. split; [by apply local_key_run|].
    apply wp_bind. eapply wp_peer_at; [done|exact Hp|].
    apply wp_bind. eapply wp_or_fault; [exact Hq|]. unfold post_recv. apply wp_bind, wp_zoom.
    match goal with |- wp (ibv_post_recv q ?w) _ ?x => destruct (post_recv_law x q w) as (r & d' & E & Hq' & Hs') end.
    apply wp_done. eexists _, _. split; [exact E|]. wp_auto. exists d'. split; [done|].
    split; [by rewrite Hq'|]. by eapply same_net_trans.
  - intros e' (d & -> & Hqd & Hs). by apply HQ.
  - exists (net e). split; [by rewrite set_dev_self|]. split; [done|apply same_net_refl].
Qed.
End up.

(** ** The client *)

Section client.
Context {Dev : Type} `{FabricLaws Dev} `{Junk}.
Implicit Types (d : Dev) (e : Endpoint Dev).

Abbreviation net e := (dev (sk e)).

(** What the configured node [n] answers to a client. *)
Record answers e (n : Z) (rid : ExchangeID) (m : ExchangeMeta) : Prop := {
  an_node : 0 ≤ n < 1000;
  an_served : ∃ ip, id2ip (conf e) !! n = Some ip ∧ serves (net e) ip (ServerPort e) = Some (to_bytes rid ++ to_bytes m);
  an_id : id_fits rid;
  an_meta : meta_fits m;
}.

Lemma answers_progress e e' n rid m : answers e n rid m → progress e e' → answers e' n rid m.
Proof.
  intros [Hn (ip & Hip & Hs) Hid Hm] Hpg. split; try done. exists ip.
  by rewrite (pg_conf _ _ Hpg), (pg_port _ _ Hpg), (sw_serves _ _ (pg_world _ _ Hpg)).
Qed.

Lemma getIPbyID_found n ip (c : Configuration) : id2ip c !! n = Some ip → getIPbyID n c = Done (ip, c).
Proof. intros Hn. unfold getIPbyID. by rewrite Hn. Qed.

Lemma set_conf_self e : update conf_lens (conf e) e = e.
Proof. by destruct e. Qed.

(** The connection is made at the first attempt. *)
Lemma wp_SocketConnect e n ip bs Q : id2ip (conf e) !! n = Some ip → serves (net e) ip (ServerPort e) = Some bs →
  (∀ fd d', 0 ≤ fd → qps d' = qps (net e) → elsewhere (net e) d' fd → incoming d' fd = bs → Q fd (set_dev d' e)) →
  wp (SocketConnect n) Q e.
Proof.
  intros Hip Hs HQ. unfold SocketConnect. apply wp_bind, wp_zoom, wp_done. eexists _, _.
  split; [by apply getIPbyID_found|]. change (view conf_lens e) with (conf e). rewrite set_conf_self.
  destruct (socket_law (net e)) as (fd & d1 & E1 & Hfd & Hq1 & Hs1).
  apply wp_bind, wp_dcall, wp_done. eexists _, _. split; [exact E1|]. rewrite (proj2 (Z.ltb_ge _ _)) by done.
  destruct (setsockopt_law d1 fd) as (r & d2 & E2 & Hq2 & Hs2).
  apply wp_bind, wp_dcall, wp_done. eexists _, _. split; [exact E2|]. wp_auto. cbn [try_connect].
  destruct (connect_law d2 fd ip (ServerPort (set_dev d2 (set_dev d1 e))) bs) as (d3 & E3 & Hi3 & Hs3).
  { by rewrite (sw_serves _ _ (sn_world _ _ Hs2)), (sw_serves _ _ (sn_world _ _ Hs1)). }
  apply wp_bind, wp_dcall, wp_done. eexists _, _. split; [exact E3|]. cbn [Z.ltb Z.compare]. wp_auto.
  rewrite !set_dev_twice. apply HQ; [done| | |done].
  - by rewrite (sb_qps _ _ _ Hs3), Hq2, Hq1.
  - eapply elsewhere_trans; [by apply elsewhere_net|]. eapply elsewhere_trans; [by apply elsewhere_net|].
    by apply elsewhere_but.
Qed.

(** A connection of a client to a configured node. *)
Lemma wp_connect_node e n rid m fuel (Q : bool → Endpoint Dev → Prop) :
  conn_ok e → isServer (sk e) = false → answers e n rid m → (1 ≤ fuel)%nat →
  (∀ e' p, progress e e' → peers (sk e') = <[n := p]> (peers (sk e)) → up e' n m p →
     MyNodeID (sk e') = (if id_GivenID rid =? 0 then MyNodeID (sk e) else id_GivenID rid) → Q true e') →
  wp (connect_node fuel false n) Q e.
Proof.
  intros He Hcl [Hn (ip & Hip & Hs) Hid Hm] Hf HQ. unfold connect_node. apply wp_bind.
  eapply wp_SocketConnect; [exact Hip|exact Hs|]. intros fd d1 Hfd Hq1 Hs1 Hi1.
  rewrite (proj2 (Z.ltb_ge _ _)) by done. set (e1 := set_dev d1 e). 
  pose proof (progress_dev e d1 fd Hq1 Hs1) as Hp1. pose proof (pg_ok _ _ Hp1 He) as He1. fold e1 in Hp1, He1.
  assert (Hcl1 : isServer (sk e1) = false) by done.
  apply wp_bind.
  destruct (pick_cq (met rid e1) (met_node rid e1 n) (met_ok rid e1 He1 Hid)) as [c Hc].
  rewrite (met_same rid e1 (λ e, cq (sk e))) in Hc by done.
  eapply (wp_ConnectQueuePair e1 (new_peer fd n) rid m []); [done|done|by rewrite app_nil_r|by rewrite Hcl1|done..|exact Hc|].
  intros d2 hs ns Hl Hj. cbn [fst snd negb].
  pose proof (joined_progress e1 d2 _ c hs ns rid m [] (met_node rid e1 n) He1 Hid Hj) as Hp2.
  change (peer_NodeID (new_peer fd n)) with n in *.
  assert (Hnode : met_node rid e1 n = n) by (unfold met_node; by rewrite Hcl1). rewrite Hnode in *. set (e2 := set_dev d2 _) in *.
  apply wp_bind, wp_store_peer; [simpl; lia|]. wp_auto.
  set (p := set_peer_counter 0 _).
  assert (Hsame : peers (sk e2) = peers (sk e)).
  { change (peers (sk (met rid e1)) = peers (sk e)). by rewrite (met_same rid e1 (λ e, peers (sk e))). }
  apply (HQ _ p).
  - eapply progress_trans; [exact Hp1|]. eapply progress_trans; [exact Hp2|apply progress_store].
  - simpl. by rewrite <- Hsame.
  - split; try done; simpl.
    + apply lookup_insert_eq.
    + rewrite Hl. unfold wanted. by rewrite (met_same rid e1 (λ e, isServer (sk e))), Hcl1.
    + intros j q t Hq Ht. destruct (lookup_lt_is_Some_2 ns j) as [k Hk].
      { rewrite (jo_len _ _ _ _ _ _ _ _ Hj). by eapply lookup_lt_Some. }
      exists k. by eapply (jo_up _ _ _ _ _ _ _ _ Hj).
  - simpl. unfold met. rewrite Hcl1. by destruct (id_GivenID rid =? 0).
Qed.

(** The loop over the nodes of the configuration. *)
Lemma wp_connect_nodes l skip (ids : Z → ExchangeID) (ms : Z → ExchangeMeta) fuel : ∀ e (Q : unit → Endpoint Dev → Prop),
  conn_ok e → isServer (sk e) = false → (1 ≤ fuel)%nat → NoDup l →
  (∀ n, n ∈ l → skip n = false → answers e n (ids n) (ms n) ∧ id_GivenID (ids n) = 0) →
  (∀ e', progress e e' → MyNodeID (sk e') = MyNodeID (sk e) →
     (∀ n, n ∈ l → skip n = false → ∃ p, up e' n (ms n) p) →
     (∀ n, n ∉ l ∨ skip n = true → peers (sk e') !! n = peers (sk e) !! n) → Q tt e') →
  wp (connect_nodes fuel false skip l) Q e.
Proof.
  induction l as [|n l IH]; intros e Q He Hcl Hf Hnd Hall HQ; cbn [connect_nodes].
  { apply wp_ret, HQ; [apply progress_refl|done|set_solver|done]. }
  apply NoDup_cons in Hnd as [Hni Hnd]. destruct (skip n) eqn:Hsk.
  - apply IH; try done; [set_solver|]. intros e' Hpg Hme Hup Hrest. apply HQ; try done.
    + intros g [->|Hg]%elem_of_cons Hs; [congruence|]. by apply Hup.
    + intros g Hg. apply Hrest. destruct Hg as [Hg|Hg]; [left; set_solver|by right].
  - destruct (Hall n) as [Han Hg0]; [set_solver|done|]. apply wp_bind.
    eapply wp_connect_node; [done..|]. intros e1 p Hp1 Hpe Hup Hme. rewrite Hg0 in Hme. simpl in Hme.
    apply IH; try done; [by apply Hp1|by rewrite (pg_isServer _ _ Hp1)| |].
    + intros g Hg Hs. destruct (Hall g) as [Hag Hgg]; [set_solver|done|].
      split; [by eapply answers_progress|done].
    + intros e' Hpg Hme' Hups Hrest. apply HQ; [by eapply progress_trans|congruence| |].
      * intros g [->|Hg]%elem_of_cons Hs; [|by apply Hups]. exists p. eapply up_progress; [done..|].
        by apply Hrest; left.
      * intros g Hg. rewrite Hrest, Hpe, lookup_insert_ne; [done| |].
        -- intros ->. destruct Hg as [Hg|Hg]; [set_solver|congruence].
        -- destruct Hg as [Hg|Hg]; [left; set_solver|by right].
Qed.

(** [RdmaConnect]: node 1 gives the number, then the other nodes. *)
Lemma wp_RdmaConnect e (ids : Z → ExchangeID) (ms : Z → ExchangeMeta) fuel (Q : unit → Endpoint Dev → Prop) :
  conn_ok e → isServer (sk e) = false → (1 ≤ fuel)%nat → is_Some (id2ip (conf e) !! 1) →
  (∀ n, is_Some (id2ip (conf e) !! n) → answers e n (ids n) (ms n)) →
  (∀ n, id_GivenID (ids n) = 0 ↔ n ≠ 1) →
  (∀ e', progress e e' → MyNodeID (sk e') = id_GivenID (ids 1) →
     (∀ n, is_Some (id2ip (conf e) !! n) → ∃ p, up e' n (ms n) p) → Q tt e') →
  wp (RdmaConnect fuel) Q e.
Proof.
  intros He Hcl Hf Hone Hans Hgiven HQ. unfold RdmaConnect. apply wp_bind.
  assert (Hg1 : (id_GivenID (ids 1) =? 0) = false).
  { apply Z.eqb_neq. intros E. by apply (Hgiven 1) in E. }
  eapply wp_connect_node; [done|done|by apply Hans|done|]. intros e1 p Hp1 Hpe Hup Hme. rewrite Hg1 in Hme.
  cbn [negb]. apply wp_bind, wp_zoom, wp_gets. change (view conf_lens e1) with (conf e1).
  rewrite set_conf_self, (pg_conf _ _ Hp1).
  eapply (wp_connect_nodes _ _ ids ms); [by apply Hp1|by rewrite (pg_isServer _ _ Hp1)|done|apply map_keys_NoDup| |].
  - intros n Hn%elem_of_map_keys Hne%Z.eqb_neq. split; [|by apply Hgiven].
    eapply answers_progress; [by apply Hans|done].
  - intros e2 Hp2 Hme2 Hups Hrest. apply HQ; [by eapply progress_trans|congruence|].
    intros n Hn. destruct (decide (n = 1)) as [->|Hne].
    + exists p. eapply up_progress; [done..|]. apply Hrest. by right.
    + apply Hups; [by apply elem_of_map_keys|by apply Z.eqb_neq].
Qed.
End client.

(** ** The accepting server *)

Section server.
Context {Dev : Type} `{FabricLaws Dev} `{Junk}.
Implicit Types (d : Dev) (e : Endpoint Dev).

Abbreviation net e := (dev (sk e)).

(** Node 1, ready to number one more client. *)
Record numbering e : Prop := {
  nu_ok : conn_ok e;
  nu_server : isServer (sk e) = true;
  nu_first : MyNodeID (sk e) = 1;
  nu_clients : Config.ServerCount (conf e) < MaxNodeID e;
}.

(** What client [m] on connection [fd] was sent, as client number [n]. *)
Record welcomed e e' (n fd : Z) (p : PeerSockData) : Prop := {
  we_sock : peer_sock p = fd;
  we_sent : ∃ l gid k ns, lid e = Ptr l ∧ mr (sk e) = Ptr k ∧
    Forall2 (λ q num, ∃ t, qps (net e') !! q = Some (QpInfo IBV_QPS_RTS num t (peer_lid p) (peer_cq p))) (qp p) ns ∧
    outgoing (net e') fd = outgoing (net e) fd ++ to_bytes (ExId 1 1 n) ++
      to_bytes (ExMeta k.2 ns l gid (mm (sk e)) junk);
}.

(** One round of the loop on a connection whose client has sent its two structs. *)
Lemma wp_accept_one e fd rid m rest fuel (Q : unit → Endpoint Dev → Prop) :
  numbering e → MaxNodeID e < 1000 → id_isServer rid = 0 → id_fits rid → meta_fits m → (1 ≤ fuel)%nat →
  incoming (net e) fd = to_bytes rid ++ to_bytes m ++ rest →
  (∀ e' p, progress e e' → peers (sk e') = <[MaxNodeID e := p]> (peers (sk e)) → up e' (MaxNodeID e) m p →
     welcomed e e' (MaxNodeID e) fd p → MaxNodeID e' = MaxNodeID e + 1 → numbering e' →
     elsewhere (net e) (net e') fd → lid e' = lid e → mr (sk e') = mr (sk e) → Q tt e') →
  wp (accept_one fuel fd) Q e.
Proof.
  intros [He Hsv Hme Hcount] Hmax Hrid Hid Hm Hf Hin HQ. unfold accept_one. apply wp_bind.
  pose proof (co_max _ He) as Hmax0.
  assert (Hnum : numbers e rid = true) by (unfold numbers; by rewrite Hsv, Hrid, Hme).
  assert (Hmet : met rid e = set_MaxNodeID (u16 (MaxNodeID e + 1)) e) by (unfold met; by rewrite Hsv, Hnum).
  assert (Hnode : met_node rid e junk = MaxNodeID e) by (unfold met_node; by rewrite Hsv, Hnum).
  pose proof (met_ok rid e He Hid) as He1.
  destruct (pick_cq (met rid e) (met_node rid e junk) He1) as [c Hc].
  rewrite (met_same rid e (λ e, cq (sk e))) in Hc by done.
  eapply (wp_ConnectQueuePair e _ rid m rest); [done|done|exact Hin|by left|done..|exact Hc|].
  intros d1 hs ns Hl Hj. cbn [fst snd negb]. 
  change (peer_NodeID (set_peer_counter 0 (new_peer fd junk))) with junk in *.
  change (peer_sock (set_peer_counter 0 (new_peer fd junk))) with fd in Hj.
  pose proof (joined_progress e d1 _ c hs ns rid m rest (met_node rid e junk) He Hid Hj) as Hp1.
  rewrite Hnode in *. set (e1 := set_dev d1 _) in *.
  assert (Hu : u16 (MaxNodeID e + 1) = MaxNodeID e + 1) by (apply Z.mod_small; lia).
  assert (Hl3 : length hs = 3%nat).
  { rewrite Hl. unfold wanted. rewrite (met_same rid e (λ e, isServer (sk e))), (met_same rid e conf), Hsv by done.
    by rewrite (proj2 (Z.ltb_lt _ _)). }
  apply wp_bind, wp_store_peer; [done|]. 
  set (p := joined_peer _ hs c _ m). set (e2 := with_sk (set_peer _ p (sk e1)) e1).
  assert (Hp2 : progress e e2) by (eapply progress_trans; [exact Hp1|apply progress_store]).
  destruct (co_mr _ (pg_ok _ _ Hp2 He)) as (k2 & Hk2 & _).
  eapply wp_post_receives; [simpl; lia|exact Hk2|apply lookup_insert_eq|apply (lookup_lt_is_Some_2 hs 0); lia|].
  intros d3 Hq3 Hs3. pose proof (progress_dev e2 d3 0 Hq3 (elsewhere_net _ _ 0 Hs3)) as Hp3.
  assert (Hmax1 : MaxNodeID e1 = MaxNodeID e + 1) by (change (MaxNodeID (met rid e) = MaxNodeID e + 1); by rewrite Hmet).
  assert (Hel : elsewhere (net e) d3 fd).
  { eapply elsewhere_trans; [apply (jo_elsewhere _ _ _ _ _ _ _ _ Hj)|by apply elsewhere_net]. }
  apply (HQ _ p).
  - by eapply progress_trans.
  - simpl. by rewrite (met_same rid e (λ e, peers (sk e))).
  - split; try done; simpl.
    + apply lookup_insert_eq.
    + intros j q t Hq Ht. destruct (lookup_lt_is_Some_2 ns j) as [k Hk].
      { rewrite (jo_len _ _ _ _ _ _ _ _ Hj). by eapply lookup_lt_Some. }
      exists k. rewrite Hq3. by eapply (jo_up _ _ _ _ _ _ _ _ Hj).
  - split; [done|]. destruct (jo_sent _ _ _ _ _ _ _ _ Hj) as (l & gid & k & Hlid & Hmr & _ & _ & Hout).
    exists l, gid, k, ns. split_and!; try done.
    + apply Forall2_same_length_lookup. split; [by rewrite (jo_len _ _ _ _ _ _ _ _ Hj)|]. intros j q num Hq Hn.
      destruct (lookup_lt_is_Some_2 (meta_qpNum m) j) as [t Ht].
      { rewrite (proj1 (mf_nums _ Hm)). apply lookup_lt_Some in Hq. simpl in Hq. lia. }
      exists t. simpl. rewrite Hq3. by eapply (jo_up _ _ _ _ _ _ _ _ Hj).
    + simpl. rewrite (sn_out _ _ Hs3). simpl. rewrite Hout. unfold local_id, sent_meta. rewrite Hsv, Hme. cbn [Z.eqb Pos.eqb].
      rewrite (jo_len _ _ _ _ _ _ _ _ Hj), Hl3. by rewrite app_nil_r.
  - done.
  - split.
    + by apply Hp3, Hp2.
    + by rewrite (pg_isServer _ _ Hp3), (pg_isServer _ _ Hp2).
    + simpl. by rewrite Hmet.
    + rewrite (pg_conf _ _ Hp3), (pg_conf _ _ Hp2). simpl. simpl in Hmax1. lia.
  - done.
  - simpl. by rewrite (met_same rid e lid).
  - simpl. by rewrite (met_same rid e (λ e, mr (sk e))).
Qed.

(** A client that waits: its connection and its two structs. *)
Record caller := Caller { call_fd : Z; call_id : ExchangeID; call_meta : ExchangeMeta }.

Definition calls e (k : caller) : Prop :=
  id_isServer (call_id k) = 0 ∧ id_fits (call_id k) ∧ meta_fits (call_meta k) ∧
  ∃ rest, incoming (net e) (call_fd k) = to_bytes (call_id k) ++ to_bytes (call_meta k) ++ rest.

(** The clients [l] got the next numbers in their order. *)
Record accepted e e' (l : list caller) : Prop := {
  ac_progress : progress e e';
  ac_numbering : numbering e';
  ac_max : MaxNodeID e' = MaxNodeID e + Z.of_nat (length l);
  ac_clients j k : l !! j = Some k → ∃ p, up e' (MaxNodeID e + Z.of_nat j) (call_meta k) p ∧
    welcomed e e' (MaxNodeID e + Z.of_nat j) (call_fd k) p;
  ac_others n : n < MaxNodeID e ∨ MaxNodeID e + Z.of_nat (length l) ≤ n → peers (sk e') !! n = peers (sk e) !! n;
  ac_out g : g ∉ (call_fd <$> l) → outgoing (net e') g = outgoing (net e) g;
  ac_lid : lid e' = lid e;
  ac_mr : mr (sk e') = mr (sk e);
}.

Lemma welcomed_later e e1 e' n fd p : welcomed e e1 n fd p → progress e1 e' →
  outgoing (net e') fd = outgoing (net e1) fd → welcomed e e' n fd p.
Proof.
  intros [Hs (l & gid & k & ns & Hl & Hk & Hup & Hout)] Hpg Ho. split; [done|]. exists l, gid, k, ns.
  split_and!; try done; [|by rewrite Ho].
  eapply Forall2_impl; [exact Hup|]. intros q num [t Ht]. exists t. by apply (pg_qps _ _ Hpg).
Qed.

Lemma welcomed_earlier e0 e e' n fd p : welcomed e e' n fd p → lid e = lid e0 → mr (sk e) = mr (sk e0) →
  mm (sk e) = mm (sk e0) → outgoing (net e) fd = outgoing (net e0) fd → welcomed e0 e' n fd p.
Proof.
  intros [Hs (l & gid & k & ns & Hl & Hk & Hup & Hout)] El Ek Em Eo. split; [done|]. exists l, gid, k, ns.
  by rewrite <- El, <- Ek, <- Em, <- Eo.
Qed.

Lemma accepted_none e : numbering e → accepted e e [].
Proof. intros. split; try done; simpl; try lia; apply progress_refl. Qed.

(** One client first, then the others. *)
Lemma accepted_cons e e1 e2 e' k l p :
  progress e e1 → (∀ g, outgoing (net e1) g = outgoing (net e) g) → lid e1 = lid e → mr (sk e1) = mr (sk e) →
  peers (sk e1) = peers (sk e) → MaxNodeID e1 = MaxNodeID e →
  progress e1 e2 → peers (sk e2) = <[MaxNodeID e := p]> (peers (sk e)) → up e2 (MaxNodeID e) (call_meta k) p →
  welcomed e1 e2 (MaxNodeID e) (call_fd k) p → MaxNodeID e2 = MaxNodeID e + 1 →
  elsewhere (net e1) (net e2) (call_fd k) → lid e2 = lid e1 → mr (sk e2) = mr (sk e1) → call_fd k ∉ (call_fd <$> l) →
  accepted e2 e' l → accepted e e' (k :: l).
Proof.
  intros Hp1 Ho1 Hl1 Hk1 Hpe1 Hm1 Hp2 Hpe2 Hup Hwe Hm2 Hel Hl2 Hk2 Hni [Hpg Hnu Hmax Hcl Hot Hout Hlid Hmr].
  assert (Hlen : Z.of_nat (length (k :: l)) = 1 + Z.of_nat (length l)) by (simpl; lia).
  split; rewrite ?Hlen.
  - eapply progress_trans; [exact Hp1|]. by eapply progress_trans.
  - done.
  - lia.
  - intros [|j] k' Hj; simpl in Hj.
    + injection Hj as <-. exists p. rewrite Z.add_0_r. split.
      * eapply up_progress; [done..|]. apply Hot. lia.
      * apply (welcomed_earlier e e1); try done; [|apply Hp1]. apply (welcomed_later e1 e2); try done.
        by apply Hout.
    + destruct (Hcl j k' Hj) as (p' & Hup' & Hwe'). exists p'.
      replace (MaxNodeID e + Z.of_nat (S j)) with (MaxNodeID e2 + Z.of_nat j) by lia. split; [done|].
      assert (Hne : call_fd k' ≠ call_fd k).
      { intros E. apply Hni. rewrite <- E. apply list_elem_of_fmap_2. by eapply list_elem_of_lookup_2. }
      apply (welcomed_earlier e e2); [exact Hwe'|congruence..| |].
      * by rewrite (pg_mm _ _ Hp2), (pg_mm _ _ Hp1).
      * by rewrite (el_out _ _ _ Hel), Ho1.
  - intros n Hn. rewrite Hot by lia. rewrite Hpe2. apply lookup_insert_ne. lia.
  - intros g [Hg1 Hg2]%not_elem_of_cons. by rewrite Hout, (el_out _ _ _ Hel), Ho1.
  - congruence.
  - congruence.
Qed.

Lemma accept_clients l : ∀ e n fuel sock, numbering e → MaxNodeID e + Z.of_nat (length l) ≤ 1000 → (1 ≤ fuel)%nat →
  NoDup (call_fd <$> l) → (∀ k, k ∈ l → calls e k) → call_fd <$> l `prefix_of` backlog (net e) →
  ∃ e', RdmaAccept (length l + n) fuel sock e = RdmaAccept n fuel sock e' ∧ accepted e e' l.
Proof.
  induction l as [|k l IH]; intros e n fuel sock Hnu Hmax Hf Hnd Hcalls Hback.
  { exists e. split; [done|by apply accepted_none]. }
  destruct Hback as [more Hback]. simpl in Hback, Hnd, Hmax. apply NoDup_cons in Hnd as [Hni Hnd].
  destruct (accept_law (net e) sock (call_fd k) _ Hback) as (d1 & E1 & Hfd & Hb1 & Hq1 & Hst1 & Hw1).
  set (e1 := set_dev d1 e).
  assert (Hp1 : progress e e1) by (split; try done; [intros []; by split|by simpl; rewrite Hq1]).
  destruct (Hcalls k ltac:(set_solver)) as (Hrid & Hid & Hm & rest & Hin).
  assert (Hnu1 : numbering e1) by (destruct Hnu; split; try done; by apply Hp1).
  assert (Hw : wp (accept_one fuel (call_fd k)) (λ _ e2, ∃ p, progress e1 e2 ∧
    peers (sk e2) = <[MaxNodeID e := p]> (peers (sk e)) ∧ up e2 (MaxNodeID e) (call_meta k) p ∧
    welcomed e1 e2 (MaxNodeID e) (call_fd k) p ∧ MaxNodeID e2 = MaxNodeID e + 1 ∧ numbering e2 ∧
    elsewhere (net e1) (net e2) (call_fd k) ∧ lid e2 = lid e1 ∧ mr (sk e2) = mr (sk e1)) e1).
  { eapply (wp_accept_one e1 (call_fd k) (call_id k) (call_meta k) rest); try done.
    - change (MaxNodeID e1) with (MaxNodeID e). lia.
    - change (net e1) with d1. by rewrite (proj1 (Hst1 _)).
    - intros e2 p. intros. exists p. by split_and!. }
  apply wp_done in Hw as ([] & e2 & E2 & p & Hp2 & Hpe2 & Hup & Hwe & Hm2 & Hnu2 & Hel & Hl2 & Hk2).
  assert (Hcalls2 : ∀ k', k' ∈ l → calls e2 k').
  { intros k' Hk'. destruct (Hcalls k' ltac:(set_solver)) as (?&?&?& rest' & Hin'). split_and!; try done. exists rest'.
    rewrite (el_in _ _ _ Hel); [by change (net e1) with d1; rewrite (proj1 (Hst1 _))|].
    intros E. apply Hni. rewrite <- E. by apply list_elem_of_fmap_2. }
  destruct (IH e2 n fuel sock) as (e' & E & Hac); [done|lia|done|done|done| |].
  { exists more. rewrite (el_backlog _ _ _ Hel). exact Hb1. }
  exists e'. split.
  - simpl. rewrite (outcome_bind_done _ _ _ (call_fd k) e1).
    + rewrite (proj2 (Z.eqb_neq _ _)) by lia. by rewrite (outcome_bind_done _ _ _ _ _ E2).
    + unfold dcall, zoom. simpl. by rewrite E1.
  - eapply (accepted_cons e e1 e2 e' k l p); try done. intros g. apply Hst1.
Qed.
End server.
