(* ===== verification/RdmaConnTheorems.v ===== *)
(** * Theorems on connection management, and a network that keeps its laws. *)
From S2P Require Import Prelude Rdma RdmaLaws Wire Config RdmaConn RdmaConnLaws RdmaConnUp.
Local Open Scope Z_scope.

(** ** The ideal network

    The device of one process: queue pairs go through their states, a write is appended to the stream
    of its connection, and an address answers at its port with fixed bytes.  Requests wait in order; a
    poll carries out the oldest one, unless it leaves the region of one of its keys: then it completes
    with an error. *)
Module Net.

Record device := Mk {
  memory : mem;
  nodes : Z → mem;
  pending : list (Z * Z * ibv_send_wr);     (* completion queue, node, request *)
  pairs : gmap Z qp_info;
  received : gmap Z (list Z);
  written : gmap Z (list Z);
  services : gmap (string * Z) (list Z);
  partners : gmap (Z * Z) Z;                (* lid and number of a queue pair, its node *)
  regions : gmap Z (Z * Z);
  exports : gmap (Z * Z) (Z * Z);           (* node and remote key *)
  waiting : list Z;
  sockets : nat;
}.

Definition with_mem (m : mem) (ns : Z → mem) (p : list (Z * Z * ibv_send_wr)) (d : device) : device :=
  Mk m ns p (pairs d) (received d) (written d) (services d) (partners d) (regions d) (exports d) (waiting d) (sockets d).
Definition with_pairs (ps : gmap Z qp_info) (d : device) : device :=
  Mk (memory d) (nodes d) (pending d) ps (received d) (written d) (services d) (partners d) (regions d) (exports d) (waiting d) (sockets d).
Definition with_streams (i o : gmap Z (list Z)) (w : list Z) (n : nat) (d : device) : device :=
  Mk (memory d) (nodes d) (pending d) (pairs d) i o (services d) (partners d) (regions d) (exports d) w n.
Definition with_regions (r : gmap Z (Z * Z)) (d : device) : device :=
  Mk (memory d) (nodes d) (pending d) (pairs d) (received d) (written d) (services d) (partners d) r (exports d)
     (waiting d) (sockets d).

Definition allowed (n : Z) (wr : ibv_send_wr) (d : device) : bool :=
  let sg := sg_list wr in
  covers (regions d !! sge_lkey sg) (sge_addr sg) (sge_length sg) &&
  covers (exports d !! (n, wr_rkey wr)) (remote_addr wr) (sge_length sg).

Definition carry_out (n : Z) (wr : ibv_send_wr) (rest : list (Z * Z * ibv_send_wr)) (d : device) : device :=
  let sg := sg_list wr in
  match opcode wr with
  | IBV_WR_RDMA_READ =>
      with_mem (copy (nodes d n) (remote_addr wr) (memory d) (sge_addr sg) (sge_length sg)) (nodes d) rest d
  | IBV_WR_RDMA_WRITE =>
      with_mem (memory d)
        (λ m, if m =? n then copy (memory d) (sge_addr sg) (nodes d n) (remote_addr wr) (sge_length sg)
              else nodes d m) rest d
  | _ => with_mem (memory d) (nodes d) rest d
  end.

(** The completion queue and the node of a queue pair that can send. *)
Definition route (d : device) (q : Z) : option (Z * Z) :=
  i ← pairs d !! q;
  if decide (qi_state i = IBV_QPS_RTS) then n ← partners d !! (qi_dlid i, qi_dest i); Some (qi_cq i, n) else None.

#[export] Instance net_verbs : Verbs device := {
  host := Lens memory (λ m d, with_mem m (nodes d) (pending d) d);
  ibv_post_send q wrs := λ d,
    match route d q with
    | Some cn => Done (0, with_mem (memory d) (nodes d) (pending d ++ ((λ wr, (cn, wr)) <$> wrs)) d)
    | None => Done (22, d)
    end;
  ibv_post_recv q wrs := λ d, Done (0, d);
  ibv_poll_cq c _ wc := λ d,
    match pending d with
    | (c', n, wr) :: rest =>
        if c' =? c then
          if allowed n wr d then Done (1, Wc IBV_WC_SUCCESS, carry_out n wr rest d)
          else Done (1, Wc IBV_WC_REM_ACCESS_ERR, with_mem (memory d) (nodes d) rest d)
        else Done (0, wc, d)
    | [] => Done (0, wc, d)
    end;
}.

#[export] Instance net_laws : VerbsLaws device.
Proof.
  unshelve refine {|
    remote_mem := nodes;
    connected d q c n := route d q = Some (c, n) ∧ pending d = [];
    local_mr d k := regions d !! k;
    remote_mr d n k := exports d !! (n, k);
  |}; try done.
  intros d q c n wr (Hr & Hp) _ Hop Hlo Hre. simpl. rewrite Hr, Hp.
  assert (Hall : allowed n wr d = true) by (by apply Is_true_true, andb_True).
  do 3 eexists. split; [reflexivity|].
  split; [apply completes_now; intros wc; simpl; rewrite Z.eqb_refl; unfold allowed in *; simpl; by rewrite Hall|].
  unfold effect, carry_out. destruct Hop as [-> | ->]; simpl.
  - by split_and!.
  - rewrite Z.eqb_refl. split_and!; try done. intros n' a Hne. by rewrite (proj2 (Z.eqb_neq _ _) Hne).
Defined.

#[export] Instance mask_eq_dec : EqDecision ibv_qp_mask.
Proof. solve_decision. Defined.

(** The first number from [b] on that is above every key. *)
Definition above {A} (b : Z) (m : gmap Z A) : Z := map_fold (λ h _ n, Z.max (h + 1) n) b m.
Definition new_handle (d : device) : Z := above 1 (pairs d).

#[export] Instance net_ctl : VerbsCtl device := {
  ibv_get_device_list := mret (Some ["mlx5_0"%string]);
  ibv_free_device_list := mret ();
  ibv_open_device _ := mret (Some 1);
  ibv_close_device _ := mret 0;
  ibv_query_port _ _ := mret (0, 7);
  ibv_create_cq _ _ := mret (Some 1);
  ibv_destroy_cq _ := mret 0;
  ibv_alloc_pd _ := mret (Some 1);
  ibv_dealloc_pd _ := mret 0;
  ibv_reg_mr _ a n _ := λ d, let k := above 8 (regions d) in
    Done (Some (k, (k + 1) `mod` 2 ^ 32), with_regions (<[k := (a, n)]> (regions d)) d);
  ibv_dereg_mr _ := mret 0;
  ibv_create_qp _ a := λ d, let h := new_handle d in
    Done (Some h, with_pairs (<[h := QpInfo IBV_QPS_RESET (h `mod` 2 ^ 32) 0 0 (send_cq a)]> (pairs d)) d);
  ibv_destroy_qp h := λ d, Done (0, with_pairs (delete h (pairs d)) d);
  ibv_modify_qp h attr mask := λ d,
    match pairs d !! h with
    | Some i =>
        match needs (qi_state i) (qp_state attr) with
        | Some l => if decide (Forall (λ x, x ∈ mask) l) then Done (0, with_pairs (<[h := moved_to attr i]> (pairs d)) d)
                    else Done (22, d)
        | None => Done (22, d)
        end
    | None => Done (22, d)
    end;
  ibv_query_qp h := λ d, Done (match pairs d !! h with Some i => qi_state i | None => IBV_QPS_UNKNOWN end, d);
  ibv_query_gid _ _ _ := mret (0, replicate 16 0);
  qp_num d h := match pairs d !! h with Some i => qi_num i | None => 0 end;
}.

Definition stream (m : gmap Z (list Z)) (fd : Z) : list Z := default [] (m !! fd).

(** A read of an empty stream answers 0, the end of file. *)
#[export] Instance net_os : Os device := {
  os_write fd bs := λ d, Done (Z.of_nat (length bs),
    with_streams (received d) (<[fd := stream (written d) fd ++ bs]> (written d)) (waiting d) (sockets d) d);
  os_read fd n := λ d, let s := stream (received d) fd in
    Done ((Z.min n (Z.of_nat (length s)), take (Z.to_nat n) s),
          with_streams (<[fd := drop (Z.to_nat n) s]> (received d)) (written d) (waiting d) (sockets d) d);
  os_socket := λ d, Done (Z.of_nat (sockets d), with_streams (received d) (written d) (waiting d) (S (sockets d)) d);
  os_setsockopt _ := mret 0;
  os_bind _ _ := mret 0;
  os_listen _ := mret 0;
  os_accept _ := λ d,
    match waiting d with
    | fd :: l => Done (Z.max 0 fd, with_streams (received d) (written d) l (sockets d) d)
    | [] => Done (-1, d)
    end;
  os_connect fd ip port := λ d,
    match services d !! (ip, port) with
    | Some bs => Done (0, with_streams (<[fd := bs]> (received d)) (written d) (waiting d) (sockets d) d)
    | None => Done (-1, d)
    end;
  os_getifaddrs := mret (Some [Some (IfAddr IB_INTERFACE true (Some "10.0.0.1"%string))]);
}.

#[export] Instance net_fabric : Fabric device := {
  qps := pairs;
  incoming d fd := stream (received d) fd;
  outgoing d fd := stream (written d) fd;
  serves d ip port := services d !! (ip, port);
  partner d l t _ := partners d !! (l, t);
  backlog d := Z.max 0 <$> waiting d;
  quiet d := pending d = [];
}.

Lemma above_all {A} b (m : gmap Z A) h i : m !! h = Some i → h < above b m.
Proof.
  unfold above. apply (map_fold_weak_ind (λ r m, m !! h = Some i → h < r)); [by rewrite lookup_empty|].
  intros k x m' r Hk IH. destruct (decide (k = h)) as [->|Hne]; [lia|].
  rewrite lookup_insert_ne by done. intros Hi%IH. lia.
Qed.

Lemma above_fresh {A} b (m : gmap Z A) : m !! above b m = None.
Proof. destruct (m !! above b m) as [i|] eqn:E; [|done]. apply (above_all b) in E. lia. Qed.

Lemma stream_eq (m : gmap Z (list Z)) fd l : stream (<[fd := l]> m) fd = l.
Proof. unfold stream. by rewrite lookup_insert_eq. Qed.

Lemma stream_ne (m : gmap Z (list Z)) fd g l : g ≠ fd → stream (<[fd := l]> m) g = stream m g.
Proof. intros Hg. unfold stream. by rewrite lookup_insert_ne. Qed.

#[export] Instance net_fabric_laws : FabricLaws device.
Proof.
  split; simpl.
  - intros d p a. exists (new_handle d), (new_handle d `mod` 2 ^ 32). eexists. split; [reflexivity|]. split_and!; try done.
    + apply above_fresh.
    + apply Z.mod_pos_bound. lia.
    + apply Z.mod_pos_bound. lia.
  - intros d h i Hh. by rewrite Hh.
  - intros d h i attr mask l Hh Hl Hm. rewrite Hh, Hl. rewrite decide_True; [by eexists|].
    apply Forall_forall. intros x Hx. by apply Hm.
  - intros d _ _ _. do 2 eexists. split; [reflexivity|]. split_and!; try done.
    by repeat constructor.
  - intros d fd bs. eexists. split; [reflexivity|]. simpl. rewrite stream_eq. split_and!; try done.
    split; try done. intros g Hg. simpl. by apply stream_ne.
  - intros d fd n Hn. eexists. rewrite Z.min_l by lia. split; [reflexivity|]. simpl. rewrite stream_eq. split_and!; try done.
    split; try done. intros g Hg. simpl. by apply stream_ne.
  - intros d q wrs. do 2 eexists. by split_and!.
  - intros d. do 2 eexists. split; [reflexivity|]. split_and!; try done. lia.
  - intros d fd. do 2 eexists. by split_and!.
  - intros d fd ip port bs ->. eexists. split; [reflexivity|]. simpl. split; [apply stream_eq|].
    split; try done. intros g Hg. simpl. by apply stream_ne.
  - intros d sock fd l. destruct (waiting d) as [|f w]; [done|]. intros [= <- <-]. eexists. split; [reflexivity|].
    split_and!; try done. lia.
  - intros d h num dest dl c n Hq Hh Hn. split; [|done]. unfold route. rewrite Hh. simpl. by rewrite Hn.
Qed.
End Net.

#[local] Existing Instances Net.net_verbs Net.net_laws Net.net_ctl Net.net_os Net.net_fabric Net.net_fabric_laws.
#[local] Instance junk_byte : Junk := 165.
#[local] Instance in_turn : Sched := Nat.odd.

(** Two servers, and what they answer to the client that becomes node 3. *)
Module Example.
Definition gid0 : list Z := replicate 16 0.
Definition ids (n : Z) : ExchangeID := ExId n 1 (if n =? 1 then 3 else 0).
Definition meta_of (n : Z) : ExchangeMeta :=
  ExMeta (70 + n) [100 * n + 1; 100 * n + 2; 100 * n + 3] (4 + n) gid0 (65536 * n) n.
Definition config : Configuration :=
  make_configuration (Tree [(1, "10.0.0.1"); (2, "10.0.0.2")]%string "10.0.0.1" 1 5678).
Definition internet : Net.device :=
  Net.Mk (λ a, a `mod` 251) (λ _ _, 0) [] ∅ ∅ ∅
    {[("10.0.0.1"%string, 5678) := to_bytes (ids 1) ++ to_bytes (meta_of 1);
      ("10.0.0.2"%string, 5678) := to_bytes (ids 2) ++ to_bytes (meta_of 2)]}
    {[(5, 101) := 1; (5, 102) := 1; (5, 103) := 1; (6, 201) := 2; (6, 202) := 2; (6, 203) := 2]}
    {[8 := (0, 67108864)]} {[(1, 71) := (65536, 2 ^ 40); (2, 72) := (131072, 2 ^ 40)]} [] 3.
Definition endpoint (server : bool) (cqs : list Z) (me mem max : Z) (d : Net.device) : Endpoint Net.device :=
  Ep (Socket ∅ cqs server me mem (Ptr (8, 9)) 0 [0; 0] [0; 0] (if server then None else Some false) d)
     (Some "mlx5_0"%string) 1 5678 0 (Ptr 7) (Ptr 1) (Ptr 1) (Z.of_nat (length cqs)) 0 67108864 config max 0 2.
Definition client : Endpoint Net.device := endpoint false [1] 0 0 3 internet.

Lemma endpoint_ok (server : bool) (cqs : list Z) (me mem max : Z) (d : Net.device) : 0 ≤ me < 2 ^ 16 → 0 ≤ mem < 2 ^ 64 → 0 ≤ max < 2 ^ 16 →
  (if server then 2 ≤ length cqs else length cqs = 1)%nat → conn_ok (endpoint server cqs me mem max d).
Proof.
  intros Hme Hmem Hmax Hl. split; try done; simpl; try (by eexists).
  - destruct server; lia.
  - destruct server; lia.
  - destruct server; lia.
Qed.

Lemma servers n : is_Some (id2ip config !! n) → n = 1 ∨ n = 2.
Proof.
  intros [ip Hip]. change (id2ip config) with (<[2 := "10.0.0.2"%string]> (<[1 := "10.0.0.1"%string]> (∅ : gmap Z string))) in Hip.
  destruct (decide (n = 2)); [by right|]. rewrite lookup_insert_ne in Hip by done.
  destruct (decide (n = 1)); [by left|]. by rewrite lookup_insert_ne, lookup_empty in Hip.
Qed.

Lemma meta_of_fits n : 1 ≤ n ≤ 2 → meta_fits (meta_of n).
Proof.
  intros Hn. split; simpl; try lia.
  - split; [done|]. repeat constructor; lia.
  - split; [done|]. by repeat constructor.
Qed.

Lemma servers_answer n : is_Some (id2ip config !! n) →
  answers client n (ids n) (meta_of n) ∧ ∀ t num, t ∈ meta_qpNum (meta_of n) → partner internet (meta_lid (meta_of n)) t num = Some n.
Proof.
  intros Hn. assert (Hin : 1 ≤ n ≤ 2) by (destruct (servers n Hn); lia). split.
  - split; [lia| | |by apply meta_of_fits].
    + destruct (servers n Hn) as [-> | ->]; eexists; split; reflexivity.
    + split; simpl; [lia|]. destruct (n =? 1); lia.
  - destruct (servers n Hn) as [-> | ->]; simpl; intros t num; rewrite !elem_of_cons, elem_of_nil;
      intros [->|[->|[->|[]]]]; reflexivity.
Qed.

Lemma ids_given n : id_GivenID (ids n) = 0 ↔ n ≠ 1.
Proof. simpl. destruct (Z.eqb_spec n 1); split; intros; done || lia. Qed.

(** Two clients wait at node 1, which has two completion queues. *)
Definition caller_of (n : Z) : caller := Caller (4 + n) (ExId 0 0 0) (meta_of n).
Definition waiting : Net.device :=
  Net.Mk (λ a, a `mod` 251) (λ _ _, 0) [] ∅
    {[5 := to_bytes (ExId 0 0 0) ++ to_bytes (meta_of 1); 6 := to_bytes (ExId 0 0 0) ++ to_bytes (meta_of 2)]}
    ∅ ∅ ∅ {[8 := (0, 67108864)]} ∅ [5; 6] 7.
Definition server : Endpoint Net.device := endpoint true [1; 2] 1 0 3 waiting.

Lemma server_numbering : numbering server.
Proof. split; [by apply endpoint_ok|done..]. Qed.

Lemma both_call k : k ∈ [caller_of 1; caller_of 2] → calls server k.
Proof.
  intros Hk. assert (k = caller_of 1 ∨ k = caller_of 2) as [-> | ->] by set_solver.
  - split_and!; [done|done|by apply meta_of_fits|]. by exists [].
  - split_and!; [done|done|by apply meta_of_fits|]. by exists [].
Qed.
End Example.

Section theorems.
Context {Dev : Type} `{FabricLaws Dev} `{Junk} `{Sched}.
Implicit Types (d : Dev) (e : Endpoint Dev).

Abbreviation net e := (dev (sk e)).

(** C13: RdmaConnect of a client whose configured servers all answer returns, with the number that node 1
    gave it and a connection to every server of the configuration: for both workers the data plane has
    a linked queue pair, with the address and key of that server's memory. *)
Theorem client_connects e (ids : Z → ExchangeID) (ms : Z → ExchangeMeta) fuel :
  conn_ok e → isServer (sk e) = false → quiet (net e) → (1 ≤ fuel)%nat → is_Some (id2ip (conf e) !! 1) →
  (∀ n, is_Some (id2ip (conf e) !! n) →
     answers e n (ids n) (ms n) ∧ ∀ t num, t ∈ meta_qpNum (ms n) → partner (net e) (meta_lid (ms n)) t num = Some n) →
  (∀ n, id_GivenID (ids n) = 0 ↔ n ≠ 1) →
  ∃ e', RdmaConnect fuel e = Done (tt, e') ∧ MyNodeID (sk e') = id_GivenID (ids 1) ∧
    ∀ n, is_Some (id2ip (conf e) !! n) → ∃ p, peers (sk e') !! n = Some p ∧
      RegisteredMemory p = meta_RegisteredMemory (ms n) ∧ peer_rkey p = meta_rkey (ms n) ∧
      ∀ T, 0 ≤ T < 2 → ∃ q, linked (sk e') T n p q.
Proof.
  intros He Hcl Hq Hf Hone Hans Hgiven.
  assert (Hw : wp (RdmaConnect fuel) (λ _ e', progress e e' ∧ MyNodeID (sk e') = id_GivenID (ids 1) ∧
    ∀ n, is_Some (id2ip (conf e) !! n) → ∃ p, up e' n (ms n) p) e).
  { eapply (wp_RdmaConnect e ids ms); try done. intros n Hn. by apply Hans. }
  apply wp_done in Hw as ([] & e' & E & Hpg & Hme & Hup). exists e'. split_and!; [done..|].
  intros n Hn. destruct (Hup n Hn) as [p Hp]. destruct (Hans n Hn) as [[Hr _ _ Hm] Hown].
  exists p. split_and!; [apply Hp..|]. intros T HT.
  eapply up_linked; [exact Hp|done|done|apply (mf_nums _ Hm)| |by apply (sw_quiet _ _ (pg_world _ _ Hpg))].
  intros t num Ht. rewrite (sw_partner _ _ (pg_world _ _ Hpg)). by apply Hown.
Qed.

(** A client that has connected can use the memory of every server: after RdmaConnect, RemoteWrite of
    less than 4 MB to a configured node returns true, and the bytes are in that node's registered
    memory. *)
Theorem connected_client_writes e (ids : Z → ExchangeID) (ms : Z → ExchangeMeta) fuel n send rcv size :
  conn_ok e → isServer (sk e) = false → quiet (net e) → WriteTest (sk e) = Some false → (1 ≤ fuel)%nat →
  is_Some (id2ip (conf e) !! 1) → is_Some (id2ip (conf e) !! n) →
  (∀ n, is_Some (id2ip (conf e) !! n) →
     answers e n (ids n) (ms n) ∧ ∀ t num, t ∈ meta_qpNum (ms n) → partner (net e) (meta_lid (ms n)) t num = Some n) →
  (∀ n, id_GivenID (ids n) = 0 ↔ n ≠ 1) →
  0 ≤ size < 4 * 1024 * 1024 → 0 ≤ rcv → rcv + meta_RegisteredMemory (ms n) + size ≤ 2 ^ 64 →
  mm (sk e) + 4 * 1024 + SendPoolSize ≤ send → send + size ≤ 2 ^ 64 →
  (∃ k, mr (sk e) = Ptr k ∧ covers (local_mr (net e) k.1) (mm (sk e) + 4 * 1024) SendPoolSize) →
  covers (remote_mr (net e) n (meta_rkey (ms n))) (rcv + meta_RegisteredMemory (ms n)) size →
  ∃ e' s', RdmaConnect fuel e = Done (tt, e') ∧ ev (λ pf, RemoteWrite pf send n rcv size) (sk e') true s' ∧
    ∀ x, 0 ≤ x < size →
      remote_mem (dev s') n (meta_RegisteredMemory (ms n) + rcv + x) = view host (net e') (send + x).
Proof.
  intros He Hcl Hq Ht Hf Hone Hn Hans Hgiven Hsz Hrcv Hmem Hsend Hend (k & Hk & Hloc) Hrem.
  assert (Hw : wp (RdmaConnect fuel) (λ _ e', progress e e' ∧ ∃ p, up e' n (ms n) p) e).
  { eapply (wp_RdmaConnect e ids ms); try done; [intros m Hm; by apply Hans|]. intros e' Hpg _ Hup. auto. }
  apply wp_done in Hw as ([] & e' & E & Hpg & p & Hp). destruct (Hans n Hn) as [[Hr _ _ Hm] Hown].
  destruct (up_linked e' n (ms n) p 0 Hp Hr ltac:(lia) (proj1 (mf_nums _ Hm))) as [q Hlk];
    [intros t num Hin; rewrite (sw_partner _ _ (pg_world _ _ Hpg)); by apply Hown|by apply (sw_quiet _ _ (pg_world _ _ Hpg))|].
  pose proof (co_mm _ He) as Hmm. pose proof (mf_mem _ Hm) as Hrm. pose proof (up_memory _ _ _ _ Hp) as Hpm.
  pose proof (pg_mm _ _ Hpg) as Hmm'.
  assert (Hrg : ranges (sk e') 0 n p send rcv size).
  { assert (Hpool : SendPoolAddr (sk e') 0 = mm (sk e) + 4 * 1024).
    { rewrite pool_addr; unfold SendPoolSize in *; lia. }
    split; [lia|unfold SendPoolSize in *; lia|lia|unfold SendPoolSize in *; lia|right; unfold SendPoolSize in *; lia| |].
    - exists k. split; [by rewrite (pg_mr _ _ Hpg)|]. rewrite Hpool. eapply covers_grows; [|exact Hloc].
      apply (sw_local _ _ (pg_world _ _ Hpg)).
    - rewrite (sw_remote _ _ (pg_world _ _ Hpg)), (up_rkey _ _ _ _ Hp), Hpm. exact Hrem. }
  destruct (wpe_RemoteWrite (sk e') n p q send rcv size (λ b s', b = true ∧ sent (sk e') s' 0 n p send rcv size) Hlk Hrg)
    as (b & s' & Hev & -> & [_ _ Hrs _]); [by rewrite (pg_test _ _ Hpg)|lia|auto|].
  exists e', s'. split_and!; [done..|]. intros x Hx. rewrite Hrs, copy_in by lia. f_equal. lia.
Qed.

(** C10: Node 1 numbers the clients that wait on its socket in their order: after those rounds of
    RdmaAccept the next free number has advanced by their count, the client with index [j] is the
    peer [MaxNodeID + j], connected to the queue pairs it announced, it has been sent that number and
    the address, key and queue pair numbers of the server, and no other peer changed. *)
Theorem server_numbers_clients e (l : list caller) n fuel sock :
  numbering e → MaxNodeID e + Z.of_nat (length l) ≤ 1000 → (1 ≤ fuel)%nat → NoDup (call_fd <$> l) →
  (∀ k, k ∈ l → calls e k) → call_fd <$> l `prefix_of` backlog (net e) →
  ∃ e', RdmaAccept (length l + n) fuel sock e = RdmaAccept n fuel sock e' ∧
    MaxNodeID e' = MaxNodeID e + Z.of_nat (length l) ∧
    (∀ j k, l !! j = Some k → ∃ p, let num := MaxNodeID e + Z.of_nat j in
       up e' num (call_meta k) p ∧ welcomed e e' num (call_fd k) p) ∧
    (∀ i, i < MaxNodeID e ∨ MaxNodeID e + Z.of_nat (length l) ≤ i → peers (sk e') !! i = peers (sk e) !! i).
Proof.
  intros Hnu Hmax Hf Hnd Hcalls Hback.
  destruct (accept_clients l e n fuel sock Hnu Hmax Hf Hnd Hcalls Hback) as (e' & E & Hac).
  exists e'. split_and!; [done|apply Hac|apply Hac|apply Hac].
Qed.
End theorems.

(** The theorems at the examples. *)

Lemma client_connects_witness : ∃ e', RdmaConnect 1 Example.client = Done (tt, e') ∧ MyNodeID (sk e') = 3 ∧
  ∃ p, peers (sk e') !! 2 = Some p ∧ RegisteredMemory p = 131072 ∧ ∃ q, linked (sk e') 1 2 p q.
Proof.
  destruct (client_connects Example.client Example.ids Example.meta_of 1) as (e' & E & Hme & Hall).
  - by apply Example.endpoint_ok.
  - done.
  - done.
  - lia.
  - by eexists.
  - apply Example.servers_answer.
  - apply Example.ids_given.
  - destruct (Hall 2) as (p & Hp & Hm & _ & Hl); [by eexists|].
    exists e'. split; [exact E|]. split; [exact Hme|]. exists p. split; [exact Hp|]. split; [exact Hm|].
    apply Hl. lia.
Defined.

Lemma connected_client_writes_witness : ∃ e' s', RdmaConnect 1 Example.client = Done (tt, e') ∧
  ev (λ pf, RemoteWrite pf 33554432 2 16 1000) (sk e') true s' ∧
  Net.nodes (dev s') 2 131093 = Net.memory (dev (sk e')) 33554437.
Proof.
  destruct (connected_client_writes Example.client Example.ids Example.meta_of 1 2 33554432 16 1000)
    as (e' & s' & E & Hw & Hall).
  - by apply Example.endpoint_ok.
  - done.
  - done.
  - done.
  - lia.
  - by eexists.
  - by eexists.
  - apply Example.servers_answer.
  - apply Example.ids_given.
  - lia.
  - lia.
  - done.
  - done.
  - done.
  - exists (8, 9). by split.
  - done.
  - exists e', s'. split; [exact E|]. split; [exact Hw|]. exact (Hall 5 ltac:(lia)).
Defined.

Lemma server_numbers_clients_witness : ∃ e', RdmaAccept 3 1 0 Example.server = RdmaAccept 1 1 0 e' ∧ MaxNodeID e' = 5 ∧
  ∃ p, up e' 4 (Example.meta_of 2) p ∧ welcomed Example.server e' 4 6 p.
Proof.
  destruct (server_numbers_clients Example.server [Example.caller_of 1; Example.caller_of 2] 1 1 0)
    as (e' & E & Hmax & Hcl & _).
  - exact Example.server_numbering.
  - done.
  - lia.
  - by apply (bool_decide_unpack _).
  - apply Example.both_call.
  - by exists [].
  - exists e'. split; [exact E|]. split; [exact Hmax|]. exact (Hcl 1%nat (Example.caller_of 2) eq_refl).
Defined.

(** ** The two sides of a handshake *)

Section handshake.
Context {Dev : Type} `{FabricLaws Dev} `{Junk}.
Implicit Types (d : Dev) (e : Endpoint Dev).

Abbreviation net e := (dev (sk e)).

(** A struct that was sent and read back is the one that was built. *)
Lemma same_message {A} (L : Layout A) (fits : A → Prop) `{!LayoutLaws A fits} (x y : A) r s :
  fits x → fits y → to_bytes x ++ r = to_bytes y ++ s → x = y ∧ r = s.
Proof.
  intros Hx Hy E. apply app_inj_1 in E as [E Er]; [|by rewrite !to_bytes_length]. split; [|done].
  rewrite <- (of_to_bytes x [] Hx), <- (of_to_bytes y [] Hy). by rewrite E.
Qed.

Lemma sent_meta_fits e l gid k ns : conn_ok e → lid e = Ptr l → mr (sk e) = Ptr k → 0 ≤ junk < 256 → length ns = 3%nat →
  Forall (λ n, 0 ≤ n < 2 ^ 32) ns → length gid = 16%nat → Forall (λ b, 0 ≤ b < 256) gid →
  meta_fits (sent_meta e l gid k ns).
Proof.
  intros [_ _ _ _ _ _ (l' & El & Hl) (k' & Ek & Hk) Hm _ _] Hl' Hk' Hj Hn Hr Hgl Hgr.
  rewrite Hl' in El. rewrite Hk' in Ek. injection El as <-. injection Ek as <-.
  split; simpl; try done; try lia.
  - destruct (isServer (sk e)); lia.
  - rewrite Hn. simpl. by rewrite app_nil_r.
Qed.

(** One side of a connection between a client and node 1. *)
Definition side e e' (p : PeerSockData) (m : ExchangeMeta) (c : Z) (hs ns : list Z) : Prop :=
  qp p = hs ∧ peer_cq p = c ∧ RegisteredMemory p = meta_RegisteredMemory m ∧ peer_rkey p = meta_rkey m ∧
  ∀ j h n t, hs !! j = Some h → ns !! j = Some n → meta_qpNum m !! j = Some t →
    qps (net e') !! h = Some (QpInfo IBV_QPS_RTS n t (meta_lid m) c).

(** Each queue pair of one side sends to the queue pair with the same index of the other side, through
    the port of that side. *)
Definition paired e1 (p1 : PeerSockData) e2 (p2 : PeerSockData) : Prop :=
  ∀ j h1 h2, qp p1 !! j = Some h1 → qp p2 !! j = Some h2 → ∃ n1 n2 l1 l2, lid e1 = Ptr l1 ∧ lid e2 = Ptr l2 ∧
    qps (net e1) !! h1 = Some (QpInfo IBV_QPS_RTS n1 n2 l2 (peer_cq p1)) ∧
    qps (net e2) !! h2 = Some (QpInfo IBV_QPS_RTS n2 n1 l1 (peer_cq p2)).

(** ConnectQueuePair on three queue pairs, with what it sent. *)
Lemma connect_runs e p rid m rest fuel :
  conn_ok e → qp p = [] → incoming (net e) (peer_sock p) = to_bytes rid ++ to_bytes m ++ rest →
  (isServer (sk e) = true → id_isServer rid = 0 ∨ id_isServer rid = 1) →
  id_fits rid → meta_fits m → (1 ≤ fuel)%nat → 0 ≤ junk < 256 →
  wanted (met rid e) (met_node rid e (peer_NodeID p)) = 3%nat →
  ∃ e' p' l gid k ns, ConnectQueuePair fuel p e = Done ((true, p'), e') ∧
    peer_NodeID p' = met_node rid e (peer_NodeID p) ∧ MyNodeID (sk e') = MyNodeID (sk (met rid e)) ∧
    length (qp p') = 3%nat ∧ side e e' p' m (peer_cq p') (qp p') ns ∧ length ns = 3%nat ∧
    lid e = Ptr l ∧ lid e' = Ptr l ∧ mr (sk e) = Ptr k ∧ meta_fits (sent_meta e l gid k ns) ∧
    outgoing (net e') (peer_sock p) = outgoing (net e) (peer_sock p) ++ to_bytes (local_id e) ++
      to_bytes (sent_meta e l gid k ns).
Proof.
  intros He Hqp Hin Hb Hid Hm Hf Hj Hw.
  destruct (pick_cq (met rid e) (met_node rid e (peer_NodeID p)) (met_ok rid e He Hid)) as [c Hc].
  rewrite (met_same rid e (λ e, cq (sk e))) in Hc by done.
  assert (Hrun : wp (ConnectQueuePair fuel p) (λ r e', ∃ d' hs ns, length hs = 3%nat ∧
    joined e d' (peer_sock p) c hs ns m rest ∧
    r = (true, joined_peer p hs c (met_node rid e (peer_NodeID p)) m) ∧
    e' = set_dev d' (set_cqPtr (ptr_after (met rid e) (met_node rid e (peer_NodeID p))) (met rid e))) e).
  { eapply (wp_ConnectQueuePair e p rid m rest); [done..|exact Hc|]. intros d' hs ns Hl Hjo.
    exists d', hs, ns. rewrite Hw in Hl. done. }
  apply wp_done in Hrun as (r & e' & E & d' & hs & ns & Hl & Hjo & -> & ->).
  destruct (jo_sent _ _ _ _ _ _ _ _ Hjo) as (l & gid & k & Hlid & Hmr & Hgl & Hgr & Hout).
  pose proof (jo_len _ _ _ _ _ _ _ _ Hjo) as Hns. rewrite Hl in Hns.
  do 2 eexists. exists l, gid, k, ns. split; [exact E|]. split_and!; try done.
  - split_and!; try done. intros j h n t. simpl. apply (jo_up _ _ _ _ _ _ _ _ Hjo).
  - simpl. by rewrite (met_same rid e lid).
  - apply sent_meta_fits; try done. apply (jo_nums _ _ _ _ _ _ _ _ Hjo).
Qed.

Lemma paired_sides es es' ps ms c1 hs1 ns1 ec ec' pc mc c2 hs2 ns2 : lid es' = Ptr (meta_lid ms) → lid ec' = Ptr (meta_lid mc) →
  side es es' ps mc c1 hs1 ns1 → side ec ec' pc ms c2 hs2 ns2 → length hs1 = 3%nat → length hs2 = 3%nat →
  meta_qpNum ms = ns1 → meta_qpNum mc = ns2 → length ns1 = 3%nat → length ns2 = 3%nat → paired es' ps ec' pc.
Proof.
  intros Hlid1 Hlid2 (Hq1 & Hc1 & _ & _ & Hup1) (Hq2 & Hc2 & _ & _ & Hup2) Hl1 Hl2 E1 E2 Hn1 Hn2 j h1 h2 Hh1 Hh2.
  rewrite Hq1 in Hh1. rewrite Hq2 in Hh2. pose proof (lookup_lt_Some _ _ _ Hh1) as Hj.
  destruct (lookup_lt_is_Some_2 ns1 j) as [n1 Hn1']; [lia|]. destruct (lookup_lt_is_Some_2 ns2 j) as [n2 Hn2']; [lia|].
  exists n1, n2, (meta_lid ms), (meta_lid mc). rewrite Hc1, Hc2. split_and!; [done..|apply (Hup1 j)|apply (Hup2 j)]; congruence.
Qed.

(** C7: The handshake between node 1 and a client.  Each side returns from ConnectQueuePair with success
    on the structs it reads; and when each read what the other sent, they agree: the client has the
    number under which the server keeps it, queue pair [j] of one side sends to queue pair [j] of the
    other through its port, and each holds the base address of the other's memory (and the client the server's key). *)
Theorem handshake_agrees es ec ps pc (rs rc : ExchangeID) (ms mc : ExchangeMeta) fuel :
  numbering es → 0 < MaxNodeID es → conn_ok ec → isServer (sk ec) = false → 0 ≤ junk < 256 → (1 ≤ fuel)%nat →
  qp ps = [] → qp pc = [] → id_fits rs → id_fits rc → meta_fits ms → meta_fits mc → id_isServer rc = 0 →
  incoming (net es) (peer_sock ps) = to_bytes rc ++ to_bytes mc →
  incoming (net ec) (peer_sock pc) = to_bytes rs ++ to_bytes ms →
  ∃ es' ps' ec' pc', ConnectQueuePair fuel ps es = Done ((true, ps'), es') ∧
    ConnectQueuePair fuel pc ec = Done ((true, pc'), ec') ∧
    (outgoing (net es') (peer_sock ps) = outgoing (net es) (peer_sock ps) ++ to_bytes rs ++ to_bytes ms →
     outgoing (net ec') (peer_sock pc) = outgoing (net ec) (peer_sock pc) ++ to_bytes rc ++ to_bytes mc →
     MyNodeID (sk ec') = peer_NodeID ps' ∧ paired es' ps' ec' pc' ∧
     RegisteredMemory ps' = mm (sk ec) ∧ RegisteredMemory pc' = mm (sk es) ∧
     ∃ k, mr (sk es) = Ptr k ∧ peer_rkey pc' = k.2).
Proof.
  intros [Hes Hsv Hme Hcount] Hmax Hec Hcl Hj Hf Hqs Hqc Hrs Hrc Hms Hmc Hrcs Hin1 Hin2.
  assert (Hnum : numbers es rc = true) by (unfold numbers; by rewrite Hsv, Hrcs, Hme).
  assert (Hnode : met_node rc es (peer_NodeID ps) = MaxNodeID es) by (unfold met_node; by rewrite Hsv, Hnum).
  destruct (connect_runs es ps rc mc [] fuel) as
    (es' & ps' & l1 & g1 & k1 & n1 & E1 & Hn1 & _ & Hl1 & Hs1 & Hlen1 & _ & Hlid1 & Hk1 & Hfit1 & Ho1); try done.
  { by rewrite app_nil_r. }
  { by left. }
  { rewrite Hnode. unfold wanted. rewrite (met_same rc es (λ e, isServer (sk e))), (met_same rc es conf), Hsv by done.
    by rewrite (proj2 (Z.ltb_lt _ _)). }
  destruct (connect_runs ec pc rs ms [] fuel) as
    (ec' & pc' & l2 & g2 & k2 & n2 & E2 & _ & Hm2 & Hl2 & Hs2 & Hlen2 & _ & Hlid2 & _ & Hfit2 & Ho2); try done.
  { by rewrite app_nil_r. }
  { by rewrite Hcl. }
  { unfold wanted. by rewrite (met_same rs ec (λ e, isServer (sk e))), Hcl. }
  exists es', ps', ec', pc'. split_and!; [done..|]. intros Hsent1 Hsent2.
  rewrite Ho1 in Hsent1. apply app_inv_head in Hsent1. rewrite Ho2 in Hsent2. apply app_inv_head in Hsent2.
  pose proof (co_max _ Hes) as Hmx. pose proof (co_me _ Hec) as Hcm. pose proof (co_me _ Hes) as Hsm.
  apply (same_message ExchangeID_layout id_fits) in Hsent1 as [<- Hsent1]; [|unfold local_id; rewrite Hsv, Hme; split; simpl; lia|done].
  apply (same_message ExchangeID_layout id_fits) in Hsent2 as [<- Hsent2]; [|unfold local_id; rewrite Hcl; split; simpl; lia|done].
  rewrite <- (app_nil_r (to_bytes (sent_meta _ _ _ _ _))), <- (app_nil_r (to_bytes ms)) in Hsent1.
  rewrite <- (app_nil_r (to_bytes (sent_meta _ _ _ _ _))), <- (app_nil_r (to_bytes mc)) in Hsent2.
  apply (same_message ExchangeMeta_layout meta_fits) in Hsent1 as [Ems _]; [|done..].
  apply (same_message ExchangeMeta_layout meta_fits) in Hsent2 as [Emc _]; [|done..].
  assert (Hq1 : meta_qpNum ms = n1) by (rewrite <- Ems; simpl; rewrite Hlen1; apply app_nil_r).
  assert (Hq2 : meta_qpNum mc = n2) by (rewrite <- Emc; simpl; rewrite Hlen2; apply app_nil_r).
  split_and!.
  - rewrite Hm2, Hn1, Hnode. unfold met, local_id. rewrite Hcl, Hsv, Hme. simpl.
    by rewrite (proj2 (Z.eqb_neq _ _)) by lia.
  - eapply (paired_sides es es' ps' ms); try done; [by rewrite <- Ems|by rewrite <- Emc].
  - destruct Hs1 as (_ & _ & -> & _). by rewrite <- Emc.
  - destruct Hs2 as (_ & _ & -> & _). by rewrite <- Ems.
  - exists k1. split; [done|]. destruct Hs2 as (_ & _ & _ & -> & _). rewrite <- Ems. simpl. by rewrite Hsv.
Qed.
End handshake.

(** Node 1 and a client over one connection, 5 at the server and 3 at the client. *)
Module Ends.
Definition meta_s : ExchangeMeta := ExMeta 9 [1; 2; 3] 7 Example.gid0 0 165.
Definition meta_c : ExchangeMeta := ExMeta 165 [1; 2; 3] 7 Example.gid0 4096 165.
Definition far (fd : Z) (bs : list Z) : Net.device :=
  Net.Mk (λ a, a `mod` 251) (λ _ _, 0) [] ∅ {[fd := bs]} ∅ ∅ ∅ {[8 := (0, 67112960)]} ∅ [] 7.
Definition server : Endpoint Net.device :=
  Example.endpoint true [1; 2] 1 0 3 (far 5 (to_bytes (ExId 0 0 0) ++ to_bytes meta_c)).
Definition client : Endpoint Net.device :=
  Example.endpoint false [1] 0 4096 3 (far 3 (to_bytes (ExId 1 1 3) ++ to_bytes meta_s)).

(** What a call has sent. *)
Definition sends (p : PeerSockData) (e : Endpoint Net.device) (bs : list Z) : Prop :=
  match ConnectQueuePair 1 p e with
  | Done (_, e') => outgoing (dev (sk e')) (peer_sock p) = bs
  | Fault _ => False
  end.

Lemma server_sends : sends (new_peer 5 0) server (to_bytes (ExId 1 1 3) ++ to_bytes meta_s).
Proof. vm_compute. reflexivity. Qed.

Lemma client_sends : sends (new_peer 3 1) client (to_bytes (ExId 0 0 0) ++ to_bytes meta_c).
Proof. vm_compute. reflexivity. Qed.

Lemma metas_fit : meta_fits meta_s ∧ meta_fits meta_c.
Proof. split; (split; simpl; [lia|split; [done|repeat constructor; lia]|lia|split; [done|by repeat constructor]|lia|lia]). Qed.
End Ends.

Lemma handshake_agrees_witness : ∃ es' ps' ec' pc', ConnectQueuePair 1 (new_peer 5 0) Ends.server = Done ((true, ps'), es') ∧
  ConnectQueuePair 1 (new_peer 3 1) Ends.client = Done ((true, pc'), ec') ∧ MyNodeID (sk ec') = peer_NodeID ps' ∧
  paired es' ps' ec' pc' ∧ RegisteredMemory ps' = 4096.
Proof.
  destruct (handshake_agrees Ends.server Ends.client (new_peer 5 0) (new_peer 3 1) (ExId 1 1 3) (ExId 0 0 0)
    Ends.meta_s Ends.meta_c 1) as (es' & ps' & ec' & pc' & E1 & E2 & Hall).
  - split; [by apply Example.endpoint_ok|done..].
  - done.
  - by apply Example.endpoint_ok.
  - done.
  - done.
  - lia.
  - done.
  - done.
  - split; simpl; lia.
  - split; simpl; lia.
  - apply Ends.metas_fit.
  - apply Ends.metas_fit.
  - done.
  - reflexivity.
  - reflexivity.
  - exists es', ps', ec', pc'. split; [exact E1|]. split; [exact E2|].
    destruct Hall as (Hme & Hp & Hm & _).
    + pose proof Ends.server_sends as Hs. unfold Ends.sends in Hs. rewrite E1 in Hs. exact Hs.
    + pose proof Ends.client_sends as Hs. unfold Ends.sends in Hs. rewrite E2 in Hs. exact Hs.
    + exact (conj Hme (conj Hp Hm)).
Defined.
