(* ===== verification/RdmaConnStart.v ===== *)
(** * The constructor of [RdmaSocket] on a host whose device works: what connection management starts
    from. *)
From S2P Require Import Prelude Rdma RdmaLaws Wire Config RdmaConn RdmaConnLaws RdmaConnUp RdmaConnTheorems.
Local Open Scope Z_scope.

(** A call that returns something that satisfies [P], whatever the state, and changes the device
    within [keeps]. *)
Definition returns {Dev A} (keeps : Dev → Dev → Prop) (m : M Dev A) (P : A → Prop) : Prop :=
  ∀ d, ∃ a d', m d = Done (a, d') ∧ P a ∧ keeps d d'.

Section start.
Context {Dev : Type} `{Verbs Dev, VerbsCtl Dev, Os Dev, Junk}.
Context (keeps : Dev → Dev → Prop) `{!PreOrder keeps}.
Implicit Types (d : Dev) (e : Endpoint Dev).

(** A host whose first device works; [P a n r d'] says what becomes of the registration of [n] bytes at
    [a]: its result and the device after it. *)
Record works (P : Z → Z → option (Z * Z) → Dev → Prop) : Prop := {
  wk_list : returns keeps ibv_get_device_list (λ r, ∃ n l, r = Some (n :: l));
  wk_free : returns keeps ibv_free_device_list (λ _, True);
  wk_open n : returns keeps (ibv_open_device n) is_Some;
  wk_port c p : returns keeps (ibv_query_port c p) (λ r, r.1 = 0 ∧ 0 ≤ r.2 < 2 ^ 16);
  wk_cq c n : returns keeps (ibv_create_cq c n) is_Some;
  wk_pd c : returns keeps (ibv_alloc_pd c) is_Some;
  wk_mr p a n l d : ∃ r d', ibv_reg_mr p a n l d = Done (r, d') ∧ P a n r d' ∧ keeps d d';
}.

Definition registered (a n : Z) (r : option (Z * Z)) d : Prop := ∃ k, r = Some k ∧ 0 ≤ k.2 < 2 ^ 32.

Lemma wp_returns {A} (m : M Dev A) P e (Q : A → Endpoint Dev → Prop) : returns keeps m P →
  (∀ a d, P a → keeps (dev (sk e)) d → Q a (set_dev d e)) → wp (dcall m) Q e.
Proof.
  intros Hm HQ. destruct (Hm (dev (sk e))) as (a & d & E & HP & Hk).
  apply wp_dcall, wp_done. exists a, d. split; [exact E|]. by apply HQ.
Qed.

(** What the steps of CreateResources leave alone, and the completion queues. *)
Definition same_start e e' : Prop :=
  length (cq (sk e')) = length (cq (sk e)) ∧ isServer (sk e') = isServer (sk e) ∧ cqNum e' = cqNum e ∧
  cqPtr e' = cqPtr e ∧ Mode e' = Mode e ∧ mm (sk e') = mm (sk e) ∧ MyNodeID (sk e') = MyNodeID (sk e) ∧
  MaxNodeID e' = MaxNodeID e ∧ peers (sk e') = peers (sk e) ∧ conf e' = conf e ∧ GidIndex e' = GidIndex e ∧
  DeviceName e' = DeviceName e ∧ Port e' = Port e ∧ pd e' = pd e ∧ ctx e' = ctx e ∧ lid e' = lid e ∧
  mr (sk e') = mr (sk e) ∧ mmSize e' = mmSize e ∧ ServerPort e' = ServerPort e ∧
  keeps (dev (sk e)) (dev (sk e')).

Lemma wp_create_cqs P c n i : works P → ∀ e (Q : bool → Endpoint Dev → Prop), (i + n ≤ length (cq (sk e)))%nat →
  (∀ e', same_start e e' → Q true e') → wp (create_cqs c n i) Q e.
Proof.
  intros Hw. revert i. induction n as [|n IH]; intros i e Q Hl HQ; cbn [create_cqs].
  { apply wp_ret, HQ. by split_and!. }
  apply wp_bind. eapply wp_returns; [by eapply wk_cq|]. intros r d [h ->] Hd. apply wp_bind, wp_gets.
  change (cq (sk (set_dev d e))) with (cq (sk e)). rewrite decide_True by lia. unfold set_cqs. wp_auto.
  apply IH; [simpl; rewrite length_insert; lia|]. intros e' (Hle & Hrest). apply HQ.
  unfold same_start. rewrite Hle. simpl in Hrest |- *. rewrite length_insert.
  destruct_and! Hrest. split_and!; try done. by etrans.
Qed.

(** Up to the label, whatever the registration of the memory gave. *)
Lemma wp_create_steps P e (Q : bool * bool → Endpoint Dev → Prop) : works P → DeviceName e = None →
  length (cq (sk e)) = Z.to_nat (cqNum e) →
  (∀ e' l c p r, P (mm (sk e)) (mmSize e) r (dev (sk e')) → lid e' = Ptr l → 0 ≤ l < 2 ^ 16 → ctx e' = Ptr c →
     pd e' = Ptr p → mr (sk e') = slot_of r → ServerPort e' = ServerPort e →
     length (cq (sk e')) = Z.to_nat (cqNum e') → isServer (sk e') = isServer (sk e) →
     cqNum e' = cqNum e → cqPtr e' = cqPtr e → Mode e' = Mode e → mm (sk e') = mm (sk e) →
     MyNodeID (sk e') = MyNodeID (sk e) → MaxNodeID e' = MaxNodeID e → peers (sk e') = peers (sk e) →
     conf e' = conf e → keeps (dev (sk e)) (dev (sk e')) → Q (bool_decide (is_Some r), false) e') →
  wp create_steps Q e.
Proof.
  intros Hw Hname Hcq HQ. unfold create_steps. apply wp_bind.
  eapply wp_returns; [by eapply wk_list|]. intros ? d1 (n & l & ->) Hk1. apply wp_bind, wp_gets.
  change (DeviceName (set_dev d1 e)) with (DeviceName e). rewrite Hname. cbn [find_device default].
  rewrite decide_True by done. cbn [fst snd]. apply wp_bind, wp_modify, wp_bind.
  eapply wp_returns; [by eapply wk_open|]. intros ? d2 [c ->] Hk2. apply wp_bind, wp_modify, wp_bind.
  eapply wp_returns; [by eapply wk_free|]. intros ? d3 _ Hk3. apply wp_bind. unfold create_on_device.
  apply wp_bind, wp_get, wp_bind. unfold deref_slot at 1. cbn [ctx set_dev with_sk set_handles slot_of].
  apply wp_ret, wp_bind. eapply wp_returns; [by eapply wk_port|]. intros [r lid'] d4 [Hr Hlid] Hk4.
  simpl in Hr, Hlid. subst r. apply wp_bind, wp_modify. cbn [fst snd Z.eqb negb].
  apply wp_bind. eapply wp_create_cqs; [done|simpl; rewrite Hcq; lia|].
  intros e5 (Hle & Hsv & Hn & Hp & Hmo & Hmm & Hme & Hmx & Hpe & Hco & _ & _ & _ & Hpd & Hcx & Hl & _ & Hms & Hsp & Hk5). cbn [negb].
  apply wp_bind. eapply wp_returns; [by eapply wk_pd|]. intros ? d6 [p ->] Hk6. apply wp_bind, wp_modify.
  apply wp_bind, wp_get, wp_bind.
  match goal with |- wp (dcall (ibv_reg_mr ?p ?a ?n ?l)) _ ?x =>
    destruct (wk_mr _ Hw p a n l (dev (sk x))) as (r & d7 & E7 & Hr & Hk7) end.
  apply wp_dcall, wp_done. exists r, d7. split; [exact E7|]. unfold set_mr. apply wp_bind, wp_modify, wp_ret, wp_ret.
  simpl in Hle, Hsv, Hn, Hp, Hmo, Hmm, Hme, Hmx, Hpe, Hco, Hms, Hsp, Hr, Hk1, Hk2, Hk3, Hk4, Hk5, Hk6, Hk7.
  assert (Hk : keeps (dev (sk e)) d7) by (repeat (etrans; [done|]); done).
  rewrite Hmm, Hms in Hr. eapply (HQ _ lid' c p r); simpl; congruence || done || lia.
Qed.

(** The address of the interface, among interfaces that have one. *)
Definition own_address (m : M Dev (option (list (option ifaddr)))) (ip : string) : Prop :=
  returns keeps m (λ r, ∃ l, r = Some l ∧ find_host l None = Some ip).

Lemma getIDbyIP_conf ip (c : Configuration) id : ip2id c !! ip = Some id → getIDbyIP ip c = Done (id, c).
Proof. intros Hip. unfold getIDbyIP. by rewrite Hip. Qed.

(** What the constructor leaves. *)
Record started P e (cqs memory size : Z) (c : Configuration) (sv : bool) d : Prop := {
  st_ok : conn_ok e;
  st_peers : peers (sk e) = ∅;
  st_isServer : isServer (sk e) = sv;
  st_conf : conf e = c;
  st_mm : mm (sk e) = memory;
  st_max : MaxNodeID e = Config.ServerCount c + 1;
  st_test : sv = false → WriteTest (sk e) = Some false;
  st_mr : ∃ r, mr (sk e) = slot_of r ∧ P memory size r (dev (sk e));
  st_port : ServerPort e = rdmaTcpPort c;
  st_keeps : keeps d (dev (sk e));
}.

(** A configuration whose servers have numbers. *)
Definition numbered (c : Configuration) : Prop := 0 ≤ Config.ServerCount c < 2 ^ 16 - 1.

Lemma started_resources P e cqs memory size c sv d : works P → (∀ a n r d, P a n r d → registered a n r d) → DeviceName e = None →
  length (cq (sk e)) = Z.to_nat cqs → isServer (sk e) = sv → cqNum e = cqs → (if sv then 2 ≤ cqs else cqs = 1) →
  cqPtr e = 0 → Mode e = 0 → mm (sk e) = memory → mmSize e = size → ServerPort e = rdmaTcpPort c → 0 ≤ memory < 2 ^ 64 → 0 ≤ MyNodeID (sk e) < 2 ^ 16 →
  numbered c → MaxNodeID e = Config.ServerCount c + 1 → peers (sk e) = ∅ → conf e = c → keeps d (dev (sk e)) →
  wp CreateResources (λ _ e', conn_ok e' ∧ peers (sk e') = ∅ ∧ isServer (sk e') = sv ∧ conf e' = c ∧
    mm (sk e') = memory ∧ MaxNodeID e' = Config.ServerCount c + 1 ∧ MyNodeID (sk e') = MyNodeID (sk e) ∧
    (∃ r, mr (sk e') = slot_of r ∧ P memory size r (dev (sk e'))) ∧ ServerPort e' = rdmaTcpPort c ∧
    keeps d (dev (sk e'))) e.
Proof.
  intros Hw HP En El Es Ec Hn Ep Em Emm Ems Esp Hm Er Hsc Emx Epe Eco Hk. unfold CreateResources.
  apply wp_bind. eapply wp_create_steps; [done|done|by rewrite El, Ec|].
  rewrite Emm, Ems. intros e' l cx p r Hr ? ? ? ? Hmr ? ? ? ? ? ? ? ? ? ? ? ?.
  destruct (HP _ _ _ _ Hr) as (k & -> & Hkr). rewrite bool_decide_true by by eexists.
  apply wp_ret. unfold numbered in Hsc. split_and!; try congruence; [|by eexists|by etrans].
  split; try (by eexists); try congruence; try (by eexists; split); try lia.
  - destruct sv; lia.
  - replace (isServer (sk e')) with sv by congruence. destruct sv; lia.
Qed.

Lemma make_socket_started P cqs memory size c (sv : bool) d ip id : works P → (∀ a n r d, P a n r d → registered a n r d) → 0 ≤ junk < 2 ^ 16 →
  (if sv then 2 ≤ cqs else cqs = 1) → 0 ≤ memory < 2 ^ 64 → numbered c →
  (sv = true → own_address os_getifaddrs ip ∧ ip2id c !! ip = Some id ∧ 0 ≤ id < 2 ^ 16) →
  ∃ e, make_socket cqs memory size c sv 0 d = Done e ∧ started P e cqs memory size c sv d ∧
    (sv = true → MyNodeID (sk e) = id).
Proof.
  intros Hw HP Hj Hn Hmem Hsc Hip. unfold make_socket. set (e0 := blank cqs memory size c sv 0 d).
  assert (Hlen : length (cq (sk e0)) = Z.to_nat cqs) by (simpl; apply length_replicate).
  assert (Hmax : u16 (Config.ServerCount c + 1) = Config.ServerCount c + 1)
    by (apply Z.mod_small; unfold numbered in Hsc; lia).
  match goal with |- context [match ?b e0 with _ => _ end] => assert (Hbody : wp b (λ _ e,
    started P e cqs memory size c sv d ∧ (sv = true → MyNodeID (sk e) = id)) e0) end.
  { destruct sv.
    - destruct (Hip eq_refl) as (Haddr & Hid & Hidr). apply wp_bind, wp_bind. unfold getIP. apply wp_dcall, wp_bind.
      destruct (Haddr (dev (sk e0))) as (a & d' & E & (l & -> & Hl) & Hk). apply wp_done. eexists _, _. split; [exact E|].
      apply wp_bind. eapply wp_or_fault; [reflexivity|]. eapply wp_or_fault; [exact Hl|].
      apply wp_bind, wp_zoom, wp_done. eexists _, _. split; [by apply getIDbyIP_conf|]. unfold set_MyNodeID. wp_auto.
      eapply wp_mono; [by eapply (started_resources P _ cqs memory size c true d)|].
      intros r e (? & ? & ? & ? & ? & ? & ? & ? & ? & ?). wp_auto. by split.
    - wp_auto. eapply wp_mono; [eapply (started_resources P _ cqs memory size c false d); try done; reflexivity|].
      intros r e (He & ? & ? & ? & ? & ? & ? & ? & ? & ?). wp_auto. split; [|done]. split; try done. destruct He. by split. }
  apply wp_done in Hbody as ([] & e & E & Hst & Hid). rewrite E. by exists e.
Qed.

(** C21: The constructor on a host whose device works: the socket it leaves keeps the invariant of
    connection management, has no peers, holds what the registration of its memory gave, and numbers
    its clients from the number of servers on; a server found its number by its address, so that the
    metadata node can accept. *)
Theorem start_ready P cqs memory size c (sv : bool) d ip id : works P → (∀ a n r d, P a n r d → registered a n r d) → 0 ≤ junk < 2 ^ 16 →
  (if sv then 2 ≤ cqs else cqs = 1) → 0 ≤ memory < 2 ^ 64 → numbered c →
  (sv = true → own_address os_getifaddrs ip ∧ ip2id c !! ip = Some id ∧ 0 ≤ id < 2 ^ 16) →
  ∃ e, make_socket cqs memory size c sv 0 d = Done e ∧ started P e cqs memory size c sv d ∧
    (sv = true → MyNodeID (sk e) = id) ∧ (sv = true → id = 1 → numbering e).
Proof.
  intros Hw HP Hj Hn Hmem Hsc Hip.
  destruct (make_socket_started P cqs memory size c sv d ip id Hw HP Hj Hn Hmem Hsc Hip) as (e & E & Hst & Hid).
  exists e. split_and!; try done. intros Hsv Hone. destruct Hst. split; [done|congruence|rewrite Hid; done|].
  rewrite st_conf0, st_max0. unfold numbered in Hsc. lia.
Qed.
End start.

(** Whatever happens to the device. *)
Definition anyhow {Dev} (d d' : Dev) : Prop := True.
#[export] Instance anyhow_preorder {Dev} : PreOrder (@anyhow Dev).
Proof. by split. Qed.

(** Nothing happens to what is connected. *)
Definition undisturbed {Dev} `{VerbsLaws Dev, Fabric Dev} (d d' : Dev) : Prop := qps d' = qps d ∧ same_net d d'.
#[export] Instance undisturbed_preorder {Dev} `{FabricLaws Dev} : PreOrder undisturbed.
Proof.
  split; [by split; [|apply same_net_refl]|]. intros d1 d2 d3 [Hq1 H1'] [Hq2 H2']. split; [congruence|]. by eapply same_net_trans.
Qed.

(** The region of the memory is there under the local key. *)
Definition usable {Dev} `{VerbsLaws Dev} (a n : Z) (r : option (Z * Z)) (d : Dev) : Prop :=
  ∃ k, r = Some k ∧ 0 ≤ k.2 < 2 ^ 32 ∧ local_mr d k.1 = Some (a, n).

Lemma usable_registered {Dev} `{VerbsLaws Dev} a n r (d : Dev) : usable a n r d → registered a n r d.
Proof. intros (k & -> & Hk & _). by exists k. Qed.

#[local] Existing Instances Net.net_verbs Net.net_laws Net.net_ctl Net.net_os Net.net_fabric Net.net_fabric_laws.
#[local] Instance junk_byte : Junk := 165.

Lemma net_works : works (Dev := Net.device) undisturbed usable.
Proof.
  split; try (intros; intros d; eexists _, _; split; [reflexivity|by split; [eexists|]]).
  - intros d. eexists _, _. split; [reflexivity|]. split; [by do 2 eexists|done].
  - intros p a n l d. eexists _, _. split; [reflexivity|]. split.
    + eexists. split; [reflexivity|]. simpl. split; [apply Z.mod_pos_bound; lia|apply lookup_insert_eq].
    + split; [done|]. split; try done. split; try done. simpl. intros k r Hk.
      rewrite lookup_insert_ne; [done|]. intros <-. by rewrite Net.above_fresh in Hk.
Qed.

Lemma start_ready_witness : ∃ e, make_socket 2 4096 67108864 Example.config true 0 Example.waiting = Done e ∧ numbering e.
Proof.
  destruct (start_ready undisturbed usable 2 4096 67108864 Example.config true Example.waiting "10.0.0.1" 1)
    as (e & E & _ & _ & Hn).
  - exact net_works.
  - intros a n r d. apply usable_registered.
  - unfold junk, junk_byte. lia.
  - lia.
  - lia.
  - unfold numbered. change (Config.ServerCount Example.config) with 2. lia.
  - intros _. split; [|split; [done|lia]]. intros d. eexists _, _. split; [reflexivity|]. split; [by eexists|done].
  - exists e. split; [exact E|]. apply Hn; reflexivity.
Defined.
