(* ===== verification/RdmaConnFaults.v ===== *)
(** * Failing and stopping: the cleanup, the destructor, and the errors of the handshake. *)
From S2P Require Import Prelude Rdma RdmaLaws Wire Config RdmaConn RdmaConnLaws RdmaConnUp RdmaConnTheorems RdmaConnStart.
Local Open Scope Z_scope.

#[local] Existing Instances Net.net_verbs Net.net_laws Net.net_ctl Net.net_os Net.net_fabric Net.net_fabric_laws.
#[local] Instance junk_byte : Junk := 165.

(** ** Failing to start, and stopping *)

Section failures.
Context {Dev : Type} `{Verbs Dev, VerbsCtl Dev, Os Dev, Junk}.
Implicit Types (d : Dev) (e : Endpoint Dev).

(** Completion queues that can be destroyed. *)
Lemma wp_destroy_cqs (l : list Z) e (Q : unit → Endpoint Dev → Prop) : (∀ c, returns anyhow (ibv_destroy_cq c) (λ _, True)) →
  (∀ d, Q tt (set_dev d e)) →
  wp (for_each l (λ c, if c =? 0 then mret () else dcall (ibv_destroy_cq c);; mret ())) Q e.
Proof.
  intros Hd HQ. apply (wp_for_each (λ _ e', ∃ d, e' = set_dev d e)).
  - intros c l' e' [d ->]. destruct (c =? 0); [apply wp_ret; by exists d|]. apply wp_bind.
    eapply wp_returns; [apply Hd|]. intros r d' _ _. apply wp_ret. by exists d'.
  - intros e' [d ->]. apply HQ.
  - exists (dev (sk e)). by rewrite set_dev_self.
Qed.

(** When the constructor of a client fails before it has a protection domain - no device list, no
    device, no context, no port, no completion queue - the cleanup tests a pointer that was never set:
    no result is reported. *)
Theorem failed_start_faults (cqs memory size : Z) (c : Configuration) (mode : Z) d b e' :
  create_steps (blank cqs memory size c false mode d) = Done ((false, b), e') → pd e' = Garbage →
  (∀ q, returns anyhow (ibv_destroy_cq q) (λ _, True)) →
  make_socket cqs memory size c false mode d = Fault Uninit.
Proof.
  intros Hsteps Hpd Hd. unfold make_socket.
  assert (HC : CreateResources (blank cqs memory size c false mode d) = Fault Uninit).
  { unfold CreateResources. rewrite (outcome_bind_done _ _ _ _ _ Hsteps). cbn [fst snd negb]. apply outcome_bind_fault.
    unfold cleanup.
    assert (Hw : wp (for_each (cq (sk e')) (λ c, if c =? 0 then mret () else dcall (ibv_destroy_cq c);; mret ()))
      (λ _ e2, pd e2 = Garbage) e') by (by apply wp_destroy_cqs).
    apply wp_done in Hw as ([] & e2 & E2 & Hpd2).
    unfold gets at 1. unfold mbind, M_bind in *. simpl. rewrite E2. simpl. by rewrite Hpd2. }
  unfold mbind, M_bind in *. simpl. by rewrite HC.
Qed.

(** A loop that meets a fault does not return. *)
Lemma for_each_fault {S A} (I : S → Prop) (body : A → M S unit) l a : a ∈ l →
  (∀ s, I s → ∃ f, body a s = Fault f) → (∀ x s u s', I s → body x s = Done (u, s') → I s') →
  ∀ s, I s → ∃ f, for_each l body s = Fault f.
Proof.
  intros Ha Hf Hk. induction l as [|x l IH]; [by apply not_elem_of_nil in Ha|]. intros s Hs. simpl. unfold mbind, M_bind.
  destruct (body x s) as [[u s']|f] eqn:E; [|by exists f]. apply elem_of_cons in Ha as [->|Ha].
  - destruct (Hf s Hs) as [f Ef]. by rewrite Ef in E.
  - eapply IH; [done|by eapply Hk].
Qed.

Lemma dcall_keeps {A} (m : M Dev A) e a e' : dcall m e = Done (a, e') → peers (sk e') = peers (sk e).
Proof. unfold dcall, zoom. simpl. destruct (m _) as [[? ?]|]; [|done]. by intros [= <- <-]. Qed.

Lemma destroy_peer_keeps i e u e' : destroy_peer i e = Done (u, e') → peers (sk e') = peers (sk e).
Proof.
  unfold destroy_peer, gets, mbind, M_bind. destruct (i <? 1000); [|done].
  unfold or_fault. destruct (peers (sk e) !! i) as [p|]; [|done]. simpl. destruct (decide _); [done|].
  generalize (qp p). intros l. revert e u. induction l as [|q l IH]; intros e u; simpl; [by intros [= <- <-]|].
  unfold mbind, M_bind. destruct (dcall _ e) as [[r e1]|] eqn:E; [|done]. apply dcall_keeps in E. simpl.
  intros Hl%IH. congruence.
Qed.

(** The destructor walks the peers from 1 to the number of servers, so that a server that is one of
    them (it never connects to itself), or that has not met all the others, frees a pointer that was
    never set: ResourcesDestroy does not return. *)
Theorem destroy_server_faults e i : 1 ≤ i ≤ ServerCount e → peers (sk e) !! i = None →
  ∃ f, destroy_socket e = Fault f.
Proof.
  intros Hi Hp. unfold destroy_socket, ResourcesDestroy.
  destruct (for_each_fault (λ e', peers (sk e') = peers (sk e)) destroy_peer (seqZ 1 (ServerCount e)) i) with e as [f Ef].
  - apply elem_of_seqZ. lia.
  - intros e' He'. unfold destroy_peer, gets, mbind, M_bind. destruct (i <? 1000); [|by eexists].
    rewrite He', Hp. by eexists.
  - intros x s u s' Hs E%destroy_peer_keeps. congruence.
  - done.
  - exists f. unfold get, mbind, M_bind. by rewrite Ef.
Qed.

(** C38: Half a transfer is taken for a whole one.  A short write returns its positive count, which the
    callers do not take for an error, with nothing received; and a message that arrives in two parts
    leaves the second part at the start of the buffer, over the first. *)
Theorem partial_transfers_trusted (fuel : nat) (fd r : Z) (local buf a b : list Z) d d1 d2 d3 :
  length buf = length local → (length a + length b)%nat = length local → a ≠ [] → b ≠ [] →
  Z.of_nat (length local) < 2 ^ 31 → (2 ≤ fuel)%nat →
  (os_write fd local d = Done (r, d1) → 0 < r < Z.of_nat (length local) →
     DataSyncwithSocket fuel fd local buf d = Done ((r, buf), d1)) ∧
  (os_write fd local d = Done (Z.of_nat (length local), d1) →
   os_read fd (Z.of_nat (length local)) d1 = Done ((Z.of_nat (length a), a), d2) →
   os_read fd (Z.of_nat (length local)) d2 = Done ((Z.of_nat (length b), b), d3) →
     ∃ tail, DataSyncwithSocket fuel fd local buf d = Done ((0, b ++ tail), d3) ∧ length (b ++ tail) = length local).
Proof.
  intros Hbuf Hlen Ha Hb Hsz Hfuel. split.
  - intros Hw Hr. unfold DataSyncwithSocket. rewrite (outcome_bind_done _ _ _ _ _ Hw).
    rewrite (proj2 (Z.ltb_lt _ _)), (proj2 (Z.eqb_neq _ _)) by lia. done.
  - intros Hw Hr1 Hr2. unfold DataSyncwithSocket. rewrite (outcome_bind_done _ _ _ _ _ Hw).
    rewrite (proj2 (Z.ltb_ge _ _)) by lia. cbn [andb].
    assert (0 < length a)%nat by (destruct a; simpl; [done|lia]).
    assert (0 < length b)%nat by (destruct b; simpl; [done|lia]).
    destruct fuel as [|[|fuel]]; [lia..|]. cbn [sync_read]. rewrite (proj2 (Z.ltb_lt _ _)) by lia.
    rewrite (outcome_bind_done _ _ _ _ _ Hr1). cbn [fst snd]. rewrite (proj2 (Z.ltb_lt _ _)) by lia.
    rewrite s32_small by lia. rewrite (proj2 (Z.ltb_lt _ (Z.of_nat (length local)))) by lia.
    rewrite (outcome_bind_done _ _ _ _ _ Hr2). cbn [fst snd]. rewrite (proj2 (Z.ltb_lt _ _)) by lia.
    rewrite s32_small by lia. exists (drop (length b) (overwrite a buf)). split.
    + destruct fuel; cbn [sync_read]; rewrite (proj2 (Z.ltb_ge _ _)) by lia; done.
    + rewrite length_app, length_drop. unfold overwrite. rewrite length_app, length_drop. lia.
Qed.
End failures.

Section hang.
Context {Dev : Type} `{FabricLaws Dev} `{Junk}.
Implicit Types (d : Dev) (e : Endpoint Dev).

Abbreviation net e := (dev (sk e)).

(** C39: A peer that closes the connection before it has sent its number: read answers 0, which is
    stored as the result "no error", and ConnectQueuePair reads again for ever. *)
Theorem connect_hangs_on_eof e p fuel :
  (∀ d n, incoming d (peer_sock p) = [] → 0 < n →
     ∃ d', os_read (peer_sock p) n d = Done ((0, []), d') ∧ incoming d' (peer_sock p) = []) →
  incoming (net e) (peer_sock p) = [] → ConnectQueuePair fuel p e = Fault OutOfFuel.
Proof.
  intros Heof Hin. set (fd := peer_sock p) in *.
  assert (Hread : ∀ n d buf, incoming d fd = [] → sync_read n fd 6 buf 0 d = Fault OutOfFuel).
  { intros n. induction n as [|n IH]; intros d buf Hd; [done|]. cbn [sync_read Z.ltb Z.compare].
    destruct (Heof d 6 Hd ltac:(lia)) as (d' & E & Hd'). rewrite (outcome_bind_done _ _ _ _ _ E).
    cbn [fst snd Z.ltb Z.eqb Z.compare]. by apply IH. }
  unfold ConnectQueuePair, get. unfold mbind at 1, M_bind. unfold exchange, dcall. cbv beta zeta.
  assert (HD : ∀ local buf, length local = 6%nat → DataSyncwithSocket fuel fd local buf (net e) = Fault OutOfFuel).
  { intros local buf Hl. unfold DataSyncwithSocket. destruct (write_law (net e) fd local) as (d1 & E & _ & Hi & _).
    rewrite (outcome_bind_done _ _ _ _ _ E). rewrite Hl. change (Z.of_nat 6) with 6. cbn [Z.ltb Z.compare andb].
    change (6 <? 6) with false. cbn [andb]. apply Hread. by rewrite Hi. }
  fold fd. apply outcome_bind_fault, outcome_bind_fault. unfold zoom. simpl view.
  rewrite HD; [done|]. by rewrite to_bytes_length.
Qed.

(** The array of peers has 1000 entries.  When the numbers run out, node 1 completes the handshake
    with the next client and stores the peer outside the array. *)
Theorem thousandth_client_overruns e fd rid m rest fuel :
  numbering e → 1000 ≤ MaxNodeID e → id_isServer rid = 0 → id_fits rid → meta_fits m → (1 ≤ fuel)%nat →
  incoming (net e) fd = to_bytes rid ++ to_bytes m ++ rest →
  accept_one fuel fd e = Fault OutOfRange.
Proof.
  intros [He Hsv Hme Hcount] Hmax Hrid Hid Hm Hf Hin.
  assert (Hnum : numbers e rid = true) by (unfold numbers; by rewrite Hsv, Hrid, Hme).
  assert (Hnode : met_node rid e junk = MaxNodeID e) by (unfold met_node; by rewrite Hsv, Hnum).
  destruct (pick_cq (met rid e) (met_node rid e junk) (met_ok rid e He Hid)) as [c Hc].
  rewrite (met_same rid e (λ e, cq (sk e))) in Hc by done.
  assert (Hw : wp (ConnectQueuePair fuel (set_peer_counter 0 (new_peer fd junk)))
    (λ r _, r.1 = true ∧ peer_NodeID r.2 = MaxNodeID e) e).
  { eapply (wp_ConnectQueuePair e _ rid m rest); [done|done|exact Hin|by left|done..|exact Hc|]. intros d1 hs ns Hl Hj.
    split; [done|]. simpl. exact Hnode. }
  apply wp_done in Hw as ([ok p] & e' & E & Hok & Hn). unfold accept_one. rewrite (outcome_bind_done _ _ _ _ _ E).
  cbn [fst snd] in *. subst ok. cbn [negb]. apply outcome_bind_fault. unfold store_peer. rewrite Hn.
  by rewrite (proj2 (Z.ltb_ge _ _)) by lia.
Qed.
End hang.

(** ** A host without devices, whose connections deliver one chunk at each read *)

Module Broken.
Definition device : Type := mem * list (list Z).
#[export] Instance broken_verbs : Verbs device := {
  host := Lens fst (λ m d, (m, d.2));
  ibv_post_send _ _ := mret 22;
  ibv_post_recv _ _ := mret 22;
  ibv_poll_cq _ _ wc := mret (0, wc);
}.
#[export] Instance broken_ctl : VerbsCtl device := {
  ibv_get_device_list := mret None;
  ibv_free_device_list := mret ();
  ibv_open_device _ := mret None;
  ibv_close_device _ := mret 22;
  ibv_query_port _ _ := mret (22, 0);
  ibv_create_cq _ _ := mret None;
  ibv_destroy_cq _ := mret 22;
  ibv_alloc_pd _ := mret None;
  ibv_dealloc_pd _ := mret 22;
  ibv_reg_mr _ _ _ _ := mret None;
  ibv_dereg_mr _ := mret 22;
  ibv_create_qp _ _ := mret None;
  ibv_destroy_qp _ := mret 22;
  ibv_modify_qp _ _ _ := mret 22;
  ibv_query_qp _ := mret IBV_QPS_UNKNOWN;
  ibv_query_gid _ _ _ := mret (-1, []);
  qp_num _ _ := 0;
}.
#[export] Instance broken_os : Os device := {
  os_write _ bs := mret (Z.of_nat (length bs));
  os_read _ _ := λ d, match d.2 with
    | c :: l => Done ((Z.of_nat (length c), c), (d.1, l))
    | [] => Done ((0, []), d)
    end;
  os_socket := mret (-1);
  os_setsockopt _ := mret (-1);
  os_bind _ _ := mret (-1);
  os_listen _ := mret (-1);
  os_accept _ := mret (-1);
  os_connect _ _ _ := mret (-1);
  os_getifaddrs := mret None;
}.
Definition host : device := (λ _, 0, [[1; 2; 3; 4]; [5; 6]]).
End Broken.

Section broken.
#[local] Existing Instances Broken.broken_verbs Broken.broken_ctl Broken.broken_os.

Lemma failed_start_faults_witness :
  make_socket 1 4096 67108864 Example.config false 0 Broken.host = Fault Uninit.
Proof.
  eapply (failed_start_faults 1 4096 67108864 Example.config 0 Broken.host).
  - reflexivity.
  - reflexivity.
  - intros q d. by exists 22, d.
Defined.

Lemma partial_transfers_trusted_witness : ∃ tail,
  DataSyncwithSocket 2 3 [0; 0; 0; 0; 0; 0] [9; 9; 9; 9; 9; 9] Broken.host = Done ((0, [5; 6] ++ tail), (Broken.host.1, [])).
Proof.
  destruct (partial_transfers_trusted 2 3 0 [0; 0; 0; 0; 0; 0] [9; 9; 9; 9; 9; 9] [1; 2; 3; 4] [5; 6] Broken.host
    Broken.host (Broken.host.1, [[5; 6]]) (Broken.host.1, [])) as [_ Hpart].
  - done.
  - done.
  - done.
  - done.
  - simpl. lia.
  - lia.
  - destruct Hpart as (tail & E & _); [reflexivity|reflexivity|reflexivity|]. by exists tail.
Defined.
End broken.

Lemma destroy_server_faults_witness : ∃ f, destroy_socket Example.server = Fault f.
Proof. apply (destroy_server_faults Example.server 1); [simpl; lia|reflexivity]. Defined.

Lemma connect_hangs_on_eof_witness : ConnectQueuePair 1000 (new_peer 9 1) Example.client = Fault OutOfFuel.
Proof.
  apply (connect_hangs_on_eof Example.client (new_peer 9 1) 1000).
  - intros d n Hd Hn. eexists. simpl in *. rewrite Hd. simpl. rewrite Z.min_r, take_nil, drop_nil by lia.
    split; [reflexivity|]. simpl. apply Net.stream_eq.
  - reflexivity.
Defined.

Lemma thousandth_client_overruns_witness :
  accept_one 1 5 (Example.endpoint true [1; 2] 1 0 1000 Example.waiting) = Fault OutOfRange.
Proof.
  apply (thousandth_client_overruns (Example.endpoint true [1; 2] 1 0 1000 Example.waiting) 5 (ExId 0 0 0)
    (Example.meta_of 1) []).
  - split; [by apply Example.endpoint_ok|done..].
  - simpl. lia.
  - done.
  - done.
  - by apply Example.meta_of_fits.
  - lia.
  - reflexivity.
Defined.
