(* ===== verification/MetaClient.v ===== *)
(** * The client side of the metadata service: src/metadata/MetaClient.cpp.

    A call of the generated stub goes through gRPC, which is not part of the program: [Channel] says
    what happens to the [n]-th call.  A call whose request or reply is lost, or whose handler does not
    answer OK, leaves the reply message of the caller at its defaults. *)
From S2P Require Import Prelude FsInode MetaProto MetaServer.
Local Open Scope Z_scope.

Inductive fate := Delivered | RequestLost | ReplyLost.

Class Channel := rpc_fate : nat → fate.

Record grpc := Grpc {
  service : MetadataServiceImpl;
  rpcs : nat;     (* how many calls have been made *)
}.

Abbreviation Rpc := (M grpc).

(** [stub_->Handler(&context, request, &reply)]: [status.ok()] and the reply.  A handler that faults
    takes the server with it. *)
Definition stub `{Channel} {R} (empty : R) (handler : Srv (Status * R)) : Rpc (bool * R) := λ w,
  match rpc_fate (rpcs w) with
  | RequestLost => Done ((false, empty), Grpc (service w) (S (rpcs w)))
  | f =>
      match handler (service w) with
      | Fault e => Fault e
      | Done ((st, r), s') =>
          Done (match f, st with Delivered, OK => (true, r) | _, _ => (false, empty) end,
                Grpc s' (S (rpcs w)))
      end
  end.

(** [struct dentry_info] *)
Record dentry := Dent { d_name : string; d_is_dir : bool; d_inum : Z; d_size : Z }.

Module MetadataClient.
Section client.
Context `{StringHash, Rand, Channel}.

Definition SayHello (user : string) : Rpc string :=
  r ← stub {| hello_message := "" |} (MetaServer.SayHello {| hello_name := user |});
  mret (if (r.1 : bool) then hello_message r.2 else "RPC failed"%string).

(** The blocks, and the out parameter [byted_read]. *)
Definition ReadFile (filename : string) (offset length byted_read : Z) : Rpc (list FileBlockInfo * Z) :=
  r ← stub empty_ReadReply (MetaServer.ReadFile
        {| read_name := filename; read_offset := offset; read_length := length |});
  mret (if (r.1 : bool) then (read_block_info r.2, bytes_read r.2) else ([], byted_read)).

Definition WriteFile (filename : string) (offset length bytes_write' : Z) : Rpc (list FileBlockInfo * Z) :=
  r ← stub empty_WriteReply (MetaServer.WriteFile
        {| write_name := filename; write_offset := offset; write_length := length |});
  mret (if (r.1 : bool) then (write_block_info r.2, bytes_write r.2) else ([], bytes_write')).

(** The status and the inode number are not looked at. *)
Definition CreateFile (filename : string) : Rpc Z :=
  stub {| create_inum := 0 |} (MetaServer.CreateFile
    {| create_name := filename; create_is_dir := false |});;
  mret 0.

Definition CreateDiretory (path : string) : Rpc Z :=
  stub {| create_inum := 0 |} (MetaServer.CreateFile
    {| create_name := path; create_is_dir := true |});;
  mret 0.

Definition OpenFile (filename : string) : Rpc Z :=
  r ← stub {| open_fd := 0 |} (MetaServer.OpenFile {| open_name := filename; open_is_dir := false |});
  mret (s32 (open_fd r.2)).

Definition CloseFile (fd : Z) : Rpc bool :=
  r ← stub {| close_success := false |} (MetaServer.CloseFile {| close_fd := fd; close_is_dir := false |});
  mret (close_success r.2).

Definition RemoveFile (filename : string) : Rpc bool :=
  r ← stub {| remove_success := false |} (MetaServer.RemoveFile
        {| remove_name := filename; remove_is_dir := false |});
  mret (remove_success r.2).

Definition to_dentry (d : DentryInfo) : dentry :=
  Dent (dentry_name d) (dentry_is_dir d) (dentry_inum d) (dentry_size d).

(** The result, and the list the entries are pushed on. *)
Definition ReadDirectory (path : string) (dir_list : list dentry) : Rpc (Z * list dentry) :=
  r ← stub {| dentry_info := [] |} (MetaServer.ReadDirectory {| path := path |});
  mret (if (r.1 : bool) then (0, dir_list ++ (to_dentry <$> dentry_info r.2)) else (-1, dir_list)).

Definition RegisterMemoryRegion (nodeid addr length : Z) : Rpc Z :=
  r ← stub {| register_success := false |} (MetaServer.RegisterMemoryRegion
        {| nodeid := nodeid; addr := addr; region_length := length |});
  mret (if (r.1 : bool) then 0 else -1).

End client.
End MetadataClient.

(** ** Calls on a channel that delivers *)

Section delivered.
Context `{Channel}.

Lemma wp_stub {R} (empty : R) (h : Srv (Status * R)) Q w :
  rpc_fate (rpcs w) = Delivered →
  wp h (λ r s', Q (match r.1 with OK => (true, r.2) | _ => (false, empty) end) (Grpc s' (S (rpcs w)))) (service w) →
  wp (stub empty h) Q w.
Proof. intros Hd. unfold wp, stub. rewrite Hd. by destruct (h (service w)) as [[[[] r] s']|]. Qed.

(** A call that fails on the way looks the same whether the server has run it or not. *)
Lemma wp_stub_lost {R} (empty : R) (h : Srv (Status * R)) Q w :
  rpc_fate (rpcs w) = RequestLost → Q (false, empty) (Grpc (service w) (S (rpcs w))) →
  wp (stub empty h) Q w.
Proof. intros Hd. unfold wp, stub. by rewrite Hd. Qed.

Lemma wp_stub_unanswered {R} (empty : R) (h : Srv (Status * R)) Q w :
  rpc_fate (rpcs w) = ReplyLost →
  wp h (λ _ s', Q (false, empty) (Grpc s' (S (rpcs w)))) (service w) →
  wp (stub empty h) Q w.
Proof. intros Hd. unfold wp, stub. rewrite Hd. by destruct (h (service w)) as [[[[] r] s']|]. Qed.
End delivered.
