(* ===== verification/Client.v ===== *)
(** * The file system client: [class Client] of src/client/Client.cpp.

    The state of a call is the metadata server behind its channel and the RDMA socket of the client,
    whose device holds the memory of the process and of the storage nodes.  [pf] is the patience of
    every polling loop below. *)
From S2P Require Import Prelude FsInode MetaProto MetaServer MetaClient Rdma RdmaLaws.
Local Open Scope Z_scope.

Record world (Dev : Type) := World {
  net : grpc;
  sock : RdmaSocket Dev;
}.
Arguments World {_} _ _.
Arguments net {_} _.
Arguments sock {_} _.

Definition channel {Dev} : lens (world Dev) grpc := Lens net (λ g w, World g (sock w)).
Definition socket {Dev} : lens (world Dev) (RdmaSocket Dev) := Lens sock (λ s w, World (net w) s).

Module Client.
Section client.
Context {Dev : Type} `{Verbs Dev} `{Sched, StringHash, Rand} `{chan : Channel}.

(** [for (auto &block : block_info_list)]: every block is moved to [user_buf] itself; [local_offset],
    which the loop adds up, is not used.  [RemoteRead] takes the server as a [uint16_t].  The result
    says whether the loop ran to its end. *)
Fixpoint read_list (pf : nat) (user_buf : Z) (block_info_list : list FileBlockInfo) :
    M (RdmaSocket Dev) bool :=
  match block_info_list with
  | [] => mret true
  | block :: blocks =>
      ret ← RemoteRead pf user_buf (u16 (serverid block)) (mem_offset block) (length_ block);
      if negb ret then mret false else read_list pf user_buf blocks
  end.

Fixpoint write_list (pf : nat) (user_buf : Z) (block_info_list : list FileBlockInfo) :
    M (RdmaSocket Dev) bool :=
  match block_info_list with
  | [] => mret true
  | block :: blocks =>
      ret ← RemoteWrite pf user_buf (u16 (serverid block)) (mem_offset block) (length_ block);
      if negb ret then mret false else write_list pf user_buf blocks
  end.

(** The result is an [int], the count a [uint64_t]. *)
Definition read (pf : nat) (filename : string) (user_buf offset length : Z) : M (world Dev) Z :=
  r ← zoom channel (MetadataClient.ReadFile filename offset length 0);
  done ← zoom socket (read_list pf user_buf r.1);
  mret (if (done : bool) then s32 r.2 else -1).

Definition write (pf : nat) (filename : string) (user_buf offset length : Z) : M (world Dev) Z :=
  r ← zoom channel (MetadataClient.WriteFile filename offset length 0);
  done ← zoom socket (write_list pf user_buf r.1);
  mret (if (done : bool) then s32 r.2 else -1).

Definition create (filename : string) : M (world Dev) Z :=
  zoom channel (MetadataClient.CreateFile filename).

End client.
End Client.

(** ** What is stored *)

Section views.
Context {Dev : Type} `{VerbsLaws Dev}.

(** The byte at offset [a] of the region of node [k], as the client addresses it. *)
Definition region (s : RdmaSocket Dev) (k : Z) : Z := default 0 (RegisteredMemory <$> peers s !! k).
Definition node_byte (s : RdmaSocket Dev) (k a : Z) : Z := remote_mem (dev s) k (region s k + a).
End views.
