(* ===== verification/ClientLaws.v ===== *)
(** * The transfers of the client, block by block. *)
From S2P Require Import Prelude FsInode IdPool FsTable FsFiles FsSpace MetaProto MetaServer MetaPlan.
From S2P Require Import MetaInv MetaSteps MetaHandlers MetaRpc MetaSpec MetaRefine MetaFacts.
From S2P Require Import Rdma RdmaLaws MetaClient Client.
Local Open Scope Z_scope.

Lemma wpe_zoom {S T A} (l : lens S T) (m : nat → M T A) Q (s : S) :
  wpe m (λ a t, Q a (update l t s)) (view l s) → wpe (λ pf, zoom l (m pf)) Q s.
Proof.
  intros (a & t & [K HK] & HQ). exists a, (update l t s). split; [|done]. exists K. intros pf Hpf.
  unfold zoom. by rewrite HK.
Qed.

(** ** Plans *)

Section plans.
Context `{StringHash, RandLaws}.

Lemma a_loc_inj s h f o o' k a : service_inv s → a_files (abs s) !! h = Some f → 0 ≤ o → 0 ≤ o' →
  a_loc f o = Some (k, a) → a_loc f o' = Some (k, a) → o = o'.
Proof.
  intros Hs Hf Ho Ho'. unfold a_loc.
  destruct (af_blocks f !! Z.to_nat (o / FILE_BLOCK_SIZE)) as [[k1 nr1]|] eqn:E1; [|done].
  destruct (af_blocks f !! Z.to_nat (o' / FILE_BLOCK_SIZE)) as [[k2 nr2]|] eqn:E2; [|done].
  intros [= -> Ha] [= -> Ha']. pose proof FILE_BLOCK_SIZE_eq.
  pose proof (Z.mod_pos_bound o FILE_BLOCK_SIZE ltac:(lia)). pose proof (Z.mod_pos_bound o' FILE_BLOCK_SIZE ltac:(lia)).
  pose proof (Z.div_mod o FILE_BLOCK_SIZE ltac:(lia)). pose proof (Z.div_mod o' FILE_BLOCK_SIZE ltac:(lia)).
  pose proof (Z.div_pos o FILE_BLOCK_SIZE ltac:(lia) ltac:(lia)). pose proof (Z.div_pos o' FILE_BLOCK_SIZE ltac:(lia) ltac:(lia)).
  assert (nr1 = nr2) as <- by (eapply (block_of_addr nr1 nr2 a); lia).
  destruct (inv_no_sharing s h h f f _ _ _ Hs Hf Hf E1 E2) as [_ Hj%Z2Nat.inj]; [|done..]. lia.
Qed.

(** An entry of a plan is a piece of the file. *)
Lemma plan_entry f off len es e x : plan_bytes es = a_bytes f off len → e ∈ es → 0 ≤ x < length_ e →
  0 ≤ buff_offset e + x < len ∧
  a_loc f (off + (buff_offset e + x)) = Some (serverid e, mem_offset e + x).
Proof.
  intros Hp He Hx.
  assert (Hin : (buff_offset e + x, Some (serverid e, mem_offset e + x)) ∈ plan_bytes es).
  { apply list_elem_of_bind. exists e. split; [|done]. apply list_elem_of_fmap. exists x.
    split; [done|]. apply elem_of_seqZ. lia. }
  rewrite Hp in Hin. apply list_elem_of_fmap in Hin as (y & [= -> Hl] & Hy%elem_of_seqZ). split; [lia|done].
Qed.

Lemma plan_length es f off len e : plan_bytes es = a_bytes f off len → 0 ≤ len → e ∈ es → length_ e ≤ len.
Proof.
  intros Hp Hl He. destruct (decide (0 < length_ e)); [|lia].
  destruct (plan_entry f off len es e 0 Hp He) as [Hb1 _]; [lia|].
  destruct (plan_entry f off len es e (length_ e - 1) Hp He) as [Hb2 _]; [lia|]. lia.
Qed.

Lemma plan_nodup s h f off len es : service_inv s → a_files (abs s) !! h = Some f → 0 ≤ off →
  plan_bytes es = a_bytes f off len → NoDup (plan_bytes es).*2.
Proof.
  intros Hs Hf Ho Hp.
  assert (Hsome : ∀ p, p ∈ plan_bytes es → is_Some p.2).
  { intros p (e & He & _)%list_elem_of_bind. apply list_elem_of_fmap in He as (x & -> & _). done. }
  rewrite Hp in *. unfold a_bytes in *. rewrite <- list_fmap_compose.
  apply NoDup_fmap_2_strong; [|apply NoDup_seqZ]. simpl.
  intros x y Hx Hy Hxy. pose proof Hx as Hx'%elem_of_seqZ. pose proof Hy as Hy'%elem_of_seqZ.
  destruct (Hsome (x, a_loc f (off + x))) as [[k a] Hka].
  { apply list_elem_of_fmap. eauto. }
  simpl in Hka. rewrite Hka in Hxy.
  enough (off + x = off + y) by lia. eapply (a_loc_inj s h f); eauto; lia.
Qed.

(** The addresses of an entry lie in the region of its server. *)
Lemma plan_region s h f off len es e : service_inv s → a_files (abs s) !! h = Some f →
  plan_bytes es = a_bytes f off len → e ∈ es → 0 < length_ e →
  ∃ t, a_total (abs s) !! serverid e = Some t ∧
    0 ≤ mem_offset e ∧ mem_offset e + length_ e ≤ t * FILE_BLOCK_SIZE.
Proof.
  intros Hs Hf Hp He Hl. pose proof FILE_BLOCK_SIZE_eq.
  destruct (plan_entry f off len es e 0 Hp He) as [_ Hc1]; [lia|].
  destruct (plan_entry f off len es e (length_ e - 1) Hp He) as [_ Hc2]; [lia|].
  apply a_loc_block in Hc1 as (nr & Hnr & Hr), Hc2 as (nr' & Hnr' & Hr').
  destruct (inv_in_region _ _ _ _ _ Hs Hf Hnr) as (t & Ht & Hb).
  destruct (inv_in_region _ _ _ _ _ Hs Hf Hnr') as (t' & Ht' & Hb').
  exists t. split; [done|]. assert (t' = t) by congruence. nia.
Qed.
End plans.

(** ** Lists of blocks *)

Section lists.
Context {Dev : Type} `{VerbsLaws Dev, Sched}.
Implicit Types (s : RdmaSocket Dev).

Abbreviation hmem s := (view host (dev s)).

(** A buffer of the caller, apart from the staging pool. *)
Record user_buffer s (buf len : Z) : Prop := {
  ub_range : 0 ≤ buf ∧ buf + len ≤ 2 ^ 64;
  ub_pool : 0 ≤ mm s ∧ mm s + 4 * 1024 + SendPoolSize ≤ 2 ^ 64;
  ub_apart : buf + len ≤ SendPoolAddr s 0 ∨ SendPoolAddr s 0 + SendPoolSize ≤ buf;
}.

(** The pool of the client's thread is registered under the key of the socket. *)
Definition pool_registered s : Prop :=
  ∃ k, mr s = Ptr k ∧ covers (local_mr (dev s) k.1) (mm s + 4 * 1024) SendPoolSize.

(** The block can be moved from or to the buffer: its server is connected, holds it and has registered
    it under the key of the peer. *)
Definition reachable s (e : FileBlockInfo) : Prop :=
  0 ≤ length_ e < 4 * 1024 * 1024 ∧
  (0 < length_ e → ∃ p q, linked s 0 (serverid e) p q ∧ 0 ≤ mem_offset e ∧
     0 ≤ RegisteredMemory p ∧ mem_offset e + RegisteredMemory p + length_ e ≤ 2 ^ 64 ∧
     covers (remote_mr (dev s) (serverid e) (peer_rkey p)) (mem_offset e + RegisteredMemory p) (length_ e)).

Lemma user_buffer_same s s' buf len : user_buffer s buf len → same_sock s s' → user_buffer s' buf len.
Proof.
  intros [Hr Hp Ha] (_&_&_&_&Hm&_). split; [done|by rewrite Hm|]. unfold SendPoolAddr in *. by rewrite Hm.
Qed.

Lemma user_buffer_le s buf len len' : user_buffer s buf len → 0 ≤ len' ≤ len → user_buffer s buf len'.
Proof. intros [Hr Hp Ha] Hl. split; [lia|done|lia]. Qed.

Lemma user_buffer_outside s buf len x : user_buffer s buf len → 0 ≤ x < len → outside_pool s 0 (buf + x).
Proof. intros [Hr Hp Ha] Hx. unfold outside_pool. lia. Qed.

Lemma pool_registered_same s s' : pool_registered s → same_sock s s' → pool_registered s'.
Proof. intros (k & Hk & Hc) (_&_&_&_&Hm&Hmr&_&_&Hl&_). exists k. rewrite Hm, Hmr, Hl. done. Qed.

Lemma reachable_same s s' e : reachable s e → same_sock s s' → reachable s' e.
Proof.
  intros [Hl Hr] Hs. split; [done|]. intros Hpos. destruct (Hr Hpos) as (p & q & Hlk & Hrest).
  exists p, q. split; [by eapply linked_same|]. destruct Hs as (_&_&_&_&_&_&_&_&_&Hrm). by rewrite Hrm.
Qed.

Lemma region_same s s' k : same_sock s s' → region s' k = region s k.
Proof. intros (Hp&_). unfold region. by rewrite Hp. Qed.

Lemma region_peer s T n p q : linked s T n p q → region s n = RegisteredMemory p.
Proof. intros [_ _ Hp _ _]. unfold region. by rewrite Hp. Qed.

Lemma linked_u16 s T n p q : linked s T n p q → u16 n = n.
Proof. intros [Hn _ _ _ _]. unfold u16. apply Z.mod_small. lia. Qed.

Lemma user_ranges s n p q buf len e : linked s 0 n p q → user_buffer s buf len → pool_registered s →
  0 ≤ length_ e ≤ len → 0 ≤ mem_offset e → 0 ≤ RegisteredMemory p → mem_offset e + RegisteredMemory p + length_ e ≤ 2 ^ 64 →
  covers (remote_mr (dev s) n (peer_rkey p)) (mem_offset e + RegisteredMemory p) (length_ e) →
  ranges s 0 n p buf (mem_offset e) (length_ e).
Proof.
  intros Hlk [Hr Hp Ha] (k & Hk & Hc) Hl Hm Hrp Hr2 Hcov. split; try lia; [|done].
  exists k. split; [done|]. rewrite pool_addr by lia. by rewrite Z.add_0_r.
Qed.

(** What a single block leaves. *)
Record moved_out s s' (buf : Z) (es : list FileBlockInfo) : Prop := {
  mo_same : same_sock s s';
  mo_host a : outside_pool s 0 a → hmem s' a = hmem s a;
  mo_there e x : e ∈ es → 0 ≤ x < length_ e →
    node_byte s' (serverid e) (mem_offset e + x) = hmem s (buf + x);
  mo_else k a : Some (k, a) ∉ (plan_bytes es).*2 → node_byte s' k a = node_byte s k a;
}.

Record moved_in s s' (buf : Z) (e : FileBlockInfo) : Prop := {
  mi_same : same_sock s s';
  mi_here x : 0 ≤ x < length_ e → hmem s' (buf + x) = node_byte s (serverid e) (mem_offset e + x);
  mi_else a : outside_pool s 0 a → a < buf ∨ buf + length_ e ≤ a → hmem s' a = hmem s a;
  mi_nodes k a : node_byte s' k a = node_byte s k a;
}.

Lemma entry_elem e k a : Some (k, a) ∈ (entry_bytes e).*2 ↔
  k = serverid e ∧ mem_offset e ≤ a < mem_offset e + length_ e.
Proof.
  unfold entry_bytes. rewrite <- list_fmap_compose, list_elem_of_fmap. simpl. split.
  - intros (x & [= -> ->] & Hx%elem_of_seqZ). lia.
  - intros [-> Ha]. exists (a - mem_offset e). split; [|apply elem_of_seqZ; lia]. do 2 f_equal. lia.
Qed.

Lemma plan_bytes_cons e es : (plan_bytes (e :: es)).*2 = (entry_bytes e).*2 ++ (plan_bytes es).*2.
Proof. unfold plan_bytes. simpl. apply fmap_app. Qed.

Lemma wpe_write_block s e buf len (Q : bool → RdmaSocket Dev → Prop) :
  WriteTest s = Some false → pool_registered s → reachable s e → user_buffer s buf len → length_ e ≤ len →
  (∀ s', moved_out s s' buf [e] → Q true s') →
  wpe (λ pf, RemoteWrite pf buf (u16 (serverid e)) (mem_offset e) (length_ e)) Q s.
Proof.
  intros Ht Hpr [Hl Hr] Hub Hlen HQ. destruct (decide (0 < length_ e)) as [Hpos|Hz].
  - destruct (Hr Hpos) as (p & q & Hlk & Hm & Hrp & Hr2 & Hcov). rewrite (linked_u16 _ _ _ _ _ Hlk).
    eapply wpe_RemoteWrite; [done|eapply user_ranges; [done|done|done|lia|done..]|done|lia|].
    intros s' [Hsame Hh Hrm Ho]. apply HQ. split; [done|done| |].
    + intros e' x ->%list_elem_of_singleton Hx. unfold node_byte. rewrite (region_same _ _ _ Hsame), (region_peer _ _ _ _ _ Hlk).
      rewrite Hrm, copy_in by lia. f_equal. lia.
    + intros k a Hka. unfold node_byte. rewrite (region_same _ _ _ Hsame).
      destruct (decide (k = serverid e)) as [->|Hne]; [|by apply Ho].
      rewrite (region_peer _ _ _ _ _ Hlk), Hrm, copy_out; [done|].
      rewrite plan_bytes_cons, elem_of_app, entry_elem in Hka. lia.
  - assert (length_ e = 0) as -> by lia. exists true, (set_signal (u16 (TransferSignal s + 1)) s).
    split; [by exists 0%nat|]. apply HQ. split; [apply same_sock_signal|done| |done].
    intros e' x ->%list_elem_of_singleton. lia.
Qed.

Lemma wpe_write_list s es buf len (Q : bool → RdmaSocket Dev → Prop) :
  WriteTest s = Some false → pool_registered s → Forall (reachable s) es → user_buffer s buf len → Forall (λ e, length_ e ≤ len) es →
  NoDup (plan_bytes es).*2 → (∀ s', moved_out s s' buf es → Q true s') →
  wpe (λ pf, Client.write_list pf buf es) Q s.
Proof.
  revert s Q. induction es as [|e es IH]; intros s Q Ht Hpr Hr Hub Hlen Hnd HQ; cbn [Client.write_list].
  { apply wpe_pure. wp_auto. apply HQ. split; [apply same_sock_refl|done|by intros ?? ?%not_elem_of_nil|done]. }
  apply Forall_cons in Hr as [Hre Hr], Hlen as [Hle Hlen].
  rewrite plan_bytes_cons in Hnd. apply NoDup_app in Hnd as (_ & Hdis & Hnd).
  apply wpe_bind. eapply wpe_write_block; [done..|]. intros s1 [Hs1 Hh1 Ht1 He1]. cbn [negb].
  apply IH; [by destruct Hs1 as (_&_&_&_&_&_&->&_)|by eapply pool_registered_same| |by eapply user_buffer_same|done|done|].
  { eapply Forall_impl; [exact Hr|]. intros e' He'. by eapply reachable_same. }
  intros s2 [Hs2 Hh2 Ht2 He2]. apply HQ.
  assert (Hpool : ∀ a, outside_pool s1 0 a ↔ outside_pool s 0 a).
  { intros a. unfold outside_pool, SendPoolAddr. by destruct Hs1 as (_&_&_&_&->&_). }
  split.
  - by eapply same_sock_trans.
  - intros a Ha. rewrite Hh2 by by apply Hpool. by apply Hh1.
  - intros e' x [->|He']%elem_of_cons Hx.
    + rewrite He2; [by apply Ht1; [left|]|]. apply Hdis, entry_elem. split; [done|lia].
    + rewrite Ht2 by done. apply Hh1. eapply user_buffer_outside; [done|].
      pose proof (proj1 (Forall_forall _ _) Hlen e' He'). simpl in *. lia.
  - intros k a. rewrite plan_bytes_cons, not_elem_of_app. intros [Hne Hnes].
    rewrite He2 by done. apply He1. rewrite plan_bytes_cons, not_elem_of_app. split; [done|apply not_elem_of_nil].
Qed.

Lemma wpe_read_block s e buf len (Q : bool → RdmaSocket Dev → Prop) :
  pool_registered s → reachable s e → user_buffer s buf len → length_ e ≤ len →
  (∀ s', moved_in s s' buf e → Q true s') →
  wpe (λ pf, Client.read_list pf buf [e]) Q s.
Proof.
  intros Hpr [Hl Hr] Hub Hlen HQ. cbn [Client.read_list]. apply wpe_bind. destruct (decide (0 < length_ e)) as [Hpos|Hz].
  - destruct (Hr Hpos) as (p & q & Hlk & Hm & Hrp & Hr2 & Hcov). rewrite (linked_u16 _ _ _ _ _ Hlk).
    eapply wpe_RemoteRead; [done|eapply user_ranges; [done|done|done|lia|done..]|lia|].
    intros s' [Hsame Hh Hrm]. cbn [negb]. apply wpe_pure. wp_auto. apply HQ. split; [done|..].
    + intros x Hx. rewrite Hh by (eapply user_buffer_outside; [done|lia]). rewrite copy_in by lia.
      unfold node_byte. rewrite (region_peer _ _ _ _ _ Hlk). f_equal. lia.
    + intros a Ha Hout. by rewrite Hh, copy_out.
    + intros k a. unfold node_byte. by rewrite (region_same _ _ _ Hsame), Hrm.
  - assert (length_ e = 0) as -> by lia. exists true, (set_signal (u16 (TransferSignal s + 1)) s).
    split; [by exists 0%nat|]. cbn [negb]. apply wpe_pure. wp_auto. apply HQ. split; [apply same_sock_signal|lia|done|done].
Qed.
End lists.
