(* ===== verification/ClientTheorems.v ===== *)
(** * Theorems on the client: what a read or a write of the file system moves, end to end, through the
    metadata server and the RDMA transfers. *)
From S2P Require Import Prelude FsInode IdPool FsTable FsFiles FsSpace MetaProto MetaServer MetaPlan.
From S2P Require Import MetaInv MetaSteps MetaHandlers MetaRpc MetaSpec MetaRefine MetaFacts.
From S2P Require Import Rdma RdmaLaws RdmaTheorems MetaClient Client ClientLaws.
Local Open Scope Z_scope.

Section client.
Context {Dev : Type} `{VerbsLaws Dev} `{Sched, StringHash, RandLaws} `{chan : Channel}.
Implicit Types (w : world Dev).

Abbreviation hmem w := (view host (dev (sock w))).
Abbreviation state w := (abs (service (net w))).

(** The byte at [off] of the file of hash [h], where the metadata says it is. *)
Definition file_byte w (h off : Z) : option Z :=
  f ← a_files (state w) !! h;
  '(k, a) ← a_loc f off;
  Some (node_byte (sock w) k a).

(** A client in operation: the metadata server is well-formed, the client's own memory is registered, and
    every storage server it knows is connected, with a region that holds the blocks it registered and
    is open under the key the client has. *)
Record ready w : Prop := {
  rd_inv : service_inv (service (net w));
  rd_test : WriteTest (sock w) = Some false;
  rd_pool : pool_registered (sock w);
  rd_links k t : a_total (state w) !! k = Some t → ∃ p q, linked (sock w) 0 k p q ∧
    0 ≤ RegisteredMemory p ∧ t * FILE_BLOCK_SIZE + RegisteredMemory p ≤ 2 ^ 64 ∧
    covers (remote_mr (dev (sock w)) k (peer_rkey p)) (RegisteredMemory p) (t * FILE_BLOCK_SIZE);
}.

Definition write_rq (name : string) (off len : Z) : WriteRequest :=
  {| write_name := name; write_offset := off; write_length := len |}.
Definition read_rq (name : string) (off len : Z) : ReadRequest :=
  {| read_name := name; read_offset := off; read_length := len |}.

(** The blocks of a plan can be moved. *)
Lemma ready_reachable w s' h f off len es : ready w → service_inv s' → a_total (abs s') = a_total (state w) →
  a_files (abs s') !! h = Some f → plan_bytes es = a_bytes f off len → a_tidy f off len es →
  Forall (reachable (sock w)) es.
Proof.
  intros Hr Hs' Htot Hf Hp [Hl _]. apply Forall_forall. intros e He.
  pose proof (proj1 (Forall_forall _ _) Hl e He) as Hle. simpl in Hle. pose proof FILE_BLOCK_SIZE_eq.
  split; [lia|]. intros Hpos.
  destruct (plan_region s' h f off len es e Hs' Hf Hp He Hpos) as (t & Ht & Hm1 & Hm2).
  rewrite Htot in Ht. destruct (rd_links _ Hr _ _ Ht) as (p & q & Hlk & Hreg & Hfit & Hcov).
  exists p, q. split_and!; [done..|lia|]. eapply covers_inside; [exact Hcov|lia..].
Qed.

Lemma wpe_write w name buf off len (Q : Z → world Dev → Prop) :
  ready w → admissible (state w) (CWrite (write_rq name off len)) → rpc_fate (rpcs (net w)) = Delivered →
  user_buffer (sock w) buf len → len < 2 ^ 31 →
  (∀ wr s' k', MetaServer.WriteFile (write_rq name off len) (service (net w)) = Done (OK, wr, s') →
    service_inv s' → promises_write (state w) (write_rq name off len) wr (abs s') →
    moved_out (sock w) k' buf (write_block_info wr) →
    Q len (World (Grpc s' (S (rpcs (net w)))) k')) →
  wpe (λ pf, Client.write pf name buf off len) Q w.
Proof.
  intros Hr Hadm Hd Hub Hmax HQ. unfold Client.write. apply wpe_bind, wpe_pure. wp_auto.
  unfold MetadataClient.WriteFile. wp_auto. apply wp_stub; [done|].
  pose proof (serve_write (service (net w)) (write_rq name off len) (rd_inv _ Hr) Hadm) as Hw.
  apply wp_done in Hw as ([st wr] & s' & E & Hs' & [Hst Hp]). simpl in Hst, Hp. subst st.
  apply wp_done. exists (OK, wr), s'. split; [exact E|]. wp_auto. cbn [fst snd].
  pose proof Hp as (f & news & _ & Hset & _ & _ & _ & Hbw & Hplan & Htidy). simpl in Hbw.
  set (f' := AFile _ _ _ _ _) in *.
  assert (Hf' : a_files (abs s') !! std_hash name = Some f') by (rewrite Hset; apply lookup_insert_eq).
  assert (Htot : a_total (abs s') = a_total (state w)) by by rewrite Hset.
  destruct Hadm as (_ & Ho & Hl & _). simpl in Ho, Hl.
  apply wpe_bind, wpe_zoom. cbn [view socket sock channel update].
  eapply wpe_write_list; [apply Hr|apply Hr|by eapply ready_reachable|done| |exact (plan_nodup _ _ _ _ _ _ Hs' Hf' Ho Hplan)|].
  - apply Forall_forall. intros e He. by eapply plan_length.
  - intros k' Hk'. apply wpe_pure. wp_auto. rewrite Hbw, s32_small by lia. by apply (HQ wr).
Qed.

(** What an entry of the written plan means for the file. *)
Lemma written_byte w name off len wr s' k' buf e x :
  promises_write (state w) (write_rq name off len) wr (abs s') →
  moved_out (sock w) k' buf (write_block_info wr) → e ∈ write_block_info wr → 0 ≤ x < length_ e →
  file_byte (World (Grpc s' (S (rpcs (net w)))) k') (std_hash name) (off + (buff_offset e + x)) =
    Some (hmem w (buf + x)).
Proof.
  intros (f & news & _ & Hset & _ & _ & _ & _ & Hplan & _) Hm He Hx. set (f' := AFile _ _ _ _ _) in *.
  unfold file_byte. cbn [net sock service]. rewrite Hset. cbn [a_files set_files write_name write_rq write_offset write_length] in *. rewrite lookup_insert_eq. cbn.
  destruct (plan_entry _ _ _ _ _ _ Hplan He Hx) as [_ ->]. simpl. f_equal. by apply (mo_there _ _ _ _ Hm).
Qed.

(** A read inside one block moves it to the buffer. *)
Lemma wpe_read w name f buf off len (Q : Z → world Dev → Prop) :
  ready w → a_files (state w) !! std_hash name = Some f → 0 ≤ off → 0 < len → off + len ≤ af_size f →
  off + len < 2 ^ 64 → off `mod` FILE_BLOCK_SIZE + len ≤ FILE_BLOCK_SIZE →
  rpc_fate (rpcs (net w)) = Delivered → user_buffer (sock w) buf len →
  (∀ s' k', (∀ x, 0 ≤ x < len → Some (view host (dev k') (buf + x)) = file_byte w (std_hash name) (off + x)) →
    Q len (World (Grpc s' (S (rpcs (net w)))) k')) →
  wpe (λ pf, Client.read pf name buf off len) Q w.
Proof.
  intros Hr Hf Ho Hl He He2 Hin Hd Hub HQ. pose proof FILE_BLOCK_SIZE_eq.
  pose proof (Z.mod_pos_bound off FILE_BLOCK_SIZE ltac:(lia)).
  unfold Client.read. apply wpe_bind, wpe_pure. wp_auto.
  unfold MetadataClient.ReadFile. wp_auto. apply wp_stub; [done|].
  eapply wp_mono; [apply serve_read; [apply Hr|exists f; simpl; split_and!; [done|lia..]]|].
  intros [st rr] s' [Hs' [Hst Hp]]. simpl in Hst, Hp. subst st. wp_auto. cbn [fst snd].
  destruct Hp as [Heq (f0 & Hf0 & Hb & Hplan & Htidy)].
  cbn [read_name read_offset read_length read_rq] in *.
  assert (f0 = f) as -> by congruence. rewrite Z.min_l in * by lia.
  pose proof Htidy as [_ Hone]. destruct (Hone Hl Hin) as (k & a & Hloc & Hes).
  apply wpe_bind, wpe_zoom. cbn [view socket sock channel update].
  assert (Hreach : Forall (reachable (sock w)) (read_block_info rr)).
  { eapply (ready_reachable w s'); [done|done|by rewrite Heq|by rewrite Heq|exact Hplan|exact Htidy]. }
  rewrite Hes in Hreach, Hplan |- *. apply Forall_cons in Hreach as [Hre _].
  eapply wpe_read_block; [apply Hr|done|done|done|]. intros k' Hk'. apply wpe_pure. wp_auto. rewrite Hb, s32_small by lia.
  apply HQ. intros x Hx. rewrite (mi_here _ _ _ _ Hk') by done. unfold file_byte. rewrite Hf. simpl.
  destruct (plan_entry f off len _ _ x Hplan ltac:(by left) Hx) as [_ Hlx]. simpl in Hlx.
  rewrite Z.add_0_l in Hlx. rewrite Hlx. done.
Qed.

Lemma ready_write w s' k' name off len wr buf es r : ready w → service_inv s' →
  promises_write (state w) (write_rq name off len) wr (abs s') → moved_out (sock w) k' buf es →
  ready (World (Grpc s' r) k').
Proof.
  intros [Hi Ht Hp Hl] Hs' (f & news & _ & Hset & _) [Hsame _ _ _]. split; [done| |by eapply pool_registered_same|].
  - cbn [sock]. by destruct Hsame as (_&_&_&_&_&_&->&_).
  - intros k t. cbn [net sock service]. rewrite Hset. cbn [a_total set_files]. intros Hk. destruct (Hl k t Hk) as (p & q & Hlk & Hrest).
    exists p, q. split; [by eapply linked_same|]. destruct Hsame as (_&_&_&_&_&_&_&_&_&Hrm). by rewrite Hrm.
Qed.

(** C2: Read your writes, end to end: a write inside one block followed by a read of any part of it
    returns the bytes of the writer's buffer.  The write goes to the storage server the metadata
    server chose, through the staging pool; the read finds it again. *)
Theorem client_roundtrip w name buf off len rbuf roff rlen :
  ready w → admissible (state w) (CWrite (write_rq name off len)) →
  (∀ n, rpc_fate n = Delivered) → user_buffer (sock w) buf len → user_buffer (sock w) rbuf rlen →
  off `mod` FILE_BLOCK_SIZE + len ≤ FILE_BLOCK_SIZE →
  off ≤ roff → 0 < rlen → roff + rlen ≤ off + len →
  ∃ w1 w2, ev (λ pf, Client.write pf name buf off len) w len w1 ∧
    ev (λ pf, Client.read pf name rbuf roff rlen) w1 rlen w2 ∧
    ∀ x, 0 ≤ x < rlen → hmem w2 (rbuf + x) = hmem w (buf + (roff - off) + x).
Proof.
  intros Hr Hadm Hd Hub Hrb Hin Hro Hrl Hre. pose proof FILE_BLOCK_SIZE_eq.
  pose proof (Z.mod_pos_bound off FILE_BLOCK_SIZE ltac:(lia)) as Hmod0.
  pose proof Hadm as (_ & Ho & Hl & Hoe & _). simpl in Ho, Hl, Hoe.
  destruct (wpe_write w name buf off len (λ r w1, r = len ∧ ∃ wr s' k', service_inv s' ∧
    promises_write (state w) (write_rq name off len) wr (abs s') ∧
    moved_out (sock w) k' buf (write_block_info wr) ∧ w1 = World (Grpc s' (S (rpcs (net w)))) k'))
    as (? & w1 & Hev1 & -> & wr & s' & k' & Hs' & Hp & Hm & Hw1); [done..|lia| |].
  { intros wr s' k' E Hs' Hp Hm. split; [done|]. by exists wr, s', k'. }
  pose proof Hp as (f & news & _ & Hset & _ & _ & _ & _ & _ & Htidy). set (f' := AFile _ _ _ _ _) in *.
  destruct (proj2 Htidy) as (k & a & _ & Hes); [simpl; lia|done|].
  assert (Hr1 : ready w1) by (subst w1; by eapply ready_write).
  assert (Hmod : roff `mod` FILE_BLOCK_SIZE = off `mod` FILE_BLOCK_SIZE + (roff - off)).
  { symmetry. apply (Z.mod_unique_pos _ _ (off / FILE_BLOCK_SIZE)); [lia|].
    pose proof (Z.div_mod off FILE_BLOCK_SIZE ltac:(lia)). lia. }
  destruct (wpe_read w1 name f' rbuf roff rlen (λ r w2, r = rlen ∧
    ∀ x, 0 ≤ x < rlen → Some (hmem w2 (rbuf + x)) = file_byte w1 (std_hash name) (roff + x)))
    as (? & w2 & Hev2 & -> & Hb); [done| |lia|done|simpl; lia|lia|lia|apply Hd| | |].
  { subst w1. cbn [net service]. rewrite Hset. apply lookup_insert_eq. }
  { subst w1. cbn [sock]. eapply user_buffer_same; [done|apply Hm]. }
  { intros s2 k2 Hk2. split; [done|]. simpl. exact Hk2. }
  exists w1, w2. split_and!; [done..|]. intros x Hx. apply (inj Some). rewrite Hb by done. subst w1.
  pose proof (written_byte w name off len wr s' k' buf (BlockInfo (off / FILE_BLOCK_SIZE) k a len 0) (roff - off + x) Hp Hm) as Hwb.
  rewrite Hes in Hwb. simpl in Hwb.
  replace (roff + x) with (off + (0 + (roff - off + x))) by lia.
  replace (buf + (roff - off) + x) with (buf + (roff - off + x)) by lia.
  apply Hwb; [by left|lia].
Qed.

(** C4: A write of a client, of any length below 2 GB (the result is an int), changes no byte of
    another file: neither where the bytes are nor what they are. *)
Theorem client_write_isolated w name buf off len :
  ready w → admissible (state w) (CWrite (write_rq name off len)) →
  rpc_fate (rpcs (net w)) = Delivered → user_buffer (sock w) buf len → len < 2 ^ 31 →
  ∃ w', ev (λ pf, Client.write pf name buf off len) w len w' ∧ ready w' ∧
    ∀ h o, h ≠ std_hash name → 0 ≤ o → file_byte w' h o = file_byte w h o.
Proof.
  intros Hr Hadm Hd Hub Hmax.
  destruct (wpe_write w name buf off len (λ r w1, r = len ∧ ready w1 ∧
    ∀ h o, h ≠ std_hash name → 0 ≤ o → file_byte w1 h o = file_byte w h o))
    as (? & w1 & Hev1 & -> & Hres); [done..| |by exists w1].
  intros wr s' k' E Hs' Hp Hm. split; [done|]. split; [by eapply ready_write|]. intros h o Hne Ho.
  destruct Hp as (f & news & _ & Hset & _ & _ & _ & _ & Hplan & _). set (f' := AFile _ _ _ _ _) in *.
  assert (Hf' : a_files (abs s') !! std_hash name = Some f') by (rewrite Hset; apply lookup_insert_eq).
  assert (Hsame : a_files (abs s') !! h = a_files (state w) !! h).
  { rewrite Hset. cbn [a_files set_files]. by rewrite lookup_insert_ne. }
  unfold file_byte. cbn [net sock service]. rewrite Hsame. destruct (a_files (state w) !! h) as [g|] eqn:Hg; [|done]. simpl.
  destruct (a_loc g o) as [[k a]|] eqn:Hloc; [|done]. simpl. f_equal. apply (mo_else _ _ _ _ Hm).
  intros Hin. apply list_elem_of_fmap in Hin as ([pos l] & Hl & Hin). simpl in Hl. subst l.
  rewrite Hplan in Hin. apply list_elem_of_fmap in Hin as (x & [= -> Hlx] & _). symmetry in Hlx.
  destruct (a_loc_block _ _ _ _ Hlx) as (nr & Hnr & Hra). destruct (a_loc_block _ _ _ _ Hloc) as (nr' & Hnr' & Hra').
  assert (nr' = nr) as -> by by eapply block_of_addr.
  apply list_elem_of_lookup in Hnr as [j Hj], Hnr' as [j' Hj'].
  destruct (inv_no_sharing s' h (std_hash name) g f' j' j (k, nr) Hs') as [? _]; [congruence|done..].
Qed.

(** C33: A write of a client that spans several blocks stores the beginning of the buffer in each of
    them: the buffer is not advanced from one block of the plan to the next, so byte [x] of the block
    that starts at position [buff_offset e] of the range is byte [x] of the buffer, not byte
    [buff_offset e + x]. *)
Theorem client_write_repeats w name buf off len :
  ready w → admissible (state w) (CWrite (write_rq name off len)) →
  rpc_fate (rpcs (net w)) = Delivered → user_buffer (sock w) buf len → len < 2 ^ 31 →
  ∃ wr w', ev (λ pf, Client.write pf name buf off len) w len w' ∧
    MetaServer.WriteFile (write_rq name off len) (service (net w)) = Done (OK, wr, service (net w')) ∧
    ∀ e x, e ∈ write_block_info wr → 0 ≤ x < length_ e →
      file_byte w' (std_hash name) (off + (buff_offset e + x)) = Some (hmem w (buf + x)).
Proof.
  intros Hr Hadm Hd Hub Hmax.
  destruct (wpe_write w name buf off len (λ r w1, r = len ∧ ∃ wr,
    MetaServer.WriteFile (write_rq name off len) (service (net w)) = Done (OK, wr, service (net w1)) ∧
    ∀ e x, e ∈ write_block_info wr → 0 ≤ x < length_ e →
      file_byte w1 (std_hash name) (off + (buff_offset e + x)) = Some (hmem w (buf + x))))
    as (? & w1 & Hev1 & -> & wr & Hres); [done..| |by exists wr, w1].
  intros wr s' k' E Hs' Hp Hm. split; [done|]. exists wr. split; [done|].
  intros e x He Hx. by eapply written_byte.
Qed.

(** C34: When the reply to a write is lost, the client reports that nothing was written and moves no
    byte, while the server has given the file its new size: the range then holds whatever the blocks
    held before. *)
Theorem client_lost_reply w name buf off len :
  service_inv (service (net w)) → admissible (state w) (CWrite (write_rq name off len)) →
  rpc_fate (rpcs (net w)) = ReplyLost →
  ∃ f w', (∀ pf, Client.write pf name buf off len w = Done (0, w')) ∧ sock w' = sock w ∧
    a_files (state w') !! std_hash name = Some f ∧ af_size f = off + len.
Proof.
  intros Hs Hadm Hd. pose proof (serve_write (service (net w)) _ Hs Hadm) as Hw.
  apply wp_done in Hw as ([st wr] & s' & E & _ & [_ (f & news & _ & Hset & _)]). set (f' := AFile _ _ _ _ _) in *.
  exists f', (World (Grpc s' (S (rpcs (net w)))) (sock w)). split_and!; [|done| |done].
  - intros pf. unfold Client.write, MetadataClient.WriteFile, stub, zoom, mbind, M_bind. simpl.
    rewrite Hd. unfold write_rq in E. rewrite E. by destruct st.
  - cbn [net service]. rewrite Hset. apply lookup_insert_eq.
Qed.
End client.

(** ** A client of the running example

    Two storage nodes of the ideal fabric, connected with the queue pairs 10 to 12 and 20 to 22. *)
Module ClientDemo.
#[export] Existing Instances Demo.demo_hash Demo.demo_rand Demo.demo_rand_laws Ideal.ideal_verbs Ideal.ideal_laws.

#[export] Instance reliable : Channel := λ _, Delivered.
#[export] Instance any_sched : Sched := λ _, false.

Definition fabric : Ideal.device :=
  Ideal.Mk (λ a, a `mod` 251) (λ _ _, 0) {[10 := 1; 11 := 1; 12 := 1; 20 := 2; 21 := 2; 22 := 2]}
    {[10 := 5; 11 := 5; 12 := 5; 20 := 5; 21 := 5; 22 := 5]}
    (λ k, if k =? 9 then Some (0, 4194304) else None)
    (λ n k, if (n =? 1) && (k =? 77) then Some (65536, 2 ^ 40)
            else if (n =? 2) && (k =? 78) then Some (131072, 2 ^ 40) else None) [].

Definition node2 : PeerSockData := Peer [20; 21; 22] 5 [] 131072 78 0 [] 4 2 0.

Definition socket0 : RdmaSocket Ideal.device :=
  Socket {[1 := Ideal.node1; 2 := node2]} [5] false 3 0 (Ptr (9, 10)) 0 [0; 0] [0; 0] (Some false) fabric.

Definition world0 : world Ideal.device := World (Grpc Demo.demo 0) socket0.

Lemma world0_ready : ready world0.
Proof.
  split; [exact Demo.demo_inv|done|exists (9, 10); by split|]. cbn [net service world0]. rewrite Demo.demo_abs.
  intros k t. cbn [a_total]. rewrite lookup_insert_Some, lookup_singleton_Some.
  intros [[<- <-]|[_ [<- <-]]].
  - exists Ideal.node1, 11. split; [by split|]. done.
  - exists node2, 21. split; [by split|]. done.
Qed.

Lemma buffer0 buf len : 4194304 ≤ buf → 0 ≤ len → buf + len ≤ 2 ^ 64 → user_buffer socket0 buf len.
Proof.
  intros. split; [lia|done|]. right. change (SendPoolAddr socket0 0 + SendPoolSize) with 1052672. lia.
Qed.

(** A write to "a" that needs no new block. *)
Lemma inside_admissible off len : 0 ≤ off → 0 ≤ len → off + len ≤ 3145728 →
  admissible (abs Demo.demo) (CWrite (write_rq "a" off len)).
Proof.
  intros Ho Hl He. rewrite Demo.demo_abs.
  set (A := AState _ _ _).
  assert (Hz : added A (write_rq "a" off len) = 0).
  { unfold added, blocks_added, blocks_needed. cbn [write_name write_offset write_length write_rq].
    change (Z.of_nat (length (file_at A "a"))) with 3. change FILE_BLOCK_SIZE with 1048576.
    assert ((off + len + 1048576 - 1) / 1048576 < 4) by (apply Z.div_lt_upper_bound; lia).
    rewrite u64_small by lia. lia. }
  split; [left; eexists; reflexivity|]. rewrite Hz. cbn [write_offset write_length write_rq].
  change FILE_BLOCK_SIZE with 1048576. split_and!; [lia..| |lia]. intros ?. lia.
Qed.
End ClientDemo.
Import ClientDemo.

Lemma client_roundtrip_witness :
  ∃ w1 w2, ev (λ pf, Client.write pf "a" 5000000 5 20) world0 20 w1 ∧
    ev (λ pf, Client.read pf "a" 6000000 7 4) w1 4 w2 ∧
    Ideal.memory (dev (sock w2)) 6000003 = 5000005 `mod` 251.
Proof.
  destruct (client_roundtrip world0 "a" 5000000 5 20 6000000 7 4) as (w1 & w2 & E1 & E2 & Hb).
  - exact world0_ready.
  - by apply inside_admissible.
  - done.
  - by apply buffer0.
  - by apply buffer0.
  - done.
  - done.
  - done.
  - done.
  - exists w1, w2. split; [exact E1|]. split; [exact E2|]. exact (Hb 3 ltac:(lia)).
Defined.

Lemma client_write_isolated_witness :
  ∃ w', ev (λ pf, Client.write pf "a" 5000000 0 3000000) world0 3000000 w' ∧ ready w' ∧
    ∀ o, 0 ≤ o → file_byte w' 2 o = file_byte world0 2 o.
Proof.
  destruct (client_write_isolated world0 "a" 5000000 0 3000000) as (w' & E & Hr & Hb).
  - exact world0_ready.
  - by apply inside_admissible.
  - done.
  - by apply buffer0.
  - done.
  - exists w'. split; [exact E|]. split; [exact Hr|]. intros o Ho. by apply Hb.
Defined.

(** The second part of the range, which should hold the buffer from its third byte on, holds it from
    the first. *)
Lemma client_write_repeats_witness :
  ∃ w', ev (λ pf, Client.write pf "a" 5000000 1048574 4) world0 4 w' ∧
    file_byte w' (std_hash "a") (1048574 + 2) = Some (5000000 `mod` 251) ∧ 5000000 `mod` 251 ≠ 5000002 `mod` 251.
Proof.
  destruct (client_write_repeats world0 "a" 5000000 1048574 4) as (wr & w' & E & Hwr & Hb).
  - exact world0_ready.
  - by apply inside_admissible.
  - done.
  - by apply buffer0.
  - done.
  - exists w'. split; [exact E|]. split; [|done].
    assert (Hes : write_block_info wr = [BlockInfo 0 1 1048574 2 0; BlockInfo 1 2 0 2 2]).
    { apply (f_equal (λ o, match o with Done (_, r, _) => write_block_info r | Fault _ => [] end)) in Hwr.
      rewrite <- Hwr. vm_compute. reflexivity. }
    pose proof (Hb (BlockInfo 1 2 0 2 2) 0 ltac:(rewrite Hes; right; left)
      (conj (Z.le_refl 0) eq_refl)) as Hx.
    cbn [buff_offset] in Hx. rewrite Z.add_0_r in Hx. rewrite Hx. reflexivity.
Defined.

Lemma client_lost_reply_witness :
  let lossy : Channel := λ _, ReplyLost in
  ∃ f w', (∀ pf, Client.write (chan := lossy) pf "a" 5000000 5 20 world0 = Done (0, w')) ∧ af_size f = 25.
Proof.
  intros lossy.
  destruct (client_lost_reply (chan := lossy) world0 "a" 5000000 5 20) as (f & w' & E & _ & _ & Hsz).
  - exact Demo.demo_inv.
  - by apply inside_admissible.
  - done.
  - exists f, w'. split; [exact E|exact Hsz].
Defined.
