(* ===== verification/Storage.v ===== *)
(** * Starting the processes: src/storage/StorageServer.cpp, src/server/spongestorage.cpp, and the
    constructor of src/client/Client.cpp.

    A socket carries the device of its process; the metadata server is reached over the channel.  The
    file system calls of the storage server are the class [Mmap]. *)
From S2P Require Import Prelude FsInode MetaProto MetaServer MetaClient Rdma Wire Config RdmaConn Client.
Local Open Scope Z_scope.

Class Mmap (Dev : Type) := {
  os_open : string → M Dev Z;
  os_mmap : Z → Z → M Dev (option Z);      (* [None]: MAP_FAILED *)
  os_munmap : Z → Z → M Dev Z;
  os_close : Z → M Dev Z;
}.

(** The pointer -1. *)
Definition MAP_FAILED : Z := 2 ^ 64 - 1.

Record Pool := MkPool { dev_fd : Z; size : Z; MemoryBaseAddress : Z }.

Section storage.
Context {Dev : Type} `{Verbs Dev, VerbsCtl Dev, Os Dev, Mmap Dev, Junk}.

(** [Pool::Pool]: a failure is only printed. *)
Definition make_pool (dev : string) (_size : Z) : M Dev Pool :=
  fd ← os_open dev;
  mmptr ← os_mmap _size fd;
  mret (MkPool fd _size (default MAP_FAILED mmptr)).

Definition destroy_pool (p : Pool) : M Dev unit :=
  os_munmap (MemoryBaseAddress p) (size p);;
  os_close (dev_fd p);;
  mret ().

Definition getMemoryBaseAddress (p : Pool) : Z := MemoryBaseAddress p.
Definition getSize (p : Pool) : Z := size p.

Record StorageServer := Storage { rdmaSocket : Endpoint Dev; pool : Pool; listening : Z }.

(** [StorageServer::StorageServer]; [pt] is what the configuration file holds, [d] the device of the
    process.  The socket that is listened on is the accepting thread's. *)
Definition make_storage_server `{StringHash, Rand, Channel} (pt : ptree) (device : string) (sz : Z) (d : Dev) :
    Rpc StorageServer := λ w,
  let config := make_configuration pt in
  match make_pool device sz d with
  | Fault f => Fault f
  | Done (p, d) =>
      match make_socket 2 (getMemoryBaseAddress p) (getSize p) config true 0 d with
      | Fault f => Fault f
      | Done e =>
          match (sock ← RdmaListen; id ← getNodeID; mret (sock, id)) e with
          | Fault f => Fault f
          | Done ((sock, id), e) =>
              (MetadataClient.RegisterMemoryRegion id (getMemoryBaseAddress p) (getSize p);;
               mret (Storage e p sock)) w
          end
      end
  end.

(** [n * m] on [int32_t]. *)
Definition mul_int (n m : Z) : outcome Z :=
  if (- 2 ^ 31 <=? n * m) && (n * m <? 2 ^ 31) then Done (n * m) else Fault Overflow.

(** [absl::GetFlag(FLAGS_dax_size) * 1024 * 1024], as a [size_t]. *)
Definition device_size (dax_size : Z) : outcome Z :=
  match mul_int dax_size 1024 with
  | Done n => match mul_int n 1024 with Done n => Done (u64 n) | Fault f => Fault f end
  | Fault f => Fault f
  end.

(** [main] of spongestorage, up to the loop that waits for ever. *)
Definition storage_main `{StringHash, Rand, Channel} (pt : ptree) (dax_dev : string) (dax_size : Z) (d : Dev) :
    Rpc StorageServer :=
  match device_size dax_size with
  | Done n => make_storage_server pt dax_dev n d
  | Fault f => fail f
  end.

(** [Client::Client()]: [buffer] is what [new char[bufferSize]] returns; the workers of the socket are
    modelled where they are used. *)
Definition bufferSize : Z := 1 * 1024 * 1024 * 1024.

Definition make_client (fuel : nat) (pt : ptree) (buffer : Z) (d : Dev) (w : grpc) : outcome (world Dev) :=
  match make_socket 1 buffer bufferSize (make_configuration pt) false 0 d with
  | Fault f => Fault f
  | Done e =>
      match RdmaConnect fuel e with
      | Fault f => Fault f
      | Done (_, e) => Done (World w (sk e))
      end
  end.
End storage.
