(* ===== verification/StartTheorems.v ===== *)
(** * Theorems on starting the processes: the sizes, what a storage server registers, and that a client
    which has started is one for which the theorems on reading and writing hold. *)
From S2P Require Import Prelude FsInode IdPool FsTable FsFiles FsSpace MetaProto MetaServer MetaPlan.
From S2P Require Import MetaInv MetaSteps MetaHandlers MetaRpc MetaSpec MetaRefine MetaFacts.
From S2P Require Import Rdma RdmaLaws Config Wire RdmaConn RdmaConnLaws RdmaConnUp RdmaConnTheorems RdmaConnStart.
From S2P Require Import MetaClient Client ClientLaws ClientTheorems Storage.
Local Open Scope Z_scope.

(** C40: The size the storage server maps: [dax_size] MB as long as that is less than 2 GB, and signed
    overflow from 2048 MB on. *)
Theorem device_size_bounds z : - 2 ^ 31 ≤ z < 2 ^ 31 →
  device_size z = if (-2048 <=? z) && (z <? 2048) then Done (u64 (z * 2 ^ 20)) else Fault Overflow.
Proof.
  intros Hz. unfold device_size, mul_int.
  destruct (Z.leb_spec (- 2 ^ 31) (z * 1024)); [|rewrite (proj2 (Z.leb_gt _ _)) by lia; done]. cbn [andb].
  destruct (Z.ltb_spec (z * 1024) (2 ^ 31)); [|rewrite (proj2 (Z.ltb_ge _ _)) by lia; by rewrite andb_false_r].
  replace (z * 1024 * 1024) with (z * 2 ^ 20) by lia.
  destruct (Z.leb_spec (-2048) z); [rewrite (proj2 (Z.leb_le _ _)) by lia|by rewrite (proj2 (Z.leb_gt _ _)) by lia].
  cbn [andb]. destruct (Z.ltb_spec z 2048); [by rewrite (proj2 (Z.ltb_lt _ _)) by lia|by rewrite (proj2 (Z.ltb_ge _ _)) by lia].
Qed.

Lemma device_size_bounds_witness : device_size 10 = Done 10485760 ∧ device_size 2048 = Fault Overflow.
Proof.
  split; [refine (eq_trans (device_size_bounds 10 _) _); [lia|reflexivity]|].
  refine (eq_trans (device_size_bounds 2048 _) _); [lia|reflexivity].
Defined.

(** ** The storage server *)

Section storage.
Context {Dev : Type} `{Verbs Dev, VerbsCtl Dev, Os Dev, Mmap Dev, Junk} `{StringHash, RandLaws, Channel}.
Context (keeps : Dev → Dev → Prop) `{!PreOrder keeps}.
Implicit Types (d : Dev) (w : grpc).

(** The system calls that listen return; their results are not looked at. *)
Record listens : Prop := {
  li_socket : returns keeps os_socket (λ _, True);
  li_setsockopt fd : returns keeps (os_setsockopt fd) (λ _, True);
  li_bind fd p : returns keeps (os_bind fd p) (λ _, True);
  li_listen fd : returns keeps (os_listen fd) (λ _, True);
}.

Lemma wp_RdmaListen (e : Endpoint Dev) Q : listens →
  (∀ sock d', keeps (dev (sk e)) d' → Q sock (set_dev d' e)) → wp RdmaListen Q e.
Proof.
  intros Hl HQ. unfold RdmaListen.
  apply wp_bind. eapply wp_returns; [apply Hl|]. intros sock d1 _ H1'.
  apply wp_bind. eapply wp_returns; [apply Hl|]. intros ? d2 _ H2'. apply wp_bind, wp_gets.
  apply wp_bind. eapply wp_returns; [apply Hl|]. intros ? d3 _ H3'.
  apply wp_bind. eapply wp_returns; [apply Hl|]. intros ? d4 _ H4'. apply wp_ret.
  apply HQ. simpl in *. by repeat (etrans; [done|]).
Qed.

(** The region of the pool, as it is registered. *)
Definition region_of (id base n : Z) : RegisterMemoryRegionRequest :=
  {| nodeid := id; addr := base; region_length := n |}.

Lemma make_storage_server_done pt device n d w p d1 e id sock e2 r w' :
  make_pool device n d = Done (p, d1) →
  make_socket 2 (MemoryBaseAddress p) (size p) (make_configuration pt) true 0 d1 = Done e →
  RdmaListen e = Done (sock, e2) → MyNodeID (sk e2) = id →
  MetadataClient.RegisterMemoryRegion id (MemoryBaseAddress p) (size p) w = Done (r, w') →
  make_storage_server pt device n d w = Done (Storage e2 p sock, w').
Proof.
  intros Hp He Hl <- Hr. unfold make_storage_server. rewrite Hp. unfold getMemoryBaseAddress, getSize. rewrite He.
  unfold mbind at 1, M_bind. rewrite Hl. unfold getNodeID, gets. unfold mbind at 1, M_bind. cbn [mret M_ret].
  unfold mbind, M_bind. by rewrite Hr.
Qed.

(** The first multiple of [k] from [a] on. *)
Definition round_up (k a : Z) : Z := (a + k - 1) / k * k.

Lemma round_up_unique k a x : 0 < k → x `mod` k = 0 → a ≤ x < a + k → x = round_up k a.
Proof.
  intros Hk Hm Hx. unfold round_up. pose proof (Z.div_mod x k ltac:(lia)) as Hd.
  assert ((a + k - 1) / k = x / k) as ->; [|lia]. symmetry. apply (Z.div_unique_pos _ _ _ (a + k - 1 - x)); lia.
Qed.

(** C20: A storage server that starts on a working host, with its number in the configuration and its
    device mapped, has a socket in the invariant of connection management, and the metadata server
    gets exactly the whole aligned blocks of its memory under that number: from the first multiple of
    the block size in the mapping as many as fit before its end; nothing else of the metadata
    changed. *)
Theorem storage_server_registers P pt device n d w ip id base :
  works keeps P → (∀ a n r d, P a n r d → registered a n r d) → listens → 0 ≤ junk < 2 ^ 16 → numbered (make_configuration pt) →
  own_address keeps os_getifaddrs ip → ip2id (make_configuration pt) !! ip = Some id → 0 ≤ id < 2 ^ 16 →
  returns keeps (os_open device) (λ _, True) →
  (∀ fd, returns keeps (os_mmap n fd) (λ r, r = Some base)) →
  0 ≤ base → FILE_BLOCK_SIZE ≤ n < 2 ^ 64 → base + n ≤ 2 ^ 64 →
  rpc_fate (rpcs w) = Delivered → service_inv (service w) → used_on (abs (service w)) id = ∅ →
  Z.of_nat (base.size (a_total (abs (service w)))) + 1 < 2 ^ 31 →
  ∃ ss w', make_storage_server pt device n d w = Done (ss, w') ∧
    conn_ok (rdmaSocket ss) ∧ MyNodeID (sk (rdmaSocket ss)) = id ∧ mm (sk (rdmaSocket ss)) = base ∧
    service_inv (service w') ∧
    let start := round_up FILE_BLOCK_SIZE base in
    let t := (base + n - start) / FILE_BLOCK_SIZE in
      0 ≤ t ∧ start + t * FILE_BLOCK_SIZE ≤ base + n < start + (t + 1) * FILE_BLOCK_SIZE ∧
      abs (service w') = AState (a_files (abs (service w))) (a_fds (abs (service w)))
                           (<[id := t]> (a_total (abs (service w)))).
Proof.
  intros Hw HP Hl Hj Hsc Hown Hid Hidr Hopen Hmap Hb Hn Hend Hd Hs Hidle Hsz.
  destruct (Hopen d) as (fd & d0 & Eo & _ & _). destruct (Hmap fd d0) as (mp & d1 & Em & -> & _).
  assert (Hp : make_pool device n d = Done (MkPool fd n base, d1)).
  { unfold make_pool. rewrite (outcome_bind_done _ _ _ _ _ Eo). by rewrite (outcome_bind_done _ _ _ _ _ Em). }
  pose proof FILE_BLOCK_SIZE_eq as HB.
  destruct (make_socket_started keeps P 2 base n (make_configuration pt) true d1 ip id) as (e & Ee & Hst & Hme);
    [done|done|done|lia|lia|done|done|].
  assert (Hlw : wp RdmaListen (λ _ e', ∃ d', e' = set_dev d' e) e) by (apply wp_RdmaListen; eauto).
  apply wp_done in Hlw as (sock & e2 & El & d2 & ->).
  assert (Hreg : wp (MetadataClient.RegisterMemoryRegion id base n) (λ _ w', service_inv (service w') ∧
    promises_register (abs (service w)) (region_of id base n) {| register_success := false |} (abs (service w'))) w).
  { unfold MetadataClient.RegisterMemoryRegion. apply wp_bind, wp_stub; [done|].
    eapply wp_mono; [apply (serve_register (service w) (region_of id base n)); [done|]|].
    - split_and!; simpl; done || lia.
    - intros [[] r] s' [Hs' [Hok Hpr]]; [|done]. apply wp_ret. simpl. split; [done|]. exact Hpr. }
  apply wp_done in Hreg as (r & w' & Er & Hs' & start & Hal & Hst' & Habs). simpl in Hst', Habs.
  exists (Storage (set_dev d2 e) (MkPool fd n base) sock), w'. split.
  { eapply make_storage_server_done; [exact Hp|exact Ee|exact El|exact (Hme eq_refl)|exact Er]. }
  assert (Hpg : conn_ok (set_dev d2 e)) by (destruct (st_ok _ _ _ _ _ _ _ _ _ Hst); by split).
  assert (HB0 : 0 < FILE_BLOCK_SIZE) by (rewrite HB; lia).
  rewrite <- (round_up_unique FILE_BLOCK_SIZE base start HB0 Hal Hst').
  pose proof (Z.div_mod (base + n - start) FILE_BLOCK_SIZE ltac:(lia)).
  pose proof (Z.mod_pos_bound (base + n - start) FILE_BLOCK_SIZE ltac:(lia)).
  pose proof (Z.div_pos (base + n - start) FILE_BLOCK_SIZE ltac:(lia) ltac:(lia)).
  split_and!; [done|exact (Hme eq_refl)|apply Hst|done|]. cbv zeta. split_and!; [done|lia|lia|exact Habs].
Qed.

(** The calls of the cleanup return. *)
Record cleans : Prop := {
  cl_cq q : returns keeps (ibv_destroy_cq q) (λ _, True);
  cl_pd p : returns keeps (ibv_dealloc_pd p) (λ _, True);
  cl_ctx c : returns keeps (ibv_close_device c) (λ _, True);
}.

(** The memory could not be registered: everything is given back. *)
Lemma unregistered_resources (e : Endpoint Dev) : works keeps (λ _ _ r _, r = None) → cleans → DeviceName e = None →
  length (cq (sk e)) = Z.to_nat (cqNum e) →
  wp CreateResources (λ ok e', ok = false ∧ mr (sk e') = Null ∧ pd e' = Null ∧ ctx e' = Null ∧
    MyNodeID (sk e') = MyNodeID (sk e)) e.
Proof.
  intros Hw Hc Hn Hl. unfold CreateResources. apply wp_bind. eapply wp_create_steps; [done|done|done|done|].
  intros e1 l c p r -> _ _ Ec Ep Em _ _ _ _ _ _ _ Eme _ _ _ _. cbn [fst snd]. rewrite bool_decide_false by by intros [].
  cbn [negb]. apply wp_bind. unfold cleanup. apply wp_bind, wp_gets, wp_bind.
  apply (wp_for_each (λ _ e', ∃ d, e' = set_dev d e1)).
  - intros q l' e' [d ->]. destruct (q =? 0); [apply wp_ret; by exists d|]. apply wp_bind.
    eapply wp_returns; [apply (cl_cq Hc)|]. intros ? d' _ _. apply wp_ret. by exists d'.
  - intros e' [d ->]. apply wp_bind, wp_get, wp_bind. cbn [pd set_dev with_sk]. unfold test_slot at 1.
    change (pd (set_dev d e1)) with (pd e1). rewrite Ep. apply wp_ret, wp_bind, wp_bind.
    eapply wp_returns; [apply (cl_pd Hc)|]. intros ? d2 _ _. apply wp_modify, wp_bind. unfold test_slot at 1.
    change (ctx (set_dev d e1)) with (ctx e1). rewrite Ec. apply wp_ret, wp_bind, wp_bind.
    eapply wp_returns; [apply (cl_ctx Hc)|]. intros ? d3 _ _. apply wp_modify, wp_ret, wp_ret. simpl. by rewrite Em.
  - exists (dev (sk e1)). by rewrite set_dev_self.
Qed.

Lemma make_socket_unregistered memory size c d ip id : works keeps (λ _ _ r _, r = None) → cleans →
  own_address keeps os_getifaddrs ip → ip2id c !! ip = Some id →
  ∃ e, make_socket 2 memory size c true 0 d = Done e ∧ mr (sk e) = Null ∧ MyNodeID (sk e) = id.
Proof.
  intros Hw Hc Haddr Hid. unfold make_socket. set (e0 := blank 2 memory size c true 0 d).
  match goal with |- context [match ?b e0 with _ => _ end] => assert (Hbody : wp b (λ _ e,
    mr (sk e) = Null ∧ MyNodeID (sk e) = id) e0) end.
  { apply wp_bind, wp_bind. unfold getIP. apply wp_dcall, wp_bind.
    destruct (Haddr (dev (sk e0))) as (a & d' & E & (l & -> & Hl) & Hk). apply wp_done. eexists _, _. split; [exact E|].
    apply wp_bind. eapply wp_or_fault; [reflexivity|]. eapply wp_or_fault; [exact Hl|].
    apply wp_bind, wp_zoom, wp_done. eexists _, _. split; [by apply getIDbyIP_conf|]. unfold set_MyNodeID. wp_auto.
    eapply wp_mono; [by apply unregistered_resources|]. intros r e (_ & ? & _ & _ & ?). by wp_auto. }
  apply wp_done in Hbody as ([] & e & E & Hmr & Hme). rewrite E. by exists e.
Qed.

(** C37: A storage server whose device cannot be mapped starts all the same.  It has no memory to offer,
    its memory region is null, and still the metadata server gets [(n - 1) / FILE_BLOCK_SIZE] blocks
    for it to place files in. *)
Theorem unmapped_pool_registered pt device n d w ip id :
  works keeps (λ _ _ r _, r = None) → cleans → listens → own_address keeps os_getifaddrs ip →
  ip2id (make_configuration pt) !! ip = Some id → 0 ≤ id < 2 ^ 16 →
  returns keeps (os_open device) (λ _, True) → (∀ fd, returns keeps (os_mmap n fd) (λ r, r = None)) →
  FILE_BLOCK_SIZE ≤ n < 2 ^ 64 → rpc_fate (rpcs w) = Delivered →
  ∃ ss w' sm, make_storage_server pt device n d w = Done (ss, w') ∧ mr (sk (rdmaSocket ss)) = Null ∧
    space_manager_ (service w') !! id = Some sm ∧ SpaceManager.total_blocks_ sm = (n - 1) / FILE_BLOCK_SIZE.
Proof.
  intros Hw Hc Hl Haddr Hid Hidr Hopen Hmap Hn Hd.
  destruct (Hopen d) as (fd & d0 & Eo & _ & _). destruct (Hmap fd d0) as (mp & d1 & Em & -> & _).
  assert (Hp : make_pool device n d = Done (MkPool fd n MAP_FAILED, d1)).
  { unfold make_pool. rewrite (outcome_bind_done _ _ _ _ _ Eo). by rewrite (outcome_bind_done _ _ _ _ _ Em). }
  destruct (make_socket_unregistered MAP_FAILED n (make_configuration pt) d1 ip id Hw Hc Haddr Hid) as (e & Ee & Hmr & Hme).
  assert (Hlw : wp RdmaListen (λ _ e', ∃ d', e' = set_dev d' e) e) by (apply wp_RdmaListen; eauto).
  apply wp_done in Hlw as (sock & e2 & El & d2 & ->).
  set (sm := SpaceManager.make MAP_FAILED (u64 (MAP_FAILED + n - 1)) FILE_BLOCK_SIZE id).
  assert (Hreg : ∃ r w', MetadataClient.RegisterMemoryRegion id MAP_FAILED n w = Done (r, w') ∧
    space_manager_ (service w') !! id = Some sm).
  { unfold MetadataClient.RegisterMemoryRegion, stub, mbind, M_bind. rewrite Hd. simpl. eexists _, _.
    split; [reflexivity|]. simpl. rewrite s32_small by lia. apply lookup_insert_eq. }
  destruct Hreg as (r & w' & Er & Hsm). exists (Storage (set_dev d2 e) (MkPool fd n MAP_FAILED) sock), w', sm. split.
  { eapply make_storage_server_done; [exact Hp|exact Ee|exact El|exact Hme|exact Er]. }
  split_and!; [done|done|]. unfold sm, SpaceManager.make. cbn [SpaceManager.total_blocks_].
  replace (SpaceManager.aligned_start FILE_BLOCK_SIZE MAP_FAILED) with 0 by reflexivity.
  pose proof FILE_BLOCK_SIZE_eq as HB. f_equal. unfold MAP_FAILED.
  assert (Hu : u64 (2 ^ 64 - 1 + n - 1) = n - 2).
  { unfold u64. replace (2 ^ 64 - 1 + n - 1) with (n - 2 + 1 * 2 ^ 64) by lia. rewrite Z_mod_plus_full. apply Z.mod_small. lia. }
  rewrite Hu, u64_small; lia.
Qed.
End storage.

(** ** The client *)

Section client.
Context {Dev : Type} `{FabricLaws Dev} `{Junk} `{Sched, StringHash, RandLaws} `{chan : Channel}.
Implicit Types (d : Dev).

(** The network as a new client of the configuration [c] finds it: each server answers at the configured
    port with its number and its memory and brings its queue pairs up towards those of the client, and
    only the first one numbers the client. *)
Record open_network (c : Configuration) d (ids : Z → ExchangeID) (ms : Z → ExchangeMeta) : Prop := {
  on_first : is_Some (id2ip c !! 1);
  on_answers n ip : id2ip c !! n = Some ip → 0 ≤ n < 1000 ∧
    serves d ip (rdmaTcpPort c) = Some (to_bytes (ids n) ++ to_bytes (ms n)) ∧ id_fits (ids n) ∧ meta_fits (ms n) ∧
    ∀ t num, t ∈ meta_qpNum (ms n) → partner d (meta_lid (ms n)) t num = Some n;
  on_given n : id_GivenID (ids n) = 0 ↔ n ≠ 1;
  on_quiet : quiet d;
}.

(** C5: A client process that starts in an open network comes up with the number node 1 gave it, and is
    ready: every storage server the metadata server knows is linked for the transfers of the client's
    thread, with a region that holds its blocks.  This is what the theorems on the client's reads and
    writes start from. *)
Theorem started_client_ready fuel pt buffer d (w : grpc) ids ms :
  let c := make_configuration pt in
  works undisturbed usable → 0 ≤ junk < 2 ^ 16 → 0 ≤ buffer < 2 ^ 64 → numbered c → (1 ≤ fuel)%nat →
  open_network c d ids ms → service_inv (service w) →
  (∀ k t, a_total (abs (service w)) !! k = Some t →
     is_Some (id2ip c !! k) ∧ t * FILE_BLOCK_SIZE + meta_RegisteredMemory (ms k) ≤ 2 ^ 64 ∧
     covers (remote_mr d k (meta_rkey (ms k))) (meta_RegisteredMemory (ms k)) (t * FILE_BLOCK_SIZE)) →
  ∃ w', make_client fuel pt buffer d w = Done w' ∧ net w' = w ∧ MyNodeID (sock w') = id_GivenID (ids 1) ∧
    mm (sock w') = buffer ∧ ready w'.
Proof.
  intros c Hw Hj Hb Hnum Hf [Hone Hans Hgiven Hq] Hs Htot.
  destruct (make_socket_started undisturbed usable 1 buffer bufferSize c false d "" 0)
    as (e & Ee & [He Hp Hcl Hc Hmm Hmax Ht (r & Hmr & k0 & -> & _ & Hreg) Hport [Hqps Hnet]] & _); [done|by intros; eapply usable_registered|done..|].
  pose proof (sn_world _ _ Hnet) as Hworld.
  assert (Hrun : wp (RdmaConnect fuel) (λ _ e', progress e e' ∧ MyNodeID (sk e') = id_GivenID (ids 1) ∧
    ∀ n, is_Some (id2ip c !! n) → ∃ p, up e' n (ms n) p) e).
  { eapply (wp_RdmaConnect e ids ms); rewrite ?Hc; try done. intros n [ip Hip].
    destruct (Hans n ip Hip) as (Hn & Hsv & Hid & Hm & _). split; try done. exists ip. rewrite Hc.
    by rewrite Hport, (sw_serves _ _ Hworld). }
  apply wp_done in Hrun as ([] & e' & E & Hpg & Hme & Hup). exists (World w (sk e')). split.
  { unfold make_client. fold c. by rewrite Ee, E. }
  pose proof (pg_world _ _ Hpg) as Hworld'.
  split; [done|]. split; [done|]. split; [by simpl; rewrite (pg_mm _ _ Hpg)|]. split; [done| | |].
  - simpl. by rewrite (pg_test _ _ Hpg), Ht.
  - exists k0. simpl. split; [by rewrite (pg_mr _ _ Hpg)|]. rewrite (pg_mm _ _ Hpg), Hmm.
    rewrite (sw_local _ _ Hworld' _ _ Hreg). apply andb_True. unfold bufferSize, SendPoolSize.
    rewrite !Is_true_true, !Z.leb_le. lia.
  - intros k t Hk. destruct (Htot k t Hk) as ([ip Hip] & Hfit & Hcov). destruct (Hans k ip Hip) as (Hn & _ & _ & Hm & Hown).
    destruct (Hup k) as [p Hpk]; [by eexists|].
    destruct (up_linked e' k (ms k) p 0 Hpk Hn ltac:(lia) (proj1 (mf_nums _ Hm))) as [q Hlk].
    + intros x num Hx. rewrite (sw_partner _ _ Hworld'), (sw_partner _ _ Hworld). by apply Hown.
    + by apply (sw_quiet _ _ Hworld'), (sw_quiet _ _ Hworld).
    + exists p, q. rewrite (up_memory _ _ _ _ Hpk). pose proof (mf_mem _ Hm). split_and!; [done|lia|done|].
      simpl. by rewrite (sw_remote _ _ Hworld'), (sw_remote _ _ Hworld), (up_rkey _ _ _ _ Hpk).
Qed.
End client.

(** ** The theorems at examples *)

Module Hosts.
#[export] Existing Instances Net.net_verbs Net.net_laws Net.net_os Net.net_fabric Net.net_fabric_laws.
#[export] Existing Instances ClientDemo.reliable ClientDemo.any_sched.
#[export] Existing Instances Demo.demo_hash Demo.demo_rand Demo.demo_rand_laws.
#[export] Instance junk_byte : Junk := 165.

(** The third server. *)
Definition third : ptree := Tree [(3, "10.0.0.1"%string)] "10.0.0.9:50055" 1 5678.
Definition two : ptree := Tree [(1, "10.0.0.1"); (2, "10.0.0.2")]%string "10.0.0.1" 1 5678.
Definition meta0 : grpc := Grpc Demo.demo 0.

(** A device at 1 GB, and one that cannot be mapped or registered. *)
Definition mapped : Mmap Net.device := {|
  os_open _ := mret 3; os_mmap _ _ := mret (Some 1073741824); os_munmap _ _ := mret 0; os_close _ := mret 0 |}.
Definition unmapped : Mmap Net.device := {|
  os_open _ := mret (-1); os_mmap _ _ := mret None; os_munmap _ _ := mret (-1); os_close _ := mret (-1) |}.
Definition unregistered : VerbsCtl Net.device :=
  let c := Net.net_ctl in {|
  ibv_get_device_list := @ibv_get_device_list _ c; ibv_free_device_list := @ibv_free_device_list _ c;
  ibv_open_device := @ibv_open_device _ c; ibv_close_device := @ibv_close_device _ c;
  ibv_query_port := @ibv_query_port _ c; ibv_create_cq := @ibv_create_cq _ c; ibv_destroy_cq := @ibv_destroy_cq _ c;
  ibv_alloc_pd := @ibv_alloc_pd _ c; ibv_dealloc_pd := @ibv_dealloc_pd _ c;
  ibv_reg_mr _ _ _ _ := mret None; ibv_dereg_mr := @ibv_dereg_mr _ c;
  ibv_create_qp := @ibv_create_qp _ c; ibv_destroy_qp := @ibv_destroy_qp _ c; ibv_modify_qp := @ibv_modify_qp _ c;
  ibv_query_qp := @ibv_query_qp _ c; ibv_query_gid := @ibv_query_gid _ c; qp_num := @qp_num _ c |}.

Lemma numbered_two : numbered (make_configuration two).
Proof. unfold numbered. change (Config.ServerCount (make_configuration two)) with 2. lia. Qed.

Lemma numbered_third : numbered (make_configuration third).
Proof. unfold numbered. change (Config.ServerCount (make_configuration third)) with 1. lia. Qed.

(** A call of the example that returns a constant. *)
Ltac constant_call := intros d; eexists _, _; split; [reflexivity|split; [try done; try (by eexists)|try done]].

Lemma host_listens : listens (Dev := Net.device) undisturbed.
Proof. split; intros; constant_call. Qed.

Lemma unregistered_works : works (H0 := unregistered) undisturbed (λ _ _ r _, r = None).
Proof.
  split; try (intros; constant_call); [by do 2 eexists|].
  intros p a n l d. eexists _, _. by split; [reflexivity|].
Qed.

Lemma host_cleans : cleans (H0 := unregistered) undisturbed.
Proof. split; intros; constant_call. Qed.

Lemma third_idle : used_on (abs (service meta0)) 3 = ∅.
Proof. cbn [service meta0]. rewrite Demo.demo_abs. vm_compute. reflexivity. Qed.

Lemma open_two : open_network (make_configuration two) Example.internet Example.ids Example.meta_of.
Proof.
  split; [by eexists| |apply Example.ids_given|done]. intros n ip Hip. change (make_configuration two) with Example.config in Hip.
  destruct (Example.servers_answer n (mk_is_Some _ _ Hip)) as [[Hn (ip' & Hip' & Hs) Hid Hm] Hown].
  change (conf Example.client) with Example.config in Hip'. rewrite Hip in Hip'. injection Hip' as <-. exact (conj Hn (conj Hs (conj Hid (conj Hm Hown)))).
Qed.
End Hosts.
Import Hosts.

Lemma storage_server_registers_witness : ∃ ss w',
  make_storage_server (H0 := Net.net_ctl) (H2 := mapped) third "/dev/dax0.0" 10485760 Example.internet meta0 = Done (ss, w') ∧
  mm (sk (rdmaSocket ss)) = 1073741824 ∧ service_inv (service w').
Proof.
  destruct (storage_server_registers (H0 := Net.net_ctl) (H2 := mapped) undisturbed usable third "/dev/dax0.0" 10485760
    Example.internet meta0 "10.0.0.1" 3 1073741824) as (ss & w' & E & _ & _ & Hmm & Hs & _).
  - exact net_works.
  - intros ? ? ? ?. apply usable_registered.
  - exact host_listens.
  - unfold junk, junk_byte. lia.
  - exact numbered_third.
  - constant_call.
  - reflexivity.
  - lia.
  - constant_call.
  - intros fd. constant_call.
  - lia.
  - rewrite FILE_BLOCK_SIZE_eq. lia.
  - lia.
  - done.
  - exact Demo.demo_inv.
  - exact third_idle.
  - cbn [service meta0]. rewrite Demo.demo_abs. done.
  - exists ss, w'. split; [exact E|]. split; [exact Hmm|exact Hs].
Defined.

Lemma unmapped_pool_registered_witness : ∃ ss w' sm,
  make_storage_server (H0 := unregistered) (H2 := unmapped) third "/dev/dax0.0" 10485760 Example.internet meta0 = Done (ss, w') ∧
  mr (sk (rdmaSocket ss)) = Null ∧ space_manager_ (service w') !! 3 = Some sm ∧ SpaceManager.total_blocks_ sm = 9.
Proof.
  destruct (unmapped_pool_registered (H0 := unregistered) (H2 := unmapped) undisturbed third "/dev/dax0.0" 10485760
    Example.internet meta0 "10.0.0.1" 3) as (ss & w' & sm & E & Hmr & Hsm & Ht).
  - exact unregistered_works.
  - exact host_cleans.
  - exact host_listens.
  - constant_call.
  - reflexivity.
  - lia.
  - constant_call.
  - intros fd. constant_call.
  - rewrite FILE_BLOCK_SIZE_eq. lia.
  - done.
  - exists ss, w', sm. split; [exact E|]. split; [exact Hmr|]. split; [exact Hsm|]. rewrite Ht. reflexivity.
Defined.

Lemma started_client_ready_witness : ∃ w',
  make_client (H0 := Net.net_ctl) 1 two 4096 Example.internet meta0 = Done w' ∧ MyNodeID (sock w') = 3 ∧ ready w'.
Proof.
  destruct (started_client_ready (H1 := Net.net_ctl) 1 two 4096 Example.internet meta0 Example.ids Example.meta_of)
    as (w' & E & _ & Hme & _ & Hr).
  - exact net_works.
  - unfold junk, junk_byte. lia.
  - lia.
  - exact numbered_two.
  - lia.
  - exact open_two.
  - exact Demo.demo_inv.
  - cbn [service meta0]. rewrite Demo.demo_abs. intros k t. cbn [a_total]. rewrite lookup_insert_Some, lookup_singleton_Some.
    intros [[<- <-]|[_ [<- <-]]]; (split; [by eexists|split; done]).
  - exists w'. split; [exact E|]. split; [exact Hme|exact Hr].
Defined.
