(* ===== verification/Fuse.v ===== *)
(** * The FUSE front end: src/fuse/spfuse.cpp.

    One definition per operation of [fuse_oper] that does something.  A path arrives as a C string;
    [struct fuse_file_info] is the handle [fh] it carries.  [errno] is set by libraries below the
    program and never by the program itself: its value when a failed call is reported is a parameter. *)
From S2P Require Import Prelude FsInode MetaProto MetaServer MetaClient Rdma RdmaLaws Client.
Local Open Scope Z_scope.

(** The value of [errno] after the [n]-th call of the metadata server. *)
Class Errno := errno : nat → Z.

Definition s64 (z : Z) : Z := (z + 2 ^ 63) `mod` 2 ^ 64 - 2 ^ 63.

(** The fields of [struct stat] that the program sets; the others are zero. *)
Record stat := Stat {
  st_mode : Z; st_size : Z; st_nlink : Z; st_uid : Z; st_gid : Z; st_rdev : Z;
  st_atime : Z; st_mtime : Z; st_ctime : Z;
}.
Definition zero_stat : stat := Stat 0 0 0 0 0 0 0 0 0.
Definition S_IFDIR : Z := 16384.
Definition S_IFREG : Z := 32768.
Definition mode_755 : Z := 493.

Section fuse.
Context {Dev : Type} `{Verbs Dev} `{Sched, StringHash, Rand} `{chan : Channel} `{Errno}.
Abbreviation Fs := (M (world Dev)).

(** [path + 1] skips the first character, which an empty string does not have. *)
Definition new_path (path : string) : Fs string :=
  match path with
  | EmptyString => fail OutOfRange
  | String _ rest => mret rest
  end.

Definition minus_errno : Fs Z := gets (λ w, - errno (rpcs (net w))).

(** The result and [fi->fh]. *)
Definition fuse_open (path : string) (fh : Z) : Fs (Z * Z) :=
  new_path ← new_path path;
  res ← zoom channel (MetadataClient.OpenFile new_path);
  if res =? -1 then e ← minus_errno; mret (e, fh)
  else mret (0, u64 res).

Definition fuse_create (path : string) (mode fh : Z) : Fs (Z * Z) :=
  new_path ← new_path path;
  res ← zoom channel (MetadataClient.OpenFile new_path);
  if res =? -1 then e ← minus_errno; mret (e, fh)
  else mret (0, u64 res).

Definition fuse_getattr (path : string) : Fs (Z * stat) :=
  let '(mode, size) :=
    if decide (path = "/"%string) then (Z.lor S_IFDIR mode_755, 0) else (Z.lor S_IFREG mode_755, 123) in
  mret (0, Stat mode size 1 0 0 0 0 0 0).

Definition fuse_release (path : string) (fh : Z) : Fs Z :=
  success ← zoom channel (MetadataClient.CloseFile (s64 fh));
  if negb success then minus_errno else mret 0.

(** [filler] is the callback of libfuse: it adds a name to [buf] and says whether [buf] is full. *)
Fixpoint fill_all {B} (filler : B → string → stat → bool * B) (buf : B) (l : list dentry) : B :=
  match l with
  | [] => buf
  | d :: l' =>
      let st := Stat (if d_is_dir d then S_IFDIR else S_IFREG) 0 0 0 0 0 0 0 0 in
      let '(full, buf') := filler buf (d_name d) st in
      if full then buf' else fill_all filler buf' l'
  end.

Definition fuse_readdir {B} (path : string) (buf : B) (filler : B → string → stat → bool * B) : Fs (Z * B) :=
  new_path ← new_path path;
  r ← zoom channel (MetadataClient.ReadDirectory new_path []);
  mret (0, fill_all filler buf r.2).

(** [off_t offset] becomes a [uint64_t]. *)
Definition fuse_read (pf : nat) (path : string) (buf size offset : Z) : Fs Z :=
  new_path ← new_path path;
  Client.read pf new_path buf (u64 offset) size.

Definition fuse_write (pf : nat) (path : string) (buf size offset : Z) : Fs Z :=
  new_path ← new_path path;
  Client.write pf new_path buf (u64 offset) size.

Definition fuse_unlink (path : string) : Fs Z :=
  new_path ← new_path path;
  res ← zoom channel (MetadataClient.RemoveFile new_path);
  if negb res then minus_errno else mret 0.

Definition fuse_rmdir (path : string) : Fs Z :=
  new_path ← new_path path;
  res ← zoom channel (MetadataClient.RemoveFile new_path);
  if negb res then minus_errno else mret 0.

(** The [int] that CreateDiretory returns is taken as a [bool]: 0 is failure. *)
Definition fuse_mkdir (path : string) (mode : Z) : Fs Z :=
  new_path ← new_path path;
  n ← zoom channel (MetadataClient.CreateDiretory new_path);
  let res := negb (n =? 0) in
  if negb res then minus_errno else mret 0.

(** The operations that answer 0 without doing anything. *)
Definition fuse_mknod (path : string) (mode rdev : Z) : Fs Z := mret 0.
Definition fuse_chmod (path : string) (mode : Z) : Fs Z := mret 0.
Definition fuse_access (path : string) (mask : Z) : Fs Z := mret 0.
Definition fuse_flush (path : string) (fh : Z) : Fs Z := mret 0.
Definition fuse_setxattr (path name value : string) (size flags : Z) : Fs Z := mret 0.
Definition fuse_utimens (path : string) (tv : Z * Z) : Fs Z := mret 0.
Definition fuse_truncate (path : string) (length : Z) : Fs Z := mret 0.
Definition fuse_fallocate (path : string) (mode offset len : Z) : Fs Z := mret 0.

(** [f_bsize] is set, the rest of the buffer is not touched. *)
Definition fuse_statfs (path : string) (f_bsize : Z) : Fs (Z * Z) := mret (0, 12345).

(** The buffer is left as it came. *)
Definition fuse_fgetattr (path : string) (stat_buf : stat) (fh : Z) : Fs (Z * stat) := mret (0, stat_buf).

End fuse.
