(* ===== verification/FuseTheorems.v ===== *)
(** * Theorems on the FUSE front end: open and release, listing, and what its error paths report. *)
From S2P Require Import Prelude FsInode IdPool FsTable FsFiles FsSpace MetaProto MetaServer MetaPlan.
From S2P Require Import MetaInv MetaSteps MetaHandlers MetaRpc MetaSpec MetaRefine MetaFacts.
From S2P Require Import Rdma RdmaLaws RdmaTheorems MetaClient Client ClientLaws ClientTheorems Fuse.
Local Open Scope Z_scope.

Section fuse.
Context {Dev : Type} `{Verbs Dev} `{Sched, StringHash, RandLaws} `{chan : Channel} `{Errno}.
Implicit Types (w : world Dev).

Abbreviation state w := (abs (service (net w))).

(** The world after a call of the metadata server. *)
Definition after_call w (s' : MetadataServiceImpl) : world Dev := World (Grpc s' (S (rpcs (net w)))) (sock w).

Lemma stub_run {R} (empty : R) (h : Srv (Status * R)) w r s' :
  rpc_fate (rpcs (net w)) = Delivered → h (service (net w)) = Done (OK, r, s') →
  stub empty h (net w) = Done (true, r, Grpc s' (S (rpcs (net w)))).
Proof. intros Hd Hh. unfold stub. by rewrite Hd, Hh. Qed.

Lemma s64_u64 fd : - 2 ^ 63 ≤ fd < 2 ^ 63 → s64 (u64 fd) = fd.
Proof.
  intros Hf. unfold s64, u64. rewrite Zplus_mod_idemp_l, Z.mod_small; lia.
Qed.

(** C26: A file that is opened and released again leaves the descriptors as they were: fuse_open stores
    the descriptor of the server in fi->fh, fuse_release gives that very descriptor back, both report
    success, and a file of the name exists afterwards. *)
Theorem fuse_open_release w c name fh :
  service_inv (service (net w)) → admissible (state w) (COpen {| open_name := name; open_is_dir := false |}) →
  (∃ fd, FIRST_FD ≤ fd ≤ LAST_FD ∧ fd ∉ a_fds (state w)) → (∀ n, rpc_fate n = Delivered) →
  ∃ fd w1 w2, fuse_open (String c name) fh w = Done ((0, fd), w1) ∧ fd ∈ a_fds (state w1) ∧
    fuse_release (String c name) fd w1 = Done (0, w2) ∧ service_inv (service (net w2)) ∧
    a_fds (state w2) = a_fds (state w) ∧ is_Some (a_files (state w2) !! std_hash name).
Proof.
  intros Hs Hadm Hroom Hd. set (rq := {| open_name := name; open_is_dir := false |}) in *.
  pose proof (serve_open _ rq Hs Hadm) as Hw.
  apply wp_done in Hw as ([st r] & s1 & E1 & Hs1 & [Hst (fds' & Hfd & Hfiles)]). simpl in Hst. subst st. cbn [fst snd] in Hfd, Hfiles.
  destruct Hfd as [(_ & Hall & _)|(Hr & Hni & _ & ->)].
  { destruct Hroom as (fd & Hfd & Hnfd). by destruct Hnfd; apply Hall. }
  unfold FIRST_FD, LAST_FD in Hr.
  assert (Hfds1 : a_fds (abs s1) = {[open_fd r]} ∪ a_fds (state w)).
  { destruct (a_files _ !! _); [by rewrite Hfiles|]. by destruct Hfiles as (n & _ & ->). }
  assert (Hin1 : is_Some (a_files (abs s1) !! std_hash name)).
  { change (open_name rq) with name in Hfiles. destruct (a_files (state w) !! std_hash name) eqn:Ef.
    - rewrite Hfiles. by exists a.
    - destruct Hfiles as (n & _ & ->). cbn [a_files]. rewrite lookup_insert_eq. done. }
  set (cq := {| close_fd := open_fd r; close_is_dir := false |}).
  pose proof (serve_close s1 cq Hs1) as Hw. apply wp_done in Hw as ([st r2] & s2 & E2 & Hs2 & [Hst2 [Hok Hab]]).
  simpl in Hst2. subst st. change (close_fd cq) with (open_fd r) in Hok, Hab.
  cbn [fst snd] in Hok, Hab. rewrite u64_small in Hok, Hab by lia.
  exists (open_fd r), (after_call w s1), (after_call (after_call w s1) s2).
  split_and!.
  - unfold fuse_open, MetadataClient.OpenFile, new_path, zoom, mbind, M_bind. simpl.
    rewrite (stub_run _ _ _ _ _ (Hd _) E1). simpl. rewrite s32_small by lia.
    rewrite (proj2 (Z.eqb_neq _ _)) by lia. rewrite u64_small by lia. done.
  - cbn [after_call net service]. rewrite Hfds1. set_solver.
  - unfold fuse_release, MetadataClient.CloseFile, zoom, mbind, M_bind. cbn [view channel].
    replace (s64 (open_fd r)) with (open_fd r) by (rewrite <- (s64_u64 (open_fd r)) at 1 by lia; by rewrite u64_small by lia).
    rewrite (stub_run _ _ (after_call w s1) _ _ (Hd _) E2). simpl. rewrite Hok, bool_decide_eq_true_2; [done|].
    change (FileMap.fd_used_set_ (file_map_ s1)) with (a_fds (abs s1)). rewrite Hfds1. set_solver.
  - done.
  - cbn [after_call net service]. rewrite Hab. cbn [a_fds]. rewrite Hfds1. set_solver.
  - cbn [after_call net service]. rewrite Hab. cbn [a_files]. done.
Qed.

(** A buffer that takes every name. *)
Definition collect (buf : list string) (name : string) (st : stat) : bool * list string := (false, buf ++ [name]).

Lemma fill_all_collect buf l : fill_all collect buf l = buf ++ (d_name <$> l).
Proof.
  revert buf. induction l as [|d l IH]; intros buf; simpl; [by rewrite app_nil_r|].
  rewrite IH, <- app_assoc. done.
Qed.

(** C27: Listing a directory into a buffer with room enough reports ".", ".." and the name of every file
    of the file system once, whatever the path; nothing changes. *)
Theorem fuse_readdir_lists w c path :
  service_inv (service (net w)) → rpc_fate (rpcs (net w)) = Delivered →
  ∃ names w', fuse_readdir (String c path) [] collect w = Done ((0, "."%string :: ".."%string :: names), w') ∧
    names ≡ₚ af_name <$> (map_to_list (a_files (state w))).*2 ∧ state w' = state w.
Proof.
  intros Hs Hd. set (rq := {| MetaProto.path := path |}).
  pose proof (serve_readdir _ rq Hs) as Hw.
  apply wp_done in Hw as ([st r] & s1 & E1 & Hs1 & [Hst [Hab (infos & Hi & Hperm)]]). simpl in Hst. subst st.
  cbn [fst snd] in Hi, Hab.
  exists (dentry_name <$> infos), (after_call w s1). split_and!.
  - unfold fuse_readdir, MetadataClient.ReadDirectory, new_path, zoom, mbind, M_bind. cbn [mret M_ret view channel].
    rewrite (stub_run _ _ _ _ _ Hd E1). cbn [fst snd mret M_ret]. rewrite fill_all_collect, Hi.
    cbn. rewrite <- list_fmap_compose. unfold mret, M_ret. do 4 f_equal.
  - rewrite Hperm, <- list_fmap_compose. by apply reflexive_eq, list_fmap_ext.
  - done.
Qed.

(** Fuse_mkdir reports failure when it succeeds: the directory is made, and the result is -errno
    for an errno that no failing call has set, because the 0 of CreateDiretory is read as false. *)
Theorem fuse_mkdir_reports w c name mode :
  service_inv (service (net w)) →
  admissible (state w) (CCreate {| create_name := name; create_is_dir := true |}) →
  rpc_fate (rpcs (net w)) = Delivered → a_files (state w) !! std_hash name = None →
  ∃ f w', fuse_mkdir (String c name) mode w = Done (- errno (S (rpcs (net w))), w') ∧
    a_files (state w') !! std_hash name = Some f ∧ af_dir f = true.
Proof.
  intros Hs Hadm Hd Hnone. pose proof (serve_create _ _ Hs Hadm) as Hw.
  apply wp_done in Hw as ([st r] & s1 & E1 & Hs1 & [Hst Hp]). simpl in Hst. subst st.
  cbn [fst snd] in Hp. unfold promises_create in Hp. cbn [create_name create_is_dir] in Hp. rewrite Hnone in Hp.
  destruct Hp as [_ Hset]. eexists _, (after_call w s1). split_and!.
  - unfold fuse_mkdir, MetadataClient.CreateDiretory, new_path, minus_errno, gets, zoom, mbind, M_bind. cbn [mret M_ret view channel].
    rewrite (stub_run _ _ _ _ _ Hd E1). done.
  - cbn [after_call net service]. rewrite Hset. apply lookup_insert_eq.
  - done.
Qed.

(** The descriptors in use are between 4 and 103. *)
Lemma fds_range (s : MetadataServiceImpl) fd : service_inv s → fd ∈ a_fds (abs s) → FIRST_FD ≤ fd ≤ LAST_FD.
Proof.
  intros Hs Hfd. pose proof (FileMap.ok_numbers _ (so_fds _ (si_ok _ Hs))) as Hn. rewrite (si_fds _ Hs) in Hn.
  assert (Hin : fd ∈ seqZ 4 100) by (rewrite <- Hn; apply elem_of_app; right; by apply elem_of_elements).
  apply elem_of_seqZ in Hin. unfold FIRST_FD, LAST_FD. lia.
Qed.

(** Fuse_open reports success when the call never reached the server: the default 0 of the reply is
    taken for a descriptor.  No file has descriptor 0, so the release of that handle fails. *)
Theorem fuse_open_lost w c name fh :
  service_inv (service (net w)) → rpc_fate (rpcs (net w)) = RequestLost →
  rpc_fate (S (rpcs (net w))) = Delivered →
  ∃ w1 w2, fuse_open (String c name) fh w = Done ((0, 0), w1) ∧
    fuse_release (String c name) 0 w1 = Done (- errno (S (S (rpcs (net w)))), w2) ∧ state w2 = state w.
Proof.
  intros Hs Hd1 Hd2. set (cq := {| close_fd := 0; close_is_dir := false |}).
  pose proof (serve_close _ cq Hs) as Hw. apply wp_done in Hw as ([st r2] & s2 & E2 & Hs2 & [Hst2 [Hok Hab]]).
  simpl in Hst2. subst st. change (u64 (close_fd cq)) with 0 in Hok, Hab. cbn [fst snd] in Hok.
  assert (Hn0 : 0 ∉ a_fds (state w)).
  { intros Hin. apply (fds_range _ _ Hs) in Hin. unfold FIRST_FD in Hin. lia. }
  set (w1 := after_call w (service (net w))). exists w1, (after_call w1 s2). split_and!.
  - unfold fuse_open, MetadataClient.OpenFile, new_path, stub, zoom, mbind, M_bind. simpl. by rewrite Hd1.
  - unfold fuse_release, MetadataClient.CloseFile, minus_errno, gets, zoom, mbind, M_bind. cbn [view channel].
    change (s64 0) with 0. rewrite (stub_run _ _ w1 _ _ Hd2 E2). cbn [fst snd mret M_ret].
    rewrite Hok, bool_decide_eq_false_2 by done. done.
  - cbn [after_call net service]. rewrite Hab. destruct (state w). cbn in *. f_equal. set_solver.
Qed.
End fuse.

Import ClientDemo.
Definition slash : Ascii.ascii := Ascii.ascii_of_nat 47.
#[local] Instance demo_errno : Errno := λ _, 2.

Lemma fuse_open_release_witness :
  ∃ fd w1 w2, fuse_open "/bb" 0 world0 = Done ((0, fd), w1) ∧ fuse_release "/bb" fd w1 = Done (0, w2) ∧
    a_fds (abs (service (net w2))) = {[4]}.
Proof.
  destruct (fuse_open_release world0 slash "bb" 0) as (fd & w1 & w2 & E1 & _ & E2 & _ & Hf & _).
  - exact Demo.demo_inv.
  - cbn [net service world0]. rewrite Demo.demo_abs. left. eexists. reflexivity.
  - cbn [net service world0]. rewrite Demo.demo_abs. exists 5. split; [unfold FIRST_FD, LAST_FD; lia|]. cbn. set_solver.
  - done.
  - exists fd, w1, w2. split; [exact E1|]. split; [exact E2|]. rewrite Hf. cbn [net service world0].
    rewrite Demo.demo_abs. reflexivity.
Defined.

Lemma fuse_readdir_lists_witness :
  ∃ names w', fuse_readdir "/" [] collect world0 = Done ((0, "."%string :: ".."%string :: names), w') ∧
    length names = 2%nat.
Proof.
  destruct (fuse_readdir_lists world0 slash "") as (names & w' & E & Hp & _).
  - exact Demo.demo_inv.
  - done.
  - exists names, w'. split; [exact E|]. rewrite Hp. cbn [net service world0]. rewrite Demo.demo_abs. vm_compute. reflexivity.
Defined.

Lemma fuse_mkdir_reports_witness :
  ∃ f w', fuse_mkdir "/ccc" 0 world0 = Done (-2, w') ∧
    a_files (abs (service (net w'))) !! std_hash "ccc" = Some f ∧ af_dir f = true.
Proof.
  destruct (fuse_mkdir_reports world0 slash "ccc" 0) as (f & w' & E & Hf & Hdir).
  - exact Demo.demo_inv.
  - cbn [net service world0]. rewrite Demo.demo_abs. right. vm_compute. reflexivity.
  - done.
  - cbn [net service world0]. rewrite Demo.demo_abs. reflexivity.
  - exists f, w'. split; [exact E|]. split; [exact Hf|exact Hdir].
Defined.

Lemma fuse_open_lost_witness :
  let lossy : Channel := λ n, match n with O => RequestLost | _ => Delivered end in
  ∃ w1 w2, fuse_open (chan := lossy) "/a" 7 world0 = Done ((0, 0), w1) ∧
    fuse_release (chan := lossy) "/a" 0 w1 = Done (-2, w2).
Proof.
  intros lossy. destruct (fuse_open_lost (chan := lossy) world0 slash "a" 7) as (w1 & w2 & E1 & E2 & _).
  - exact Demo.demo_inv.
  - done.
  - done.
  - exists w1, w2. split; [exact E1|exact E2].
Defined.
