(* ===== verification/Debug.v ===== *)
(** * Diagnostics: src/tools/debug.cpp and include/debug.hpp.

    What [vprintf] makes of a format and its arguments is an argument of the definitions; what has been
    printed and the start of the timer are the state. *)
From S2P Require Import Prelude.
Local Open Scope Z_scope.

Definition MAX_FORMAT_LEN : Z := 255.
Definition DEBUG : bool := false.
Definition TITLE : bool := false.
Definition TIMER : bool := false.
Definition CUR : bool := false.

Record Debug := Dbg { printed : list string; startTime : Z }.

Definition print (s : string) : M Debug unit := modify (λ d, Dbg (printed d ++ [s]) (startTime d)).

(** The escape sequences, for [s] between [codes] and the reset. *)
Definition ESC : string := String (Ascii.ascii_of_nat 27) "".
Definition newline : string := String (Ascii.ascii_of_nat 10) "".
Definition wrap (codes s : string) : string := (ESC +:+ "[" +:+ codes +:+ "m" +:+ s +:+ ESC +:+ "[0m" +:+ newline)%string.

(** [sprintf] into [char newFormat[MAX_FORMAT_LEN]], with its terminating null. *)
Definition newFormat (s : string) : M Debug string :=
  if Z.of_nat (String.length s) + 1 <=? MAX_FORMAT_LEN then mret s else fail OutOfRange.

Definition debugTitle (str : string) : M Debug unit := if TITLE then print (wrap "0;45;1" str) else mret ().

Definition debugItem (vprintf : string → string) (format : string) : M Debug unit :=
  if DEBUG then f ← newFormat (wrap "0;42;1" format); print (vprintf f) else mret ().

Definition debugCur (vprintf : string → string) (format : string) : M Debug unit :=
  if CUR then f ← newFormat (format +:+ newline); print (vprintf f) else mret ().

Definition notifyInfo (vprintf : string → string) (format : string) : M Debug unit :=
  f ← newFormat (wrap "4" format);
  print (vprintf f).

Definition notifyError (vprintf : string → string) (format : string) : M Debug unit :=
  f ← newFormat (wrap "0;31" format);
  print (vprintf f).

(** [usec] is what gettimeofday answers, in microseconds; [report] prints a count of them. *)
Definition startTimer (usec : Z) (timerName : string) : M Debug unit :=
  if TIMER then modify (λ d, Dbg (printed d) usec) else mret ().

Definition endTimer (usec : Z) (report : Z → string) : M Debug unit :=
  if TIMER then d ← get; print (report (usec - startTime d)) else mret ().

(** ** Lemmas *)

Lemma length_string_app s t : String.length (s +:+ t) = (String.length s + String.length t)%nat.
Proof. induction s as [|c s IH]; [done|]. change (String c s +:+ t) with (String c (s +:+ t)). simpl. by rewrite IH. Qed.

Lemma length_wrap codes s : String.length (wrap codes s) = (String.length codes + String.length s + 8)%nat.
Proof. unfold wrap. rewrite !length_string_app. simpl. lia. Qed.

Lemma notify_with codes vprintf format d :
  (f ← newFormat (wrap codes format); print (vprintf f)) d =
  if Z.of_nat (String.length codes + String.length format) <=? 246
  then Done (tt, Dbg (printed d ++ [vprintf (wrap codes format)]) (startTime d)) else Fault OutOfRange.
Proof.
  unfold newFormat. rewrite length_wrap. unfold MAX_FORMAT_LEN.
  destruct (Z.leb_spec (Z.of_nat (String.length codes + String.length format)) 246);
    [rewrite (proj2 (Z.leb_le _ _)) by lia|rewrite (proj2 (Z.leb_gt _ _)) by lia]; done.
Qed.

(** How long a message may be: a format of up to 245 characters is printed by notifyInfo and one of up
    to 242 by notifyError; a longer one overruns the buffer, although the comments of debug.cpp allow
    [MAX_FORMAT_LEN - 1 = 254]. *)
Theorem notify_bounds vprintf format d :
  let n := Z.of_nat (String.length format) in
  notifyInfo vprintf format d = (if n <=? 245 then Done (tt, Dbg (printed d ++ [vprintf (wrap "4" format)]) (startTime d))
                                 else Fault OutOfRange) ∧
  notifyError vprintf format d = (if n <=? 242 then Done (tt, Dbg (printed d ++ [vprintf (wrap "0;31" format)]) (startTime d))
                                  else Fault OutOfRange).
Proof.
  cbv zeta. unfold notifyInfo, notifyError. rewrite !notify_with. cbn [String.length].
  split; [destruct (Z.leb_spec (Z.of_nat (String.length format)) 245)|destruct (Z.leb_spec (Z.of_nat (String.length format)) 242)];
    (rewrite (proj2 (Z.leb_le _ _)) by lia; done) || (rewrite (proj2 (Z.leb_gt _ _)) by lia; done).
Qed.
